(** * Preload cache of mpv: the registry of background prefetch sessions

    A shallow embedding of [player/preload.c] (the session registry, the
    worker thread [preload_thread] and the hand-off operation
    [mpv_preload_get_demuxer]) together with the properties of its
    specification.

    Modelling choices.
    - The table [preload_cache.entries] is a list of
      [MPV_PRELOAD_MAX_ENTRIES] records; a pointer to an entry is its slot
      index.
    - [char *], [struct demuxer *], [struct mp_cancel *] and
      [struct mpv_global *] are [option]s ([None] is [NULL]); the engine's
      objects are handles, allocated from a counter.
    - [int64_t] and [time_t] values are [Z] (the code only copies and compares
      them); [double] values are primitive floats.
    - The calls of the public API are executed one after the other by the
      client; the worker threads run between the calls, one atomic step at a
      time, and [mp_thread_join] runs the joined worker to its end.
    - Everything the code gets from outside (the clock, the success of
      [mp_thread_create], the answers of the demuxer layer) is an explicit
      input of the operation that consumes it.
    - Every operation returns, besides its result and the new state, the
      trace of the events it performed: locking, joining, triggering a
      cancel token, invoking the callback, releasing engine objects. *)

From Stdlib Require Import ZArith String List Bool Lia PrimFloat.
From stdpp Require Import base option list.
Import ListNotations.

Local Open Scope Z_scope.

(** ** Data model *)

Definition MPV_PRELOAD_MAX_ENTRIES : nat := 4.

Inductive mpv_preload_status : Type :=
| MPV_PRELOAD_STATUS_NONE
| MPV_PRELOAD_STATUS_LOADING
| MPV_PRELOAD_STATUS_READY
| MPV_PRELOAD_STATUS_ERROR
| MPV_PRELOAD_STATUS_CACHED.

(** The enumerators' values, as stored in the [int64_t status] of
    [mpv_preload_info]. *)
Definition status_code (s : mpv_preload_status) : Z :=
  match s with
  | MPV_PRELOAD_STATUS_NONE => 0
  | MPV_PRELOAD_STATUS_LOADING => 1
  | MPV_PRELOAD_STATUS_READY => 2
  | MPV_PRELOAD_STATUS_ERROR => 3
  | MPV_PRELOAD_STATUS_CACHED => 4
  end.

Definition status_eqb (a b : mpv_preload_status) : bool :=
  status_code a =? status_code b.

Record mpv_preload_options : Type := {
  opt_max_bytes : Z;
  opt_readahead_secs : float
}.

Record mpv_preload_info : Type := {
  info_status : Z;
  info_fw_bytes : Z;
  info_total_bytes : Z;
  info_file_size : Z;
  info_buffered_secs : float;
  info_eof_cached : bool
}.

(** [memset] of the whole [info] to zero *)
Definition zero_info : mpv_preload_info :=
  {| info_status := 0; info_fw_bytes := 0; info_total_bytes := 0;
     info_file_size := 0; info_buffered_secs := 0%float;
     info_eof_cached := false |}.

(** Handles of engine objects (demuxers, cancel tokens, global contexts). *)
Definition handle : Type := nat.

(** The control state of a worker thread: where [preload_thread] stands.
    [T_loop n] is the head of the monitor loop, before its condition is
    tested, with [target_notified = n]; [T_body n] is the start of its body,
    after the condition was found true. *)
Inductive thread_state : Type :=
| T_none                (* no thread was created in this slot *)
| T_start               (* created, before [create_minimal_global] *)
| T_global              (* before [mp_cancel_new] *)
| T_open                (* inside [demux_open_url] *)
| T_opened              (* demuxer stored, before the status becomes READY *)
| T_loop (target_notified : bool)
| T_body (target_notified : bool)
| T_exited.             (* [preload_thread] has returned *)

Record preload_entry : Type := {
  url : option string;
  global : option handle;
  demuxer : option handle;
  cancel : option handle;
  status : mpv_preload_status;
  thread : thread_state;
  thread_running : bool;
  cancel_requested : bool;
  max_bytes : Z;
  readahead_secs : float;
  create_time : Z;
  callback_info : mpv_preload_info
}.

(** An entry of the static (zero-initialised) table, and the result of
    the [memset] at the end of [cleanup_entry]. *)
Definition zero_entry : preload_entry :=
  {| url := None; global := None; demuxer := None; cancel := None;
     status := MPV_PRELOAD_STATUS_NONE; thread := T_none;
     thread_running := false; cancel_requested := false;
     max_bytes := 0; readahead_secs := 0%float; create_time := 0;
     callback_info := zero_info |}.

(** Field assignments. *)
Definition set_url (v : option string) (e : preload_entry) : preload_entry :=
  {| url := v; global := global e; demuxer := demuxer e; cancel := cancel e;
     status := status e; thread := thread e;
     thread_running := thread_running e;
     cancel_requested := cancel_requested e; max_bytes := max_bytes e;
     readahead_secs := readahead_secs e; create_time := create_time e;
     callback_info := callback_info e |}.

Definition set_global (v : option handle) (e : preload_entry) : preload_entry :=
  {| url := url e; global := v; demuxer := demuxer e; cancel := cancel e;
     status := status e; thread := thread e;
     thread_running := thread_running e;
     cancel_requested := cancel_requested e; max_bytes := max_bytes e;
     readahead_secs := readahead_secs e; create_time := create_time e;
     callback_info := callback_info e |}.

Definition set_demuxer (v : option handle) (e : preload_entry) : preload_entry :=
  {| url := url e; global := global e; demuxer := v; cancel := cancel e;
     status := status e; thread := thread e;
     thread_running := thread_running e;
     cancel_requested := cancel_requested e; max_bytes := max_bytes e;
     readahead_secs := readahead_secs e; create_time := create_time e;
     callback_info := callback_info e |}.

Definition set_cancel (v : option handle) (e : preload_entry) : preload_entry :=
  {| url := url e; global := global e; demuxer := demuxer e; cancel := v;
     status := status e; thread := thread e;
     thread_running := thread_running e;
     cancel_requested := cancel_requested e; max_bytes := max_bytes e;
     readahead_secs := readahead_secs e; create_time := create_time e;
     callback_info := callback_info e |}.

Definition set_status (v : mpv_preload_status) (e : preload_entry) : preload_entry :=
  {| url := url e; global := global e; demuxer := demuxer e; cancel := cancel e;
     status := v; thread := thread e;
     thread_running := thread_running e;
     cancel_requested := cancel_requested e; max_bytes := max_bytes e;
     readahead_secs := readahead_secs e; create_time := create_time e;
     callback_info := callback_info e |}.

Definition set_thread (v : thread_state) (e : preload_entry) : preload_entry :=
  {| url := url e; global := global e; demuxer := demuxer e; cancel := cancel e;
     status := status e; thread := v;
     thread_running := thread_running e;
     cancel_requested := cancel_requested e; max_bytes := max_bytes e;
     readahead_secs := readahead_secs e; create_time := create_time e;
     callback_info := callback_info e |}.

Definition set_thread_running (v : bool) (e : preload_entry) : preload_entry :=
  {| url := url e; global := global e; demuxer := demuxer e; cancel := cancel e;
     status := status e; thread := thread e;
     thread_running := v;
     cancel_requested := cancel_requested e; max_bytes := max_bytes e;
     readahead_secs := readahead_secs e; create_time := create_time e;
     callback_info := callback_info e |}.

Definition set_cancel_requested (v : bool) (e : preload_entry) : preload_entry :=
  {| url := url e; global := global e; demuxer := demuxer e; cancel := cancel e;
     status := status e; thread := thread e;
     thread_running := thread_running e;
     cancel_requested := v; max_bytes := max_bytes e;
     readahead_secs := readahead_secs e; create_time := create_time e;
     callback_info := callback_info e |}.

Definition set_max_bytes (v : Z) (e : preload_entry) : preload_entry :=
  {| url := url e; global := global e; demuxer := demuxer e; cancel := cancel e;
     status := status e; thread := thread e;
     thread_running := thread_running e;
     cancel_requested := cancel_requested e; max_bytes := v;
     readahead_secs := readahead_secs e; create_time := create_time e;
     callback_info := callback_info e |}.

Definition set_readahead_secs (v : float) (e : preload_entry) : preload_entry :=
  {| url := url e; global := global e; demuxer := demuxer e; cancel := cancel e;
     status := status e; thread := thread e;
     thread_running := thread_running e;
     cancel_requested := cancel_requested e; max_bytes := max_bytes e;
     readahead_secs := v; create_time := create_time e;
     callback_info := callback_info e |}.

Definition set_create_time (v : Z) (e : preload_entry) : preload_entry :=
  {| url := url e; global := global e; demuxer := demuxer e; cancel := cancel e;
     status := status e; thread := thread e;
     thread_running := thread_running e;
     cancel_requested := cancel_requested e; max_bytes := max_bytes e;
     readahead_secs := readahead_secs e; create_time := v;
     callback_info := callback_info e |}.

Definition set_callback_info (v : mpv_preload_info) (e : preload_entry) : preload_entry :=
  {| url := url e; global := global e; demuxer := demuxer e; cancel := cancel e;
     status := status e; thread := thread e;
     thread_running := thread_running e;
     cancel_requested := cancel_requested e; max_bytes := max_bytes e;
     readahead_secs := readahead_secs e; create_time := create_time e;
     callback_info := v |}.

(** ** The outside world *)

(** [struct demux_reader_state], the fields the code reads. *)
Record demux_reader_state : Type := {
  rs_fw_bytes : Z;
  rs_total_bytes : Z;
  rs_eof_cached : bool;
  rs_duration : float          (* [ts_info.duration] *)
}.

(** What the demuxer layer answers to one worker (or to one snapshot):
    whether [demux_open_url] succeeds, the reader state of the demuxer, and
    the size of its stream ([None] when [demuxer->stream] is [NULL]). *)
Record engine_reply : Type := {
  open_ok : bool;
  reader : demux_reader_state;
  stream_size : option Z
}.

(** The inputs of one API call: [time(NULL)], whether [mp_thread_create]
    succeeds, and the engine's answers for each slot. *)
Record environment : Type := {
  now : Z;
  thread_create_ok : bool;
  engine : nat -> engine_reply
}.

Inductive event : Type :=
| EvLock                                  (* pthread_mutex_lock *)
| EvUnlock                                (* pthread_mutex_unlock *)
| EvSpawn (slot : nat)                    (* mp_thread_create succeeded *)
| EvJoin (slot : nat)                     (* mp_thread_join *)
| EvStopFlag (slot : nat)                 (* entry->cancel_requested = true *)
| EvTrigger (c : handle)                  (* mp_cancel_trigger *)
| EvCallback (f : nat) (u : option string) (i : mpv_preload_info)
| EvFreeDemuxer (d : handle)              (* demux_cancel_and_free *)
| EvFree (h : handle)                     (* talloc_free *)
| EvSteal (parent child : handle).        (* talloc_steal *)

(** The process state: the static [preload_cache], the callback slot
    [g_preload_callback], the cancel tokens that were triggered, and the
    allocation counter of the engine's handles. *)
Record world : Type := {
  entries : list preload_entry;
  initialized : bool;
  g_preload_callback : option nat;
  triggered : list handle;
  next_handle : handle
}.

Definition init_world : world :=
  {| entries := replicate MPV_PRELOAD_MAX_ENTRIES zero_entry;
     initialized := false; g_preload_callback := None;
     triggered := []; next_handle := 0%nat |}.

Definition with_entries (l : list preload_entry) (w : world) : world :=
  {| entries := l; initialized := initialized w;
     g_preload_callback := g_preload_callback w;
     triggered := triggered w; next_handle := next_handle w |}.

Definition with_initialized (b : bool) (w : world) : world :=
  {| entries := entries w; initialized := b;
     g_preload_callback := g_preload_callback w;
     triggered := triggered w; next_handle := next_handle w |}.

Definition with_callback (f : option nat) (w : world) : world :=
  {| entries := entries w; initialized := initialized w;
     g_preload_callback := f;
     triggered := triggered w; next_handle := next_handle w |}.

Definition with_triggered (t : list handle) (w : world) : world :=
  {| entries := entries w; initialized := initialized w;
     g_preload_callback := g_preload_callback w;
     triggered := t; next_handle := next_handle w |}.

Definition with_next_handle (n : handle) (w : world) : world :=
  {| entries := entries w; initialized := initialized w;
     g_preload_callback := g_preload_callback w;
     triggered := triggered w; next_handle := n |}.

(** A pointer tested as a condition. *)
Definition non_null {A : Type} (p : option A) : bool :=
  match p with Some _ => true | None => false end.

(** [mp_cancel_test] *)
Definition mp_cancel_test (trig : list handle) (c : option handle) : bool :=
  match c with
  | Some h => existsb (Nat.eqb h) trig
  | None => false
  end.

(** ** Snapshots and the status notifier *)

(** [fill_preload_info]: the snapshot of an entry; the engine is asked only
    when the entry has a demuxer. *)
Definition fill_preload_info (r : engine_reply) (e : preload_entry)
  : mpv_preload_info :=
  match demuxer e with
  | Some _ =>
      {| info_status := status_code (status e);
         info_fw_bytes := rs_fw_bytes (reader r);
         info_total_bytes := rs_total_bytes (reader r);
         info_file_size :=
           match stream_size r with Some n => n | None => -1 end;
         info_buffered_secs :=
           if PrimFloat.leb 0%float (rs_duration (reader r))
           then rs_duration (reader r) else 0%float;
         info_eof_cached := rs_eof_cached (reader r) |}
  | None =>
      {| info_status := status_code (status e);
         info_fw_bytes := 0; info_total_bytes := 0; info_file_size := -1;
         info_buffered_secs := 0%float; info_eof_cached := false |}
  end.

(** [invoke_callback]: nothing without a registered callback; otherwise the
    snapshot is stored in the entry's own [callback_info] and the callback
    gets the entry's url and that buffer. *)
Definition invoke_callback (cb : option nat) (r : engine_reply)
  (e : preload_entry) : preload_entry * list event :=
  match cb with
  | None => (e, [])
  | Some f =>
      let e' := set_callback_info (fill_preload_info r e) e in
      (e', [EvCallback f (url e') (callback_info e')])
  end.

(** [create_minimal_global]: the context is allocated with [talloc_zero]
    and written to at once, then configured; no path of the function returns
    [NULL]. The result is the context and the next free handle. *)
Definition create_minimal_global (fresh : handle) (max_bytes : Z)
  (readahead_secs : float) : option handle * handle :=
  (Some fresh, S fresh).

(** ** The worker: [preload_thread], one atomic step at a time

    [cb] is [g_preload_callback], [trig] the triggered tokens, [fresh] the
    next free handle. The result is the new entry, the events of the step and
    the next free handle. The test of the loop condition and the body of the
    loop are two steps: the registry can set [cancel_requested] between
    them. *)
Definition preload_thread_step (cb : option nat) (trig : list handle)
  (fresh : handle) (r : engine_reply) (e : preload_entry)
  : preload_entry * list event * handle :=
  match thread e with
  | T_none | T_exited => (e, [], fresh)
  | T_start =>
      (* entry->global = create_minimal_global(...) *)
      let g := create_minimal_global fresh (max_bytes e) (readahead_secs e) in
      if non_null (fst g) then
        (set_thread T_global (set_global (fst g) e), [], snd g)
      else
        let e1 := set_status MPV_PRELOAD_STATUS_ERROR (set_global None e) in
        let r1 := invoke_callback cb r e1 in
        (set_thread T_exited (fst r1), snd r1, snd g)
  | T_global =>
      (* entry->cancel = mp_cancel_new(NULL) *)
      (set_thread T_open (set_cancel (Some fresh) e), [], S fresh)
  | T_open =>
      (* entry->demuxer = demux_open_url(...) *)
      if open_ok r then
        (set_thread T_opened (set_demuxer (Some fresh) e), [], S fresh)
      else
        let e1 := set_status MPV_PRELOAD_STATUS_ERROR (set_demuxer None e) in
        let r1 := invoke_callback cb r e1 in
        (set_thread T_exited (fst r1), snd r1, fresh)
  | T_opened =>
      (* tracks selected, demux thread and prefetch started *)
      let e1 := set_status MPV_PRELOAD_STATUS_READY e in
      let r1 := invoke_callback cb r e1 in
      (set_thread (T_loop false) (fst r1), snd r1, fresh)
  | T_loop target_notified =>
      (* while (!entry->cancel_requested && !mp_cancel_test(entry->cancel)) *)
      if negb (cancel_requested e) && negb (mp_cancel_test trig (cancel e))
      then (set_thread (T_body target_notified) e, [], fresh)
      else (set_thread T_exited e, [], fresh)
  | T_body target_notified =>
      (* the body of the loop, up to the end of [mp_cancel_wait] *)
      if negb target_notified && non_null (demuxer e) then
        if (max_bytes e <=? rs_fw_bytes (reader r))
           || rs_eof_cached (reader r)
        then
          let e1 := set_status MPV_PRELOAD_STATUS_CACHED e in
          let r1 := invoke_callback cb r e1 in
          (set_thread (T_loop true) (fst r1), snd r1, fresh)
        else (set_thread (T_loop target_notified) e, [], fresh)
      else (set_thread (T_loop target_notified) e, [], fresh)
  end.

(** ** Operations on the process state

    An operation maps the state to its result, the new state and the trace of
    its events. *)
Definition Op (A : Type) : Type := world -> A * world * list event.

Definition ret {A : Type} (a : A) : Op A := fun w => (a, w, []).

Definition bind {A B : Type} (m : Op A) (k : A -> Op B) : Op B :=
  fun w =>
    let '(a, w1, t1) := m w in
    let '(b, w2, t2) := k a w1 in
    (b, w2, t1 ++ t2).

Notation "x <- m ;; k" := (bind m (fun x => k))
  (at level 20, m at level 99, k at level 200, only parsing).
Notation "m ;;; k" := (bind m (fun _ => k))
  (at level 100, k at level 200, only parsing, right associativity).

Definition result {A : Type} (r : A * world * list event) : A := fst (fst r).
Definition state_of {A : Type} (r : A * world * list event) : world :=
  snd (fst r).
Definition trace_of {A : Type} (r : A * world * list event) : list event :=
  snd r.

Definition emit (ev : event) : Op unit := fun w => (tt, w, [ev]).

Definition read {A : Type} (f : world -> A) : Op A := fun w => (f w, w, []).

(** The entry in slot [i]. *)
Definition entry_at (i : nat) : Op preload_entry :=
  read (fun w => default zero_entry (entries w !! i)).

(** An assignment to the entry in slot [i]. *)
Definition update (i : nat) (f : preload_entry -> preload_entry) : Op unit :=
  fun w => (tt, with_entries (alter f i (entries w)) w, []).

Definition pthread_mutex_lock : Op unit := emit EvLock.
Definition pthread_mutex_unlock : Op unit := emit EvUnlock.

Definition mp_cancel_trigger (c : handle) : Op unit :=
  fun w => (tt, with_triggered (c :: triggered w) w, [EvTrigger c]).

(** [if (p) body(p)] on a pointer. *)
Definition if_non_null {A : Type} (p : option A) (body : A -> Op unit)
  : Op unit :=
  match p with Some x => body x | None => ret tt end.

(** [preload_thread] run for [fuel] steps. *)
Fixpoint thread_run (fuel : nat) (cb : option nat) (trig : list handle)
  (fresh : handle) (r : engine_reply) (e : preload_entry)
  : preload_entry * list event * handle :=
  match fuel with
  | O => (e, [], fresh)
  | S k =>
      let s := preload_thread_step cb trig fresh r e in
      let s' := thread_run k cb trig (snd s) r (fst (fst s)) in
      (fst (fst s'), snd (fst s) ++ snd (fst s'), snd s')
  end.

(** The worker of slot [i] computes on its own entry; it reads the callback
    slot and the tokens' state and allocates handles. *)
Definition on_thread (i : nat)
  (f : option nat -> list handle -> handle -> preload_entry ->
       preload_entry * list event * handle) : Op unit :=
  fun w =>
    match entries w !! i with
    | Some e =>
        let s := f (g_preload_callback w) (triggered w) (next_handle w) e in
        (tt, with_next_handle (snd s)
               (with_entries (<[i := fst (fst s)]> (entries w)) w),
         snd (fst s))
    | None => (tt, w, [])
    end.

(** One step of the worker of slot [i]. *)
Definition worker_step (r : engine_reply) (i : nat) : Op unit :=
  on_thread i (fun cb trig fresh => preload_thread_step cb trig fresh r).

(** [preload_thread] goes through at most five steps once
    [cancel_requested] is set, which every caller of [mp_thread_join] does
    first (lemma [thread_run_exits] below): from its start, four steps to
    the head of the loop and the test that ends it; from the body of the
    loop, the rest of the body and the test. *)
Definition join_fuel : nat := 5.

(** [mp_thread_join(entry->thread)]: the caller waits until the worker has
    returned. *)
Definition mp_thread_join (env : environment) (i : nat) : Op unit :=
  emit (EvJoin i) ;;;
  on_thread i (fun cb trig fresh =>
    thread_run join_fuel cb trig fresh (engine env i)).

(** ** The registry *)

Definition mpv_preload_set_callback (callback : option nat) : Op unit :=
  fun w => (tt, with_callback callback w, []).

(** The state after [ensure_initialized]. *)
Definition initialized_world (w : world) : world :=
  if initialized w then w else with_initialized true w.

Definition ensure_initialized : Op unit :=
  fun w => (tt, initialized_world w, []).

(** The first index, counted from [i], of an element satisfying [p]. *)
Fixpoint find_index {A : Type} (p : A -> bool) (i : nat) (l : list A)
  : option nat :=
  match l with
  | [] => None
  | x :: l' => if p x then Some i else find_index p (S i) l'
  end.

(** [e->url && strcmp(e->url, url) == 0] *)
Definition has_url (u : string) (e : preload_entry) : bool :=
  match url e with Some v => String.eqb v u | None => false end.

Definition find_entry_locked (u : string) : Op (option nat) :=
  read (fun w => find_index (has_url u) 0 (entries w)).

(** The second loop of [find_free_slot_locked]. *)
Fixpoint oldest_loop (i : nat) (l : list preload_entry)
  (oldest : option nat) (oldest_time : Z) : option nat :=
  match l with
  | [] => oldest
  | e :: l' =>
      if negb (non_null oldest) || (create_time e <? oldest_time)
      then oldest_loop (S i) l' (Some i) (create_time e)
      else oldest_loop (S i) l' oldest oldest_time
  end.

Definition cleanup_entry (env : environment) (i : nat) : Op unit :=
  e <- entry_at i ;;
  if negb (non_null (url e)) then ret tt else
  update i (set_cancel_requested true) ;;;
  emit (EvStopFlag i) ;;;
  if_non_null (cancel e) mp_cancel_trigger ;;;
  (if thread_running e
   then mp_thread_join env i ;;; update i (set_thread_running false)
   else ret tt) ;;;
  e1 <- entry_at i ;;
  if_non_null (demuxer e1)
    (fun d => emit (EvFreeDemuxer d) ;;; update i (set_demuxer None)) ;;;
  if_non_null (cancel e1)
    (fun c => emit (EvFree c) ;;; update i (set_cancel None)) ;;;
  if_non_null (global e1)
    (fun g => emit (EvFree g) ;;; update i (set_global None)) ;;;
  update i (fun _ => zero_entry).

Definition find_free_slot_locked (env : environment) : Op (option nat) :=
  free <- read (fun w =>
            find_index (fun e => negb (non_null (url e))) 0 (entries w)) ;;
  match free with
  | Some i => ret (Some i)
  | None =>
      oldest <- read (fun w => oldest_loop 0 (entries w) None 0) ;;
      if_non_null oldest (cleanup_entry env) ;;;
      ret oldest
  end.

Definition default_max_bytes : Z := 10 * 1024 * 1024.
Definition default_readahead_secs : float := 10%float.

Definition mpv_preload_start (env : environment) (url_arg : option string)
  (opts : option mpv_preload_options) : Op Z :=
  match url_arg with
  | None => ret (-1)
  | Some u =>
    if String.eqb u "" then ret (-1) else
    ensure_initialized ;;;
    pthread_mutex_lock ;;;
    existing <- find_entry_locked u ;;
    match existing with
    | Some _ => pthread_mutex_unlock ;;; ret 0
    | None =>
      slot <- find_free_slot_locked env ;;
      match slot with
      | None => pthread_mutex_unlock ;;; ret (-1)
      | Some i =>
        update i (set_url (Some u)) ;;;
        update i (set_status MPV_PRELOAD_STATUS_LOADING) ;;;
        update i (set_create_time (now env)) ;;;
        update i (set_cancel_requested false) ;;;
        update i (set_max_bytes
          match opts with
          | Some o =>
              if 0 <? opt_max_bytes o then opt_max_bytes o
              else default_max_bytes
          | None => default_max_bytes
          end) ;;;
        update i (set_readahead_secs
          match opts with
          | Some o =>
              if PrimFloat.ltb 0%float (opt_readahead_secs o)
              then opt_readahead_secs o else default_readahead_secs
          | None => default_readahead_secs
          end) ;;;
        if thread_create_ok env then
          update i (set_thread T_start) ;;;
          emit (EvSpawn i) ;;;
          update i (set_thread_running true) ;;;
          pthread_mutex_unlock ;;;
          ret 0
        else
          update i (set_url None) ;;;
          update i (set_status MPV_PRELOAD_STATUS_NONE) ;;;
          pthread_mutex_unlock ;;;
          ret (-1)
      end
    end
  end.

(** The second argument is the content of [*info] before the call ([None]
    for a [NULL] pointer); the result carries its content after the call. *)
Definition mpv_preload_get_info (env : environment) (url_arg : option string)
  (info : option mpv_preload_info) : Op (Z * option mpv_preload_info) :=
  match url_arg, info with
  | Some u, Some _ =>
    init <- read initialized ;;
    if negb init then ret (-1, info) else
    pthread_mutex_lock ;;;
    found <- find_entry_locked u ;;
    match found with
    | None =>
        pthread_mutex_unlock ;;;
        ret (-1, Some zero_info)
    | Some i =>
        e <- entry_at i ;;
        pthread_mutex_unlock ;;;
        ret (0, Some (fill_preload_info (engine env i) e))
    end
  | _, _ => ret (-1, info)
  end.

Definition mpv_preload_get_demuxer (env : environment)
  (url_arg : option string) : Op (option handle) :=
  match url_arg with
  | None => ret None
  | Some u =>
    init <- read initialized ;;
    if negb init then ret None else
    pthread_mutex_lock ;;;
    found <- find_entry_locked u ;;
    match found with
    | None => pthread_mutex_unlock ;;; ret None
    | Some i =>
      e <- entry_at i ;;
      if status_eqb (status e) MPV_PRELOAD_STATUS_NONE
         || status_eqb (status e) MPV_PRELOAD_STATUS_ERROR
         || negb (non_null (demuxer e))
      then pthread_mutex_unlock ;;; ret None
      else
        update i (set_cancel_requested true) ;;;
        emit (EvStopFlag i) ;;;
        (if thread_running e then
           pthread_mutex_unlock ;;;
           mp_thread_join env i ;;;
           pthread_mutex_lock ;;;
           update i (set_thread_running false)
         else ret tt) ;;;
        e1 <- entry_at i ;;
        let demux := demuxer e1 in
        update i (set_demuxer None) ;;;
        if_non_null demux (fun d =>
          if_non_null (global e1) (fun g => emit (EvSteal d g)) ;;;
          if_non_null (cancel e1) (fun c => emit (EvSteal d c))) ;;;
        update i (set_url None) ;;;
        update i (set_status MPV_PRELOAD_STATUS_NONE) ;;;
        update i (set_global None) ;;;
        update i (set_cancel None) ;;;
        pthread_mutex_unlock ;;;
        ret demux
    end
  end.

Definition mpv_preload_cancel (env : environment) (url_arg : option string)
  : Op Z :=
  match url_arg with
  | None => ret (-1)
  | Some u =>
    init <- read initialized ;;
    if negb init then ret (-1) else
    pthread_mutex_lock ;;;
    found <- find_entry_locked u ;;
    match found with
    | None => pthread_mutex_unlock ;;; ret (-1)
    | Some i =>
      e <- entry_at i ;;
      update i (set_cancel_requested true) ;;;
      emit (EvStopFlag i) ;;;
      if_non_null (cancel e) mp_cancel_trigger ;;;
      pthread_mutex_unlock ;;;
      (if thread_running e
       then mp_thread_join env i ;;; update i (set_thread_running false)
       else ret tt) ;;;
      pthread_mutex_lock ;;;
      cleanup_entry env i ;;;
      pthread_mutex_unlock ;;;
      ret 0
    end
  end.

(** [for (int i = 0; i < MPV_PRELOAD_MAX_ENTRIES; i++) body(i)] *)
Fixpoint for_each_slot (n i : nat) (body : nat -> Op unit) : Op unit :=
  match n with
  | O => ret tt
  | S n' => body i ;;; for_each_slot n' (S i) body
  end.

(** The bodies of the first two loops of [mpv_preload_clear_all]. *)
Definition signal_slot (i : nat) : Op unit :=
  e <- entry_at i ;;
  if non_null (url e) then
    update i (set_cancel_requested true) ;;;
    emit (EvStopFlag i) ;;;
    if_non_null (cancel e) mp_cancel_trigger
  else ret tt.

Definition join_slot (env : environment) (i : nat) : Op unit :=
  e <- entry_at i ;;
  if thread_running e
  then mp_thread_join env i ;;; update i (set_thread_running false)
  else ret tt.

Definition mpv_preload_clear_all (env : environment) : Op unit :=
  init <- read initialized ;;
  if negb init then ret tt else
  pthread_mutex_lock ;;;
  for_each_slot MPV_PRELOAD_MAX_ENTRIES 0 signal_slot ;;;
  pthread_mutex_unlock ;;;
  for_each_slot MPV_PRELOAD_MAX_ENTRIES 0 (join_slot env) ;;;
  pthread_mutex_lock ;;;
  for_each_slot MPV_PRELOAD_MAX_ENTRIES 0 (cleanup_entry env) ;;;
  pthread_mutex_unlock.

(** ** Executions

    The client's calls and the steps of the worker threads, interleaved in
    any order. A step of the worker of slot [i] comes with the engine's
    answer for that step. *)
Inductive action : Type :=
| Call_set_callback (callback : option nat)
| Call_start (env : environment) (u : option string)
    (opts : option mpv_preload_options)
| Call_get_info (env : environment) (u : option string)
    (info : option mpv_preload_info)
| Call_get_demuxer (env : environment) (u : option string)
| Call_cancel (env : environment) (u : option string)
| Call_clear_all (env : environment)
| Worker (i : nat) (r : engine_reply).

Definition exec (a : action) (w : world) : world * list event :=
  match a with
  | Call_set_callback cb =>
      let r := mpv_preload_set_callback cb w in (state_of r, trace_of r)
  | Call_start env u opts =>
      let r := mpv_preload_start env u opts w in (state_of r, trace_of r)
  | Call_get_info env u info =>
      let r := mpv_preload_get_info env u info w in (state_of r, trace_of r)
  | Call_get_demuxer env u =>
      let r := mpv_preload_get_demuxer env u w in (state_of r, trace_of r)
  | Call_cancel env u =>
      let r := mpv_preload_cancel env u w in (state_of r, trace_of r)
  | Call_clear_all env =>
      let r := mpv_preload_clear_all env w in (state_of r, trace_of r)
  | Worker i r =>
      let r := worker_step r i w in (state_of r, trace_of r)
  end.

Fixpoint run (l : list action) (w : world) : world * list event :=
  match l with
  | [] => (w, [])
  | a :: l' =>
      let s := exec a w in
      let s' := run l' (fst s) in
      (fst s', snd s ++ snd s')
  end.

(** The states the process can be in. *)
Inductive reachable : world -> Prop :=
| reachable_init : reachable init_world
| reachable_step (a : action) (w : world) :
    reachable w -> reachable (fst (exec a w)).

(** ** Invariants *)

(** The order of the state machine of an entry:
    NONE, LOADING, then READY and CACHED, or ERROR. *)
Definition status_le (a b : mpv_preload_status) : bool :=
  match a, b with
  | MPV_PRELOAD_STATUS_NONE, _ => true
  | MPV_PRELOAD_STATUS_LOADING, MPV_PRELOAD_STATUS_NONE => false
  | MPV_PRELOAD_STATUS_LOADING, _ => true
  | MPV_PRELOAD_STATUS_READY, MPV_PRELOAD_STATUS_READY => true
  | MPV_PRELOAD_STATUS_READY, MPV_PRELOAD_STATUS_CACHED => true
  | MPV_PRELOAD_STATUS_ERROR, MPV_PRELOAD_STATUS_ERROR => true
  | MPV_PRELOAD_STATUS_CACHED, MPV_PRELOAD_STATUS_CACHED => true
  | _, _ => false
  end.

(** What the position of the worker says about its entry. *)
Definition thread_inv (e : preload_entry) : Prop :=
  match thread e with
  | T_none => False
  | T_start | T_global | T_open =>
      status e = MPV_PRELOAD_STATUS_LOADING /\ demuxer e = None
  | T_opened =>
      status e = MPV_PRELOAD_STATUS_LOADING /\ demuxer e <> None
  | T_loop n | T_body n =>
      demuxer e <> None /\
      status e = (if n then MPV_PRELOAD_STATUS_CACHED
                  else MPV_PRELOAD_STATUS_READY)
  | T_exited =>
      (status e = MPV_PRELOAD_STATUS_ERROR /\ demuxer e = None) \/
      (demuxer e <> None /\
       (status e = MPV_PRELOAD_STATUS_READY \/
        status e = MPV_PRELOAD_STATUS_CACHED))
  end.

(** A free slot holds nothing and has no live worker. *)
Definition free_inv (e : preload_entry) : Prop :=
  status e = MPV_PRELOAD_STATUS_NONE /\ thread_running e = false /\
  demuxer e = None /\ global e = None /\ cancel e = None /\
  (thread e = T_none \/ thread e = T_exited).

Definition entry_inv (e : preload_entry) : Prop :=
  match url e with
  | None => free_inv e
  | Some _ => thread_running e = true /\ thread_inv e
  end.

(** At most one slot per url. *)
Definition unique_urls (l : list preload_entry) : Prop :=
  forall i j ei ej u,
    l !! i = Some ei -> l !! j = Some ej ->
    url ei = Some u -> url ej = Some u -> i = j.

Record world_inv (w : world) : Prop := {
  inv_length : length (entries w) = MPV_PRELOAD_MAX_ENTRIES;
  inv_entries : Forall entry_inv (entries w);
  inv_unique : unique_urls (entries w);
  inv_init :
    initialized w = false -> Forall (fun e => url e = None) (entries w)
}.

(** The number of steps the worker still takes once it is asked to stop. *)
Definition steps_left (t : thread_state) : nat :=
  match t with
  | T_start => 5
  | T_global => 4
  | T_open => 3
  | T_opened => 2
  | T_body _ => 2
  | T_loop _ => 1
  | T_none | T_exited => 0
  end.

(** The worker of slot [i] as [mp_thread_join] runs it in the state [w],
    when the registry has set [cancel_requested] just before. *)
Definition joined (env : environment) (w : world) (i : nat)
  (e : preload_entry) : preload_entry * list event * handle :=
  thread_run join_fuel (g_preload_callback w) (triggered w) (next_handle w)
    (engine env i) (set_cancel_requested true e).

(** The entry after a successful [mpv_preload_get_demuxer]. *)
Definition claimed (e : preload_entry) : preload_entry :=
  set_cancel None (set_global None
    (set_status MPV_PRELOAD_STATUS_NONE (set_url None
      (set_demuxer None (set_thread_running false e))))).

(** ** Closed forms of the registry operations *)

Definition trigger_events (c : option handle) : list event :=
  match c with Some h => [EvTrigger h] | None => [] end.

Definition triggered_after (c : option handle) (trig : list handle)
  : list handle :=
  match c with Some h => h :: trig | None => trig end.

(** The releases at the end of [cleanup_entry]. *)
Definition free_events (e : preload_entry) : list event :=
  match demuxer e with Some d => [EvFreeDemuxer d] | None => [] end ++
  match cancel e with Some c => [EvFree c] | None => [] end ++
  match global e with Some g => [EvFree g] | None => [] end.

(** The two [talloc_steal] of [mpv_preload_get_demuxer]. *)
Definition steal_events (e : preload_entry) : list event :=
  match demuxer e with
  | Some d =>
      match global e with Some g => [EvSteal d g] | None => [] end ++
      match cancel e with Some c => [EvSteal d c] | None => [] end
  | None => []
  end.

(** The entry that [mpv_preload_start] writes into the slot it has chosen. *)
Definition init_entry (env : environment) (u : string)
  (opts : option mpv_preload_options) (e : preload_entry) : preload_entry :=
  set_readahead_secs
    match opts with
    | Some o =>
        if PrimFloat.ltb 0%float (opt_readahead_secs o)
        then opt_readahead_secs o else default_readahead_secs
    | None => default_readahead_secs
    end
    (set_max_bytes
       match opts with
       | Some o =>
           if 0 <? opt_max_bytes o then opt_max_bytes o
           else default_max_bytes
       | None => default_max_bytes
       end
       (set_cancel_requested false
          (set_create_time (now env)
             (set_status MPV_PRELOAD_STATUS_LOADING
                (set_url (Some u) e))))).

Definition started (env : environment) (u : string)
  (opts : option mpv_preload_options) (e : preload_entry) : preload_entry :=
  set_thread_running true (set_thread T_start (init_entry env u opts e)).

Definition rolled_back (env : environment) (u : string)
  (opts : option mpv_preload_options) (e : preload_entry) : preload_entry :=
  set_status MPV_PRELOAD_STATUS_NONE (set_url None (init_entry env u opts e)).

(** [mpv_preload_get_demuxer] refuses an entry in these cases. *)
Definition not_claimable (e : preload_entry) : bool :=
  status_eqb (status e) MPV_PRELOAD_STATUS_NONE
  || status_eqb (status e) MPV_PRELOAD_STATUS_ERROR
  || negb (non_null (demuxer e)).

(** An operation on slot [k] that leaves the other slots, the size of the
    table, the [initialized] flag and the callback alone. *)
Definition slot_local (body : nat -> Op unit) : Prop :=
  forall k w,
    let w' := state_of (body k w) in
    (forall j, j <> k -> entries w' !! j = entries w !! j) /\
    length (entries w') = length (entries w) /\
    initialized w' = initialized w /\
    g_preload_callback w' = g_preload_callback w.

(** The events of a worker are invocations of the callback. *)
Definition is_callback (ev : event) : bool :=
  match ev with EvCallback _ _ _ => true | _ => false end.

(** ** The life of one worker

    What the worker of an entry meets, step after step: the callback slot
    and the tokens' state at that moment, the engine's answer, and whether
    the registry has set [cancel_requested] since the previous step. *)
Record thread_input : Type := {
  in_callback : option nat;
  in_triggered : list handle;
  in_reply : engine_reply;
  in_stop : bool
}.

(** The events of a worker that takes the steps [ins]. *)
Fixpoint thread_life (ins : list thread_input) (fresh : handle)
  (e : preload_entry) : list event :=
  match ins with
  | [] => []
  | x :: ins' =>
      let e0 := if in_stop x then set_cancel_requested true e else e in
      let s := preload_thread_step (in_callback x) (in_triggered x) fresh
                 (in_reply x) e0 in
      snd (fst s) ++ thread_life ins' (snd s) (fst (fst s))
  end.

(** The statuses the callback was given, in order. *)
Definition notified_status (ev : event) : list Z :=
  match ev with EvCallback _ _ i => [info_status i] | _ => [] end.

Definition notified (tr : list event) : list Z := flat_map notified_status tr.

(** The notifications a worker can still make from a position. *)
Definition future (t : thread_state) : list (list Z) :=
  let ready := status_code MPV_PRELOAD_STATUS_READY in
  let cached := status_code MPV_PRELOAD_STATUS_CACHED in
  let error := status_code MPV_PRELOAD_STATUS_ERROR in
  match t with
  | T_start | T_global | T_open =>
      [[]; [ready]; [cached]; [ready; cached]; [error]]
  | T_opened => [[]; [ready]; [cached]; [ready; cached]]
  | T_loop false | T_body false => [[]; [cached]]
  | T_loop true | T_body true | T_exited | T_none => [[]]
  end.

(** ** Reading traces *)

(** The events [evs] all occur before the join of the worker of slot [i]. *)
Definition before_join (evs : list event) (i : nat) (tr : list event)
  : Prop :=
  exists pre post,
    tr = pre ++ EvJoin i :: post /\ forall ev, In ev evs -> In ev pre.

Definition is_trigger (ev : event) : bool :=
  match ev with EvTrigger _ => true | _ => false end.

(** Whether some [mp_thread_join] happens while the mutex is held; [held]
    says whether it is held at the start of the trace. *)
Fixpoint joins_under_lock (held : bool) (tr : list event) : bool :=
  match tr with
  | [] => false
  | EvLock :: t => joins_under_lock true t
  | EvUnlock :: t => joins_under_lock false t
  | EvJoin _ :: t => held || joins_under_lock held t
  | _ :: t => joins_under_lock held t
  end.

(** ** Sample executions *)

Definition sample_reader (fw : Z) (eof : bool) : demux_reader_state :=
  {| rs_fw_bytes := fw; rs_total_bytes := fw; rs_eof_cached := eof;
     rs_duration := 1.5%float |}.

(** An engine that opens every url and reports [fw] forward bytes. *)
Definition sample_reply (fw : Z) : engine_reply :=
  {| open_ok := true; reader := sample_reader fw false;
     stream_size := Some 5000 |}.

Definition sample_env (t : Z) (spawn : bool) : environment :=
  {| now := t; thread_create_ok := spawn;
     engine := fun _ => sample_reply 0 |}.

(** A callback is registered, "a" is started with a budget of 1000 bytes,
    and its worker runs until the status is READY. *)
Definition sample_ready : list action :=
  [Call_set_callback (Some 7%nat);
   Call_start (sample_env 1 true) (Some "a"%string)
     (Some {| opt_max_bytes := 1000; opt_readahead_secs := 1%float |});
   Worker 0 (sample_reply 0); Worker 0 (sample_reply 0);
   Worker 0 (sample_reply 0); Worker 0 (sample_reply 0)].

(** Four urls are started, in the order a, b, c, d. *)
Definition sample_full : list action :=
  [Call_start (sample_env 1 true) (Some "a"%string) None;
   Call_start (sample_env 1 true) (Some "b"%string) None;
   Call_start (sample_env 2 true) (Some "c"%string) None;
   Call_start (sample_env 3 true) (Some "d"%string) None].

Definition w_ready : world := fst (run sample_ready init_world).

(** As [sample_ready], and the worker has found the condition of its loop
    true: it is about to poll the reader state. *)
Definition sample_polling : list action :=
  sample_ready ++ [Worker 0 (sample_reply 0)].

Definition w_polling : world := fst (run sample_polling init_world).
Definition w_full : world := fst (run sample_full init_world).

(** "a" is started on an engine that cannot open it, and its worker runs
    until it has given up. *)
Definition failing_reply : engine_reply :=
  {| open_ok := false; reader := sample_reader 0 false;
     stream_size := None |}.

Definition sample_failed : list action :=
  [Call_set_callback (Some 7%nat);
   Call_start (sample_env 1 true) (Some "a"%string) None;
   Worker 0 failing_reply; Worker 0 failing_reply; Worker 0 failing_reply].

Definition w_failed : world := fst (run sample_failed init_world).

(** ** The mutex in a trace *)

Definition is_lock_event (ev : event) : bool :=
  match ev with EvLock | EvUnlock => true | _ => false end.

Definition is_join (ev : event) : bool :=
  match ev with EvJoin _ => true | _ => false end.

(** Events that neither touch the mutex nor wait for a thread. *)
Definition is_quiet (ev : event) : bool :=
  negb (is_lock_event ev) && negb (is_join ev).

(** The mutex is not recursive: locking it while held, or unlocking it
    while free, is an error ([None]); otherwise the result says whether it
    is held at the end of the trace. *)
Fixpoint lock_ok (held : bool) (tr : list event) : option bool :=
  match tr with
  | [] => Some held
  | EvLock :: t => if held then None else lock_ok true t
  | EvUnlock :: t => if held then lock_ok false t else None
  | _ :: t => lock_ok held t
  end.

(** Releases of engine objects. *)
Definition is_release (ev : event) : bool :=
  match ev with EvFree _ | EvFreeDemuxer _ => true | _ => false end.

Definition is_steal (ev : event) : bool :=
  match ev with EvSteal _ _ => true | _ => false end.

(** What the position of the worker says about the context and the token
    of its entry. *)
Definition res_inv (e : preload_entry) : Prop :=
  match thread e with
  | T_none => True
  | T_start => global e = None /\ cancel e = None
  | T_global => global e <> None /\ cancel e = None
  | T_open | T_opened | T_loop _ | T_body _ =>
      global e <> None /\ cancel e <> None
  | T_exited => demuxer e <> None -> global e <> None /\ cancel e <> None
  end.

Definition not_lock (ev : event) : bool := negb (is_lock_event ev).

(** The notifications a worker can still make from a position once it has
    been asked to stop: CACHED only when the stop request comes between the
    test of the loop condition and the body of the loop. *)
Definition future_stopped (t : thread_state) : list (list Z) :=
  let ready := status_code MPV_PRELOAD_STATUS_READY in
  let cached := status_code MPV_PRELOAD_STATUS_CACHED in
  let error := status_code MPV_PRELOAD_STATUS_ERROR in
  match t with
  | T_start | T_global | T_open => [[]; [ready]; [error]]
  | T_opened => [[]; [ready]]
  | T_body false => [[]; [cached]]
  | T_body true | T_loop _ | T_exited | T_none => [[]]
  end.

(** As [sample_ready], but the worker has only just opened the demuxer:
    the status is still LOADING. *)
Definition sample_opened : list action :=
  [Call_set_callback (Some 7%nat);
   Call_start (sample_env 1 true) (Some "a"%string)
     (Some {| opt_max_bytes := 1000; opt_readahead_secs := 1%float |});
   Worker 0 (sample_reply 0); Worker 0 (sample_reply 0);
   Worker 0 (sample_reply 0)].

Definition w_opened : world := fst (run sample_opened init_world).

(** ** Reading the callbacks of a trace *)

(** A callback event that is in order in the state [w]: it goes to the
    registered callback, for the url of an entry of the table, with a
    status that is notified. *)
Definition callback_for (w : world) (ev : event) : Prop :=
  match ev with
  | EvCallback f v inf =>
      g_preload_callback w = Some f /\
      (exists k e u, entries w !! k = Some e /\ url e = Some u /\ v = Some u) /\
      (info_status inf = status_code MPV_PRELOAD_STATUS_READY \/
       info_status inf = status_code MPV_PRELOAD_STATUS_CACHED \/
       info_status inf = status_code MPV_PRELOAD_STATUS_ERROR)
  | _ => True
  end.

(** The worker of a free slot has returned, or was never started. *)
Definition idle_when_free (e : preload_entry) : Prop :=
  url e = None -> thread e = T_none \/ thread e = T_exited.

(** What the loops of [mpv_preload_clear_all] keep of the state [w0] they
    started from: the callback, the urls, and the idle free slots. *)
Definition same_urls (w0 w : world) : Prop :=
  g_preload_callback w = g_preload_callback w0 /\
  forall k e,
    entries w !! k = Some e ->
    idle_when_free e /\
    forall u, url e = Some u ->
      exists k0 e0, entries w0 !! k0 = Some e0 /\ url e0 = Some u.

(** ** The engine's objects and who refers to them *)

(** The entry refers to the object [h]. *)
Definition mentions (h : handle) (e : preload_entry) : Prop :=
  demuxer e = Some h \/ global e = Some h \/ cancel e = Some h.

(** The event acts on the object [h]: it triggers it, releases it, or
    moves it or something onto it. *)
Definition touches (h : handle) (ev : event) : bool :=
  match ev with
  | EvTrigger c => Nat.eqb h c
  | EvFreeDemuxer d => Nat.eqb h d
  | EvFree x => Nat.eqb h x
  | EvSteal d x => Nat.eqb h d || Nat.eqb h x
  | _ => false
  end.

(** The objects that an action starting in [w0] may act on: those the
    table of [w0] refers to, and those allocated from then on. *)
Definition known (w0 : world) (h : handle) : Prop :=
  (exists k e, entries w0 !! k = Some e /\ mentions h e) \/
  (next_handle w0 <= h)%nat.

Definition touches_known (w0 : world) (ev : event) : Prop :=
  forall h, touches h ev = true -> known w0 h.

(** A state in the course of an action that started in [w0]. *)
Definition handles_from (w0 w : world) : Prop :=
  (next_handle w0 <= next_handle w)%nat /\
  forall k e h, entries w !! k = Some e -> mentions h e -> known w0 h.

(** Every object the table refers to was allocated, and no two slots refer
    to the same one. *)
Definition handles_inv (w : world) : Prop :=
  (forall k e h, entries w !! k = Some e -> mentions h e ->
                 (h < next_handle w)%nat) /\
  (forall k1 k2 e1 e2 h,
     entries w !! k1 = Some e1 -> entries w !! k2 = Some e2 ->
     mentions h e1 -> mentions h e2 -> k1 = k2).

(** What one action does to the references: a slot keeps references it
    had, or, for at most one slot, gets objects allocated by the action. *)
Definition handles_step (w w' : world) : Prop :=
  (next_handle w <= next_handle w')%nat /\
  exists i0,
    forall k e' h,
      entries w' !! k = Some e' -> mentions h e' ->
      (exists e, entries w !! k = Some e /\ mentions h e) \/
      (k = i0 /\ (next_handle w <= h < next_handle w')%nat).

(** The registry has given [h] away: it was allocated, and the table does
    not refer to it. *)
Definition handed_over (h : handle) (w : world) : Prop :=
  (h < next_handle w)%nat /\
  forall k e, entries w !! k = Some e -> ~ mentions h e.

(** As [sample_full], and the worker of "a" has created its context. *)
Definition sample_full_working : list action :=
  sample_full ++ [Worker 0 (sample_reply 0)].

Definition w_full_working : world :=
  fst (run sample_full_working init_world).

(** ** Releasing an object once *)

(** After a release of an object, nothing in the rest of the trace acts on
    that object. *)
Fixpoint safe (tr : list event) : Prop :=
  match tr with
  | [] => True
  | ev :: rest =>
      (forall h, is_release ev = true -> touches h ev = true ->
                 Forall (fun ev' => touches h ev' = false) rest) /\
      safe rest
  end.

(** The three pointers of an entry refer to different objects. *)
Definition distinct_fields (e : preload_entry) : Prop :=
  forall h,
    (demuxer e = Some h -> global e <> Some h /\ cancel e <> Some h) /\
    (global e = Some h -> cancel e <> Some h).

Definition good (w : world) : Prop :=
  handles_inv w /\
  forall k e, entries w !! k = Some e -> distinct_fields e.

(** A piece of an execution, from [w] to [w'] with the events [tr], that
    keeps the references in order: it allocates forward, keeps [good],
    leaves alone what was given away before, and gives away for good what
    it releases. *)
Definition disciplined (w : world) (tr : list event) (w' : world) : Prop :=
  (next_handle w <= next_handle w')%nat /\
  (good w -> good w') /\
  (forall h, handed_over h w ->
     handed_over h w' /\ Forall (fun ev => touches h ev = false) tr) /\
  (good w ->
   safe tr /\
   forall ev h, In ev tr -> is_release ev = true -> touches h ev = true ->
                handed_over h w').

(** ** Accounting for every object *)

(** The table refers to [h]. *)
Definition held (w : world) (h : handle) : Prop :=
  exists k e, entries w !! k = Some e /\ mentions h e.

(** The trace shows what became of [h]: it was released, or it was handed
    over (as the demuxer something was moved onto, or as what was moved). *)
Definition accounted (h : handle) (tr : list event) : Prop :=
  exists ev,
    In ev tr /\ (is_release ev = true \/ is_steal ev = true) /\
    touches h ev = true.

(** An entry in the course of an operation: as in a reachable state, but
    its worker may already have been joined. *)
Definition tidy_entry (e : preload_entry) : Prop :=
  match url e with
  | None => free_inv e
  | Some _ => thread_inv e /\ res_inv e
  end.

Definition tidy (w : world) : Prop :=
  forall k e, entries w !! k = Some e -> tidy_entry e.

(** A piece of an execution that loses no object: what the table referred
    to before, and what the piece allocated, is referred to by the table
    afterwards or accounted for by the events of the piece. *)
Definition accounting (w : world) (tr : list event) (w' : world) : Prop :=
  (next_handle w <= next_handle w')%nat /\
  (tidy w ->
   tidy w' /\
   forall h, held w h \/ (next_handle w <= h < next_handle w')%nat ->
             held w' h \/ accounted h tr).

(** The worker of an entry taking one step for each of the engine's
    answers [rs], with nothing else happening in between. *)
Fixpoint thread_steps (rs : list engine_reply) (cb : option nat)
  (trig : list handle) (fresh : handle) (e : preload_entry)
  : preload_entry * list event * handle :=
  match rs with
  | [] => (e, [], fresh)
  | r :: rs' =>
      let s := preload_thread_step cb trig fresh r e in
      let s' := thread_steps rs' cb trig (snd s) (fst (fst s)) in
      (fst (fst s'), snd (fst s) ++ snd (fst s'), snd s')
  end.

(** ** Entries that nobody has stopped *)

(** The worker of the entry has not been asked to stop, its token is not
    triggered, and it has returned only if the entry is in ERROR. *)
Definition unstopped (trig : list handle) (e : preload_entry) : Prop :=
  cancel_requested e = false /\
  mp_cancel_test trig (cancel e) = false /\
  (thread e = T_exited -> status e = MPV_PRELOAD_STATUS_ERROR).

(** Every token that was triggered was allocated before. *)
Definition triggered_bound (w : world) : Prop :=
  forall c, In c (triggered w) -> (c < next_handle w)%nat.

Definition live (w : world) : Prop :=
  (forall k e, entries w !! k = Some e -> url e <> None ->
               unstopped (triggered w) e) /\
  triggered_bound w.

(** The worker is in its monitor loop, at its head or in its body. *)
Definition in_loop (t : thread_state) : bool :=
  match t with T_loop _ | T_body _ => true | _ => false end.

(** A worker that was asked to stop when it had just found the condition
    of its loop true. *)
Definition late_entry : preload_entry :=
  set_cancel_requested true (default zero_entry (entries w_polling !! 0%nat)).

(** Creations of worker threads. *)
Definition is_spawn (ev : event) : bool :=
  match ev with EvSpawn _ => true | _ => false end.

(** * Properties *)

(** ** Operations: result, state and trace of a sequence *)

Lemma result_eq {A : Type} (a : A) (w : world) (t : list event) :
  result (a, w, t) = a.
Proof. reflexivity. Qed.

Lemma state_of_eq {A : Type} (a : A) (w : world) (t : list event) :
  state_of (a, w, t) = w.
Proof. reflexivity. Qed.

Lemma trace_of_eq {A : Type} (a : A) (w : world) (t : list event) :
  trace_of (a, w, t) = t.
Proof. reflexivity. Qed.

Lemma bind_run {A B : Type} (m : Op A) (k : A -> Op B) (w : world)
  a w1 t1 b w2 t2 :
  m w = (a, w1, t1) -> k a w1 = (b, w2, t2) ->
  bind m k w = (b, w2, t1 ++ t2).
Proof. intros H1 H2. unfold bind. rewrite H1, H2. reflexivity. Qed.

Lemma bind_state {A B : Type} (m : Op A) (k : A -> Op B) (w : world) :
  state_of (bind m k w) = state_of (k (result (m w)) (state_of (m w))).
Proof.
  unfold bind, state_of, result. destruct (m w) as [[a w1] t1]. cbn.
  destruct (k a w1) as [[b w2] t2]. reflexivity.
Qed.

Lemma bind_result {A B : Type} (m : Op A) (k : A -> Op B) (w : world) :
  result (bind m k w) = result (k (result (m w)) (state_of (m w))).
Proof.
  unfold bind, state_of, result. destruct (m w) as [[a w1] t1]. cbn.
  destruct (k a w1) as [[b w2] t2]. reflexivity.
Qed.

Lemma bind_trace {A B : Type} (m : Op A) (k : A -> Op B) (w : world) :
  trace_of (bind m k w) =
  trace_of (m w) ++ trace_of (k (result (m w)) (state_of (m w))).
Proof.
  unfold bind, state_of, result, trace_of. destruct (m w) as [[a w1] t1]. cbn.
  destruct (k a w1) as [[b w2] t2]. reflexivity.
Qed.

(** ** The worker thread, step by step *)

Ltac thread_cases e r cb :=
  unfold preload_thread_step, invoke_callback, create_minimal_global;
  cbn [fst snd non_null];
  destruct (thread e) as [| | | | | [|] | [|] |] eqn:Hthread;
  destruct (open_ok r), cb;
  repeat match goal with
  | |- context [if ?c then _ else _] => destruct c eqn:?
  end; cbn; rewrite ?Hthread.

(** The worker leaves the fields of the registry alone. *)
Lemma step_frame cb trig fresh r e :
  let e' := fst (fst (preload_thread_step cb trig fresh r e)) in
  url e' = url e /\ thread_running e' = thread_running e /\
  cancel_requested e' = cancel_requested e /\
  max_bytes e' = max_bytes e /\ readahead_secs e' = readahead_secs e /\
  create_time e' = create_time e.
Proof. thread_cases e r cb; repeat split; reflexivity. Qed.

Lemma step_url cb trig fresh r e :
  url (fst (fst (preload_thread_step cb trig fresh r e))) = url e.
Proof. apply step_frame. Qed.

Lemma step_thread_inv cb trig fresh r e :
  thread_inv e ->
  thread_inv (fst (fst (preload_thread_step cb trig fresh r e))).
Proof.
  unfold thread_inv.
  thread_cases e r cb; intros; try tauto; intuition congruence.
Qed.

Lemma step_status_le cb trig fresh r e :
  thread_inv e ->
  status_le (status e)
    (status (fst (fst (preload_thread_step cb trig fresh r e)))) = true.
Proof.
  unfold thread_inv.
  thread_cases e r cb; intros H; try tauto;
    repeat match goal with
    | H : _ /\ _ |- _ => destruct H
    | H : _ \/ _ |- _ => destruct H
    | H : status e = _ |- _ => rewrite H
    end; reflexivity.
Qed.

Lemma step_demuxer_keep cb trig fresh r e :
  thread_inv e -> demuxer e <> None ->
  demuxer (fst (fst (preload_thread_step cb trig fresh r e))) = demuxer e.
Proof.
  unfold thread_inv.
  thread_cases e r cb; intros; try reflexivity; try tauto;
    intuition congruence.
Qed.

Lemma step_idle cb trig fresh r e :
  thread e = T_none \/ thread e = T_exited ->
  preload_thread_step cb trig fresh r e = (e, [], fresh).
Proof.
  unfold preload_thread_step. intros [H|H]; rewrite H; reflexivity.
Qed.

Lemma step_progress cb trig fresh r e :
  cancel_requested e = true ->
  let e' := fst (fst (preload_thread_step cb trig fresh r e)) in
  (thread e = T_none -> thread e' = T_none) /\
  (thread e <> T_none -> thread e' <> T_none) /\
  (steps_left (thread e') <= Nat.pred (steps_left (thread e)))%nat.
Proof.
  intros Hc.
  unfold preload_thread_step, invoke_callback, create_minimal_global.
  rewrite Hc.
  destruct (thread e) as [| | | | | [|] | [|] |] eqn:Ht;
    destruct (open_ok r), cb; cbn;
    repeat match goal with
    | |- context [if ?c then _ else _] => destruct c
    end; cbn; rewrite ?Ht; cbn;
    repeat split; intros; try congruence; lia.
Qed.

(** *** Several steps *)

Lemma thread_run_frame fuel cb trig fresh r e :
  let e' := fst (fst (thread_run fuel cb trig fresh r e)) in
  url e' = url e /\ thread_running e' = thread_running e /\
  cancel_requested e' = cancel_requested e /\
  max_bytes e' = max_bytes e /\ readahead_secs e' = readahead_secs e /\
  create_time e' = create_time e.
Proof.
  revert fresh e. induction fuel as [|k IH]; intros fresh e; cbn.
  - repeat split.
  - pose proof (step_frame cb trig fresh r e) as Hs. cbn in Hs.
    specialize (IH (snd (preload_thread_step cb trig fresh r e))
                   (fst (fst (preload_thread_step cb trig fresh r e)))).
    cbn in IH. intuition congruence.
Qed.

Lemma thread_run_inv fuel cb trig fresh r e :
  thread_inv e -> thread_inv (fst (fst (thread_run fuel cb trig fresh r e))).
Proof.
  revert fresh e. induction fuel as [|k IH]; intros fresh e H; cbn.
  - exact H.
  - apply IH, step_thread_inv, H.
Qed.

Lemma thread_run_demuxer_keep fuel cb trig fresh r e :
  thread_inv e -> demuxer e <> None ->
  demuxer (fst (fst (thread_run fuel cb trig fresh r e))) = demuxer e.
Proof.
  revert fresh e. induction fuel as [|k IH]; intros fresh e H Hd; cbn.
  - reflexivity.
  - rewrite IH.
    + apply step_demuxer_keep; assumption.
    + apply step_thread_inv, H.
    + rewrite step_demuxer_keep; assumption.
Qed.

(** A worker that is asked to stop returns: [join_fuel] steps are enough. *)
Lemma thread_run_exits fuel cb trig fresh r e :
  cancel_requested e = true -> thread e <> T_none ->
  (steps_left (thread e) <= fuel)%nat ->
  thread (fst (fst (thread_run fuel cb trig fresh r e))) = T_exited.
Proof.
  revert fresh e. induction fuel as [|k IH]; intros fresh e Hc Ht Hf; cbn.
  - destruct (thread e) as [| | | | | [|] | [|] |]; cbn in Hf; try lia; congruence.
  - pose proof (step_progress cb trig fresh r e Hc) as (_ & Hn & Hl).
    apply IH.
    + destruct (step_frame cb trig fresh r e) as (_ & _ & -> & _). exact Hc.
    + apply Hn, Ht.
    + cbn in Hl. lia.
Qed.

Lemma join_exits cb trig fresh r e :
  cancel_requested e = true -> thread e <> T_none ->
  thread (fst (fst (thread_run join_fuel cb trig fresh r e))) = T_exited.
Proof.
  intros Hc Ht. apply thread_run_exits; try assumption.
  unfold join_fuel. destruct (thread e) as [| | | | | [|] | [|] |]; cbn; lia.
Qed.

Lemma thread_run_idle fuel cb trig fresh r e :
  thread e = T_none \/ thread e = T_exited ->
  thread_run fuel cb trig fresh r e = (e, [], fresh).
Proof.
  induction fuel as [|k IH]; intros H; cbn.
  - reflexivity.
  - rewrite (step_idle _ _ _ _ _ H). cbn. rewrite (IH H). reflexivity.
Qed.

Lemma step_events cb trig fresh r e :
  forallb is_callback (snd (fst (preload_thread_step cb trig fresh r e)))
  = true.
Proof. thread_cases e r cb; reflexivity. Qed.

Lemma thread_run_events fuel cb trig fresh r e :
  forallb is_callback (snd (fst (thread_run fuel cb trig fresh r e))) = true.
Proof.
  revert fresh e. induction fuel as [|k IH]; intros fresh e; cbn.
  - reflexivity.
  - rewrite forallb_app, step_events, IH. reflexivity.
Qed.

Lemma callbacks_only tr ev :
  forallb is_callback tr = true -> In ev tr -> is_callback ev = true.
Proof. intros H Hin. rewrite forallb_forall in H. apply H, Hin. Qed.

(** ** Symbolic execution of the operations *)

Arguments thread_run : simpl never.
Arguments preload_thread_step : simpl never.
Arguments find_index : simpl never.
Arguments oldest_loop : simpl never.
Arguments String.eqb : simpl never.
Arguments cleanup_entry : simpl never.
Arguments find_free_slot_locked : simpl never.
Arguments for_each_slot : simpl never.
Arguments fill_preload_info : simpl never.

Lemma alter_insert_eq {A : Type} (f : A -> A) (i : nat) (x : A) (l : list A) :
  alter f i (<[i:=x]> l) = <[i:=f x]> l.
Proof.
  apply list_eq; intros j. destruct (decide (i = j)) as [->|Hne].
  - rewrite list_lookup_alter_eq. destruct (decide (j < length l)%nat).
    + rewrite !list_lookup_insert_eq by done. done.
    + rewrite !list_insert_ge by lia. rewrite lookup_ge_None_2 by lia. done.
  - rewrite list_lookup_alter_ne, !list_lookup_insert_ne by done. done.
Qed.

Ltac opsimpl :=
  cbn;
  repeat (first
    [ rewrite alter_insert_eq
    | rewrite list_insert_insert_eq
    | rewrite list_lookup_insert_eq by assumption ]; cbn).

Ltac op_unfold :=
  cbv beta zeta delta
    [bind read find_entry_locked pthread_mutex_lock pthread_mutex_unlock emit
     entry_at update mp_thread_join on_thread if_non_null mp_cancel_trigger
     ensure_initialized ret].

(** The state [w] with the entry [e] of slot [i] in evidence. *)
Ltac focus w i e He :=
  let Hlt := fresh "Hlt" in
  pose proof (lookup_lt_Some _ _ _ He) as Hlt;
  destruct w as [l ini cb trig nh]; cbn in He, Hlt |- *;
  rewrite <- (list_insert_id l i e He); opsimpl.

(** Names the result [(ej, tj, nj)] of the joined worker [f], with what
    [Hf] says about it. *)
Ltac name_join f Hf :=
  match goal with
  | |- context [f ?a1 ?a2 ?a3 ?a4 ?a5] =>
      let H := fresh "Hj" in
      pose proof (Hf a1 a2 a3 a4 a5) as H; cbn in H;
      let sj := fresh "sj" in
      set (sj := f a1 a2 a3 a4 a5) in *;
      destruct sj as [[ej tj] nj]
  end.

Lemma worker_step_eq r i w e :
  entries w !! i = Some e ->
  let s := preload_thread_step (g_preload_callback w) (triggered w)
             (next_handle w) r e in
  worker_step r i w =
  (tt, {| entries := <[i := fst (fst s)]> (entries w);
          initialized := initialized w;
          g_preload_callback := g_preload_callback w;
          triggered := triggered w; next_handle := snd s |},
   snd (fst s)).
Proof. intros He. unfold worker_step, on_thread. rewrite He. reflexivity. Qed.

Lemma worker_step_none r i w :
  entries w !! i = None -> worker_step r i w = (tt, w, []).
Proof. intros He. unfold worker_step, on_thread. rewrite He. reflexivity. Qed.

Lemma cleanup_entry_free env i w :
  url (default zero_entry (entries w !! i)) = None ->
  cleanup_entry env i w = (tt, w, []).
Proof.
  intros Hu. unfold cleanup_entry; op_unfold. cbn. rewrite Hu. reflexivity.
Qed.

Lemma cleanup_entry_occupied env i w e :
  entries w !! i = Some e -> url e <> None ->
  let trig' := triggered_after (cancel e) (triggered w) in
  let s := if thread_running e
           then thread_run join_fuel (g_preload_callback w) trig'
                  (next_handle w) (engine env i) (set_cancel_requested true e)
           else (set_cancel_requested true e, [], next_handle w) in
  cleanup_entry env i w =
  (tt, {| entries := <[i := zero_entry]> (entries w);
          initialized := initialized w;
          g_preload_callback := g_preload_callback w;
          triggered := trig'; next_handle := snd s |},
   EvStopFlag i :: trigger_events (cancel e) ++
   (if thread_running e then EvJoin i :: snd (fst s) else []) ++
   free_events (fst (fst s))).
Proof.
  intros He Hu. unfold cleanup_entry, free_events; op_unfold.
  generalize (thread_run join_fuel); intros jrun.
  focus w i e He.
  destruct (url e); [clear Hu|congruence]. opsimpl.
  destruct (cancel e) as [c|] eqn:Hc, (thread_running e); opsimpl.
  all: try (set (sj := jrun _ _ _ _ _); destruct sj as [[ej tj] nj]; opsimpl).
  all: try (destruct (demuxer ej), (cancel ej), (global ej); opsimpl;
            rewrite <- ?(app_assoc tj); reflexivity).
  all: rewrite ?Hc; destruct (demuxer e), (global e); opsimpl; reflexivity.
Qed.

Lemma initialized_world_entries w :
  entries (initialized_world w) = entries w.
Proof. unfold initialized_world. destruct (initialized w); reflexivity. Qed.

Lemma initialized_world_initialized w :
  initialized (initialized_world w) = true.
Proof.
  unfold initialized_world. destruct (initialized w) eqn:H; [exact H|].
  reflexivity.
Qed.

Lemma initialized_world_id w :
  initialized w = true -> initialized_world w = w.
Proof. unfold initialized_world. intros ->. reflexivity. Qed.

Lemma find_free_slot_free env w i :
  find_index (fun e => negb (non_null (url e))) 0 (entries w) = Some i ->
  find_free_slot_locked env w = (Some i, w, []).
Proof.
  intros H. unfold find_free_slot_locked; op_unfold. cbn. rewrite H.
  reflexivity.
Qed.

Lemma find_free_slot_evict env w v :
  find_index (fun e => negb (non_null (url e))) 0 (entries w) = None ->
  oldest_loop 0 (entries w) None 0 = Some v ->
  find_free_slot_locked env w =
  (Some v, state_of (cleanup_entry env v w), trace_of (cleanup_entry env v w)).
Proof.
  intros H Ho. unfold find_free_slot_locked; op_unfold. cbn. rewrite H. cbn.
  rewrite Ho. unfold state_of, trace_of.
  destruct (cleanup_entry env v w) as [[[] w'] t]. cbn.
  rewrite app_nil_r. reflexivity.
Qed.

Lemma start_rejected env opts w u :
  u = None \/ u = Some EmptyString ->
  mpv_preload_start env u opts w = (-1, w, []).
Proof. intros [->| ->]; reflexivity. Qed.

Lemma start_existing env opts w u i :
  find_index (has_url u) 0 (entries w) = Some i ->
  String.eqb u "" = false ->
  mpv_preload_start env (Some u) opts w =
  (0, initialized_world w, [EvLock; EvUnlock]).
Proof.
  intros Hf Hu. unfold mpv_preload_start. rewrite Hu. op_unfold. cbn.
  rewrite initialized_world_entries, Hf. reflexivity.
Qed.

Lemma start_new env opts w u i w2 t e :
  String.eqb u "" = false ->
  find_index (has_url u) 0 (entries w) = None ->
  find_free_slot_locked env (initialized_world w) = (Some i, w2, t) ->
  entries w2 !! i = Some e ->
  mpv_preload_start env (Some u) opts w =
  (if thread_create_ok env then 0 else -1,
   with_entries
     (<[i := if thread_create_ok env then started env u opts e
             else rolled_back env u opts e]> (entries w2)) w2,
   EvLock :: t ++
   (if thread_create_ok env then [EvSpawn i] else []) ++ [EvUnlock]).
Proof.
  intros Hu Hf Hs He. unfold mpv_preload_start. rewrite Hu. op_unfold. cbn.
  rewrite initialized_world_entries, Hf. cbn. rewrite Hs. cbn.
  focus w2 i e He.
  destruct (thread_create_ok env); opsimpl; reflexivity.
Qed.

Lemma get_info_state env u info w :
  state_of (mpv_preload_get_info env u info w) = w.
Proof.
  unfold mpv_preload_get_info. destruct u as [u|], info as [info|];
    try reflexivity.
  op_unfold. cbn. destruct (initialized w); cbn; [|reflexivity].
  destruct (find_index (has_url u) 0 (entries w)); reflexivity.
Qed.

Lemma get_info_not_found env u info w :
  initialized w = true ->
  find_index (has_url u) 0 (entries w) = None ->
  result (mpv_preload_get_info env (Some u) (Some info) w) =
  (-1, Some zero_info).
Proof.
  intros Hi Hf. unfold mpv_preload_get_info. op_unfold. cbn.
  rewrite Hi. cbn. rewrite Hf. reflexivity.
Qed.

Lemma get_info_found env u info w i e :
  initialized w = true ->
  find_index (has_url u) 0 (entries w) = Some i ->
  entries w !! i = Some e ->
  result (mpv_preload_get_info env (Some u) (Some info) w) =
  (0, Some (fill_preload_info (engine env i) e)).
Proof.
  intros Hi Hf He. unfold mpv_preload_get_info. op_unfold. cbn.
  rewrite Hi. cbn. rewrite Hf. cbn. rewrite He. reflexivity.
Qed.

Lemma get_demuxer_uninitialized env u w :
  initialized w = false ->
  mpv_preload_get_demuxer env u w = (None, w, []).
Proof.
  intros Hi. unfold mpv_preload_get_demuxer. destruct u; [|reflexivity].
  op_unfold. cbn. rewrite Hi. reflexivity.
Qed.

Lemma get_demuxer_absent env u w :
  initialized w = true ->
  find_index (has_url u) 0 (entries w) = None ->
  mpv_preload_get_demuxer env (Some u) w = (None, w, [EvLock; EvUnlock]).
Proof.
  intros Hi Hf. unfold mpv_preload_get_demuxer. op_unfold. cbn.
  rewrite Hi. cbn. rewrite Hf. reflexivity.
Qed.

Lemma get_demuxer_refused env u w i e :
  initialized w = true ->
  find_index (has_url u) 0 (entries w) = Some i ->
  entries w !! i = Some e ->
  not_claimable e = true ->
  mpv_preload_get_demuxer env (Some u) w = (None, w, [EvLock; EvUnlock]).
Proof.
  intros Hi Hf He Hn. unfold mpv_preload_get_demuxer. op_unfold. cbn.
  rewrite Hi. cbn. rewrite Hf. cbn. rewrite He. cbn.
  unfold not_claimable in Hn. rewrite Hn. reflexivity.
Qed.

Lemma get_demuxer_taken env u w i e :
  initialized w = true ->
  find_index (has_url u) 0 (entries w) = Some i ->
  entries w !! i = Some e ->
  not_claimable e = false ->
  thread_running e = true ->
  let s := joined env w i e in
  let ej := fst (fst s) in
  mpv_preload_get_demuxer env (Some u) w =
  (demuxer ej,
   {| entries := <[i := claimed ej]> (entries w);
      initialized := true;
      g_preload_callback := g_preload_callback w;
      triggered := triggered w; next_handle := snd s |},
   [EvLock; EvStopFlag i; EvUnlock; EvJoin i] ++ snd (fst s) ++
   [EvLock] ++ steal_events ej ++ [EvUnlock]).
Proof.
  intros Hi Hf He Hn Ht.
  unfold joined, mpv_preload_get_demuxer, steal_events, claimed; op_unfold.
  generalize (thread_run join_fuel); intros jrun.
  cbn. rewrite Hi. cbn. rewrite Hf. cbn.
  focus w i e He. unfold not_claimable in Hn. rewrite Hn, Ht. opsimpl.
  set (sj := jrun _ _ _ _ _); destruct sj as [[ej tj] nj]; opsimpl.
  destruct (demuxer ej), (global ej), (cancel ej); opsimpl.
  all: rewrite <- (app_assoc tj); cbn in Hi; subst ini; reflexivity.
Qed.

Lemma cancel_uninitialized env u w :
  initialized w = false ->
  mpv_preload_cancel env u w = (-1, w, []).
Proof.
  intros Hi. unfold mpv_preload_cancel. destruct u; [|reflexivity].
  op_unfold. cbn. rewrite Hi. reflexivity.
Qed.

Lemma cancel_absent env u w :
  initialized w = true ->
  find_index (has_url u) 0 (entries w) = None ->
  mpv_preload_cancel env (Some u) w = (-1, w, [EvLock; EvUnlock]).
Proof.
  intros Hi Hf. unfold mpv_preload_cancel. op_unfold. cbn.
  rewrite Hi. cbn. rewrite Hf. reflexivity.
Qed.

Lemma cancel_found env u w i e :
  initialized w = true ->
  find_index (has_url u) 0 (entries w) = Some i ->
  entries w !! i = Some e ->
  url e <> None ->
  thread_running e = true ->
  let trig1 := triggered_after (cancel e) (triggered w) in
  let s := thread_run join_fuel (g_preload_callback w) trig1 (next_handle w)
             (engine env i) (set_cancel_requested true e) in
  let ej := fst (fst s) in
  mpv_preload_cancel env (Some u) w =
  (0,
   {| entries := <[i := zero_entry]> (entries w);
      initialized := true;
      g_preload_callback := g_preload_callback w;
      triggered := triggered_after (cancel ej) trig1;
      next_handle := snd s |},
   [EvLock; EvStopFlag i] ++ trigger_events (cancel e) ++
   [EvUnlock; EvJoin i] ++ snd (fst s) ++
   [EvLock; EvStopFlag i] ++ trigger_events (cancel ej) ++
   free_events ej ++ [EvUnlock]).
Proof.
  intros Hi Hf He Hu Ht.
  unfold mpv_preload_cancel; op_unfold.
  pose proof (thread_run_frame join_fuel) as Hframe.
  generalize dependent (thread_run join_fuel); intros jrun Hframe.
  cbn. rewrite Hi. cbn. rewrite Hf. cbn.
  focus w i e He. rewrite Ht. cbn in Hi; subst ini.
  destruct (cancel e) as [c|] eqn:Hc; opsimpl.
  all: name_join jrun Hframe; opsimpl; cbn in * |-.
  all: match goal with
       | |- context [cleanup_entry ?env ?i ?w] =>
           rewrite (cleanup_entry_occupied env i w (set_thread_running false ej))
       end;
       [ | opsimpl; reflexivity | cbn; destruct Hj as (-> & _); exact Hu ].
  all: opsimpl; unfold free_events; cbn.
  all: rewrite <- (app_assoc tj); cbn.
  all: destruct (cancel ej); cbn; reflexivity.
Qed.

(** ** The loops of [mpv_preload_clear_all] *)

Lemma signal_slot_eq i w e :
  entries w !! i = Some e ->
  signal_slot i w =
  (tt,
   (if non_null (url e) then
      {| entries := <[i := set_cancel_requested true e]> (entries w);
         initialized := initialized w;
         g_preload_callback := g_preload_callback w;
         triggered := triggered_after (cancel e) (triggered w);
         next_handle := next_handle w |}
    else w),
   if non_null (url e) then EvStopFlag i :: trigger_events (cancel e)
   else []).
Proof.
  intros He. unfold signal_slot; op_unfold. cbn. rewrite He. cbn.
  destruct (non_null (url e)); [|reflexivity].
  focus w i e He. destruct (cancel e); reflexivity.
Qed.

Lemma signal_slot_none i w :
  entries w !! i = None -> signal_slot i w = (tt, w, []).
Proof.
  intros He. unfold signal_slot; op_unfold. cbn. rewrite He. reflexivity.
Qed.

Lemma join_slot_eq env i w e :
  entries w !! i = Some e ->
  let s := thread_run join_fuel (g_preload_callback w) (triggered w)
             (next_handle w) (engine env i) e in
  join_slot env i w =
  if thread_running e then
    (tt,
     {| entries := <[i := set_thread_running false (fst (fst s))]> (entries w);
        initialized := initialized w;
        g_preload_callback := g_preload_callback w;
        triggered := triggered w; next_handle := snd s |},
     EvJoin i :: snd (fst s))
  else (tt, w, []).
Proof.
  intros He. unfold join_slot; op_unfold.
  generalize (thread_run join_fuel); intros jrun.
  cbn. rewrite He. cbn.
  destruct (thread_running e); [|reflexivity].
  focus w i e He. rewrite app_nil_r. reflexivity.
Qed.

Lemma join_slot_none env i w :
  entries w !! i = None -> join_slot env i w = (tt, w, []).
Proof.
  intros He. unfold join_slot; op_unfold. cbn. rewrite He. reflexivity.
Qed.

Lemma slot_local_intro (body : nat -> Op unit) :
  (forall k w, entries w !! k = None -> state_of (body k w) = w) ->
  (forall k w e, entries w !! k = Some e ->
     state_of (body k w) = w \/
     exists e', entries (state_of (body k w)) = <[k := e']> (entries w) /\
       initialized (state_of (body k w)) = initialized w /\
       g_preload_callback (state_of (body k w)) = g_preload_callback w) ->
  slot_local body.
Proof.
  intros Hnone Hsome k w. cbn.
  destruct (entries w !! k) as [e|] eqn:He.
  - destruct (Hsome k w e He) as [-> | (e' & Hent & Hi & Hc)].
    + repeat split.
    + rewrite Hent, Hi, Hc. repeat split.
      * intros j Hj. apply list_lookup_insert_ne. congruence.
      * apply length_insert.
  - rewrite (Hnone k w He). repeat split.
Qed.

Lemma signal_slot_local : slot_local signal_slot.
Proof.
  apply slot_local_intro.
  - intros k w He. rewrite (signal_slot_none _ _ He). reflexivity.
  - intros k w e He. rewrite (signal_slot_eq _ _ _ He). unfold state_of. cbn.
    destruct (non_null (url e)); [right|left; reflexivity].
    eexists. repeat split.
Qed.

Lemma join_slot_local env : slot_local (join_slot env).
Proof.
  apply slot_local_intro.
  - intros k w He. rewrite (join_slot_none _ _ _ He). reflexivity.
  - intros k w e He. rewrite (join_slot_eq _ _ _ _ He). unfold state_of.
    destruct (thread_running e); [right|left; reflexivity].
    eexists. repeat split.
Qed.

Lemma cleanup_entry_local env : slot_local (cleanup_entry env).
Proof.
  apply slot_local_intro.
  - intros k w He. rewrite cleanup_entry_free; [reflexivity|].
    rewrite He. reflexivity.
  - intros k w e He. destruct (url e) eqn:Hu.
    + right. rewrite (cleanup_entry_occupied _ _ _ _ He) by congruence.
      eexists. repeat split.
    + left. rewrite cleanup_entry_free; [reflexivity|]. rewrite He. exact Hu.
Qed.

Lemma for_each_slot_S body n i w :
  for_each_slot (S n) i body w =
  (tt, state_of (for_each_slot n (S i) body (state_of (body i w))),
   trace_of (body i w) ++
   trace_of (for_each_slot n (S i) body (state_of (body i w)))).
Proof.
  change (for_each_slot (S n) i body w)
    with (bind (body i) (fun _ => for_each_slot n (S i) body) w).
  unfold bind, state_of, trace_of.
  destruct (body i w) as [[[] w1] t1]. cbn.
  destruct (for_each_slot n (S i) body w1) as [[[] w2] t2]. reflexivity.
Qed.

Lemma for_each_slot_frame body n i w :
  slot_local body ->
  let w' := state_of (for_each_slot n i body w) in
  (forall j, (j < i \/ i + n <= j)%nat -> entries w' !! j = entries w !! j) /\
  length (entries w') = length (entries w) /\
  initialized w' = initialized w /\
  g_preload_callback w' = g_preload_callback w.
Proof.
  intros Hl. revert i w. induction n as [|n IH]; intros i w; cbn zeta.
  - repeat split.
  - rewrite for_each_slot_S, !state_of_eq.
    destruct (Hl i w) as (H1 & H2 & H3 & H4).
    destruct (IH (S i) (state_of (body i w))) as (I1 & I2 & I3 & I4).
    repeat split; try congruence.
    intros j Hj. rewrite I1 by lia. apply H1. lia.
Qed.

(** What a loop over the slots does to each slot follows from what its body
    does to its own slot. *)
Lemma for_each_slot_spec body (R : preload_entry -> preload_entry -> Prop) :
  slot_local body ->
  (forall k w e, entries w !! k = Some e ->
     exists e', entries (state_of (body k w)) !! k = Some e' /\ R e e') ->
  forall n i w k e,
    (i <= k < i + n)%nat -> entries w !! k = Some e ->
    exists e',
      entries (state_of (for_each_slot n i body w)) !! k = Some e' /\ R e e'.
Proof.
  intros Hl Hb. induction n as [|n IH]; intros i w k e Hk He; [lia|].
  rewrite for_each_slot_S, state_of_eq.
  destruct (decide (k = i)) as [->|Hne].
  - destruct (Hb i w e He) as (e' & He' & HR). exists e'. split; [|exact HR].
    destruct (for_each_slot_frame body n (S i) (state_of (body i w)) Hl)
      as (F & _).
    rewrite F by lia. exact He'.
  - apply IH; [lia|]. destruct (Hl i w) as (H1 & _). rewrite H1 by done.
    exact He.
Qed.

(** The trace of a loop contains the trace of each body, run on a state in
    which the body's own slot is as it was before the loop. *)
Lemma for_each_slot_trace body
  (T : nat -> preload_entry -> list event -> Prop) :
  slot_local body ->
  (forall k w e, entries w !! k = Some e -> T k e (trace_of (body k w))) ->
  forall n i w k e,
    (i <= k < i + n)%nat -> entries w !! k = Some e ->
    exists pre t post,
      trace_of (for_each_slot n i body w) = pre ++ t ++ post /\ T k e t.
Proof.
  intros Hl Hb. induction n as [|n IH]; intros i w k e Hk He; [lia|].
  rewrite for_each_slot_S, trace_of_eq.
  destruct (decide (k = i)) as [->|Hne].
  - exists [], (trace_of (body i w)). eexists. split; [reflexivity|].
    apply Hb, He.
  - destruct (IH (S i) (state_of (body i w)) k e) as (pre & t & post & Ht & HT).
    + lia.
    + destruct (Hl i w) as (H1 & _). rewrite H1 by done. exact He.
    + exists (trace_of (body i w) ++ pre), t, post. rewrite Ht.
      rewrite <- app_assoc. split; [reflexivity|exact HT].
Qed.

(** ** Searching the table *)

Lemma find_index_Some {A : Type} (p : A -> bool) (l : list A) :
  forall i k,
    find_index p i l = Some k ->
    (i <= k)%nat /\
    (exists x, l !! (k - i)%nat = Some x /\ p x = true) /\
    (forall j y, (j < k - i)%nat -> l !! j = Some y -> p y = false).
Proof.
  induction l as [|x l IH]; intros i k H; unfold find_index in H;
    fold (@find_index A) in H; [discriminate|].
  destruct (p x) eqn:Hp.
  - injection H as <-. split; [lia|]. rewrite Nat.sub_diag. split.
    + exists x. split; [reflexivity|exact Hp].
    + intros j y Hj. lia.
  - destruct (IH _ _ H) as (Hle & (y & Hy & Hpy) & Hbefore).
    split; [lia|]. replace (k - i)%nat with (S (k - S i)) by lia. split.
    + exists y. split; [exact Hy|exact Hpy].
    + intros [|j] z Hj Hz; cbn in Hz.
      * congruence.
      * apply (Hbefore j z); [lia|exact Hz].
Qed.

Lemma find_index_None {A : Type} (p : A -> bool) (l : list A) :
  forall i, find_index p i l = None ->
            forall j y, l !! j = Some y -> p y = false.
Proof.
  induction l as [|x l IH]; intros i H j y Hy; [discriminate|].
  unfold find_index in H; fold (@find_index A) in H.
  destruct (p x) eqn:Hp; [discriminate|].
  destruct j as [|j]; cbn in Hy.
  - congruence.
  - apply (IH _ H j y Hy).
Qed.

Lemma find_index_is_Some {A : Type} (p : A -> bool) (l : list A) :
  forall i j y, l !! j = Some y -> p y = true ->
                exists k, find_index p i l = Some k.
Proof.
  intros i j y Hy Hp. destruct (find_index p i l) as [k|] eqn:H; [eauto|].
  rewrite (find_index_None p l i H j y Hy) in Hp. discriminate.
Qed.

Lemma find_index_0 {A : Type} (p : A -> bool) (l : list A) (k : nat) :
  find_index p 0 l = Some k ->
  (exists x, l !! k = Some x /\ p x = true) /\
  (forall j y, (j < k)%nat -> l !! j = Some y -> p y = false).
Proof.
  intros H. destruct (find_index_Some p l 0 k H) as (_ & H1 & H2).
  rewrite Nat.sub_0_r in H1, H2. split; assumption.
Qed.

Lemma has_url_true u e : has_url u e = true <-> url e = Some u.
Proof.
  unfold has_url. destruct (url e) as [v|].
  - rewrite String.eqb_eq. split; congruence.
  - split; discriminate.
Qed.

Lemma has_url_false u e : has_url u e = false <-> url e <> Some u.
Proof.
  rewrite <- has_url_true. destruct (has_url u e); split; congruence.
Qed.

Lemma find_entry_Some u l i :
  find_index (has_url u) 0 l = Some i ->
  exists e, l !! i = Some e /\ url e = Some u.
Proof.
  intros H. destruct (find_index_0 _ _ _ H) as ((e & He & Hp) & _).
  exists e. split; [exact He|]. apply has_url_true, Hp.
Qed.

Lemma find_entry_None u l :
  find_index (has_url u) 0 l = None ->
  forall j e, l !! j = Some e -> url e <> Some u.
Proof.
  intros H j e He. apply has_url_false. exact (find_index_None _ _ _ H j e He).
Qed.

Lemma find_free_Some l i :
  find_index (fun e => negb (non_null (url e))) 0 l = Some i ->
  exists e, l !! i = Some e /\ url e = None.
Proof.
  intros H. destruct (find_index_0 _ _ _ H) as ((e & He & Hp) & _).
  exists e. split; [exact He|]. destruct (url e); [discriminate|reflexivity].
Qed.

Lemma find_free_None l :
  find_index (fun e => negb (non_null (url e))) 0 l = None ->
  forall j e, l !! j = Some e -> url e <> None.
Proof.
  intros H j e He Hu. pose proof (find_index_None _ _ _ H j e He) as Hp.
  cbn in Hp. rewrite Hu in Hp. discriminate.
Qed.

(** With unique urls, the slot found for a url is the only one with it. *)
Lemma find_entry_unique u l i e :
  unique_urls l -> l !! i = Some e -> url e = Some u ->
  find_index (has_url u) 0 l = Some i.
Proof.
  intros Hun He Hu.
  destruct (find_index_is_Some (has_url u) l 0 i e He) as (k & Hk).
  { apply has_url_true, Hu. }
  destruct (find_entry_Some _ _ _ Hk) as (e' & He' & Hu').
  rewrite Hk. f_equal. exact (Hun k i e' e u He' He Hu' Hu).
Qed.

(** ** The invariant of the registry *)

Lemma entry_inv_zero : entry_inv zero_entry.
Proof. unfold entry_inv, free_inv. cbn. tauto. Qed.

Lemma world_inv_init : world_inv init_world.
Proof.
  split; cbn.
  - reflexivity.
  - repeat constructor; apply entry_inv_zero.
  - intros i j ei ej u Hi _ Hu. exfalso.
    do 5 (destruct i as [|i]; cbn in Hi; try discriminate;
          try (injection Hi as <-; discriminate Hu)).
  - intros _. repeat constructor.
Qed.

Lemma world_inv_same w w' :
  world_inv w -> entries w' = entries w ->
  initialized w' = true \/ initialized w' = initialized w ->
  world_inv w'.
Proof.
  intros [H1 H2 H3 H4] He Hi. split; rewrite ?He; try assumption.
  intros Hf. apply H4. destruct Hi; congruence.
Qed.

Lemma world_inv_replace w w' i e e' :
  world_inv w -> entries w !! i = Some e ->
  entries w' = <[i := e']> (entries w) ->
  entry_inv e' ->
  (url e' = None \/ url e' = url e \/
   exists u, url e' = Some u /\ find_index (has_url u) 0 (entries w) = None) ->
  (initialized w' = true \/
   initialized w' = initialized w /\ (initialized w = false -> url e' = None)) ->
  world_inv w'.
Proof.
  intros [H1 H2 H3 H4] He Hent Hinv Hurl Hini.
  pose proof (lookup_lt_Some _ _ _ He) as Hlt.
  split; rewrite Hent.
  - rewrite length_insert. exact H1.
  - apply Forall_insert; assumption.
  - intros j1 j2 e1 e2 u.
    destruct (decide (j1 = i)) as [->|N1], (decide (j2 = i)) as [->|N2];
      try reflexivity;
      rewrite ?list_lookup_insert_eq by assumption;
      rewrite ?list_lookup_insert_ne by congruence;
      intros L1 L2 U1 U2.
    + injection L1 as <-. exfalso.
      destruct Hurl as [Hu | [Hu | (v & Hu & Hf)]].
      * congruence.
      * apply N2. symmetry. apply (H3 i j2 e e2 u); congruence.
      * apply (find_entry_None _ _ Hf j2 e2 L2). congruence.
    + injection L2 as <-. exfalso.
      destruct Hurl as [Hu | [Hu | (v & Hu & Hf)]].
      * congruence.
      * apply N1. apply (H3 j1 i e1 e u); congruence.
      * apply (find_entry_None _ _ Hf j1 e1 L1). congruence.
    + apply (H3 j1 j2 e1 e2 u); assumption.
  - intros Hf. destruct Hini as [Hi | [Hi Hn]]; [congruence|].
    apply Forall_insert; [apply H4; congruence|apply Hn; congruence].
Qed.

(** ** The victim of an eviction *)

Lemma oldest_loop_acc l :
  forall i v t,
  exists k,
    oldest_loop i l (Some v) t = Some k /\
    ((k = v /\ forall j e, l !! j = Some e -> t <= create_time e) \/
     (exists e,
        (i <= k)%nat /\ l !! (k - i)%nat = Some e /\ create_time e < t /\
        (forall j ej, l !! j = Some ej -> create_time e <= create_time ej) /\
        (forall j ej, (j < k - i)%nat -> l !! j = Some ej ->
                      create_time e < create_time ej))).
Proof.
  induction l as [|x l IH]; intros i v t.
  - exists v. split; [reflexivity|]. left. split; [reflexivity|].
    intros j e H. discriminate.
  - unfold oldest_loop; fold oldest_loop. cbn [non_null negb orb].
    destruct (create_time x <? t) eqn:Hlt.
    + apply Z.ltb_lt in Hlt.
      destruct (IH (S i) i (create_time x))
        as (k & Hk & [[-> Hmin] | (e & Hle & He & Hct & Hmin & Hstrict)]).
      * exists i. split; [exact Hk|]. right. exists x.
        rewrite Nat.sub_diag.
        split; [lia|]. split; [reflexivity|]. split; [lia|].
        split; intros [|j] ej; cbn; intros; simplify_eq; try lia; eauto.
      * exists k. split; [exact Hk|]. right. exists e.
        replace (k - i)%nat with (S (k - S i)) by lia.
        split; [lia|]. split; [exact He|]. split; [lia|].
        split; intros [|j] ej; cbn; intros; simplify_eq; try lia; eauto.
        apply (Hstrict j ej); [lia|assumption].
    + apply Z.ltb_ge in Hlt.
      destruct (IH (S i) v t)
        as (k & Hk & [[-> Hmin] | (e & Hle & He & Hct & Hmin & Hstrict)]).
      * exists v. split; [exact Hk|]. left. split; [reflexivity|].
        intros [|j] ej; cbn; intros; simplify_eq; try lia; eauto.
      * exists k. split; [exact Hk|]. right. exists e.
        replace (k - i)%nat with (S (k - S i)) by lia.
        split; [lia|]. split; [exact He|]. split; [lia|].
        split; intros [|j] ej; cbn; intros; simplify_eq; try lia; eauto.
        apply (Hstrict j ej); [lia|assumption].
Qed.

(** The scan returns the first slot among those with the smallest
    [create_time]. *)
Lemma oldest_loop_spec l :
  l <> [] ->
  exists v e,
    oldest_loop 0 l None 0 = Some v /\ l !! v = Some e /\
    (forall j ej, l !! j = Some ej -> create_time e <= create_time ej) /\
    (forall j ej, (j < v)%nat -> l !! j = Some ej ->
                  create_time e < create_time ej).
Proof.
  destruct l as [|x l]; [congruence|]. intros _.
  unfold oldest_loop; fold oldest_loop. cbn [non_null negb orb].
  destruct (oldest_loop_acc l 1 0%nat (create_time x))
    as (k & Hk & [[-> Hmin] | (e & Hle & He & Hct & Hmin & Hstrict)]).
  - exists 0%nat, x. split; [exact Hk|]. split; [reflexivity|].
    split; intros [|j] ej; cbn; intros; simplify_eq; try lia; eauto.
  - exists k, e. split; [exact Hk|].
    destruct k as [|k]; [lia|]. cbn in He. rewrite Nat.sub_0_r in He.
    split; [exact He|].
    split; intros [|j] ej; cbn; intros; simplify_eq; try lia; eauto.
    apply (Hstrict j ej); [cbn; lia|assumption].
Qed.

(** ** The invariant is kept by every step *)

Lemma world_inv_lookup w i e :
  world_inv w -> entries w !! i = Some e -> entry_inv e.
Proof. intros [_ H _ _] He. exact (Forall_lookup_1 _ _ _ _ H He). Qed.

Lemma entry_inv_occupied e :
  entry_inv e -> url e <> None -> thread_running e = true /\ thread_inv e.
Proof. unfold entry_inv. destruct (url e); [tauto|congruence]. Qed.

Lemma entry_inv_free e : entry_inv e -> url e = None -> free_inv e.
Proof. unfold entry_inv. intros H Hu. rewrite Hu in H. exact H. Qed.

Lemma thread_inv_not_none e : thread_inv e -> thread e <> T_none.
Proof. unfold thread_inv. destruct (thread e); congruence || tauto. Qed.

Lemma entry_inv_step cb trig fresh r e :
  entry_inv e -> entry_inv (fst (fst (preload_thread_step cb trig fresh r e))).
Proof.
  intros H. destruct (url e) eqn:Hu.
  - destruct (entry_inv_occupied e H) as (Hr & Ht); [congruence|].
    unfold entry_inv. rewrite step_url, Hu. split.
    + destruct (step_frame cb trig fresh r e) as (_ & -> & _). exact Hr.
    + apply step_thread_inv, Ht.
  - pose proof (entry_inv_free e H Hu) as (_ & _ & _ & _ & _ & Ht).
    rewrite (step_idle _ _ _ _ _ Ht). exact H.
Qed.

Lemma entry_inv_claimed ej :
  thread ej = T_exited -> entry_inv (claimed ej).
Proof.
  intros Hex. unfold entry_inv, free_inv, claimed. cbn. tauto.
Qed.

Lemma joined_exits env w i e :
  thread_inv e -> thread (fst (fst (joined env w i e))) = T_exited.
Proof.
  intros Ht. unfold joined. apply join_exits; [reflexivity|].
  apply thread_inv_not_none, Ht.
Qed.

Lemma joined_frame env w i e :
  let e' := fst (fst (joined env w i e)) in
  url e' = url e /\ thread_running e' = thread_running e /\
  max_bytes e' = max_bytes e /\ readahead_secs e' = readahead_secs e /\
  create_time e' = create_time e.
Proof.
  unfold joined.
  pose proof (thread_run_frame join_fuel (g_preload_callback w) (triggered w)
                (next_handle w) (engine env i) (set_cancel_requested true e))
    as H.
  cbn zeta in *. revert H.
  generalize (thread_run join_fuel (g_preload_callback w) (triggered w)
                (next_handle w) (engine env i) (set_cancel_requested true e)).
  intros [[ej tj] nj]. cbn. tauto.
Qed.

Lemma joined_demuxer env w i e :
  thread_inv e -> demuxer e <> None ->
  demuxer (fst (fst (joined env w i e))) = demuxer e.
Proof.
  intros Ht Hd. unfold joined.
  apply (thread_run_demuxer_keep join_fuel _ _ _ _
           (set_cancel_requested true e)); assumption.
Qed.

Lemma entry_inv_started env u opts e :
  free_inv e -> entry_inv (started env u opts e).
Proof.
  intros (_ & _ & Hd & _). unfold entry_inv, thread_inv, started, init_entry.
  cbn. repeat split; try reflexivity. exact Hd.
Qed.

Lemma entry_inv_rolled_back env u opts e :
  free_inv e -> entry_inv (rolled_back env u opts e).
Proof.
  intros (_ & Hr & Hd & Hg & Hc & Ht).
  unfold entry_inv, free_inv, rolled_back, init_entry. cbn. tauto.
Qed.

Lemma free_inv_zero : free_inv zero_entry.
Proof. unfold free_inv. cbn. tauto. Qed.

Lemma oldest_loop_is_Some w :
  world_inv w ->
  exists v e,
    oldest_loop 0 (entries w) None 0 = Some v /\ entries w !! v = Some e /\
    (forall j ej, entries w !! j = Some ej ->
                  create_time e <= create_time ej) /\
    (forall j ej, (j < v)%nat -> entries w !! j = Some ej ->
                  create_time e < create_time ej).
Proof.
  intros [Hlen _ _ _]. apply oldest_loop_spec.
  destruct (entries w); [discriminate|congruence].
Qed.

(** The slot that [mpv_preload_start] takes for a new url: the first free
    one, or else the shown victim, cleaned first. [e0] is the content of
    the slot when the new entry is written into it. *)
Lemma start_new_slot env opts w u :
  world_inv w ->
  String.eqb u "" = false ->
  find_index (has_url u) 0 (entries w) = None ->
  exists i e e0 t,
    entries w !! i = Some e /\
    ((find_index (fun e => negb (non_null (url e))) 0 (entries w) = Some i /\
      e0 = e /\ t = [] /\ url e = None) \/
     (find_index (fun e => negb (non_null (url e))) 0 (entries w) = None /\
      oldest_loop 0 (entries w) None 0 = Some i /\
      e0 = zero_entry /\ url e <> None /\
      t = trace_of (cleanup_entry env i (initialized_world w)))) /\
    free_inv e0 /\
    let r := mpv_preload_start env (Some u) opts w in
    result r = (if thread_create_ok env then 0 else -1) /\
    entries (state_of r) =
      <[i := if thread_create_ok env then started env u opts e0
             else rolled_back env u opts e0]> (entries w) /\
    initialized (state_of r) = true /\
    g_preload_callback (state_of r) = g_preload_callback w /\
    trace_of r =
      EvLock :: t ++
      (if thread_create_ok env then [EvSpawn i] else []) ++ [EvUnlock].
Proof.
  intros Hinv Hu Hf.
  destruct (find_index (fun e => negb (non_null (url e))) 0 (entries w))
    as [i|] eqn:Hfree.
  - destruct (find_free_Some _ _ Hfree) as (e & He & Hue).
    exists i, e, e, []. split; [exact He|]. split; [left; tauto|].
    split; [exact (entry_inv_free e (world_inv_lookup _ _ _ Hinv He) Hue)|].
    cbn zeta.
    rewrite (start_new env opts w u i (initialized_world w) [] e Hu Hf).
    + rewrite result_eq, state_of_eq, trace_of_eq. cbn.
      rewrite initialized_world_entries, initialized_world_initialized.
      repeat split. unfold initialized_world.
      destruct (initialized w); reflexivity.
    + apply find_free_slot_free. rewrite initialized_world_entries.
      exact Hfree.
    + rewrite initialized_world_entries. exact He.
  - destruct (oldest_loop_is_Some w Hinv) as (v & e & Hv & He & _).
    pose proof (find_free_None _ Hfree v e He) as Hue.
    exists v, e, zero_entry, (trace_of (cleanup_entry env v (initialized_world w))).
    split; [exact He|]. split; [right; tauto|]. split; [exact free_inv_zero|].
    cbn zeta.
    assert (Hc : entries (initialized_world w) !! v = Some e)
      by (rewrite initialized_world_entries; exact He).
    rewrite (start_new env opts w u v
               (state_of (cleanup_entry env v (initialized_world w)))
               (trace_of (cleanup_entry env v (initialized_world w)))
               zero_entry Hu Hf).
    + rewrite result_eq, state_of_eq, trace_of_eq.
      rewrite (cleanup_entry_occupied _ _ _ _ Hc Hue). rewrite state_of_eq.
      cbn. rewrite initialized_world_entries, initialized_world_initialized.
      rewrite list_insert_insert_eq. repeat split.
      unfold initialized_world. destruct (initialized w); reflexivity.
    + apply find_free_slot_evict; rewrite initialized_world_entries;
        assumption.
    + rewrite (cleanup_entry_occupied _ _ _ _ Hc Hue). rewrite state_of_eq.
      cbn. apply list_lookup_insert_eq. rewrite initialized_world_entries.
      exact (lookup_lt_Some _ _ _ He).
Qed.

Lemma String_eqb_empty u : String.eqb u "" = true -> u = EmptyString.
Proof. apply String.eqb_eq. Qed.

Lemma world_inv_start env u opts w :
  world_inv w -> world_inv (state_of (mpv_preload_start env u opts w)).
Proof.
  intros Hinv. destruct u as [u|]; [|exact Hinv].
  destruct (String.eqb u "") eqn:Hu.
  - apply String_eqb_empty in Hu. subst u. exact Hinv.
  - destruct (find_index (has_url u) 0 (entries w)) as [i|] eqn:Hf.
    + rewrite (start_existing env opts w u i Hf Hu), state_of_eq.
      apply (world_inv_same w); [exact Hinv| |].
      * apply initialized_world_entries.
      * left. apply initialized_world_initialized.
    + destruct (start_new_slot env opts w u Hinv Hu Hf)
        as (i & e & e0 & t & He & Hcase & Hfree & _ & Hent & Hini & _).
      apply (world_inv_replace w _ i e _ Hinv He Hent).
      * destruct (thread_create_ok env);
          [apply entry_inv_started|apply entry_inv_rolled_back]; exact Hfree.
      * destruct (thread_create_ok env).
        -- right. right. exists u. split; [reflexivity|exact Hf].
        -- left. reflexivity.
      * left. exact Hini.
Qed.

Lemma world_inv_get_info env u info w :
  world_inv w -> world_inv (state_of (mpv_preload_get_info env u info w)).
Proof. rewrite get_info_state. tauto. Qed.

(** [mpv_preload_get_demuxer], case by case. *)
Lemma get_demuxer_cases env u w :
  world_inv w ->
  mpv_preload_get_demuxer env u w = (None, w, []) \/
  mpv_preload_get_demuxer env u w = (None, w, [EvLock; EvUnlock]) \/
  exists s i e,
    u = Some s /\ initialized w = true /\
    find_index (has_url s) 0 (entries w) = Some i /\
    entries w !! i = Some e /\ url e = Some s /\
    not_claimable e = false /\ thread_running e = true /\ thread_inv e /\
    let j := joined env w i e in
    mpv_preload_get_demuxer env u w =
    (demuxer (fst (fst j)),
     {| entries := <[i := claimed (fst (fst j))]> (entries w);
        initialized := true;
        g_preload_callback := g_preload_callback w;
        triggered := triggered w; next_handle := snd j |},
     [EvLock; EvStopFlag i; EvUnlock; EvJoin i] ++ snd (fst j) ++
     [EvLock] ++ steal_events (fst (fst j)) ++ [EvUnlock]).
Proof.
  intros Hinv. destruct u as [s|]; [|left; reflexivity].
  destruct (initialized w) eqn:Hi;
    [|left; apply get_demuxer_uninitialized, Hi].
  destruct (find_index (has_url s) 0 (entries w)) as [i|] eqn:Hf;
    [|right; left; apply get_demuxer_absent; assumption].
  destruct (find_entry_Some _ _ _ Hf) as (e & He & Hu).
  destruct (not_claimable e) eqn:Hn;
    [right; left; apply (get_demuxer_refused env s w i e); assumption|].
  destruct (entry_inv_occupied e (world_inv_lookup _ _ _ Hinv He))
    as (Hr & Ht); [congruence|].
  right; right. exists s, i, e. repeat split; try assumption.
  apply get_demuxer_taken; assumption.
Qed.

Lemma world_inv_get_demuxer env u w :
  world_inv w -> world_inv (state_of (mpv_preload_get_demuxer env u w)).
Proof.
  intros Hinv.
  destruct (get_demuxer_cases env u w Hinv)
    as [-> | [-> | (s & i & e & -> & Hi & Hf & He & Hu & Hn & Hr & Ht & Heq)]];
    try exact Hinv.
  cbn zeta in Heq. rewrite Heq, state_of_eq.
  eapply (world_inv_replace w _ i e _ Hinv He).
  - reflexivity.
  - apply entry_inv_claimed, joined_exits, Ht.
  - left. reflexivity.
  - left. reflexivity.
Qed.

(** [mpv_preload_cancel], case by case. *)
Lemma cancel_cases env u w :
  world_inv w ->
  (exists t, mpv_preload_cancel env u w = (-1, w, t)) \/
  exists s i e,
    u = Some s /\ initialized w = true /\
    find_index (has_url s) 0 (entries w) = Some i /\
    entries w !! i = Some e /\ url e = Some s /\
    thread_running e = true /\ thread_inv e /\
    let trig1 := triggered_after (cancel e) (triggered w) in
    let j := thread_run join_fuel (g_preload_callback w) trig1
               (next_handle w) (engine env i) (set_cancel_requested true e) in
    mpv_preload_cancel env u w =
    (0,
     {| entries := <[i := zero_entry]> (entries w);
        initialized := true;
        g_preload_callback := g_preload_callback w;
        triggered := triggered_after (cancel (fst (fst j))) trig1;
        next_handle := snd j |},
     [EvLock; EvStopFlag i] ++ trigger_events (cancel e) ++
     [EvUnlock; EvJoin i] ++ snd (fst j) ++
     [EvLock; EvStopFlag i] ++ trigger_events (cancel (fst (fst j))) ++
     free_events (fst (fst j)) ++ [EvUnlock]).
Proof.
  intros Hinv. destruct u as [s|]; [|left; eexists; reflexivity].
  destruct (initialized w) eqn:Hi;
    [|left; eexists; apply cancel_uninitialized, Hi].
  destruct (find_index (has_url s) 0 (entries w)) as [i|] eqn:Hf;
    [|left; eexists; apply cancel_absent; assumption].
  destruct (find_entry_Some _ _ _ Hf) as (e & He & Hu).
  destruct (entry_inv_occupied e (world_inv_lookup _ _ _ Hinv He))
    as (Hr & Ht); [congruence|].
  right. exists s, i, e. repeat split; try assumption.
  apply cancel_found; try assumption. congruence.
Qed.

Lemma world_inv_cancel env u w :
  world_inv w -> world_inv (state_of (mpv_preload_cancel env u w)).
Proof.
  intros Hinv.
  destruct (cancel_cases env u w Hinv)
    as [(t & ->) | (s & i & e & -> & Hi & Hf & He & Hu & Hr & Ht & Heq)];
    try exact Hinv.
  cbn zeta in Heq. rewrite Heq, state_of_eq.
  eapply (world_inv_replace w _ i e _ Hinv He).
  - reflexivity.
  - apply entry_inv_zero.
  - left. reflexivity.
  - left. reflexivity.
Qed.

Lemma world_inv_worker r i w :
  world_inv w -> world_inv (state_of (worker_step r i w)).
Proof.
  intros Hinv. destruct (entries w !! i) as [e|] eqn:He.
  - rewrite (worker_step_eq r i w e He), state_of_eq.
    eapply (world_inv_replace w _ i e _ Hinv He).
    + reflexivity.
    + apply entry_inv_step. exact (world_inv_lookup _ _ _ Hinv He).
    + right. left. apply step_url.
    + right. split; [reflexivity|]. intros Hf. rewrite step_url.
      destruct Hinv as [_ _ _ H4].
      exact (Forall_lookup_1 _ _ _ _ (H4 Hf) He).
  - rewrite (worker_step_none r i w He). exact Hinv.
Qed.

Lemma clear_all_uninitialized env w :
  initialized w = false -> mpv_preload_clear_all env w = (tt, w, []).
Proof.
  intros Hi. unfold mpv_preload_clear_all; op_unfold. cbn. rewrite Hi.
  reflexivity.
Qed.

Lemma clear_all_eq env w :
  initialized w = true ->
  let n := MPV_PRELOAD_MAX_ENTRIES in
  let r1 := for_each_slot n 0 signal_slot w in
  let r2 := for_each_slot n 0 (join_slot env) (state_of r1) in
  let r3 := for_each_slot n 0 (cleanup_entry env) (state_of r2) in
  mpv_preload_clear_all env w =
  (tt, state_of r3,
   [EvLock] ++ trace_of r1 ++ [EvUnlock] ++ trace_of r2 ++
   [EvLock] ++ trace_of r3 ++ [EvUnlock]).
Proof.
  intros Hi. unfold mpv_preload_clear_all; op_unfold. cbv zeta.
  generalize (for_each_slot MPV_PRELOAD_MAX_ENTRIES 0 signal_slot).
  generalize (for_each_slot MPV_PRELOAD_MAX_ENTRIES 0 (join_slot env)).
  generalize (for_each_slot MPV_PRELOAD_MAX_ENTRIES 0 (cleanup_entry env)).
  intros f3 f2 f1. cbn. rewrite Hi. cbn.
  destruct (f1 w) as [[[] w1] t1]; cbn.
  destruct (f2 w1) as [[[] w2] t2]; cbn.
  destruct (f3 w2) as [[[] w3] t3]; cbn.
  reflexivity.
Qed.

Lemma signal_slot_spec k w e :
  entries w !! k = Some e ->
  exists e',
    entries (state_of (signal_slot k w)) !! k = Some e' /\
    e' = if non_null (url e) then set_cancel_requested true e else e.
Proof.
  intros He. rewrite (signal_slot_eq _ _ _ He), state_of_eq.
  eexists. split; [|reflexivity].
  destruct (non_null (url e)); [|exact He]. cbn.
  apply list_lookup_insert_eq, (lookup_lt_Some _ _ _ He).
Qed.

Lemma join_slot_spec env k w e :
  entries w !! k = Some e ->
  exists e',
    entries (state_of (join_slot env k w)) !! k = Some e' /\
    if thread_running e then
      exists cb trig nh r,
        e' = set_thread_running false
               (fst (fst (thread_run join_fuel cb trig nh r e)))
    else e' = e.
Proof.
  intros He. rewrite (join_slot_eq _ _ _ _ He).
  destruct (thread_running e); rewrite state_of_eq.
  - eexists. split.
    + cbn. apply list_lookup_insert_eq, (lookup_lt_Some _ _ _ He).
    + eauto.
  - eauto.
Qed.

Lemma cleanup_entry_spec env k w e :
  entries w !! k = Some e ->
  exists e',
    entries (state_of (cleanup_entry env k w)) !! k = Some e' /\
    e' = if non_null (url e) then zero_entry else e.
Proof.
  intros He. destruct (url e) eqn:Hu; cbn.
  - rewrite (cleanup_entry_occupied _ _ _ _ He) by congruence.
    rewrite state_of_eq. cbn. eexists. split; [|reflexivity].
    apply list_lookup_insert_eq, (lookup_lt_Some _ _ _ He).
  - rewrite cleanup_entry_free by (rewrite He; exact Hu). eauto.
Qed.

(** [mpv_preload_clear_all] empties every occupied slot. *)
Lemma clear_all_entries env w :
  world_inv w -> initialized w = true ->
  let w' := state_of (mpv_preload_clear_all env w) in
  (forall k e, entries w !! k = Some e ->
     entries w' !! k = Some (if non_null (url e) then zero_entry else e)) /\
  length (entries w') = length (entries w) /\
  initialized w' = true /\
  g_preload_callback w' = g_preload_callback w.
Proof.
  intros Hinv Hi. cbn zeta. rewrite (clear_all_eq env w Hi), state_of_eq.
  set (n := MPV_PRELOAD_MAX_ENTRIES).
  set (w1 := state_of (for_each_slot n 0 signal_slot w)).
  set (w2 := state_of (for_each_slot n 0 (join_slot env) w1)).
  destruct (for_each_slot_frame signal_slot n 0 w signal_slot_local)
    as (_ & L1 & I1 & C1).
  destruct (for_each_slot_frame (join_slot env) n 0 w1 (join_slot_local env))
    as (_ & L2 & I2 & C2).
  destruct (for_each_slot_frame (cleanup_entry env) n 0 w2
              (cleanup_entry_local env)) as (_ & L3 & I3 & C3).
  fold w1 in L1, I1, C1. fold w2 in L2, I2, C2.
  repeat split; try congruence.
  intros k e He.
  assert (Hk : (0 <= k < 0 + n)%nat).
  { pose proof (lookup_lt_Some _ _ _ He) as Hlt.
    rewrite (inv_length w Hinv) in Hlt. unfold n. lia. }
  destruct (for_each_slot_spec signal_slot _ signal_slot_local
              signal_slot_spec n 0 w k e Hk He) as (e1 & He1 & R1).
  fold w1 in He1.
  destruct (for_each_slot_spec (join_slot env) _ (join_slot_local env)
              (join_slot_spec env) n 0 w1 k e1 Hk He1) as (e2 & He2 & R2).
  fold w2 in He2.
  destruct (for_each_slot_spec (cleanup_entry env) _ (cleanup_entry_local env)
              (cleanup_entry_spec env) n 0 w2 k e2 Hk He2) as (e3 & He3 & R3).
  rewrite He3. f_equal. subst e3.
  pose proof (world_inv_lookup _ _ _ Hinv He) as Hei.
  destruct (url e) as [u|] eqn:Hu; cbn in R1 |- *.
  - destruct (entry_inv_occupied e Hei) as (Hr & _); [congruence|].
    subst e1. cbn in R2. rewrite Hr in R2.
    destruct R2 as (cb & trig & nh & r & ->).
    destruct (thread_run_frame join_fuel cb trig nh r
                (set_cancel_requested true e)) as (Hu2 & _).
    revert Hu2.
    generalize (thread_run join_fuel cb trig nh r
                  (set_cancel_requested true e)).
    intros [[ej tj] nj]. cbn. intros ->. rewrite Hu. reflexivity.
  - destruct (entry_inv_free e Hei Hu) as (_ & Hr & _).
    subst e1. rewrite Hr in R2. subst e2. rewrite Hu. reflexivity.
Qed.

Lemma world_inv_clear_all env w :
  world_inv w -> world_inv (state_of (mpv_preload_clear_all env w)).
Proof.
  intros Hinv. destruct (initialized w) eqn:Hi.
  - destruct (clear_all_entries env w Hinv Hi) as (Hent & Hlen & Hini & _).
    assert (Hall : forall k x,
      entries (state_of (mpv_preload_clear_all env w)) !! k = Some x ->
      entry_inv x /\ url x = None).
    { intros k x Hx.
      destruct (lookup_lt_is_Some_2 (entries w) k) as (e & He).
      { rewrite <- Hlen. exact (lookup_lt_Some _ _ _ Hx). }
      rewrite (Hent k e He) in Hx. injection Hx as <-.
      destruct (url e) eqn:Hu; cbn.
      - split; [apply entry_inv_zero|reflexivity].
      - split; [exact (world_inv_lookup _ _ _ Hinv He)|exact Hu]. }
    split.
    + rewrite Hlen. apply Hinv.
    + apply Forall_lookup_2. intros k x Hx. apply (Hall k x Hx).
    + intros i j ei ej u H1 _ U1. destruct (Hall i ei H1). congruence.
    + congruence.
  - rewrite (clear_all_uninitialized env w Hi). exact Hinv.
Qed.

Lemma world_inv_exec a w : world_inv w -> world_inv (fst (exec a w)).
Proof.
  intros Hinv. destruct a; cbn.
  - apply (world_inv_same w); [exact Hinv|reflexivity|right; reflexivity].
  - apply world_inv_start, Hinv.
  - apply world_inv_get_info, Hinv.
  - apply world_inv_get_demuxer, Hinv.
  - apply world_inv_cancel, Hinv.
  - apply world_inv_clear_all, Hinv.
  - apply world_inv_worker, Hinv.
Qed.

(** Every state the process can be in satisfies the invariant. *)
Lemma reachable_inv w : reachable w -> world_inv w.
Proof.
  induction 1 as [|a w _ IH]; [exact world_inv_init|].
  apply world_inv_exec, IH.
Qed.

Lemma reachable_run l : reachable (fst (run l init_world)).
Proof.
  assert (H : forall w, reachable w -> reachable (fst (run l w))).
  { induction l as [|a l IH]; intros w Hw; cbn; [exact Hw|].
    apply IH. constructor. exact Hw. }
  apply H. constructor.
Qed.

(** ** Claiming a source: [mpv_preload_get_demuxer] *)

Lemma find_index_None_intro {A : Type} (p : A -> bool) (l : list A) :
  (forall j y, l !! j = Some y -> p y = false) -> find_index p 0 l = None.
Proof.
  intros H. destruct (find_index p 0 l) as [k|] eqn:Hk; [|reflexivity].
  destruct (find_index_0 _ _ _ Hk) as ((x & Hx & Hp) & _).
  rewrite (H k x Hx) in Hp. discriminate.
Qed.

Lemma not_claimable_false e :
  not_claimable e = false <->
  status e <> MPV_PRELOAD_STATUS_NONE /\
  status e <> MPV_PRELOAD_STATUS_ERROR /\ demuxer e <> None.
Proof.
  unfold not_claimable. destruct (status e), (demuxer e); cbn;
    split; try discriminate; try (intros (? & ? & ?); congruence);
    intros _; repeat split; discriminate.
Qed.

Lemma reachable_occupied_initialized w i e :
  world_inv w -> entries w !! i = Some e -> url e <> None ->
  initialized w = true.
Proof.
  intros Hinv He Hu. destruct (initialized w) eqn:Hi; [reflexivity|].
  exfalso. apply Hu.
  exact (Forall_lookup_1 _ _ _ _ (inv_init w Hinv Hi) He).
Qed.

(** After a successful claim no slot has the url any more. *)
Lemma claimed_url_gone w i e u ej :
  world_inv w -> entries w !! i = Some e -> url e = Some u ->
  find_index (has_url u) 0 (<[i := claimed ej]> (entries w)) = None.
Proof.
  intros Hinv He Hu. apply find_index_None_intro. intros j y Hy.
  apply has_url_false. destruct (decide (j = i)) as [->|Hne].
  - rewrite list_lookup_insert_eq in Hy by exact (lookup_lt_Some _ _ _ He).
    injection Hy as <-. discriminate.
  - rewrite list_lookup_insert_ne in Hy by congruence. intros Hy'.
    apply Hne. exact (inv_unique w Hinv j i y e u Hy He Hy' Hu).
Qed.

(** C1. Exactly-once hand-off: when [mpv_preload_get_demuxer] returns a
    demuxer for a url, the slot that held it is free afterwards (url cleared,
    status NONE, no demuxer, no global context, no cancel token),
    [mpv_preload_get_info] for the url answers -1 with a zeroed snapshot
    (status NONE), and a second [mpv_preload_get_demuxer] returns NULL. *)
Theorem C1_exactly_once_handoff env u w d :
  reachable w ->
  result (mpv_preload_get_demuxer env u w) = Some d ->
  let w' := state_of (mpv_preload_get_demuxer env u w) in
  (exists s i e e',
     u = Some s /\ entries w !! i = Some e /\ url e = Some s /\
     demuxer e = Some d /\
     entries w' !! i = Some e' /\
     url e' = None /\ status e' = MPV_PRELOAD_STATUS_NONE /\
     demuxer e' = None /\ global e' = None /\ cancel e' = None /\
     thread_running e' = false) /\
  (forall k ek, entries w' !! k = Some ek -> url ek <> u) /\
  (forall env' info,
     result (mpv_preload_get_info env' u (Some info) w') =
     (-1, Some zero_info)) /\
  info_status zero_info = status_code MPV_PRELOAD_STATUS_NONE /\
  (forall env', result (mpv_preload_get_demuxer env' u w') = None).
Proof.
  intros Hr Hres. pose proof (reachable_inv w Hr) as Hinv. cbn zeta.
  destruct (get_demuxer_cases env u w Hinv)
    as [Heq | [Heq | (s & i & e & -> & Hi & Hf & He & Hu & Hn & Hrun & Ht
                      & Heq)]];
    try (rewrite Heq in Hres; discriminate Hres).
  cbn zeta in Heq. rewrite Heq in Hres |- *.
  rewrite result_eq in Hres. rewrite state_of_eq.
  apply not_claimable_false in Hn as (_ & _ & Hd).
  rewrite (joined_demuxer env w i e Ht Hd) in Hres.
  pose proof (claimed_url_gone w i e s (fst (fst (joined env w i e)))
                Hinv He Hu) as Hgone.
  revert Hgone. generalize (joined env w i e). intros [[ej tj] nj] Hgone.
  cbn [fst snd entries initialized] in *.
  split; [|split; [|split; [|split]]].
  - exists s, i, e, (claimed ej). repeat split; try assumption.
    apply list_lookup_insert_eq, (lookup_lt_Some _ _ _ He).
  - intros k ek Hk Hek. apply (find_entry_None _ _ Hgone k ek Hk Hek).
  - intros env' info. apply get_info_not_found; [reflexivity|exact Hgone].
  - reflexivity.
  - intros env'. rewrite get_demuxer_absent; [reflexivity..|exact Hgone].
Qed.

(** C5. [mpv_preload_get_demuxer] returns a demuxer exactly when a slot has
    the url, a demuxer, and a status that is neither NONE nor ERROR; when it
    returns NULL the state is unchanged. *)
Theorem C5_claim_precondition env u w :
  reachable w ->
  (result (mpv_preload_get_demuxer env u w) <> None <->
   exists s i e,
     u = Some s /\ entries w !! i = Some e /\ url e = Some s /\
     demuxer e <> None /\
     status e <> MPV_PRELOAD_STATUS_NONE /\
     status e <> MPV_PRELOAD_STATUS_ERROR) /\
  (result (mpv_preload_get_demuxer env u w) = None ->
   state_of (mpv_preload_get_demuxer env u w) = w).
Proof.
  intros Hr. pose proof (reachable_inv w Hr) as Hinv.
  assert (Hno : forall t,
    mpv_preload_get_demuxer env u w = (None, w, t) ->
    (forall s i e, u = Some s -> entries w !! i = Some e -> url e = Some s ->
       not_claimable e = true) ->
    (result (mpv_preload_get_demuxer env u w) <> None <->
     exists s i e,
       u = Some s /\ entries w !! i = Some e /\ url e = Some s /\
       demuxer e <> None /\
       status e <> MPV_PRELOAD_STATUS_NONE /\
       status e <> MPV_PRELOAD_STATUS_ERROR) /\
    (result (mpv_preload_get_demuxer env u w) = None ->
     state_of (mpv_preload_get_demuxer env u w) = w)).
  { intros t Heq Hall. rewrite Heq, result_eq, state_of_eq.
    split; [|reflexivity]. split; [congruence|].
    intros (s & i & e & Hs & He & Hu & Hd & H1 & H2). exfalso.
    pose proof (Hall s i e Hs He Hu) as Hn.
    assert (Hf : not_claimable e = false) by (apply not_claimable_false; tauto).
    congruence. }
  destruct u as [s|].
  2:{ apply (Hno []); [reflexivity|]. intros s i e Hs. discriminate Hs. }
  destruct (initialized w) eqn:Hi.
  2:{ apply (Hno []); [apply get_demuxer_uninitialized, Hi|].
      intros s' i e _ He Hu. exfalso.
      pose proof (reachable_occupied_initialized w i e Hinv He) as H.
      rewrite Hu in H. specialize (H ltac:(discriminate)). congruence. }
  destruct (find_index (has_url s) 0 (entries w)) as [i|] eqn:Hf.
  2:{ apply (Hno [EvLock; EvUnlock]);
        [apply get_demuxer_absent; assumption|].
      intros s' i e Hs He Hu. injection Hs as <-. exfalso.
      exact (find_entry_None _ _ Hf i e He Hu). }
  destruct (find_entry_Some _ _ _ Hf) as (e & He & Hu).
  destruct (not_claimable e) eqn:Hn.
  { apply (Hno [EvLock; EvUnlock]);
      [apply (get_demuxer_refused env s w i e); assumption|].
    intros s' i' e' Hs He' Hu'. injection Hs as <-.
    assert (i' = i) as -> by exact (inv_unique w Hinv i' i e' e s He' He Hu' Hu).
    congruence. }
  destruct (entry_inv_occupied e (world_inv_lookup _ _ _ Hinv He))
    as (Hrun & Ht); [congruence|].
  rewrite (get_demuxer_taken env s w i e Hi Hf He Hn Hrun).
  rewrite result_eq, state_of_eq.
  apply not_claimable_false in Hn as (H1 & H2 & Hd).
  rewrite (joined_demuxer env w i e Ht Hd).
  split; [|intros; congruence].
  split; [|intros _; exact Hd].
  intros _. exists s, i, e. tauto.
Qed.

(** ** Starting a session: [mpv_preload_start] *)

Lemma String_eqb_nonempty u : u <> EmptyString -> String.eqb u "" = false.
Proof.
  intros H. destruct (String.eqb u "") eqn:E; [|reflexivity].
  apply String.eqb_eq in E. congruence.
Qed.

(** C8. A start without url, or with the empty url, returns -1 and changes
    nothing. A start that creates an entry gives it [max_bytes] 10 MiB when
    no options are given or the given value is not positive, and the given
    value when it is positive; likewise [readahead_secs] with 10.0. The
    worker never changes these two fields. *)
Theorem C8_start_inputs env opts w :
  reachable w ->
  mpv_preload_start env None opts w = (-1, w, []) /\
  mpv_preload_start env (Some EmptyString) opts w = (-1, w, []) /\
  (forall u,
     u <> EmptyString ->
     find_index (has_url u) 0 (entries w) = None ->
     thread_create_ok env = true ->
     exists i e',
       entries (state_of (mpv_preload_start env (Some u) opts w)) !! i
         = Some e' /\
       url e' = Some u /\
       (opts = None -> max_bytes e' = 10 * 1024 * 1024 /\
                       readahead_secs e' = 10%float) /\
       (forall o, opts = Some o ->
          (opt_max_bytes o <= 0 -> max_bytes e' = 10 * 1024 * 1024) /\
          (0 < opt_max_bytes o -> max_bytes e' = opt_max_bytes o) /\
          (PrimFloat.ltb 0%float (opt_readahead_secs o) = false ->
           readahead_secs e' = 10%float) /\
          (PrimFloat.ltb 0%float (opt_readahead_secs o) = true ->
           readahead_secs e' = opt_readahead_secs o)) /\
       (forall cb trig fresh r,
          let e'' := fst (fst (preload_thread_step cb trig fresh r e')) in
          max_bytes e'' = max_bytes e' /\
          readahead_secs e'' = readahead_secs e')).
Proof.
  intros Hr. pose proof (reachable_inv w Hr) as Hinv.
  split; [reflexivity|]. split; [reflexivity|].
  intros u Hne Hf Hok.
  destruct (start_new_slot env opts w u Hinv (String_eqb_nonempty u Hne) Hf)
    as (i & e & e0 & t & He & _ & _ & _ & Hent & _).
  rewrite Hok in Hent.
  exists i, (started env u opts e0). split.
  { rewrite Hent. apply list_lookup_insert_eq, (lookup_lt_Some _ _ _ He). }
  split; [reflexivity|]. split; [|split].
  - intros ->. split; reflexivity.
  - intros o ->. unfold started, init_entry. cbn. repeat split.
    + intros H. apply Z.ltb_ge in H. rewrite H. reflexivity.
    + intros H. apply Z.ltb_lt in H. rewrite H. reflexivity.
    + intros ->. reflexivity.
    + intros ->. reflexivity.
  - intros cb trig fresh r.
    destruct (step_frame cb trig fresh r (started env u opts e0))
      as (_ & _ & _ & H1 & H2 & _).
    split; assumption.
Qed.

(** C9. When [mp_thread_create] fails, the start returns -1, no thread is
    created, and the slot it had taken is free again: url cleared, status
    NONE, nothing owned; a later start finds a free slot and succeeds. *)
Theorem C9_rollback_on_thread_failure env u opts w :
  reachable w ->
  u <> EmptyString ->
  find_index (has_url u) 0 (entries w) = None ->
  thread_create_ok env = false ->
  let r := mpv_preload_start env (Some u) opts w in
  result r = -1 /\
  (forall k, ~ In (EvSpawn k) (trace_of r)) /\
  (exists i e',
     entries (state_of r) !! i = Some e' /\
     url e' = None /\ status e' = MPV_PRELOAD_STATUS_NONE /\
     thread_running e' = false /\ demuxer e' = None /\
     global e' = None /\ cancel e' = None /\
     (forall j ej, j <> i -> entries (state_of r) !! j = Some ej ->
        entries w !! j = Some ej)) /\
  (forall k ek, entries (state_of r) !! k = Some ek -> url ek <> Some u) /\
  (forall env' u' opts',
     u' <> EmptyString ->
     find_index (has_url u') 0 (entries (state_of r)) = None ->
     thread_create_ok env' = true ->
     let r' := mpv_preload_start env' (Some u') opts' (state_of r) in
     result r' = 0 /\
     exists k ek,
       find_index (fun e => negb (non_null (url e))) 0
         (entries (state_of r)) = Some k /\
       entries (state_of r') !! k = Some ek /\ url ek = Some u' /\
       status ek = MPV_PRELOAD_STATUS_LOADING /\ thread_running ek = true).
Proof.
  intros Hr Hne Hf Hfail. pose proof (reachable_inv w Hr) as Hinv. cbn zeta.
  pose proof (world_inv_start env (Some u) opts w Hinv) as Hinv'.
  destruct (start_new_slot env opts w u Hinv (String_eqb_nonempty u Hne) Hf)
    as (i & e & e0 & t & He & Hcase & Hfree & Hres & Hent & _ & _ & Htr).
  rewrite Hfail in Hres, Hent, Htr.
  pose proof (lookup_lt_Some _ _ _ He) as Hlt.
  assert (Hi : entries (state_of (mpv_preload_start env (Some u) opts w)) !! i
               = Some (rolled_back env u opts e0)).
  { rewrite Hent. apply list_lookup_insert_eq, Hlt. }
  destruct Hfree as (F1 & F2 & F3 & F4 & F5 & F6).
  split; [exact Hres|]. split; [|split; [|split]].
  - intros k Hin. rewrite Htr in Hin.
    destruct Hcase as [(_ & _ & -> & _) | (_ & _ & _ & Hue & ->)].
    + cbn in Hin. intuition discriminate.
    + assert (Hc : entries (initialized_world w) !! i = Some e)
        by (rewrite initialized_world_entries; exact He).
      rewrite (cleanup_entry_occupied _ _ _ _ Hc Hue), trace_of_eq in Hin.
      destruct (entry_inv_occupied e (world_inv_lookup _ _ _ Hinv He) Hue)
        as (Hrun & _).
      rewrite Hrun in Hin.
      pose proof (thread_run_events join_fuel
        (g_preload_callback (initialized_world w))
        (triggered_after (cancel e) (triggered (initialized_world w)))
        (next_handle (initialized_world w)) (engine env i)
        (set_cancel_requested true e)) as Hcb.
      revert Hin Hcb.
      generalize (thread_run join_fuel
        (g_preload_callback (initialized_world w))
        (triggered_after (cancel e) (triggered (initialized_world w)))
        (next_handle (initialized_world w)) (engine env i)
        (set_cancel_requested true e)).
      intros [[ej tj] nj]. cbn [fst snd]. intros Hin Hcb.
      unfold free_events, trigger_events in Hin.
      destruct (cancel e), (demuxer ej), (cancel ej), (global ej);
        cbn in Hin;
        repeat (rewrite in_app_iff in Hin; cbn in Hin);
        intuition (try discriminate);
        match goal with
        | H : In _ tj |- _ => apply (callbacks_only _ _ Hcb) in H;
                              discriminate H
        end.
  - exists i, (rolled_back env u opts e0). split; [exact Hi|].
    repeat split; try assumption.
    intros j ej Hj. rewrite Hent, list_lookup_insert_ne by congruence. tauto.
  - intros k ek Hk. rewrite Hent in Hk.
    destruct (decide (k = i)) as [->|Hki].
    + rewrite list_lookup_insert_eq in Hk by exact Hlt. injection Hk as <-.
      discriminate.
    + rewrite list_lookup_insert_ne in Hk by congruence.
      exact (find_entry_None _ _ Hf k ek Hk).
  - intros env' u' opts' Hne' Hf' Hok'. cbn zeta.
    destruct (start_new_slot env' opts' _ u' Hinv'
                (String_eqb_nonempty u' Hne') Hf')
      as (k & ek & ek0 & t' & Hek & Hcase' & _ & Hres' & Hent' & _).
    rewrite Hok' in Hres', Hent'. split; [exact Hres'|].
    destruct Hcase' as [(Hfr & _) | (Hfr & _)].
    + exists k, (started env' u' opts' ek0). split; [exact Hfr|].
      split; [|repeat split].
      rewrite Hent'. apply list_lookup_insert_eq, (lookup_lt_Some _ _ _ Hek).
    + exfalso. apply (find_free_None _ Hfr i _ Hi). reflexivity.
Qed.

(** The table after [mpv_preload_get_demuxer] and [mpv_preload_cancel]. *)
Lemma get_demuxer_table env u w :
  world_inv w ->
  entries (state_of (mpv_preload_get_demuxer env u w)) = entries w \/
  exists i e ej,
    entries w !! i = Some e /\ url e <> None /\
    entries (state_of (mpv_preload_get_demuxer env u w)) =
    <[i := claimed ej]> (entries w).
Proof.
  intros Hinv.
  destruct (get_demuxer_cases env u w Hinv)
    as [Heq | [Heq | (s & i & e & -> & _ & _ & Hi & Hs & _ & _ & _ & Heq)]].
  - left. rewrite Heq. reflexivity.
  - left. rewrite Heq. reflexivity.
  - right. cbn zeta in Heq. rewrite Heq, state_of_eq. cbn [entries].
    exists i, e. eexists. split; [exact Hi|]. split; [congruence|reflexivity].
Qed.

Lemma cancel_table env u w :
  world_inv w ->
  entries (state_of (mpv_preload_cancel env u w)) = entries w \/
  exists i e,
    entries w !! i = Some e /\ url e <> None /\
    entries (state_of (mpv_preload_cancel env u w)) =
    <[i := zero_entry]> (entries w).
Proof.
  intros Hinv.
  destruct (cancel_cases env u w Hinv)
    as [(t & Heq) | (s & i & e & -> & _ & _ & Hi & Hs & _ & _ & Heq)].
  - left. rewrite Heq. reflexivity.
  - right. cbn zeta in Heq. rewrite Heq, state_of_eq. cbn [entries].
    exists i, e. split; [exact Hi|]. split; [congruence|reflexivity].
Qed.

(** ** The status of an entry *)

Lemma status_le_refl s : status_le s s = true.
Proof. destruct s; reflexivity. Qed.

Lemma fill_status r e :
  info_status (fill_preload_info r e) = status_code (status e).
Proof. unfold fill_preload_info. destruct (demuxer e); reflexivity. Qed.

(** One step: the notifications it makes, followed by any that the new
    position allows, are allowed from the old position. *)
Lemma step_future cb trig fresh r e rest :
  let s := preload_thread_step cb trig fresh r e in
  In rest (future (thread (fst (fst s)))) ->
  In (notified (snd (fst s)) ++ rest) (future (thread e)).
Proof.
  thread_cases e r cb; rewrite ?fill_status; cbn in *; try discriminate;
    intuition (subst; auto).
Qed.

Lemma thread_life_future ins :
  forall fresh e, In (notified (thread_life ins fresh e)) (future (thread e)).
Proof.
  induction ins as [|x ins IH]; intros fresh e.
  - cbn. destruct (thread e) as [| | | | | [|] | [|] |]; cbn; auto.
  - cbn [thread_life]. unfold notified. rewrite flat_map_app.
    fold (notified (snd (fst (preload_thread_step (in_callback x)
      (in_triggered x) fresh (in_reply x)
      (if in_stop x then set_cancel_requested true e else e))))).
    match goal with
    | |- In (_ ++ flat_map notified_status (thread_life ins ?f ?e')) _ =>
        pose proof (IH f e') as H
    end.
    apply step_future in H.
    destruct (in_stop x); exact H.
Qed.

(** What one action can do to a slot: nothing, release it, create an entry
    in it, or let its worker take a step. *)
Lemma exec_slot_cases a w k e e' :
  world_inv w ->
  entries w !! k = Some e -> entries (fst (exec a w)) !! k = Some e' ->
  e' = e \/
  (url e' = None /\ status e' = MPV_PRELOAD_STATUS_NONE) \/
  (exists env u opts e0,
     e' = started env u opts e0 /\ url e <> Some u /\
     (url e = None -> e0 = e)) \/
  (exists cb trig fresh r,
     e' = fst (fst (preload_thread_step cb trig fresh r e))).
Proof.
  intros Hinv He He'.
  assert (Hsame : entries (fst (exec a w)) = entries w -> e' = e).
  { intros Heq. rewrite Heq in He'. congruence. }
  assert (Hput : forall i x,
    entries (fst (exec a w)) = <[i := x]> (entries w) ->
    e' = e \/ (k = i /\ e' = x)).
  { intros i x Heq. rewrite Heq in He'. destruct (decide (k = i)) as [->|Hki].
    - rewrite list_lookup_insert_eq in He' by exact (lookup_lt_Some _ _ _ He).
      right. split; congruence.
    - rewrite list_lookup_insert_ne in He' by congruence. left. congruence. }
  destruct a as [cb|env u opts|env u info|env u|env u|env|i r];
    cbn [exec fst] in He', Hsame, Hput.
  - left. apply Hsame. reflexivity.
  - destruct u as [u|]; [|left; apply Hsame; reflexivity].
    destruct (String.eqb u "") eqn:Hne.
    { apply String_eqb_empty in Hne. subst u. left. apply Hsame.
      reflexivity. }
    destruct (find_index (has_url u) 0 (entries w)) as [i|] eqn:Hf.
    { left. apply Hsame.
      rewrite (start_existing env opts w u i Hf Hne), state_of_eq.
      apply initialized_world_entries. }
    destruct (start_new_slot env opts w u Hinv Hne Hf)
      as (i & ei & e0 & t & Hi & Hcase & Hfree & _ & Hent & _).
    destruct (Hput _ _ Hent) as [Hs | [-> ->]]; [left; exact Hs|].
    assert (ei = e) as -> by congruence.
    destruct (thread_create_ok env).
    + right. right. left. exists env, u, opts, e0. split; [reflexivity|].
      split; [exact (find_entry_None _ _ Hf i e He)|].
      intros Hue. destruct Hcase as [(_ & -> & _) | (_ & _ & _ & Hn & _)];
        [reflexivity|congruence].
    + right. left. split; reflexivity.
  - left. apply Hsame. rewrite get_info_state. reflexivity.
  - destruct (get_demuxer_table env u w Hinv)
      as [Heq | (i & ei & ej & Hi & Hs & Heq)]; [left; apply Hsame, Heq|].
    destruct (Hput _ _ Heq) as [Hs' | [-> ->]]; [left; exact Hs'|].
    right. left. split; reflexivity.
  - destruct (cancel_table env u w Hinv)
      as [Heq | (i & ei & Hi & Hs & Heq)]; [left; apply Hsame, Heq|].
    destruct (Hput _ _ Heq) as [Hs' | [-> ->]]; [left; exact Hs'|].
    right. left. split; reflexivity.
  - destruct (initialized w) eqn:Hini.
    + destruct (clear_all_entries env w Hinv Hini) as (Hent & _).
      rewrite (Hent k e He) in He'. injection He' as <-.
      destruct (non_null (url e)); [right; left; split; reflexivity|].
      left. reflexivity.
    + left. apply Hsame. rewrite (clear_all_uninitialized env w Hini).
      reflexivity.
  - destruct (entries w !! i) as [ei|] eqn:Hi.
    + rewrite (worker_step_eq r i w ei Hi), state_of_eq in Hput.
      cbn [entries] in Hput.
      destruct (Hput _ _ eq_refl) as [Hs' | [-> ->]]; [left; exact Hs'|].
      assert (ei = e) as -> by congruence.
      right. right. right. eauto.
    + left. apply Hsame. rewrite (worker_step_none r i w Hi). reflexivity.
Qed.

(** What one action does to the status of a slot that keeps its url. *)
Lemma exec_status_le a w k e e' :
  world_inv w ->
  entries w !! k = Some e -> entries (fst (exec a w)) !! k = Some e' ->
  url e' = url e -> status_le (status e) (status e') = true.
Proof.
  intros Hinv He He' Hu.
  pose proof (world_inv_lookup _ _ _ Hinv He) as Hei.
  destruct (exec_slot_cases a w k e e' Hinv He He')
    as [-> | [(Hn & Hs) | [(env & u & opts & e0 & -> & Hne & _)
                          | (cb & trig & fresh & r & ->)]]].
  - apply status_le_refl.
  - rewrite Hn in Hu. symmetry in Hu.
    destruct (entry_inv_free e Hei Hu) as (-> & _). reflexivity.
  - cbn in Hu. congruence.
  - destruct (url e) eqn:Hue.
    + apply step_status_le. apply (entry_inv_occupied e Hei). congruence.
    + destruct (entry_inv_free e Hei Hue) as (_ & _ & _ & _ & _ & Ht).
      rewrite (step_idle _ _ _ _ _ Ht). apply status_le_refl.
Qed.

Lemma step_terminal cb trig fresh r e :
  thread_inv e ->
  status e = MPV_PRELOAD_STATUS_CACHED \/
  status e = MPV_PRELOAD_STATUS_ERROR ->
  status (fst (fst (preload_thread_step cb trig fresh r e))) = status e.
Proof.
  unfold thread_inv.
  thread_cases e r cb; intros H [Hs|Hs]; try reflexivity; try tauto;
    repeat match goal with
    | H : _ /\ _ |- _ => destruct H
    | H : _ \/ _ |- _ => destruct H
    end; congruence.
Qed.

(** C4. The status of an entry only moves forward along NONE, LOADING,
    then READY and CACHED, or ERROR: an action never moves the status of a
    slot that keeps its url backwards; a slot becomes occupied with status
    LOADING, from NONE; the worker leaves a status CACHED or ERROR alone;
    and the statuses that the callback is given during the life of one
    worker, whatever it meets, form a subsequence of one of the two chains. *)
Theorem C4_status_monotone w :
  reachable w ->
  (forall a k e e',
     entries w !! k = Some e -> entries (fst (exec a w)) !! k = Some e' ->
     url e' = url e -> status_le (status e) (status e') = true) /\
  (forall a k e e',
     entries w !! k = Some e -> entries (fst (exec a w)) !! k = Some e' ->
     url e = None -> url e' <> None ->
     status e = MPV_PRELOAD_STATUS_NONE /\
     status e' = MPV_PRELOAD_STATUS_LOADING) /\
  (forall k e cb trig fresh r,
     entries w !! k = Some e ->
     status e = MPV_PRELOAD_STATUS_CACHED \/
     status e = MPV_PRELOAD_STATUS_ERROR ->
     status (fst (fst (preload_thread_step cb trig fresh r e))) = status e) /\
  (forall env u opts e0 ins fresh,
     let ns := notified (thread_life ins fresh (started env u opts e0)) in
     sublist ns (map status_code
                   [MPV_PRELOAD_STATUS_NONE; MPV_PRELOAD_STATUS_LOADING;
                    MPV_PRELOAD_STATUS_READY; MPV_PRELOAD_STATUS_CACHED]) \/
     sublist ns (map status_code
                   [MPV_PRELOAD_STATUS_NONE; MPV_PRELOAD_STATUS_LOADING;
                    MPV_PRELOAD_STATUS_ERROR])).
Proof.
  intros Hr. pose proof (reachable_inv w Hr) as Hinv.
  split; [|split; [|split]].
  - intros a k e e'. apply exec_status_le, Hinv.
  - intros a k e e' He He' Hu Hu'.
    pose proof (world_inv_lookup _ _ _ Hinv He) as Hei.
    destruct (entry_inv_free e Hei Hu) as (Hs & _ & _ & _ & _ & Ht).
    split; [exact Hs|].
    destruct (exec_slot_cases a w k e e' Hinv He He')
      as [-> | [(Hn & _) | [(env & u & opts & e0 & -> & _ & _)
                           | (cb & trig & fresh & r & ->)]]].
    + congruence.
    + congruence.
    + reflexivity.
    + rewrite step_url in Hu'. congruence.
  - intros k e cb trig fresh r He Hs.
    pose proof (world_inv_lookup _ _ _ Hinv He) as Hei.
    destruct (url e) eqn:Hue.
    + apply step_terminal; [|exact Hs].
      apply (entry_inv_occupied e Hei). congruence.
    + destruct (entry_inv_free e Hei Hue) as (_ & _ & _ & _ & _ & Ht).
      rewrite (step_idle _ _ _ _ _ Ht). reflexivity.
  - intros env u opts e0 ins fresh. cbn zeta.
    pose proof (thread_life_future ins fresh (started env u opts e0)) as H.
    cbn in H.
    destruct H as [<- | [<- | [<- | [<- | [<- | []]]]]]; cbn.
    + left. apply sublist_nil_l.
    + left. do 2 apply sublist_cons. apply sublist_skip, sublist_nil_l.
    + left. do 3 apply sublist_cons. apply sublist_skip, sublist_nil_l.
    + left. do 2 apply sublist_cons. do 2 apply sublist_skip.
      apply sublist_nil_l.
    + right. do 2 apply sublist_cons. apply sublist_skip, sublist_nil_l.
Qed.

(** ** The notifications *)

Lemma step_notification cb trig fresh r e :
  let s := preload_thread_step cb trig fresh r e in
  let e' := fst (fst s) in
  snd (fst s) = [] \/
  exists f,
    cb = Some f /\
    snd (fst s) = [EvCallback f (url e) (callback_info e')] /\
    callback_info e' = fill_preload_info r e' /\
    (status e' = MPV_PRELOAD_STATUS_READY \/
     status e' = MPV_PRELOAD_STATUS_CACHED \/
     status e' = MPV_PRELOAD_STATUS_ERROR).
Proof.
  thread_cases e r cb; try (left; reflexivity); right; eexists;
    (split; [reflexivity|]); (split; [reflexivity|]);
    unfold fill_preload_info; cbn; destruct (demuxer e); cbn; tauto.
Qed.


(** The monitor loop of [preload_thread]: the test of its condition. *)
Lemma step_loop cb trig fresh r e n :
  thread e = T_loop n ->
  let s := preload_thread_step cb trig fresh r e in
  let polls := negb (cancel_requested e)
               && negb (mp_cancel_test trig (cancel e)) in
  (polls = false -> s = (set_thread T_exited e, [], fresh)) /\
  (polls = true -> s = (set_thread (T_body n) e, [], fresh)).
Proof.
  intros Ht. unfold preload_thread_step. rewrite Ht.
  cbn zeta. split; intros ->; reflexivity.
Qed.

(** The body of the monitor loop: one poll of the reader state. *)
Lemma step_body cb trig fresh r e n :
  thread e = T_body n ->
  let s := preload_thread_step cb trig fresh r e in
  let e' := fst (fst s) in
  let reached := (max_bytes e <=? rs_fw_bytes (reader r))
                 || rs_eof_cached (reader r) in
  (n = true -> s = (set_thread (T_loop true) e, [], fresh)) /\
  (n = false -> demuxer e <> None -> reached = false ->
   s = (set_thread (T_loop false) e, [], fresh)) /\
  (n = false -> demuxer e <> None -> reached = true ->
   status e' = MPV_PRELOAD_STATUS_CACHED /\ thread e' = T_loop true /\
   notified (snd (fst s)) =
     match cb with
     | Some _ => [status_code MPV_PRELOAD_STATUS_CACHED]
     | None => []
     end).
Proof.
  intros Ht. unfold preload_thread_step, invoke_callback. rewrite Ht.
  cbn zeta. split; [|split].
  - intros ->. reflexivity.
  - intros -> Hd ->. destruct (demuxer e); reflexivity.
  - intros -> Hd ->. destruct (demuxer e); [|congruence].
    destruct cb; cbn; rewrite ?fill_status; repeat split.
Qed.



(** ** The claim triggers no token *)

(** Replaces the run of a joined worker in the goal by its result. *)
Ltac forget_join :=
  repeat match goal with
  | |- context [thread_run join_fuel ?a ?b ?c ?d ?x] =>
      generalize (thread_run join_fuel a b c d x); intros [[? ?] ?]
  | |- context [joined ?a ?b ?c ?d] =>
      generalize (joined a b c d); intros [[? ?] ?]
  end; cbn [fst snd].

Lemma callbacks_no_trigger tr :
  forallb is_callback tr = true -> existsb is_trigger tr = false.
Proof.
  induction tr as [|ev tr IH]; [reflexivity|]. cbn.
  destruct ev; cbn; try discriminate. exact IH.
Qed.

Lemma joined_events env w i e :
  forallb is_callback (snd (fst (joined env w i e))) = true.
Proof. unfold joined. apply thread_run_events. Qed.

Lemma steal_no_trigger e : existsb is_trigger (steal_events e) = false.
Proof.
  unfold steal_events. destruct (demuxer e), (global e), (cancel e);
    reflexivity.
Qed.

(** [mpv_preload_get_demuxer] triggers no token. *)
Lemma get_demuxer_no_trigger env u w :
  world_inv w ->
  existsb is_trigger (trace_of (mpv_preload_get_demuxer env u w)) = false /\
  triggered (state_of (mpv_preload_get_demuxer env u w)) = triggered w.
Proof.
  intros Hinv.
  destruct (get_demuxer_cases env u w Hinv)
    as [-> | [-> | (s & i & e & -> & _ & _ & _ & _ & _ & _ & _ & Heq)]];
    try (split; reflexivity).
  cbn zeta in Heq. rewrite Heq, trace_of_eq, state_of_eq.
  split; [|reflexivity].
  pose proof (joined_events env w i e) as Hcb. revert Hcb.
  generalize (joined env w i e). intros [[ej tj] nj]. cbn [fst snd].
  intros Hcb. rewrite !existsb_app, (callbacks_no_trigger _ Hcb),
    steal_no_trigger. reflexivity.
Qed.

(** ** The mutex *)

(** C10. The eviction inside [mpv_preload_start] joins the victim's
    worker while the mutex is held: [find_free_slot_locked] calls
    [cleanup_entry], which joins, under the lock taken by the start. *)
Theorem C10_eviction_joins_under_lock env u opts w :
  reachable w ->
  u <> EmptyString ->
  find_index (has_url u) 0 (entries w) = None ->
  find_index (fun e => negb (non_null (url e))) 0 (entries w) = None ->
  joins_under_lock false (trace_of (mpv_preload_start env (Some u) opts w))
  = true.
Proof.
  intros Hr Hne Hf Hfull. pose proof (reachable_inv w Hr) as Hinv.
  destruct (start_new_slot env opts w u Hinv (String_eqb_nonempty u Hne) Hf)
    as (v & e & e0 & t & He & Hcase & _ & _ & _ & _ & _ & Htr).
  destruct Hcase as [(Hfr & _) | (_ & _ & _ & Hue & ->)]; [congruence|].
  rewrite Htr.
  assert (Hce : entries (initialized_world w) !! v = Some e)
    by (rewrite initialized_world_entries; exact He).
  rewrite (cleanup_entry_occupied _ _ _ _ Hce Hue), trace_of_eq.
  destruct (entry_inv_occupied e (world_inv_lookup _ _ _ Hinv He) Hue)
    as (-> & _).
  forget_join. destruct (cancel e); reflexivity.
Qed.

(** ** The theorems at work on the sample executions *)

Lemma reachable_ready : reachable w_ready.
Proof. apply reachable_run. Qed.

Lemma reachable_full : reachable w_full.
Proof. apply reachable_run. Qed.

Lemma reachable_polling : reachable w_polling.
Proof. apply reachable_run. Qed.

Lemma C1_exactly_once_handoff_witness :
  result (mpv_preload_get_demuxer (sample_env 9 true) (Some "a"%string)
            w_ready) = Some 2%nat /\
  forall env',
    result (mpv_preload_get_demuxer env' (Some "a"%string)
              (state_of (mpv_preload_get_demuxer (sample_env 9 true)
                           (Some "a"%string) w_ready))) = None.
Proof.
  assert (H : result (mpv_preload_get_demuxer (sample_env 9 true)
                        (Some "a"%string) w_ready) = Some 2%nat)
    by (vm_compute; reflexivity).
  split; [exact H|].
  pose proof (C1_exactly_once_handoff _ _ _ _ reachable_ready H) as P.
  cbv zeta in P. apply P.
Defined.

(** Five starts a, b, c, d, e: "a" is evicted, "e" takes its slot. *)
Example eviction_scenario :
  map url (entries (state_of (mpv_preload_start (sample_env 5 true)
                                (Some "e"%string) None w_full)))
  = [Some "e"%string; Some "b"%string; Some "c"%string; Some "d"%string].
Proof. vm_compute. reflexivity. Qed.

Lemma C4_status_monotone_witness :
  let e := default zero_entry (entries w_polling !! 0%nat) in
  let e' := default zero_entry
              (entries (fst (exec (Worker 0 (sample_reply 1000)) w_polling))
                 !! 0%nat) in
  status e = MPV_PRELOAD_STATUS_READY /\
  status e' = MPV_PRELOAD_STATUS_CACHED /\
  status_le (status e) (status e') = true.
Proof.
  cbv zeta. split; [vm_compute; reflexivity|].
  split; [vm_compute; reflexivity|].
  destruct (C4_status_monotone w_polling reachable_polling) as (P & _).
  assert (H1 : entries w_polling !! 0%nat
               = Some (default zero_entry (entries w_polling !! 0%nat)))
    by (vm_compute; reflexivity).
  assert (H2 : entries (fst (exec (Worker 0 (sample_reply 1000)) w_polling))
                 !! 0%nat
               = Some (default zero_entry
                   (entries (fst (exec (Worker 0 (sample_reply 1000))
                                    w_polling)) !! 0%nat)))
    by (vm_compute; reflexivity).
  assert (H3 : url (default zero_entry
                 (entries (fst (exec (Worker 0 (sample_reply 1000)) w_polling))
                    !! 0%nat))
               = url (default zero_entry (entries w_polling !! 0%nat)))
    by (vm_compute; reflexivity).
  exact (P _ _ _ _ H1 H2 H3).
Defined.

Lemma C5_claim_precondition_witness :
  result (mpv_preload_get_demuxer (sample_env 9 true) (Some "a"%string)
            w_ready) <> None /\
  state_of (mpv_preload_get_demuxer (sample_env 9 true) (Some "b"%string)
              w_ready) = w_ready.
Proof.
  destruct (C5_claim_precondition (sample_env 9 true) (Some "a"%string)
              w_ready reachable_ready) as ((_ & Pa) & _).
  destruct (C5_claim_precondition (sample_env 9 true) (Some "b"%string)
              w_ready reachable_ready) as (_ & Pb).
  split.
  - apply Pa.
    exists "a"%string, 0%nat, (default zero_entry (entries w_ready !! 0%nat)).
    split; [reflexivity|]. split; [vm_compute; reflexivity|].
    split; [vm_compute; reflexivity|].
    split; [vm_compute; discriminate|].
    split; vm_compute; discriminate.
  - apply Pb. vm_compute. reflexivity.
Defined.


Lemma C8_start_inputs_witness :
  exists i e',
    entries (state_of (mpv_preload_start (sample_env 1 true)
                         (Some "a"%string)
                         (Some {| opt_max_bytes := 0;
                                  opt_readahead_secs := (-1)%float |})
                         init_world)) !! i = Some e' /\
    max_bytes e' = 10 * 1024 * 1024 /\ readahead_secs e' = 10%float.
Proof.
  destruct (C8_start_inputs (sample_env 1 true)
              (Some {| opt_max_bytes := 0;
                       opt_readahead_secs := (-1)%float |})
              init_world reachable_init) as (_ & _ & P).
  destruct (P "a"%string) as (i & e' & He & _ & _ & Q & _).
  - discriminate.
  - vm_compute. reflexivity.
  - reflexivity.
  - exists i, e'. split; [exact He|].
    destruct (Q _ eq_refl) as (Q1 & _ & Q3 & _).
    split; [apply Q1; cbn; lia|apply Q3; vm_compute; reflexivity].
Defined.

Lemma C9_rollback_on_thread_failure_witness :
  result (mpv_preload_start (sample_env 1 false) (Some "a"%string) None
            init_world) = -1 /\
  result (mpv_preload_start (sample_env 2 true) (Some "b"%string) None
            (state_of (mpv_preload_start (sample_env 1 false)
                         (Some "a"%string) None init_world))) = 0.
Proof.
  destruct (C9_rollback_on_thread_failure (sample_env 1 false) "a"%string
              None init_world reachable_init) as (P1 & _ & _ & _ & P5).
  - discriminate.
  - vm_compute. reflexivity.
  - reflexivity.
  - split; [exact P1|].
    apply (P5 (sample_env 2 true) "b"%string None).
    + discriminate.
    + vm_compute. reflexivity.
    + reflexivity.
Defined.

Lemma C10_eviction_joins_under_lock_witness :
  joins_under_lock false
    (trace_of (mpv_preload_start (sample_env 5 true) (Some "e"%string) None
                 w_full)) = true.
Proof.
  apply (C10_eviction_joins_under_lock (sample_env 5 true) "e"%string None
           w_full reachable_full).
  - discriminate.
  - vm_compute. reflexivity.
  - vm_compute. reflexivity.
Defined.

(** * Further properties of the registry *)

(** ** Snapshots: [mpv_preload_get_info] *)

(** X1. [mpv_preload_get_info] never changes the state; without a url, without
    an [info] to fill, or before the first start, it returns -1 and leaves
    [*info] as it was, without taking the mutex. *)
Theorem X1_get_info_read_only env u info w :
  state_of (mpv_preload_get_info env u info w) = w /\
  (u = None \/ info = None \/ initialized w = false ->
   mpv_preload_get_info env u info w = ((-1, info), w, [])).
Proof.
  split; [apply get_info_state|].
  unfold mpv_preload_get_info. intros [-> | [-> | Hi]].
  - reflexivity.
  - destruct u; reflexivity.
  - destruct u as [u|], info as [info|]; try reflexivity.
    op_unfold. cbn. rewrite Hi. reflexivity.
Qed.

Lemma X1_get_info_read_only_witness :
  mpv_preload_get_info (sample_env 1 true) (Some "a"%string)
    (Some zero_info) init_world = ((-1, Some zero_info), init_world, []).
Proof.
  apply (X1_get_info_read_only (sample_env 1 true) (Some "a"%string)
           (Some zero_info) init_world).
  right. right. reflexivity.
Defined.

(** X2. A started url is found by [mpv_preload_get_info] right away: status
    LOADING, no progress yet, file size unknown. *)
Theorem X2_start_then_get_info env env' u opts info w :
  reachable w ->
  u <> EmptyString ->
  find_index (has_url u) 0 (entries w) = None ->
  thread_create_ok env = true ->
  result (mpv_preload_get_info env' (Some u) (Some info)
            (state_of (mpv_preload_start env (Some u) opts w))) =
  (0, Some {| info_status := status_code MPV_PRELOAD_STATUS_LOADING;
              info_fw_bytes := 0; info_total_bytes := 0;
              info_file_size := -1; info_buffered_secs := 0%float;
              info_eof_cached := false |}).
Proof.
  intros Hr Hne Hf Hok. pose proof (reachable_inv w Hr) as Hinv.
  pose proof (world_inv_start env (Some u) opts w Hinv) as Hinv'.
  destruct (start_new_slot env opts w u Hinv (String_eqb_nonempty u Hne) Hf)
    as (i & e & e0 & t & He & _ & Hfree & _ & Hent & Hini & _).
  rewrite Hok in Hent.
  assert (Hi : entries (state_of (mpv_preload_start env (Some u) opts w)) !! i
               = Some (started env u opts e0)).
  { rewrite Hent. apply list_lookup_insert_eq, (lookup_lt_Some _ _ _ He). }
  rewrite (get_info_found env' u info _ i (started env u opts e0) Hini).
  - destruct Hfree as (_ & _ & Hd & _). unfold fill_preload_info.
    cbn. rewrite Hd. reflexivity.
  - apply find_entry_unique with (started env u opts e0);
      [apply Hinv'|exact Hi|reflexivity].
  - exact Hi.
Qed.

Lemma X2_start_then_get_info_witness :
  result (mpv_preload_get_info (sample_env 2 true) (Some "a"%string)
            (Some zero_info)
            (state_of (mpv_preload_start (sample_env 1 true)
                         (Some "a"%string) None init_world))) =
  (0, Some {| info_status := status_code MPV_PRELOAD_STATUS_LOADING;
              info_fw_bytes := 0; info_total_bytes := 0;
              info_file_size := -1; info_buffered_secs := 0%float;
              info_eof_cached := false |}).
Proof.
  apply (X2_start_then_get_info (sample_env 1 true) (sample_env 2 true)
           "a"%string None zero_info init_world reachable_init).
  - discriminate.
  - vm_compute. reflexivity.
  - reflexivity.
Defined.

Lemma thread_inv_error e :
  thread_inv e -> status e = MPV_PRELOAD_STATUS_ERROR ->
  demuxer e = None /\ thread e = T_exited.
Proof.
  unfold thread_inv. intros H Hs.
  destruct (thread e) as [| | | | | [|] | [|] |];
    repeat match goal with
    | H : _ /\ _ |- _ => destruct H
    | H : _ \/ _ |- _ => destruct H
    end; try congruence; try tauto.
Qed.

(** X3. An entry whose open failed stays in its slot with status ERROR: its
    worker has returned, its snapshot shows no progress, and
    [mpv_preload_get_demuxer] refuses it and changes nothing. *)
Theorem X3_failed_entry env u info w i e :
  reachable w ->
  entries w !! i = Some e -> url e = Some u ->
  status e = MPV_PRELOAD_STATUS_ERROR ->
  thread e = T_exited /\ demuxer e = None /\
  result (mpv_preload_get_info env (Some u) (Some info) w) =
  (0, Some {| info_status := status_code MPV_PRELOAD_STATUS_ERROR;
              info_fw_bytes := 0; info_total_bytes := 0;
              info_file_size := -1; info_buffered_secs := 0%float;
              info_eof_cached := false |}) /\
  mpv_preload_get_demuxer env (Some u) w = (None, w, [EvLock; EvUnlock]).
Proof.
  intros Hr He Hu Hs. pose proof (reachable_inv w Hr) as Hinv.
  assert (Hue : url e <> None) by congruence.
  destruct (entry_inv_occupied e (world_inv_lookup _ _ _ Hinv He) Hue)
    as (_ & Ht).
  destruct (thread_inv_error e Ht Hs) as (Hd & Hx).
  pose proof (reachable_occupied_initialized w i e Hinv He Hue) as Hi.
  pose proof (find_entry_unique u _ i e (inv_unique w Hinv) He Hu) as Hf.
  split; [exact Hx|]. split; [exact Hd|]. split.
  - rewrite (get_info_found env u info w i e Hi Hf He).
    unfold fill_preload_info. rewrite Hd, Hs. reflexivity.
  - apply (get_demuxer_refused env u w i e Hi Hf He).
    unfold not_claimable. rewrite Hs. reflexivity.
Qed.

(** ** Removing entries: [mpv_preload_cancel] *)

Lemma zeroed_url_gone w i e u :
  world_inv w -> entries w !! i = Some e -> url e = Some u ->
  find_index (has_url u) 0 (<[i := zero_entry]> (entries w)) = None.
Proof.
  intros Hinv He Hu. apply find_index_None_intro. intros j y Hy.
  apply has_url_false. destruct (decide (j = i)) as [->|Hne].
  - rewrite list_lookup_insert_eq in Hy by exact (lookup_lt_Some _ _ _ He).
    injection Hy as <-. discriminate.
  - rewrite list_lookup_insert_ne in Hy by congruence. intros Hy'.
    apply Hne. exact (inv_unique w Hinv j i y e u Hy He Hy' Hu).
Qed.

(** X4. [mpv_preload_cancel] of a url that has a slot returns 0 and zeroes
    that slot only; afterwards the url is unknown to
    [mpv_preload_get_info] and to a second [mpv_preload_cancel]. *)
Theorem X4_cancel_removes_entry env u w i e :
  reachable w ->
  entries w !! i = Some e -> url e = Some u ->
  let r := mpv_preload_cancel env (Some u) w in
  result r = 0 /\
  entries (state_of r) = <[i := zero_entry]> (entries w) /\
  (forall env' info,
     result (mpv_preload_get_info env' (Some u) (Some info) (state_of r)) =
     (-1, Some zero_info)) /\
  (forall env',
     mpv_preload_cancel env' (Some u) (state_of r) =
     (-1, state_of r, [EvLock; EvUnlock])).
Proof.
  intros Hr He Hu. pose proof (reachable_inv w Hr) as Hinv. cbn zeta.
  assert (Hue : url e <> None) by congruence.
  destruct (entry_inv_occupied e (world_inv_lookup _ _ _ Hinv He) Hue)
    as (Hrun & _).
  pose proof (reachable_occupied_initialized w i e Hinv He Hue) as Hi.
  pose proof (find_entry_unique u _ i e (inv_unique w Hinv) He Hu) as Hf.
  pose proof (zeroed_url_gone w i e u Hinv He Hu) as Hgone.
  rewrite (cancel_found env u w i e Hi Hf He Hue Hrun).
  rewrite result_eq, state_of_eq. forget_join.
  split; [reflexivity|]. split; [reflexivity|]. split.
  - intros env' info. apply get_info_not_found; [reflexivity|exact Hgone].
  - intros env'. apply cancel_absent; [reflexivity|exact Hgone].
Qed.

Lemma X4_cancel_removes_entry_witness :
  result (mpv_preload_cancel (sample_env 9 true) (Some "a"%string) w_ready)
  = 0.
Proof.
  assert (He : entries w_ready !! 0%nat
               = Some (default zero_entry (entries w_ready !! 0%nat)))
    by (vm_compute; reflexivity).
  assert (Hu : url (default zero_entry (entries w_ready !! 0%nat))
               = Some "a"%string) by (vm_compute; reflexivity).
  pose proof (X4_cancel_removes_entry (sample_env 9 true) _ _ _ _
                reachable_ready He Hu) as P.
  cbv zeta in P. exact (proj1 P).
Defined.

(** X5. [mpv_preload_cancel] without a url, before the first start, or for a
    url that no slot has, returns -1 and changes nothing. *)
Theorem X5_cancel_unknown env u w :
  (u = None \/ initialized w = false ->
   mpv_preload_cancel env u w = (-1, w, [])) /\
  (forall s,
     u = Some s -> initialized w = true ->
     (forall k ek, entries w !! k = Some ek -> url ek <> Some s) ->
     mpv_preload_cancel env u w = (-1, w, [EvLock; EvUnlock])).
Proof.
  split.
  - intros [-> | Hi]; [reflexivity|]. apply cancel_uninitialized, Hi.
  - intros s -> Hi Hno. apply cancel_absent; [exact Hi|].
    apply find_index_None_intro. intros j y Hy. apply has_url_false.
    exact (Hno j y Hy).
Qed.

Lemma X5_cancel_unknown_witness :
  mpv_preload_cancel (sample_env 9 true) (Some "missing"%string) init_world
  = (-1, init_world, []).
Proof.
  apply (X5_cancel_unknown (sample_env 9 true) (Some "missing"%string)
           init_world).
  right. reflexivity.
Defined.

Lemma reachable_failed : reachable w_failed.
Proof. apply reachable_run. Qed.

Lemma X3_failed_entry_witness :
  mpv_preload_get_demuxer (sample_env 9 true) (Some "a"%string) w_failed
  = (None, w_failed, [EvLock; EvUnlock]).
Proof.
  assert (He : entries w_failed !! 0%nat
               = Some (default zero_entry (entries w_failed !! 0%nat)))
    by (vm_compute; reflexivity).
  assert (Hu : url (default zero_entry (entries w_failed !! 0%nat))
               = Some "a"%string) by (vm_compute; reflexivity).
  assert (Hs : status (default zero_entry (entries w_failed !! 0%nat))
               = MPV_PRELOAD_STATUS_ERROR) by (vm_compute; reflexivity).
  exact (proj2 (proj2 (proj2
    (X3_failed_entry (sample_env 9 true) _ zero_info _ _ _
       reachable_failed He Hu Hs)))).
Defined.

(** ** Emptying the registry: [mpv_preload_clear_all] *)

(** X6. After [mpv_preload_clear_all] every slot is free and owns nothing, the
    table still has its four slots, the callback is still registered, and
    no url is known any more. Before the first start it does nothing. *)
Theorem X6_clear_all_empties env w :
  reachable w ->
  let w' := state_of (mpv_preload_clear_all env w) in
  (forall k e',
     entries w' !! k = Some e' ->
     url e' = None /\ status e' = MPV_PRELOAD_STATUS_NONE /\
     thread_running e' = false /\ demuxer e' = None /\
     global e' = None /\ cancel e' = None) /\
  length (entries w') = MPV_PRELOAD_MAX_ENTRIES /\
  g_preload_callback w' = g_preload_callback w /\
  (forall env' u, mpv_preload_get_demuxer env' u w' = (None, w', []) \/
                  mpv_preload_get_demuxer env' u w'
                  = (None, w', [EvLock; EvUnlock])) /\
  (initialized w = false -> mpv_preload_clear_all env w = (tt, w, [])).
Proof.
  intros Hr. pose proof (reachable_inv w Hr) as Hinv. cbn zeta.
  pose proof (world_inv_clear_all env w Hinv) as Hinv'.
  assert (Hall : forall k e',
    entries (state_of (mpv_preload_clear_all env w)) !! k = Some e' ->
    url e' = None).
  { destruct (initialized w) eqn:Hi.
    - destruct (clear_all_entries env w Hinv Hi) as (Hent & Hlen & _).
      intros k x Hx.
      destruct (lookup_lt_is_Some_2 (entries w) k) as (e & He).
      { rewrite <- Hlen. exact (lookup_lt_Some _ _ _ Hx). }
      rewrite (Hent k e He) in Hx. injection Hx as <-.
      destruct (url e) eqn:Hu; cbn; [reflexivity|exact Hu].
    - rewrite (clear_all_uninitialized env w Hi), state_of_eq.
      intros k x Hx.
      exact (Forall_lookup_1 _ _ _ _ (inv_init w Hinv Hi) Hx). }
  split; [|split; [|split; [|split]]].
  - intros k e' He'. pose proof (Hall k e' He') as Hu.
    destruct (entry_inv_free e' (world_inv_lookup _ _ _ Hinv' He') Hu)
      as (H1 & H2 & H3 & H4 & H5 & _).
    tauto.
  - apply Hinv'.
  - destruct (initialized w) eqn:Hi.
    + apply (clear_all_entries env w Hinv Hi).
    + rewrite (clear_all_uninitialized env w Hi). reflexivity.
  - intros env' [u|]; [|left; reflexivity].
    destruct (initialized (state_of (mpv_preload_clear_all env w))) eqn:Hi';
      [|left; apply get_demuxer_uninitialized, Hi'].
    right. apply get_demuxer_absent; [exact Hi'|].
    apply find_index_None_intro. intros j y Hy. apply has_url_false.
    rewrite (Hall j y Hy). discriminate.
  - apply clear_all_uninitialized.
Qed.

Lemma X6_clear_all_empties_witness :
  length (entries
            (state_of (mpv_preload_clear_all (sample_env 9 true) w_full)))
  = MPV_PRELOAD_MAX_ENTRIES.
Proof.
  pose proof (X6_clear_all_empties (sample_env 9 true) w_full reachable_full)
    as P.
  cbv zeta in P. exact (proj1 (proj2 P)).
Defined.

(** ** The mutex *)

Lemma forallb_weaken {A : Type} (P Q : A -> bool) (l : list A) :
  (forall x, P x = true -> Q x = true) ->
  forallb P l = true -> forallb Q l = true.
Proof.
  intros H. rewrite !forallb_forall. intros Hl x Hx. apply H, Hl, Hx.
Qed.

Lemma callbacks_quiet tr :
  forallb is_callback tr = true -> forallb is_quiet tr = true.
Proof. apply forallb_weaken. intros []; cbn; congruence. Qed.

Lemma quiet_not_lock tr :
  forallb is_quiet tr = true -> forallb not_lock tr = true.
Proof.
  apply forallb_weaken. intros ev. unfold is_quiet, not_lock.
  destruct (is_lock_event ev); cbn; congruence.
Qed.

Lemma trigger_events_quiet c : forallb is_quiet (trigger_events c) = true.
Proof. destruct c; reflexivity. Qed.

Lemma free_events_quiet e : forallb is_quiet (free_events e) = true.
Proof.
  unfold free_events. destruct (demuxer e), (cancel e), (global e);
    reflexivity.
Qed.

Lemma steal_events_quiet e : forallb is_quiet (steal_events e) = true.
Proof.
  unfold steal_events. destruct (demuxer e), (global e), (cancel e);
    reflexivity.
Qed.

Lemma joins_quiet_app h tr rest :
  forallb is_quiet tr = true ->
  joins_under_lock h (tr ++ rest) = joins_under_lock h rest.
Proof.
  induction tr as [|ev tr IH]; [reflexivity|]. cbn [forallb app].
  intros H. apply andb_true_iff in H as (Hq & Hr).
  destruct ev; cbn in Hq; try discriminate; cbn; apply IH, Hr.
Qed.

Lemma joins_unlocked_app tr rest :
  forallb not_lock tr = true ->
  joins_under_lock false (tr ++ rest) = joins_under_lock false rest.
Proof.
  induction tr as [|ev tr IH]; [reflexivity|]. cbn [forallb app].
  intros H. apply andb_true_iff in H as (Hq & Hr).
  destruct ev; cbn in Hq; try discriminate; cbn; apply IH, Hr.
Qed.

Lemma lock_ok_app h tr rest :
  forallb not_lock tr = true -> lock_ok h (tr ++ rest) = lock_ok h rest.
Proof.
  induction tr as [|ev tr IH]; [reflexivity|]. cbn [forallb app].
  intros H. apply andb_true_iff in H as (Hq & Hr).
  destruct ev; cbn in Hq; try discriminate; cbn; apply IH, Hr.
Qed.

(** Replaces the run of a joined worker in the goal by its result, keeping
    the fact that its events are invocations of the callback. *)
Ltac forget_join_events :=
  repeat match goal with
  | |- context [thread_run join_fuel ?a ?b ?c ?d ?x] =>
      let H := fresh "Hcb" in
      pose proof (thread_run_events join_fuel a b c d x) as H;
      revert H; generalize (thread_run join_fuel a b c d x);
      intros [[? ?] ?] H; cbn [fst snd] in H
  | |- context [joined ?a ?b ?c ?d] =>
      let H := fresh "Hcb" in
      pose proof (joined_events a b c d) as H;
      revert H; generalize (joined a b c d);
      intros [[? ?] ?] H; cbn [fst snd] in H
  end; cbn [fst snd].

(** The trace of [cleanup_entry] never touches the mutex, and joins only
    when the entry's thread is still marked as running. *)
Lemma cleanup_entry_trace env i w :
  forallb not_lock (trace_of (cleanup_entry env i w)) = true /\
  (thread_running (default zero_entry (entries w !! i)) = false ->
   forallb is_quiet (trace_of (cleanup_entry env i w)) = true).
Proof.
  destruct (entries w !! i) as [e|] eqn:He; cbn [default].
  2:{ rewrite cleanup_entry_free by (rewrite He; reflexivity).
      split; reflexivity. }
  destruct (url e) eqn:Hu.
  2:{ rewrite cleanup_entry_free by (rewrite He; exact Hu).
      split; reflexivity. }
  rewrite (cleanup_entry_occupied _ _ _ _ He) by congruence.
  rewrite trace_of_eq. forget_join_events.
  pose proof (callbacks_quiet _ Hcb) as Hq.
  pose proof (quiet_not_lock _ Hq) as Hn.
  split.
  - destruct (thread_running e); cbn [fst snd forallb not_lock is_lock_event
                                     negb andb];
      rewrite !forallb_app; cbn [forallb not_lock is_lock_event negb andb];
      rewrite ?(quiet_not_lock _ (trigger_events_quiet _)),
              ?(quiet_not_lock _ (free_events_quiet _)), ?Hn; reflexivity.
  - intros Hr. change (thread_running e = false) in Hr. rewrite Hr.
    cbn [fst snd forallb is_quiet is_lock_event is_join negb andb].
    rewrite !forallb_app. cbn [forallb andb].
    rewrite trigger_events_quiet, free_events_quiet. reflexivity.
Qed.

(** A property of every event of every body holds for the whole loop;
    [Pre] is what the bodies may assume about their own slot. *)
Lemma for_each_slot_trace_forall body (Q : event -> bool)
  (Pre : preload_entry -> Prop) :
  slot_local body ->
  (forall k w, (forall e, entries w !! k = Some e -> Pre e) ->
               forallb Q (trace_of (body k w)) = true) ->
  forall n i w,
    (forall k e, (i <= k)%nat -> entries w !! k = Some e -> Pre e) ->
    forallb Q (trace_of (for_each_slot n i body w)) = true.
Proof.
  intros Hl Hb. induction n as [|n IH]; intros i w Hpre; [reflexivity|].
  rewrite for_each_slot_S, trace_of_eq, forallb_app.
  rewrite Hb by (intros e He; apply (Hpre i e); [lia|exact He]).
  rewrite IH; [reflexivity|].
  intros k e Hk He. destruct (Hl i w) as (H1 & _).
  rewrite H1 in He by lia. apply (Hpre k e); [lia|exact He].
Qed.

Lemma signal_slot_trace k w :
  forallb is_quiet (trace_of (signal_slot k w)) = true.
Proof.
  destruct (entries w !! k) as [e|] eqn:He.
  - rewrite (signal_slot_eq _ _ _ He), trace_of_eq.
    destruct (non_null (url e)); [|reflexivity].
    cbn. apply trigger_events_quiet.
  - rewrite (signal_slot_none _ _ He). reflexivity.
Qed.

Lemma join_slot_trace env k w :
  forallb not_lock (trace_of (join_slot env k w)) = true.
Proof.
  destruct (entries w !! k) as [e|] eqn:He.
  - rewrite (join_slot_eq _ _ _ _ He).
    destruct (thread_running e); [|reflexivity].
    rewrite trace_of_eq. forget_join_events. cbn.
    apply quiet_not_lock, callbacks_quiet, Hcb.
  - rewrite (join_slot_none _ _ _ He). reflexivity.
Qed.

(** The three loops of [mpv_preload_clear_all]: the first and the third
    neither touch the mutex nor join; the second does not touch the mutex. *)
Lemma clear_all_loops env w :
  let n := MPV_PRELOAD_MAX_ENTRIES in
  let r1 := for_each_slot n 0 signal_slot w in
  let r2 := for_each_slot n 0 (join_slot env) (state_of r1) in
  let r3 := for_each_slot n 0 (cleanup_entry env) (state_of r2) in
  world_inv w ->
  forallb is_quiet (trace_of r1) = true /\
  forallb not_lock (trace_of r2) = true /\
  forallb is_quiet (trace_of r3) = true.
Proof.
  cbn zeta. intros Hinv.
  set (n := MPV_PRELOAD_MAX_ENTRIES).
  set (w1 := state_of (for_each_slot n 0 signal_slot w)).
  set (w2 := state_of (for_each_slot n 0 (join_slot env) w1)).
  split; [|split].
  - apply (for_each_slot_trace_forall signal_slot is_quiet (fun _ => True)
             signal_slot_local); [|tauto].
    intros k w0 _. apply signal_slot_trace.
  - apply (for_each_slot_trace_forall (join_slot env) not_lock
             (fun _ => True) (join_slot_local env)); [|tauto].
    intros k w0 _. apply join_slot_trace.
  - apply (for_each_slot_trace_forall (cleanup_entry env) is_quiet
             (fun e => thread_running e = false) (cleanup_entry_local env)).
    + intros k w0 Hpre. apply cleanup_entry_trace.
      destruct (entries w0 !! k) as [e|]; [apply Hpre; reflexivity|].
      reflexivity.
    + intros k e2 _ He2.
      destruct (for_each_slot_frame signal_slot n 0 w signal_slot_local)
        as (_ & L1 & _).
      destruct (for_each_slot_frame (join_slot env) n 0 w1
                  (join_slot_local env)) as (_ & L2 & _).
      fold w1 in L1. fold w2 in L2.
      assert (Hk : (0 <= k < 0 + n)%nat).
      { pose proof (lookup_lt_Some _ _ _ He2) as Hlt.
        rewrite L2, L1, (inv_length w Hinv) in Hlt. unfold n. lia. }
      destruct (lookup_lt_is_Some_2 (entries w1) k) as (e1 & He1).
      { rewrite <- L2. exact (lookup_lt_Some _ _ _ He2). }
      destruct (for_each_slot_spec (join_slot env) _ (join_slot_local env)
                  (join_slot_spec env) n 0 w1 k e1 Hk He1)
        as (e2' & He2' & R2).
      fold w2 in He2'. assert (e2' = e2) as -> by congruence.
      destruct (thread_running e1) eqn:Hr1.
      * destruct R2 as (cb & trig & nh & r & ->). reflexivity.
      * subst e2. exact Hr1.
Qed.

Lemma get_info_trace env u info w :
  trace_of (mpv_preload_get_info env u info w) = [] \/
  trace_of (mpv_preload_get_info env u info w) = [EvLock; EvUnlock].
Proof.
  unfold mpv_preload_get_info. destruct u as [u|], info as [info|];
    try (left; reflexivity).
  op_unfold. cbn. destruct (initialized w); cbn; [|left; reflexivity].
  destruct (find_index (has_url u) 0 (entries w)); right; reflexivity.
Qed.

(** The trace of every action, as far as the mutex and the joins go. *)
Lemma exec_lock_discipline a w :
  world_inv w ->
  lock_ok false (snd (exec a w)) = Some false /\
  ((forall env u opts, a = Call_start env u opts ->
      forall s, u = Some s -> s <> EmptyString ->
                find_index (has_url s) 0 (entries w) = None ->
                find_index (fun e => negb (non_null (url e))) 0 (entries w)
                <> None) ->
   joins_under_lock false (snd (exec a w)) = false).
Proof.
  intros Hinv.
  destruct a as [cb|env u opts|env u info|env u|env u|env|i r];
    cbn [exec snd].
  - split; reflexivity.
  - destruct u as [u|]; [|split; reflexivity].
    destruct (String.eqb u "") eqn:Hne.
    { apply String_eqb_empty in Hne. subst u. split; reflexivity. }
    destruct (find_index (has_url u) 0 (entries w)) as [i|] eqn:Hf.
    { rewrite (start_existing env opts w u i Hf Hne), trace_of_eq.
      split; reflexivity. }
    destruct (start_new_slot env opts w u Hinv Hne Hf)
      as (i & e & e0 & t & He & Hcase & _ & _ & _ & _ & _ & Htr).
    rewrite Htr.
    assert (Hsp : forallb is_quiet
                    (if thread_create_ok env then [EvSpawn i] else []) = true)
      by (destruct (thread_create_ok env); reflexivity).
    destruct Hcase as [(Hfr & _ & -> & _) | (Hfr & _ & _ & _ & ->)].
    + cbn [app lock_ok joins_under_lock]. split.
      * rewrite lock_ok_app by (apply quiet_not_lock, Hsp). reflexivity.
      * intros _. rewrite joins_quiet_app by exact Hsp. reflexivity.
    + destruct (cleanup_entry_trace env i (initialized_world w)) as (Hn & _).
      cbn [app lock_ok joins_under_lock]. split.
      * rewrite lock_ok_app by exact Hn.
        rewrite lock_ok_app by (apply quiet_not_lock, Hsp). reflexivity.
      * intros Hfree. exfalso.
        apply (Hfree env (Some u) opts eq_refl u eq_refl); [|exact Hf|exact Hfr].
        intros ->. discriminate Hne.
  - destruct (get_info_trace env u info w) as [-> | ->]; split; reflexivity.
  - destruct (get_demuxer_cases env u w Hinv)
      as [-> | [-> | (s & i & e & -> & _ & _ & _ & _ & _ & _ & _ & Heq)]];
      try (split; reflexivity).
    cbn zeta in Heq. rewrite Heq, trace_of_eq. forget_join_events.
    pose proof (callbacks_quiet _ Hcb) as Hq.
    cbn [app lock_ok joins_under_lock orb]. split.
    + rewrite lock_ok_app by (apply quiet_not_lock, Hq).
      cbn [app lock_ok].
      rewrite lock_ok_app by (apply quiet_not_lock, steal_events_quiet).
      reflexivity.
    + intros _. rewrite joins_quiet_app by exact Hq.
      cbn [app joins_under_lock].
      rewrite joins_quiet_app by apply steal_events_quiet. reflexivity.
  - destruct u as [s|]; [|split; reflexivity].
    destruct (initialized w) eqn:Hi.
    2:{ rewrite (cancel_uninitialized env (Some s) w Hi). split; reflexivity. }
    destruct (find_index (has_url s) 0 (entries w)) as [i|] eqn:Hf.
    2:{ rewrite (cancel_absent env s w Hi Hf). split; reflexivity. }
    destruct (find_entry_Some _ _ _ Hf) as (e & He & Hu).
    assert (Hue : url e <> None) by congruence.
    destruct (entry_inv_occupied e (world_inv_lookup _ _ _ Hinv He) Hue)
      as (Hrun & _).
    rewrite (cancel_found env s w i e Hi Hf He Hue Hrun), trace_of_eq.
    forget_join_events.
    pose proof (callbacks_quiet _ Hcb) as Hq.
    cbn [app lock_ok joins_under_lock orb]. split.
    + rewrite lock_ok_app
        by (apply quiet_not_lock, trigger_events_quiet).
      cbn [app lock_ok].
      rewrite lock_ok_app by (apply quiet_not_lock, Hq).
      cbn [app lock_ok].
      rewrite lock_ok_app
        by (apply quiet_not_lock, trigger_events_quiet).
      rewrite lock_ok_app by (apply quiet_not_lock, free_events_quiet).
      reflexivity.
    + intros _. rewrite joins_quiet_app by apply trigger_events_quiet.
      cbn [app joins_under_lock orb].
      rewrite joins_quiet_app by exact Hq.
      cbn [app joins_under_lock].
      rewrite joins_quiet_app by apply trigger_events_quiet.
      rewrite joins_quiet_app by apply free_events_quiet. reflexivity.
  - destruct (initialized w) eqn:Hi.
    2:{ rewrite (clear_all_uninitialized env w Hi). split; reflexivity. }
    rewrite (clear_all_eq env w Hi), trace_of_eq.
    destruct (clear_all_loops env w Hinv) as (H1 & H2 & H3).
    cbn [app lock_ok joins_under_lock]. split.
    + rewrite lock_ok_app by (apply quiet_not_lock, H1).
      cbn [app lock_ok]. rewrite lock_ok_app by exact H2.
      cbn [app lock_ok]. rewrite lock_ok_app by (apply quiet_not_lock, H3).
      reflexivity.
    + intros _. rewrite joins_quiet_app by exact H1.
      cbn [app joins_under_lock]. rewrite joins_unlocked_app by exact H2.
      cbn [app joins_under_lock]. rewrite joins_quiet_app by exact H3.
      reflexivity.
  - destruct (entries w !! i) as [e|] eqn:He.
    + rewrite (worker_step_eq r i w e He), trace_of_eq.
      pose proof (step_events (g_preload_callback w) (triggered w)
                    (next_handle w) r e) as Hcb.
      pose proof (callbacks_quiet _ Hcb) as Hq.
      rewrite <- (app_nil_r (snd (fst _))). split.
      * rewrite lock_ok_app by (apply quiet_not_lock, Hq). reflexivity.
      * intros _. rewrite joins_quiet_app by exact Hq. reflexivity.
    + rewrite (worker_step_none r i w He). split; reflexivity.
Qed.

(** X7. Every action takes and releases the mutex correctly: it never locks it
    twice, never unlocks it when free, and has released it when it returns
    (on every return path, also those of the eviction). *)
Theorem X7_mutex_balanced a w :
  reachable w -> lock_ok false (snd (exec a w)) = Some false.
Proof.
  intros Hr. apply exec_lock_discipline, reachable_inv, Hr.
Qed.

Lemma X7_mutex_balanced_witness :
  lock_ok false
    (snd (exec (Call_start (sample_env 5 true) (Some "e"%string) None)
            w_full)) = Some false.
Proof. exact (X7_mutex_balanced _ w_full reachable_full). Defined.

(** X8. Apart from the eviction inside [mpv_preload_start], no operation joins
    a worker while it holds the mutex: [mpv_preload_get_demuxer],
    [mpv_preload_cancel] and [mpv_preload_clear_all] unlock before they
    join, and a start that finds a free slot does not join at all. *)
Theorem X8_joins_outside_lock env u info opts w :
  reachable w ->
  joins_under_lock false
    (trace_of (mpv_preload_get_demuxer env u w)) = false /\
  joins_under_lock false (trace_of (mpv_preload_cancel env u w)) = false /\
  joins_under_lock false (trace_of (mpv_preload_clear_all env w)) = false /\
  joins_under_lock false
    (trace_of (mpv_preload_get_info env u info w)) = false /\
  (find_index (fun e => negb (non_null (url e))) 0 (entries w) <> None ->
   joins_under_lock false
     (trace_of (mpv_preload_start env u opts w)) = false).
Proof.
  intros Hr. pose proof (reachable_inv w Hr) as Hinv.
  split; [|split; [|split; [|split]]].
  - apply (exec_lock_discipline (Call_get_demuxer env u) w Hinv).
    intros ? ? ? H. discriminate H.
  - apply (exec_lock_discipline (Call_cancel env u) w Hinv).
    intros ? ? ? H. discriminate H.
  - apply (exec_lock_discipline (Call_clear_all env) w Hinv).
    intros ? ? ? H. discriminate H.
  - apply (exec_lock_discipline (Call_get_info env u info) w Hinv).
    intros ? ? ? H. discriminate H.
  - intros Hfree.
    apply (exec_lock_discipline (Call_start env u opts) w Hinv).
    intros ? ? ? _ ? _ _ _. exact Hfree.
Qed.

Lemma X8_joins_outside_lock_witness :
  joins_under_lock false
    (trace_of (mpv_preload_start (sample_env 9 true) (Some "b"%string) None
                 w_ready)) = false.
Proof.
  apply (X8_joins_outside_lock (sample_env 9 true) (Some "b"%string) None
           None w_ready reachable_ready).
  vm_compute. discriminate.
Defined.

(** ** The worker and the stop request *)

Lemma step_future_stopped cb trig fresh r e rest :
  cancel_requested e = true ->
  let s := preload_thread_step cb trig fresh r e in
  In rest (future_stopped (thread (fst (fst s)))) ->
  In (notified (snd (fst s)) ++ rest) (future_stopped (thread e)).
Proof.
  intros Hc.
  thread_cases e r cb; rewrite ?fill_status; cbn in *; try discriminate;
    try (rewrite Hc in *; discriminate);
    intuition (subst; auto; try discriminate).
Qed.

Lemma thread_run_future_stopped fuel cb trig r :
  forall fresh e,
    cancel_requested e = true ->
    In (notified (snd (fst (thread_run fuel cb trig fresh r e))))
       (future_stopped (thread e)).
Proof.
  induction fuel as [|k IH]; intros fresh e Hc.
  - cbn. destruct (thread e) as [| | | | | [|] | [|] |]; cbn; auto.
  - change (thread_run (S k) cb trig fresh r e) with
      (let s := preload_thread_step cb trig fresh r e in
       let s' := thread_run k cb trig (snd s) r (fst (fst s)) in
       (fst (fst s'), snd (fst s) ++ snd (fst s'), snd s')).
    cbn zeta. cbn [fst snd]. unfold notified. rewrite flat_map_app.
    apply (step_future_stopped cb trig fresh r e _ Hc).
    apply IH. destruct (step_frame cb trig fresh r e) as (_ & _ & -> & _).
    exact Hc.
Qed.

Lemma future_stopped_spec t ns :
  In ns (future_stopped t) ->
  (length ns <= 1)%nat /\
  (In (status_code MPV_PRELOAD_STATUS_CACHED) ns -> t = T_body false).
Proof.
  destruct t as [| | | | | [|] | [|] |]; cbn; intros H;
    repeat (destruct H as [<- | H]; [cbn; split; [lia|]; intros HH;
      repeat (destruct HH as [HH | HH]; [discriminate HH|]);
      try reflexivity; contradiction|]);
    contradiction.
Qed.

Lemma thread_run_polls fuel cb trig r :
  forall fresh e,
    in_loop (thread e) = true -> cancel_requested e = false ->
    mp_cancel_test trig (cancel e) = false ->
    let e' := fst (fst (thread_run fuel cb trig fresh r e)) in
    in_loop (thread e') = true /\
    url e' = url e /\ demuxer e' = demuxer e /\
    thread_running e' = thread_running e.
Proof.
  induction fuel as [|k IH]; intros fresh e Ht Hc Hm.
  - cbn. eauto.
  - change (thread_run (S k) cb trig fresh r e) with
      (let s := preload_thread_step cb trig fresh r e in
       let s' := thread_run k cb trig (snd s) r (fst (fst s)) in
       (fst (fst s'), snd (fst s) ++ snd (fst s'), snd s')).
    cbn zeta. cbn [fst snd].
    assert (Hs :
      in_loop (thread (fst (fst (preload_thread_step cb trig fresh r e))))
        = true /\
      cancel_requested (fst (fst (preload_thread_step cb trig fresh r e)))
        = false /\
      cancel (fst (fst (preload_thread_step cb trig fresh r e))) = cancel e /\
      url (fst (fst (preload_thread_step cb trig fresh r e))) = url e /\
      demuxer (fst (fst (preload_thread_step cb trig fresh r e))) = demuxer e /\
      thread_running (fst (fst (preload_thread_step cb trig fresh r e)))
        = thread_running e).
    { unfold preload_thread_step, invoke_callback.
      destruct (thread e) as [| | | | | b | b |]; try discriminate Ht;
        rewrite ?Hc, ?Hm; cbn;
        destruct b, (non_null (demuxer e)), cb; cbn;
        repeat match goal with
        | |- context [if ?c then _ else _] => destruct c
        end; cbn; auto 10. }
    destruct Hs as (Ht' & Hc' & Hk' & Hu' & Hd' & Hr').
    destruct (IH (snd (preload_thread_step cb trig fresh r e))
                 (fst (fst (preload_thread_step cb trig fresh r e)))
                 Ht' Hc') as (Hb & Hu & Hd & Hr).
    { rewrite Hk'. exact Hm. }
    cbn zeta in *. split; [exact Hb|]. repeat split; congruence.
Qed.

Lemma thread_run_2 cb trig fresh r e k :
  thread_run (S (S k)) cb trig fresh r e =
  let s1 := preload_thread_step cb trig fresh r e in
  let s2 := preload_thread_step cb trig (snd s1) r (fst (fst s1)) in
  let s' := thread_run k cb trig (snd s2) r (fst (fst s2)) in
  (fst (fst s'), snd (fst s1) ++ snd (fst s2) ++ snd (fst s'), snd s').
Proof. reflexivity. Qed.

(** The stop request comes between the test of the loop condition and the
    body: the body still runs, once. *)
Lemma thread_run_late_body fuel cb trig fresh r e :
  thread e = T_body false -> demuxer e <> None ->
  cancel_requested e = true -> (2 <= fuel)%nat ->
  notified (snd (fst (thread_run fuel cb trig fresh r e))) =
  if (max_bytes e <=? rs_fw_bytes (reader r)) || rs_eof_cached (reader r)
  then match cb with
       | Some _ => [status_code MPV_PRELOAD_STATUS_CACHED]
       | None => []
       end
  else [].
Proof.
  intros Ht Hd Hc Hf.
  destruct fuel as [|[|k]]; try lia. rewrite thread_run_2. cbn zeta.
  cbn [fst snd].
  destruct (step_frame cb trig fresh r e) as (_ & _ & Hc1 & _).
  cbn zeta in Hc1. rewrite Hc in Hc1.
  assert (Hloop : exists b,
    thread (fst (fst (preload_thread_step cb trig fresh r e))) = T_loop b).
  { destruct (step_body cb trig fresh r e false Ht) as (_ & S2 & S3).
    cbn zeta in S2, S3.
    destruct ((max_bytes e <=? rs_fw_bytes (reader r))
              || rs_eof_cached (reader r)).
    - destruct (S3 eq_refl Hd eq_refl) as (_ & H & _). eauto.
    - rewrite (S2 eq_refl Hd eq_refl). cbn. eauto. }
  destruct Hloop as (b & Hb).
  destruct (step_loop cb trig (snd (preload_thread_step cb trig fresh r e)) r
              (fst (fst (preload_thread_step cb trig fresh r e))) b Hb)
    as (S1 & _).
  cbn zeta in S1. rewrite Hc1 in S1. rewrite (S1 eq_refl). cbn [fst snd].
  rewrite thread_run_idle by (right; reflexivity). cbn [fst snd].
  rewrite app_nil_r.
  destruct (step_body cb trig fresh r e false Ht) as (_ & S2 & S3).
  cbn zeta in S2, S3.
  destruct ((max_bytes e <=? rs_fw_bytes (reader r))
            || rs_eof_cached (reader r)).
  - destruct (S3 eq_refl Hd eq_refl) as (_ & _ & H). exact H.
  - rewrite (S2 eq_refl Hd eq_refl). reflexivity.
Qed.

Lemma thread_run_head_stopped fuel cb trig fresh r e b :
  thread e = T_loop b -> cancel_requested e = true ->
  snd (fst (thread_run fuel cb trig fresh r e)) = [].
Proof.
  intros Ht Hc. destruct fuel as [|k]; [reflexivity|].
  change (thread_run (S k) cb trig fresh r e) with
    (let s := preload_thread_step cb trig fresh r e in
     let s' := thread_run k cb trig (snd s) r (fst (fst s)) in
     (fst (fst s'), snd (fst s) ++ snd (fst s'), snd s')).
  cbn zeta. cbn [fst snd].
  destruct (step_loop cb trig fresh r e b Ht) as (S1 & _).
  cbn zeta in S1. rewrite Hc in S1. rewrite (S1 eq_refl). cbn [fst snd].
  rewrite thread_run_idle by (right; reflexivity). reflexivity.
Qed.

(** X9. The worker looks at the stop request only at the head of its
    polling loop. Once the request is set it returns within five steps,
    whatever it was doing; on the way it notifies at most once: READY or
    ERROR when it had not reached the loop, nothing when it stood at the head
    of the loop, and CACHED only when the request came after it had found
    the loop condition true and before the target notification: it then
    still polls once, and notifies CACHED if the engine reports the target
    reached. Without a request, and with its token untriggered, a worker
    that has reached the loop stays there: it never returns, and never
    gives up its demuxer, on its own. *)
Theorem X9_worker_stop_protocol cb trig fresh r e fuel :
  thread e <> T_none ->
  let s := thread_run fuel cb trig fresh r e in
  (cancel_requested e = true -> (5 <= fuel)%nat ->
   thread (fst (fst s)) = T_exited /\
   In (notified (snd (fst s))) (future_stopped (thread e)) /\
   (length (notified (snd (fst s))) <= 1)%nat /\
   (In (status_code MPV_PRELOAD_STATUS_CACHED) (notified (snd (fst s))) ->
    thread e = T_body false) /\
   (forall b, thread e = T_loop b -> snd (fst s) = []) /\
   (thread e = T_body false -> demuxer e <> None ->
    notified (snd (fst s)) =
    if (max_bytes e <=? rs_fw_bytes (reader r)) || rs_eof_cached (reader r)
    then match cb with
         | Some _ => [status_code MPV_PRELOAD_STATUS_CACHED]
         | None => []
         end
    else [])) /\
  (in_loop (thread e) = true -> cancel_requested e = false ->
   mp_cancel_test trig (cancel e) = false ->
   in_loop (thread (fst (fst s))) = true /\
   demuxer (fst (fst s)) = demuxer e).
Proof.
  intros Hn. cbn zeta. split.
  - intros Hc Hf.
    pose proof (thread_run_future_stopped fuel cb trig r fresh e Hc) as Hfut.
    destruct (future_stopped_spec (thread e) _ Hfut) as (Hlen & Hcached).
    split; [|split; [exact Hfut|split; [exact Hlen|split; [exact Hcached|]]]].
    + apply thread_run_exits; try assumption.
      destruct (thread e) as [| | | | | [|] | [|] |]; cbn; lia.
    + split.
      * intros b Ht. exact (thread_run_head_stopped fuel cb trig fresh r e b
                              Ht Hc).
      * intros Ht Hd. apply thread_run_late_body; try assumption. lia.
  - intros Ht Hc Hm.
    destruct (thread_run_polls fuel cb trig r fresh e Ht Hc Hm)
      as (Hb & _ & Hd & _).
    split; [exact Hb|exact Hd].
Qed.

Lemma X9_worker_stop_protocol_witness :
  thread (fst (fst (thread_run 5 (Some 7%nat) [] 3%nat (sample_reply 1000)
                      late_entry))) = T_exited /\
  notified (snd (fst (thread_run 5 (Some 7%nat) [] 3%nat (sample_reply 1000)
                        late_entry)))
  = [status_code MPV_PRELOAD_STATUS_CACHED].
Proof.
  assert (Hn : thread late_entry <> T_none) by (vm_compute; discriminate).
  assert (Hc : cancel_requested late_entry = true) by reflexivity.
  assert (Hf : (5 <= 5)%nat) by lia.
  assert (Ht : thread late_entry = T_body false) by (vm_compute; reflexivity).
  assert (Hd : demuxer late_entry <> None) by (vm_compute; discriminate).
  destruct (proj1 (X9_worker_stop_protocol (Some 7%nat) [] 3%nat
                     (sample_reply 1000) late_entry 5 Hn) Hc Hf)
    as (P1 & _ & _ & _ & _ & P6).
  split; [exact P1|]. exact (P6 Ht Hd).
Defined.

(** ** The callback slot *)

Lemma step_callback_observer cb cb' trig fresh r e :
  let s := preload_thread_step cb trig fresh r e in
  let s' := preload_thread_step cb' trig fresh r e in
  set_callback_info zero_info (fst (fst s))
  = set_callback_info zero_info (fst (fst s')) /\
  snd s = snd s'.
Proof.
  unfold preload_thread_step, invoke_callback.
  destruct (thread e) as [| | | | | [|] | [|] |], cb, cb';
    repeat match goal with
    | |- context [if ?c then _ else _] => destruct c
    end; split; reflexivity.
Qed.

Lemma step_no_callback trig fresh r e :
  let s := preload_thread_step None trig fresh r e in
  snd (fst s) = [] /\ callback_info (fst (fst s)) = callback_info e.
Proof.
  unfold preload_thread_step, invoke_callback.
  destruct (thread e) as [| | | | | [|] | [|] |];
    repeat match goal with
    | |- context [if ?c then _ else _] => destruct c
    end; split; reflexivity.
Qed.

Lemma step_callback_target f trig fresh r e ev :
  In ev (snd (fst (preload_thread_step (Some f) trig fresh r e))) ->
  exists u inf, ev = EvCallback f u inf.
Proof.
  unfold preload_thread_step, invoke_callback.
  destruct (thread e) as [| | | | | [|] | [|] |];
    repeat match goal with
    | |- context [if ?c then _ else _] => destruct c
    end; cbn; intros H;
    repeat (destruct H as [<- | H]; [eauto|]); contradiction.
Qed.

(** X10. [mpv_preload_set_callback] replaces the callback and touches
    nothing else; the last registration wins. A worker reads the slot at
    the moment it notifies: a callback registered after the start is
    called, with [NULL] registered the worker is silent and leaves its
    [callback_info] alone, and in both cases it goes through the same
    statuses and positions. *)
Theorem X10_callback_registration cb w i r e :
  entries w !! i = Some e ->
  let w1 := fst (exec (Call_set_callback cb) w) in
  let s := preload_thread_step cb (triggered w) (next_handle w) r e in
  (entries w1 = entries w /\ initialized w1 = initialized w /\
   snd (exec (Call_set_callback cb) w) = []) /\
  (forall cb0,
     fst (exec (Call_set_callback cb)
            (fst (exec (Call_set_callback cb0) w))) = w1) /\
  snd (exec (Worker i r) w1) = snd (fst s) /\
  (forall f ev, cb = Some f -> In ev (snd (exec (Worker i r) w1)) ->
     exists u inf, ev = EvCallback f u inf) /\
  (cb = None ->
   snd (exec (Worker i r) w1) = [] /\
   exists e', entries (fst (exec (Worker i r) w1)) !! i = Some e' /\
              callback_info e' = callback_info e) /\
  (exists e1 e2,
     entries (fst (exec (Worker i r) w1)) !! i = Some e1 /\
     entries (fst (exec (Worker i r) w)) !! i = Some e2 /\
     set_callback_info zero_info e1 = set_callback_info zero_info e2 /\
     next_handle (fst (exec (Worker i r) w1))
     = next_handle (fst (exec (Worker i r) w))).
Proof.
  intros He. cbn zeta.
  pose proof (lookup_lt_Some _ _ _ He) as Hlt.
  assert (Hw1 : fst (exec (Call_set_callback cb) w) = with_callback cb w)
    by reflexivity.
  rewrite Hw1.
  assert (He1 : entries (with_callback cb w) !! i = Some e) by exact He.
  assert (Hx : exec (Worker i r) (with_callback cb w) =
    (let s := preload_thread_step cb (triggered w) (next_handle w) r e in
     ({| entries := <[i := fst (fst s)]> (entries w);
         initialized := initialized w; g_preload_callback := cb;
         triggered := triggered w; next_handle := snd s |}, snd (fst s)))).
  { cbn [exec]. rewrite (worker_step_eq r i _ e He1). reflexivity. }
  assert (Hy : exec (Worker i r) w =
    (let s := preload_thread_step (g_preload_callback w) (triggered w)
                (next_handle w) r e in
     ({| entries := <[i := fst (fst s)]> (entries w);
         initialized := initialized w;
         g_preload_callback := g_preload_callback w;
         triggered := triggered w; next_handle := snd s |}, snd (fst s)))).
  { cbn [exec]. rewrite (worker_step_eq r i _ e He). reflexivity. }
  rewrite Hx, Hy. cbn zeta. cbn [fst snd entries next_handle].
  split; [repeat split|]. split; [reflexivity|]. split; [reflexivity|].
  split; [|split].
  - intros f ev -> Hin. exact (step_callback_target f _ _ _ _ _ Hin).
  - intros ->. destruct (step_no_callback (triggered w) (next_handle w) r e)
      as (Ht & Hci). cbn zeta in Ht, Hci. split; [exact Ht|].
    eexists. split; [apply list_lookup_insert_eq, Hlt|exact Hci].
  - destruct (step_callback_observer cb (g_preload_callback w) (triggered w)
                (next_handle w) r e) as (Hs & Hn). cbn zeta in Hs, Hn.
    eexists _, _. split; [apply list_lookup_insert_eq, Hlt|].
    split; [apply list_lookup_insert_eq, Hlt|]. split; [exact Hs|exact Hn].
Qed.

Lemma X10_callback_registration_witness :
  snd (exec (Worker 0 (sample_reply 0))
         (fst (exec (Call_set_callback None) w_ready))) = [].
Proof.
  assert (He : entries w_ready !! 0%nat
               = Some (default zero_entry (entries w_ready !! 0%nat)))
    by (vm_compute; reflexivity).
  pose proof (X10_callback_registration None w_ready 0%nat (sample_reply 0)
                _ He) as P.
  cbv zeta in P.
  exact (proj1 (proj1 (proj2 (proj2 (proj2 (proj2 P)))) eq_refl)).
Defined.

(** ** Invariants of the entries of a reachable state *)

(** What one action can do to a slot, with what is known of the slot a new
    entry is written to. *)
Lemma exec_slot_cases_free a w k e e' :
  world_inv w ->
  entries w !! k = Some e -> entries (fst (exec a w)) !! k = Some e' ->
  e' = e \/
  url e' = None \/
  (exists env u opts e0, e' = started env u opts e0 /\ free_inv e0) \/
  (exists cb trig fresh r,
     e' = fst (fst (preload_thread_step cb trig fresh r e))).
Proof.
  intros Hinv He He'.
  assert (Hsame : entries (fst (exec a w)) = entries w -> e' = e).
  { intros Heq. rewrite Heq in He'. congruence. }
  assert (Hput : forall i x,
    entries (fst (exec a w)) = <[i := x]> (entries w) ->
    e' = e \/ (k = i /\ e' = x)).
  { intros i x Heq. rewrite Heq in He'. destruct (decide (k = i)) as [->|Hki].
    - rewrite list_lookup_insert_eq in He' by exact (lookup_lt_Some _ _ _ He).
      right. split; congruence.
    - rewrite list_lookup_insert_ne in He' by congruence. left. congruence. }
  destruct a as [cb|env u opts|env u info|env u|env u|env|i r];
    cbn [exec fst] in He', Hsame, Hput.
  - left. apply Hsame. reflexivity.
  - destruct u as [u|]; [|left; apply Hsame; reflexivity].
    destruct (String.eqb u "") eqn:Hne.
    { apply String_eqb_empty in Hne. subst u. left. apply Hsame.
      reflexivity. }
    destruct (find_index (has_url u) 0 (entries w)) as [i|] eqn:Hf.
    { left. apply Hsame.
      rewrite (start_existing env opts w u i Hf Hne), state_of_eq.
      apply initialized_world_entries. }
    destruct (start_new_slot env opts w u Hinv Hne Hf)
      as (i & ei & e0 & t & Hi & Hcase & Hfree & _ & Hent & _).
    destruct (Hput _ _ Hent) as [Hs | [-> ->]]; [left; exact Hs|].
    destruct (thread_create_ok env).
    + right. right. left. exists env, u, opts, e0. split; [reflexivity|].
      exact Hfree.
    + right. left. reflexivity.
  - left. apply Hsame. rewrite get_info_state. reflexivity.
  - destruct (get_demuxer_table env u w Hinv)
      as [Heq | (i & ei & ej & Hi & Hs & Heq)]; [left; apply Hsame, Heq|].
    destruct (Hput _ _ Heq) as [Hs' | [-> ->]]; [left; exact Hs'|].
    right. left. reflexivity.
  - destruct (cancel_table env u w Hinv)
      as [Heq | (i & ei & Hi & Hs & Heq)]; [left; apply Hsame, Heq|].
    destruct (Hput _ _ Heq) as [Hs' | [-> ->]]; [left; exact Hs'|].
    right. left. reflexivity.
  - destruct (initialized w) eqn:Hini.
    + destruct (clear_all_entries env w Hinv Hini) as (Hent & _).
      rewrite (Hent k e He) in He'. injection He' as <-.
      destruct (non_null (url e)); [right; left; reflexivity|].
      left. reflexivity.
    + left. apply Hsame. rewrite (clear_all_uninitialized env w Hini).
      reflexivity.
  - destruct (entries w !! i) as [ei|] eqn:Hi.
    + rewrite (worker_step_eq r i w ei Hi), state_of_eq in Hput.
      cbn [entries] in Hput.
      destruct (Hput _ _ eq_refl) as [Hs' | [-> ->]]; [left; exact Hs'|].
      assert (ei = e) as -> by congruence.
      right. right. right. eauto.
    + left. apply Hsame. rewrite (worker_step_none r i w Hi). reflexivity.
Qed.

(** A property of free slots that a start establishes and the worker's
    steps keep holds of every entry of every reachable state. *)
Lemma reachable_entries_ind (P : preload_entry -> Prop) :
  (forall e, url e = None -> free_inv e -> P e) ->
  (forall env u opts e0, free_inv e0 -> P (started env u opts e0)) ->
  (forall cb trig fresh r e,
     entry_inv e -> P e ->
     P (fst (fst (preload_thread_step cb trig fresh r e)))) ->
  forall w, reachable w -> forall k e, entries w !! k = Some e -> P e.
Proof.
  intros Hfree Hstart Hstep w Hr.
  induction Hr as [|a w Hr IH]; intros k e' He'.
  - pose proof (world_inv_lookup _ _ _ world_inv_init He') as Hi.
    assert (Hu : url e' = None).
    { apply (Forall_lookup_1 _ _ _ _ (inv_init _ world_inv_init eq_refl) He'). }
    apply Hfree; [exact Hu|exact (entry_inv_free e' Hi Hu)].
  - pose proof (reachable_inv w Hr) as Hinv.
    pose proof (reachable_inv _ (reachable_step a w Hr)) as Hinv'.
    pose proof (world_inv_lookup _ _ _ Hinv' He') as Hi'.
    destruct (lookup_lt_is_Some_2 (entries w) k) as (e & He).
    { rewrite (inv_length w Hinv), <- (inv_length _ Hinv').
      exact (lookup_lt_Some _ _ _ He'). }
    destruct (exec_slot_cases_free a w k e e' Hinv He He')
      as [-> | [Hu | [(env & u & opts & e0 & -> & Hf)
                     | (cb & trig & fresh & r & ->)]]].
    + exact (IH k e He).
    + apply Hfree; [exact Hu|exact (entry_inv_free e' Hi' Hu)].
    + apply Hstart, Hf.
    + apply Hstep; [exact (world_inv_lookup _ _ _ Hinv He)|exact (IH k e He)].
Qed.

(** ** The cache budget *)

(** X11. Every preload in the table has a positive byte budget and a
    positive readahead, whatever options it was started with. So the
    worker's threshold for CACHED is never met by an empty cache: when it
    moves an entry to CACHED, the engine reported forward bytes or the end
    of the file. *)
Theorem X11_budget_positive w k e :
  reachable w ->
  entries w !! k = Some e -> url e <> None ->
  0 < max_bytes e /\
  PrimFloat.ltb 0%float (readahead_secs e) = true /\
  (forall cb trig fresh r,
     status e <> MPV_PRELOAD_STATUS_CACHED ->
     status (fst (fst (preload_thread_step cb trig fresh r e)))
     = MPV_PRELOAD_STATUS_CACHED ->
     0 < rs_fw_bytes (reader r) \/ rs_eof_cached (reader r) = true).
Proof.
  intros Hr He Hu.
  assert (Hb : 0 < max_bytes e /\
               PrimFloat.ltb 0%float (readahead_secs e) = true).
  { revert Hu.
    apply (reachable_entries_ind
             (fun e => url e <> None ->
                0 < max_bytes e /\
                PrimFloat.ltb 0%float (readahead_secs e) = true))
      with (w := w) (k := k); [| | |exact Hr|exact He].
    - intros e0 H0 _ H. congruence.
    - intros env u opts e0 _ _. unfold started, init_entry. cbn. split.
      + destruct opts as [o|]; [|reflexivity].
        destruct (0 <? opt_max_bytes o) eqn:Hm; [|reflexivity].
        apply Z.ltb_lt, Hm.
      + destruct opts as [o|]; [|reflexivity].
        destruct (PrimFloat.ltb 0 (opt_readahead_secs o)) eqn:Hm;
          [exact Hm|reflexivity].
    - intros cb trig fresh r e0 _ IH Hu0.
      destruct (step_frame cb trig fresh r e0)
        as (Hu' & _ & _ & Hm & Hs & _).
      rewrite Hm, Hs. apply IH. congruence. }
  destruct Hb as (Hm & Hs). split; [exact Hm|]. split; [exact Hs|].
  intros cb trig fresh r Hnc. revert Hnc.
  thread_cases e r cb; intros Hnc Hc; try discriminate Hc;
    try (exfalso; apply Hnc; exact Hc).
  all: match goal with
       | H : (_ <=? _) || _ = true |- _ =>
           apply orb_true_iff in H as [H|H];
             [left; apply Z.leb_le in H; lia|right; exact H]
       end.
Qed.

Lemma X11_budget_positive_witness :
  0 < max_bytes (default zero_entry (entries w_ready !! 0%nat)).
Proof.
  assert (He : entries w_ready !! 0%nat
               = Some (default zero_entry (entries w_ready !! 0%nat)))
    by (vm_compute; reflexivity).
  assert (Hu : url (default zero_entry (entries w_ready !! 0%nat)) <> None)
    by (vm_compute; discriminate).
  exact (proj1 (X11_budget_positive w_ready 0%nat _ reachable_ready He Hu)).
Defined.

(** ** Who owns the engine's objects *)

Lemma step_res_inv cb trig fresh r e :
  thread_inv e -> res_inv e ->
  res_inv (fst (fst (preload_thread_step cb trig fresh r e))).
Proof.
  unfold thread_inv, res_inv.
  thread_cases e r cb; cbn; intros H1 H2;
    repeat match goal with
    | H : _ /\ _ |- _ => destruct H
    end; repeat split; try congruence; try tauto;
    try (intros; exfalso; congruence).
Qed.

(** The worker writes each of the three pointers at most once. *)
Lemma step_owned_keep cb trig fresh r e :
  thread_inv e -> res_inv e ->
  let e' := fst (fst (preload_thread_step cb trig fresh r e)) in
  (demuxer e <> None -> demuxer e' = demuxer e) /\
  (global e <> None -> global e' = global e) /\
  (cancel e <> None -> cancel e' = cancel e).
Proof.
  unfold thread_inv, res_inv.
  thread_cases e r cb; cbn; intros H1 H2;
    repeat match goal with
    | H : _ /\ _ |- _ => destruct H
    end; repeat split; intros; try reflexivity; try congruence; try tauto.
Qed.

Lemma thread_run_owned fuel cb trig r :
  forall fresh e,
    thread_inv e -> res_inv e ->
    let e' := fst (fst (thread_run fuel cb trig fresh r e)) in
    res_inv e' /\
    (demuxer e <> None -> demuxer e' = demuxer e) /\
    (global e <> None -> global e' = global e) /\
    (cancel e <> None -> cancel e' = cancel e).
Proof.
  induction fuel as [|k IH]; intros fresh e Ht Hres.
  - cbn. tauto.
  - change (thread_run (S k) cb trig fresh r e) with
      (let s := preload_thread_step cb trig fresh r e in
       let s' := thread_run k cb trig (snd s) r (fst (fst s)) in
       (fst (fst s'), snd (fst s) ++ snd (fst s'), snd s')).
    cbn zeta. cbn [fst snd].
    pose proof (step_thread_inv cb trig fresh r e Ht) as Ht'.
    pose proof (step_res_inv cb trig fresh r e Ht Hres) as Hres'.
    destruct (step_owned_keep cb trig fresh r e Ht Hres) as (Kd & Kg & Kc).
    destruct (IH (snd (preload_thread_step cb trig fresh r e))
                 (fst (fst (preload_thread_step cb trig fresh r e)))
                 Ht' Hres') as (Ir & Id & Ig & Ic).
    cbn zeta in *. split; [exact Ir|].
    split; [|split]; intros Hn.
    + rewrite Id by (rewrite Kd by exact Hn; exact Hn). apply Kd, Hn.
    + rewrite Ig by (rewrite Kg by exact Hn; exact Hn). apply Kg, Hn.
    + rewrite Ic by (rewrite Kc by exact Hn; exact Hn). apply Kc, Hn.
Qed.

Lemma joined_owned env w i e :
  thread_inv e -> res_inv e ->
  let e' := fst (fst (joined env w i e)) in
  res_inv e' /\
  (demuxer e <> None -> demuxer e' = demuxer e) /\
  (global e <> None -> global e' = global e) /\
  (cancel e <> None -> cancel e' = cancel e).
Proof.
  intros Ht Hres. unfold joined.
  exact (thread_run_owned join_fuel (g_preload_callback w) (triggered w)
           (engine env i) (next_handle w) (set_cancel_requested true e)
           Ht Hres).
Qed.

Lemma reachable_res_inv w k e :
  reachable w -> entries w !! k = Some e -> res_inv e.
Proof.
  intros Hr He.
  apply (reachable_entries_ind res_inv) with (w := w) (k := k);
    [| | |exact Hr|exact He].
  - intros e0 _ (_ & _ & Hd & _ & _ & [Ht|Ht]); unfold res_inv; rewrite Ht;
      [exact I|]. intros Hn. congruence.
  - intros env u opts e0 (_ & _ & _ & Hg & Hc & _). unfold res_inv. cbn.
    split; assumption.
  - intros cb trig fresh r e0 Hi IH. destruct (url e0) eqn:Hu.
    + destruct (entry_inv_occupied e0 Hi) as (_ & Ht); [congruence|].
      apply step_res_inv; assumption.
    + pose proof (entry_inv_free e0 Hi Hu) as (_ & _ & _ & _ & _ & Ht).
      rewrite (step_idle _ _ _ _ _ Ht). exact IH.
Qed.

(** An entry with a demuxer has its context and its token. *)
Lemma res_inv_demuxer e :
  thread_inv e -> res_inv e -> demuxer e <> None ->
  global e <> None /\ cancel e <> None.
Proof.
  unfold thread_inv, res_inv.
  destruct (thread e) as [| | | | | [|] | [|] |]; intros H1 H2 Hd;
    repeat match goal with
    | H : _ /\ _ |- _ => destruct H
    end; try contradiction; try tauto.
Qed.

(** X12. A hand-over gives the caller the whole preload: the demuxer that
    [mpv_preload_get_demuxer] returns takes the entry's context and its
    cancel token with it (both exist), and the call releases nothing. *)
Theorem X12_handover_moves_context env u w d :
  reachable w ->
  result (mpv_preload_get_demuxer env u w) = Some d ->
  exists i e g c tj,
    entries w !! i = Some e /\ demuxer e = Some d /\
    global e = Some g /\ cancel e = Some c /\
    trace_of (mpv_preload_get_demuxer env u w) =
      [EvLock; EvStopFlag i; EvUnlock; EvJoin i] ++ tj ++
      [EvLock; EvSteal d g; EvSteal d c; EvUnlock] /\
    forallb is_callback tj = true /\
    existsb is_release (trace_of (mpv_preload_get_demuxer env u w)) = false.
Proof.
  intros Hr Hres. pose proof (reachable_inv w Hr) as Hinv.
  destruct (get_demuxer_cases env u w Hinv)
    as [Heq | [Heq | (s & i & e & -> & Hi & Hf & He & Hu & Hnc & Hrun & Ht
                      & Heq)]];
    try (rewrite Heq in Hres; discriminate Hres).
  cbn zeta in Heq.
  pose proof (reachable_res_inv w i e Hr He) as Hri.
  assert (Hd : demuxer e <> None).
  { unfold not_claimable in Hnc. destruct (demuxer e); [discriminate|].
    rewrite orb_true_r in Hnc. discriminate Hnc. }
  destruct (res_inv_demuxer e Ht Hri Hd) as (Hg & Hc).
  pose proof (joined_demuxer env w i e Ht Hd) as Jd.
  destruct (joined_owned env w i e Ht Hri) as (_ & _ & Jg & Jc).
  cbn zeta in Jg, Jc. specialize (Jg Hg). specialize (Jc Hc).
  pose proof (joined_events env w i e) as Jev.
  rewrite Heq in Hres. rewrite Heq. rewrite result_eq in Hres.
  rewrite trace_of_eq. revert Hres Jd Jg Jc Jev.
  generalize (joined env w i e). intros [[ej tj] nj]. cbn [fst snd].
  intros Hres Jd Jg Jc Jev.
  destruct (global e) as [g|] eqn:Eg; [|congruence].
  destruct (cancel e) as [c|] eqn:Ec; [|congruence].
  exists i, e, g, c, tj.
  assert (Hst : steal_events ej = [EvSteal d g; EvSteal d c]).
  { unfold steal_events. rewrite Hres, Jg, Jc. reflexivity. }
  rewrite Hst. split; [exact He|]. split; [congruence|].
  split; [exact Eg|]. split; [exact Ec|]. split; [reflexivity|].
  split; [exact Jev|].
  cbn [app existsb is_release orb]. rewrite existsb_app.
  cbn [existsb is_release orb]. rewrite orb_false_r.
  apply not_true_is_false. intros Hex.
  apply existsb_exists in Hex as (ev & Hin & Hrel).
  pose proof (callbacks_only tj ev Jev Hin) as Hcb.
  destruct ev; discriminate.
Qed.

Lemma X12_handover_moves_context_witness :
  exists i e g c tj,
    entries w_ready !! i = Some e /\ demuxer e = Some 2%nat /\
    global e = Some g /\ cancel e = Some c /\
    trace_of (mpv_preload_get_demuxer (sample_env 9 true)
                (Some "a"%string) w_ready) =
      [EvLock; EvStopFlag i; EvUnlock; EvJoin i] ++ tj ++
      [EvLock; EvSteal 2%nat g; EvSteal 2%nat c; EvUnlock] /\
    forallb is_callback tj = true /\
    existsb is_release
      (trace_of (mpv_preload_get_demuxer (sample_env 9 true)
                   (Some "a"%string) w_ready)) = false.
Proof.
  assert (H : result (mpv_preload_get_demuxer (sample_env 9 true)
                        (Some "a"%string) w_ready) = Some 2%nat)
    by (vm_compute; reflexivity).
  exact (X12_handover_moves_context (sample_env 9 true) (Some "a"%string)
           w_ready 2%nat reachable_ready H).
Defined.

(** X13. [mpv_preload_cancel] leaks nothing: the demuxer, the context and
    the token that the entry held when the call was made are all released
    before the call returns, after the worker was joined, and nothing is
    handed to anyone. *)
Theorem X13_cancel_releases env u w i e :
  reachable w ->
  entries w !! i = Some e -> url e = Some u ->
  let tr := trace_of (mpv_preload_cancel env (Some u) w) in
  (forall d, demuxer e = Some d ->
     exists pre post, tr = pre ++ EvFreeDemuxer d :: post /\
                      In (EvJoin i) pre) /\
  (forall g, global e = Some g -> In (EvFree g) tr) /\
  (forall c, cancel e = Some c -> In (EvFree c) tr) /\
  existsb is_steal tr = false.
Proof.
  intros Hr He Hu. cbn zeta. pose proof (reachable_inv w Hr) as Hinv.
  assert (Hue : url e <> None) by congruence.
  destruct (entry_inv_occupied e (world_inv_lookup _ _ _ Hinv He) Hue)
    as (Hrun & Ht).
  pose proof (reachable_occupied_initialized w i e Hinv He Hue) as Hi.
  pose proof (find_entry_unique u _ i e (inv_unique w Hinv) He Hu) as Hf.
  pose proof (reachable_res_inv w i e Hr He) as Hri.
  rewrite (cancel_found env u w i e Hi Hf He Hue Hrun), trace_of_eq.
  pose proof (thread_run_owned join_fuel (g_preload_callback w)
                (triggered_after (cancel e) (triggered w)) (engine env i)
                (next_handle w) (set_cancel_requested true e) Ht Hri) as Ho.
  pose proof (thread_run_events join_fuel (g_preload_callback w)
                (triggered_after (cancel e) (triggered w)) (next_handle w)
                (engine env i) (set_cancel_requested true e)) as Jev.
  cbn zeta in Ho. revert Ho Jev.
  generalize (thread_run join_fuel (g_preload_callback w)
                (triggered_after (cancel e) (triggered w)) (next_handle w)
                (engine env i) (set_cancel_requested true e)).
  intros [[ej tj] nj]. cbn [fst snd set_cancel_requested demuxer global cancel].
  intros (_ & Jd & Jg & Jc) Jev.
  split; [|split; [|split]].
  - intros d Hd. rewrite Hd in Jd. specialize (Jd ltac:(discriminate)).
    exists ([EvLock; EvStopFlag i] ++ trigger_events (cancel e) ++
            [EvUnlock; EvJoin i] ++ tj ++ [EvLock; EvStopFlag i] ++
            trigger_events (cancel ej)).
    exists (match cancel ej with Some c => [EvFree c] | None => [] end ++
            match global ej with Some g => [EvFree g] | None => [] end ++
            [EvUnlock]).
    split.
    + unfold free_events. rewrite Jd. rewrite <- !app_assoc. cbn [app].
      reflexivity.
    + rewrite !in_app_iff. right. right. left. right. left. reflexivity.
  - intros g Hg. rewrite Hg in Jg. specialize (Jg ltac:(discriminate)).
    rewrite !in_app_iff. do 6 right. left. unfold free_events.
    rewrite Jg, !in_app_iff. right. right. left. reflexivity.
  - intros c Hc. rewrite Hc in Jc. specialize (Jc ltac:(discriminate)).
    rewrite !in_app_iff. do 6 right. left. unfold free_events.
    rewrite Jc, !in_app_iff. right. left. left. reflexivity.
  - apply not_true_is_false. intros Hex.
    apply existsb_exists in Hex as (ev & Hin & Hst).
    rewrite !in_app_iff in Hin.
    assert (Htrig : forall c0, In ev (trigger_events c0) -> False).
    { intros [c0|]; cbn; [intros [<-|[]]; discriminate|tauto]. }
    destruct Hin as [Hin|[Hin|[Hin|[Hin|[Hin|[Hin|[Hin|Hin]]]]]]].
    + cbn in Hin. destruct Hin as [<-|[<-|[]]]; discriminate.
    + exact (Htrig _ Hin).
    + cbn in Hin. destruct Hin as [<-|[<-|[]]]; discriminate.
    + pose proof (callbacks_only tj ev Jev Hin). destruct ev; discriminate.
    + cbn in Hin. destruct Hin as [<-|[<-|[]]]; discriminate.
    + exact (Htrig _ Hin).
    + unfold free_events in Hin. rewrite !in_app_iff in Hin.
      destruct (demuxer ej), (cancel ej), (global ej); cbn in Hin;
        intuition (subst; discriminate).
    + cbn in Hin. destruct Hin as [<-|[]]; discriminate.
Qed.

Lemma X13_cancel_releases_witness :
  In (EvFree 0%nat)
    (trace_of (mpv_preload_cancel (sample_env 9 true) (Some "a"%string)
                 w_ready)).
Proof.
  assert (He : entries w_ready !! 0%nat
               = Some (default zero_entry (entries w_ready !! 0%nat)))
    by (vm_compute; reflexivity).
  assert (Hu : url (default zero_entry (entries w_ready !! 0%nat))
               = Some "a"%string) by (vm_compute; reflexivity).
  assert (Hg : global (default zero_entry (entries w_ready !! 0%nat))
               = Some 0%nat) by (vm_compute; reflexivity).
  pose proof (X13_cancel_releases (sample_env 9 true) _ _ _ _
                reachable_ready He Hu) as P.
  cbv zeta in P. exact (proj1 (proj2 P) 0%nat Hg).
Defined.

(** ** Starting while there is room *)

(** X14. With room in the table, [mpv_preload_start] of a new url takes
    the first free slot and disturbs nobody: every slot before it is
    occupied, no other slot changes, no worker is signalled or joined, no
    token is triggered and no handle is allocated. *)
Theorem X14_start_in_free_slot env u opts w i :
  u <> EmptyString ->
  find_index (has_url u) 0 (entries w) = None ->
  find_index (fun e => negb (non_null (url e))) 0 (entries w) = Some i ->
  thread_create_ok env = true ->
  exists e,
    entries w !! i = Some e /\ url e = None /\
    (forall j ej, (j < i)%nat -> entries w !! j = Some ej -> url ej <> None) /\
    mpv_preload_start env (Some u) opts w =
    (0,
     {| entries := <[i := started env u opts e]> (entries w);
        initialized := true;
        g_preload_callback := g_preload_callback w;
        triggered := triggered w; next_handle := next_handle w |},
     [EvLock; EvSpawn i; EvUnlock]).
Proof.
  intros Hne Hf Hfree Hok.
  destruct (find_free_Some _ _ Hfree) as (e & He & Hu).
  destruct (find_index_0 _ _ _ Hfree) as (_ & Hbefore).
  exists e. split; [exact He|]. split; [exact Hu|]. split.
  - intros j ej Hj Hej Huj. specialize (Hbefore j ej Hj Hej). cbn in Hbefore.
    rewrite Huj in Hbefore. discriminate.
  - assert (Hfree' : find_index (fun e => negb (non_null (url e))) 0
                       (entries (initialized_world w)) = Some i)
      by (rewrite initialized_world_entries; exact Hfree).
    assert (He' : entries (initialized_world w) !! i = Some e)
      by (rewrite initialized_world_entries; exact He).
    rewrite (start_new env opts w u i (initialized_world w) [] e
               (String_eqb_nonempty u Hne) Hf
               (find_free_slot_free env _ i Hfree') He').
    rewrite Hok. unfold with_entries, initialized_world.
    destruct (initialized w) eqn:Hi; cbn; rewrite ?Hi; reflexivity.
Qed.

Lemma X14_start_in_free_slot_witness :
  exists e,
    entries w_ready !! 1%nat = Some e /\ url e = None /\
    (forall j ej, (j < 1)%nat -> entries w_ready !! j = Some ej ->
                  url ej <> None) /\
    mpv_preload_start (sample_env 9 true) (Some "b"%string) None w_ready =
    (0,
     {| entries :=
          <[1%nat := started (sample_env 9 true) "b"%string None e]>
            (entries w_ready);
        initialized := true;
        g_preload_callback := g_preload_callback w_ready;
        triggered := triggered w_ready;
        next_handle := next_handle w_ready |},
     [EvLock; EvSpawn 1%nat; EvUnlock]).
Proof.
  assert (Hne : "b"%string <> EmptyString) by discriminate.
  assert (Hf : find_index (has_url "b"%string) 0 (entries w_ready) = None)
    by (vm_compute; reflexivity).
  assert (Hfree : find_index (fun e => negb (non_null (url e))) 0
                    (entries w_ready) = Some 1%nat)
    by (vm_compute; reflexivity).
  assert (Hok : thread_create_ok (sample_env 9 true) = true) by reflexivity.
  exact (X14_start_in_free_slot (sample_env 9 true) "b"%string None w_ready
           1%nat Hne Hf Hfree Hok).
Defined.

(** ** Claiming a source that is still LOADING *)

Lemma thread_run_S k cb trig fresh r e :
  thread_run (S k) cb trig fresh r e =
  (let s := preload_thread_step cb trig fresh r e in
   let s' := thread_run k cb trig (snd s) r (fst (fst s)) in
   (fst (fst s'), snd (fst s) ++ snd (fst s'), snd s')).
Proof. reflexivity. Qed.

(** The worker that has just opened its demuxer, when asked to stop:
    it marks the entry READY, notifies, and returns from its loop at once. *)
Lemma thread_run_opened fuel cb trig fresh r e :
  thread e = T_opened -> cancel_requested e = true -> (2 <= fuel)%nat ->
  let r1 := invoke_callback cb r (set_status MPV_PRELOAD_STATUS_READY e) in
  thread_run fuel cb trig fresh r e =
  (set_thread T_exited (fst r1), snd r1, fresh).
Proof.
  intros Ht Hc Hf. cbn zeta.
  destruct fuel as [|[|k]]; try lia.
  rewrite thread_run_S. cbn zeta.
  assert (H1 : preload_thread_step cb trig fresh r e =
    (set_thread (T_loop false)
       (fst (invoke_callback cb r (set_status MPV_PRELOAD_STATUS_READY e))),
     snd (invoke_callback cb r (set_status MPV_PRELOAD_STATUS_READY e)),
     fresh)).
  { unfold preload_thread_step. rewrite Ht. reflexivity. }
  rewrite H1. cbn [fst snd]. rewrite thread_run_S. cbn zeta.
  set (e1 := set_thread (T_loop false)
       (fst (invoke_callback cb r (set_status MPV_PRELOAD_STATUS_READY e)))).
  assert (H2 : preload_thread_step cb trig fresh r e1 =
                 (set_thread T_exited e1, [], fresh)).
  { unfold preload_thread_step, e1, invoke_callback.
    destruct cb; cbn; rewrite Hc; reflexivity. }
  rewrite H2. cbn [fst snd].
  rewrite thread_run_idle by (right; reflexivity).
  cbn [fst snd]. rewrite !app_nil_r. reflexivity.
Qed.

Lemma notified_app t1 t2 : notified (t1 ++ t2) = notified t1 ++ notified t2.
Proof. unfold notified. apply flat_map_app. Qed.

Lemma notified_steal e : notified (steal_events e) = [].
Proof.
  unfold steal_events. destruct (demuxer e), (global e), (cancel e);
    reflexivity.
Qed.

(** An occupied entry in LOADING with a demuxer: its worker has just
    opened it. *)
Lemma thread_inv_loading e :
  thread_inv e -> status e = MPV_PRELOAD_STATUS_LOADING ->
  demuxer e <> None -> thread e = T_opened.
Proof.
  unfold thread_inv.
  destruct (thread e) as [| | | | | [|] | [|] |]; intros H Hs Hd;
    repeat match goal with
    | H : _ /\ _ |- _ => destruct H
    | H : _ \/ _ |- _ => destruct H
    end; try congruence; try tauto.
Qed.

(** X15. A source can be claimed while its status is still LOADING, as
    soon as the worker has stored the demuxer: the claim succeeds, and the
    worker, before it returns to the waiting claimer, marks the entry READY
    and notifies once, so the callback runs inside the claim. Before the
    demuxer is stored, a claim of a LOADING source is refused and changes
    nothing. *)
Theorem X15_claim_while_loading env u w i e :
  reachable w ->
  entries w !! i = Some e -> url e = Some u ->
  status e = MPV_PRELOAD_STATUS_LOADING ->
  (demuxer e = None ->
   mpv_preload_get_demuxer env (Some u) w = (None, w, [EvLock; EvUnlock])) /\
  (forall d, demuxer e = Some d ->
     result (mpv_preload_get_demuxer env (Some u) w) = Some d /\
     notified (trace_of (mpv_preload_get_demuxer env (Some u) w)) =
       match g_preload_callback w with
       | Some _ => [status_code MPV_PRELOAD_STATUS_READY]
       | None => []
       end).
Proof.
  intros Hr He Hu Hs. pose proof (reachable_inv w Hr) as Hinv.
  assert (Hue : url e <> None) by congruence.
  destruct (entry_inv_occupied e (world_inv_lookup _ _ _ Hinv He) Hue)
    as (Hrun & Ht).
  pose proof (reachable_occupied_initialized w i e Hinv He Hue) as Hi.
  pose proof (find_entry_unique u _ i e (inv_unique w Hinv) He Hu) as Hf.
  split.
  - intros Hd. apply (get_demuxer_refused env u w i e Hi Hf He).
    unfold not_claimable. rewrite Hd. cbn. apply orb_true_r.
  - intros d Hd.
    assert (Hnc : not_claimable e = false).
    { unfold not_claimable. rewrite Hs, Hd. reflexivity. }
    assert (Hop : thread e = T_opened).
    { apply thread_inv_loading; [exact Ht|exact Hs|congruence]. }
    rewrite (get_demuxer_taken env u w i e Hi Hf He Hnc Hrun).
    rewrite result_eq, trace_of_eq. unfold joined.
    rewrite (thread_run_opened join_fuel (g_preload_callback w) (triggered w)
               (next_handle w) (engine env i) (set_cancel_requested true e)
               Hop eq_refl ltac:(unfold join_fuel; lia)).
    cbn [fst snd]. unfold invoke_callback.
    destruct (g_preload_callback w) as [f|]; cbn [fst snd].
    + split; [cbn; exact Hd|].
      rewrite !notified_app, notified_steal. cbn.
      rewrite fill_status. reflexivity.
    + split; [cbn; exact Hd|].
      rewrite !notified_app, notified_steal. reflexivity.
Qed.

Lemma reachable_opened : reachable w_opened.
Proof. apply reachable_run. Qed.

Lemma X15_claim_while_loading_witness :
  result (mpv_preload_get_demuxer (sample_env 9 true) (Some "a"%string)
            w_opened) = Some 2%nat /\
  notified (trace_of (mpv_preload_get_demuxer (sample_env 9 true)
                        (Some "a"%string) w_opened)) =
    match g_preload_callback w_opened with
    | Some _ => [status_code MPV_PRELOAD_STATUS_READY]
    | None => []
    end.
Proof.
  assert (He : entries w_opened !! 0%nat
               = Some (default zero_entry (entries w_opened !! 0%nat)))
    by (vm_compute; reflexivity).
  assert (Hu : url (default zero_entry (entries w_opened !! 0%nat))
               = Some "a"%string) by (vm_compute; reflexivity).
  assert (Hs : status (default zero_entry (entries w_opened !! 0%nat))
               = MPV_PRELOAD_STATUS_LOADING) by (vm_compute; reflexivity).
  assert (Hd : demuxer (default zero_entry (entries w_opened !! 0%nat))
               = Some 2%nat) by (vm_compute; reflexivity).
  exact (proj2 (X15_claim_while_loading (sample_env 9 true) _ _ _ _
                  reachable_opened He Hu Hs) 2%nat Hd).
Defined.

(** ** The [initialized] flag *)

(** X16. The registry is initialised by the first [mpv_preload_start] with
    a non-empty url and never goes back, not even in
    [mpv_preload_clear_all]. Until then no other call, and no worker,
    touches the mutex or the table: every trace is empty. *)
Theorem X16_initialized_once a w :
  reachable w ->
  (initialized w = true -> initialized (fst (exec a w)) = true) /\
  (forall env u opts,
     a = Call_start env (Some u) opts -> u <> EmptyString ->
     initialized (fst (exec a w)) = true) /\
  (initialized w = false ->
   (forall env u opts,
      a = Call_start env (Some u) opts -> u = EmptyString) ->
   snd (exec a w) = [] /\ entries (fst (exec a w)) = entries w /\
   initialized (fst (exec a w)) = false).
Proof.
  intros Hr. pose proof (reachable_inv w Hr) as Hinv.
  assert (Hstart : forall env u opts, u <> EmptyString ->
            initialized (state_of (mpv_preload_start env (Some u) opts w))
            = true).
  { intros env u opts Hne.
    pose proof (String_eqb_nonempty u Hne) as Hne'.
    destruct (find_index (has_url u) 0 (entries w)) as [i|] eqn:Hf.
    - rewrite (start_existing env opts w u i Hf Hne'), state_of_eq.
      apply initialized_world_initialized.
    - destruct (start_new_slot env opts w u Hinv Hne' Hf)
        as (i & e & e0 & t & _ & _ & _ & _ & _ & Hini & _).
      exact Hini. }
  split; [|split].
  - intros Hi.
    destruct a as [cb|env u opts|env u info|env u|env u|env|i r];
      cbn [exec fst].
    + exact Hi.
    + destruct u as [u|]; [|exact Hi].
      destruct (String.eqb u "") eqn:Hne.
      * apply String_eqb_empty in Hne. subst u. exact Hi.
      * apply Hstart. intros ->. discriminate Hne.
    + rewrite get_info_state. exact Hi.
    + destruct (get_demuxer_cases env u w Hinv)
        as [-> | [-> | (s & i & e & -> & _ & _ & _ & _ & _ & _ & _ & Heq)]];
        try exact Hi.
      cbn zeta in Heq. rewrite Heq. reflexivity.
    + destruct (cancel_cases env u w Hinv)
        as [(t & ->) | (s & i & e & -> & _ & _ & _ & _ & _ & _ & Heq)];
        [exact Hi|].
      cbn zeta in Heq. rewrite Heq. reflexivity.
    + apply (clear_all_entries env w Hinv Hi).
    + destruct (entries w !! i) as [e|] eqn:He.
      * rewrite (worker_step_eq r i w e He). exact Hi.
      * rewrite (worker_step_none r i w He). exact Hi.
  - intros env u opts -> Hne. cbn [exec fst]. apply Hstart, Hne.
  - intros Hi Hnostart.
    destruct a as [cb|env u opts|env u info|env u|env u|env|i r];
      cbn [exec fst snd].
    + repeat split. exact Hi.
    + destruct u as [u|]; [|repeat split; exact Hi].
      rewrite (Hnostart env u opts eq_refl). repeat split. exact Hi.
    + rewrite get_info_state.
      destruct (get_info_trace env u info w) as [-> | Htr].
      * repeat split. exact Hi.
      * exfalso. revert Htr. unfold mpv_preload_get_info.
        destruct u as [u|], info as [info|]; try discriminate.
        op_unfold. cbn. rewrite Hi. discriminate.
    + rewrite (get_demuxer_uninitialized env u w Hi). repeat split. exact Hi.
    + rewrite (cancel_uninitialized env u w Hi). repeat split. exact Hi.
    + rewrite (clear_all_uninitialized env w Hi). repeat split. exact Hi.
    + destruct (entries w !! i) as [e|] eqn:He.
      * assert (Hu : url e = None)
          by exact (Forall_lookup_1 _ _ _ _ (inv_init w Hinv Hi) He).
        pose proof (entry_inv_free e (world_inv_lookup _ _ _ Hinv He) Hu)
          as (_ & _ & _ & _ & _ & Ht).
        rewrite (worker_step_eq r i w e He).
        rewrite (step_idle _ _ _ _ _ Ht). cbn.
        rewrite (list_insert_id _ _ _ He). repeat split. exact Hi.
      * rewrite (worker_step_none r i w He). repeat split. exact Hi.
Qed.

Lemma X16_initialized_once_witness :
  initialized
    (fst (exec (Call_clear_all (sample_env 9 true)) w_ready)) = true.
Proof.
  assert (Hi : initialized w_ready = true) by (vm_compute; reflexivity).
  exact (proj1 (X16_initialized_once (Call_clear_all (sample_env 9 true))
                  w_ready reachable_ready) Hi).
Defined.

(** ** A notified source can be claimed *)

Lemma thread_inv_ready e :
  thread_inv e ->
  status e = MPV_PRELOAD_STATUS_READY \/ status e = MPV_PRELOAD_STATUS_CACHED ->
  demuxer e <> None.
Proof.
  unfold thread_inv.
  destruct (thread e) as [| | | | | [|] | [|] |]; intros H Hs;
    repeat match goal with
    | H : _ /\ _ |- _ => destruct H
    | H : _ \/ _ |- _ => destruct H
    end; try congruence; try tauto.
Qed.

(** X17. Once an entry is READY or CACHED its demuxer is there to be
    claimed: [mpv_preload_get_demuxer] returns it. So after a READY or
    CACHED notification for a url, a claim of that url succeeds, whatever
    else the worker has done in between. *)
Theorem X17_ready_is_claimable env u w i e :
  reachable w ->
  entries w !! i = Some e -> url e = Some u ->
  status e = MPV_PRELOAD_STATUS_READY \/ status e = MPV_PRELOAD_STATUS_CACHED ->
  (exists d, demuxer e = Some d /\
             result (mpv_preload_get_demuxer env (Some u) w) = Some d) /\
  (forall r ins,
     let w1 := fst (run (map (fun x => Worker i x) (r :: ins)) w) in
     result (mpv_preload_get_demuxer env (Some u) w1) = demuxer e).
Proof.
  intros Hr He Hu Hs.
  assert (Hclaim : forall w0 e0,
    reachable w0 -> entries w0 !! i = Some e0 -> url e0 = Some u ->
    status e0 = MPV_PRELOAD_STATUS_READY \/
    status e0 = MPV_PRELOAD_STATUS_CACHED ->
    demuxer e0 <> None /\
    result (mpv_preload_get_demuxer env (Some u) w0) = demuxer e0).
  { intros w0 e0 Hr0 He0 Hu0 Hs0. pose proof (reachable_inv w0 Hr0) as Hinv.
    assert (Hue : url e0 <> None) by congruence.
    destruct (entry_inv_occupied e0 (world_inv_lookup _ _ _ Hinv He0) Hue)
      as (Hrun & Ht).
    pose proof (reachable_occupied_initialized w0 i e0 Hinv He0 Hue) as Hi.
    pose proof (find_entry_unique u _ i e0 (inv_unique w0 Hinv) He0 Hu0) as Hf.
    pose proof (thread_inv_ready e0 Ht Hs0) as Hd.
    split; [exact Hd|].
    assert (Hnc : not_claimable e0 = false).
    { unfold not_claimable. destruct (demuxer e0); [|congruence].
      destruct Hs0 as [-> | ->]; reflexivity. }
    rewrite (get_demuxer_taken env u w0 i e0 Hi Hf He0 Hnc Hrun).
    rewrite result_eq. exact (joined_demuxer env w0 i e0 Ht Hd). }
  split.
  - destruct (Hclaim w e Hr He Hu Hs) as (Hd & Hres).
    destruct (demuxer e) as [d|] eqn:Ed; [|congruence].
    exists d. split; [reflexivity|exact Hres].
  - intros r ins. cbn zeta.
    assert (Hgen : forall l w0 e0,
      reachable w0 -> entries w0 !! i = Some e0 -> url e0 = Some u ->
      status e0 = MPV_PRELOAD_STATUS_READY \/
      status e0 = MPV_PRELOAD_STATUS_CACHED ->
      result (mpv_preload_get_demuxer env (Some u)
                (fst (run (map (fun x => Worker i x) l) w0))) = demuxer e0).
    { induction l as [|x l IH]; intros w0 e0 Hr0 He0 Hu0 Hs0.
      - cbn [map run fst]. apply (Hclaim w0 e0 Hr0 He0 Hu0 Hs0).
      - cbn [map run fst].
        pose proof (reachable_inv w0 Hr0) as Hinv.
        assert (Hue : url e0 <> None) by congruence.
        destruct (entry_inv_occupied e0 (world_inv_lookup _ _ _ Hinv He0) Hue)
          as (_ & Ht).
        pose proof (thread_inv_ready e0 Ht Hs0) as Hd.
        set (s := preload_thread_step (g_preload_callback w0) (triggered w0)
                    (next_handle w0) x e0).
        assert (He1 : entries (fst (exec (Worker i x) w0)) !! i
                      = Some (fst (fst s))).
        { cbn [exec fst]. rewrite (worker_step_eq x i w0 e0 He0), state_of_eq.
          cbn [entries]. apply list_lookup_insert_eq.
          exact (lookup_lt_Some _ _ _ He0). }
        rewrite (IH _ (fst (fst s)) (reachable_step _ _ Hr0) He1).
        + apply step_demuxer_keep; assumption.
        + unfold s. rewrite step_url. exact Hu0.
        + pose proof (step_status_le (g_preload_callback w0) (triggered w0)
                        (next_handle w0) x e0 Ht) as Hle.
          fold s in Hle.
          pose proof (step_thread_inv (g_preload_callback w0) (triggered w0)
                        (next_handle w0) x e0 Ht) as Ht1.
          fold s in Ht1.
          pose proof (step_demuxer_keep (g_preload_callback w0) (triggered w0)
                        (next_handle w0) x e0 Ht Hd) as Hd1.
          fold s in Hd1.
          destruct Hs0 as [Hs0 | Hs0]; rewrite Hs0 in Hle;
            destruct (status (fst (fst s))) eqn:Es; cbn in Hle;
            try discriminate Hle; auto. }
    exact (Hgen (r :: ins) w e Hr He Hu Hs).
Qed.

Lemma X17_ready_is_claimable_witness :
  exists d,
    demuxer (default zero_entry (entries w_ready !! 0%nat)) = Some d /\
    result (mpv_preload_get_demuxer (sample_env 9 true) (Some "a"%string)
              w_ready) = Some d.
Proof.
  assert (He : entries w_ready !! 0%nat
               = Some (default zero_entry (entries w_ready !! 0%nat)))
    by (vm_compute; reflexivity).
  assert (Hu : url (default zero_entry (entries w_ready !! 0%nat))
               = Some "a"%string) by (vm_compute; reflexivity).
  assert (Hs : status (default zero_entry (entries w_ready !! 0%nat))
               = MPV_PRELOAD_STATUS_READY \/
               status (default zero_entry (entries w_ready !! 0%nat))
               = MPV_PRELOAD_STATUS_CACHED)
    by (left; vm_compute; reflexivity).
  exact (proj1 (X17_ready_is_claimable (sample_env 9 true) _ _ _ _
                  reachable_ready He Hu Hs)).
Defined.

(** ** Who is called back *)

(** A loop keeps what each of its bodies keeps, and its events are what
    theirs are. *)
Lemma for_each_slot_inv body (I : world -> Prop) (P : event -> Prop) :
  (forall k w, I w ->
     I (state_of (body k w)) /\ Forall P (trace_of (body k w))) ->
  forall n i w,
    I w ->
    I (state_of (for_each_slot n i body w)) /\
    Forall P (trace_of (for_each_slot n i body w)).
Proof.
  intros Hb. induction n as [|n IH]; intros i w Hw.
  - split; [exact Hw|constructor].
  - rewrite for_each_slot_S, state_of_eq, trace_of_eq.
    destruct (Hb i w Hw) as (H1 & T1).
    destruct (IH (S i) _ H1) as (H2 & T2).
    split; [exact H2|]. apply Forall_app. split; assumption.
Qed.

(** [mpv_preload_clear_all] keeps what the bodies of its three loops keep. *)
Lemma clear_all_inv env (I : world -> Prop) (P : event -> Prop) w :
  (forall k w, I w ->
     I (state_of (signal_slot k w)) /\ Forall P (trace_of (signal_slot k w))) ->
  (forall k w, I w ->
     I (state_of (join_slot env k w)) /\
     Forall P (trace_of (join_slot env k w))) ->
  (forall k w, I w ->
     I (state_of (cleanup_entry env k w)) /\
     Forall P (trace_of (cleanup_entry env k w))) ->
  P EvLock -> P EvUnlock ->
  I w ->
  I (state_of (mpv_preload_clear_all env w)) /\
  Forall P (trace_of (mpv_preload_clear_all env w)).
Proof.
  intros B1 B2 B3 PL PU Hw.
  destruct (initialized w) eqn:Hi.
  2:{ rewrite (clear_all_uninitialized env w Hi). split; [exact Hw|constructor]. }
  rewrite (clear_all_eq env w Hi), state_of_eq, trace_of_eq.
  destruct (for_each_slot_inv signal_slot I P B1 MPV_PRELOAD_MAX_ENTRIES 0 w Hw)
    as (H1 & T1).
  destruct (for_each_slot_inv (join_slot env) I P B2 MPV_PRELOAD_MAX_ENTRIES 0
              _ H1) as (H2 & T2).
  destruct (for_each_slot_inv (cleanup_entry env) I P B3
              MPV_PRELOAD_MAX_ENTRIES 0 _ H2) as (H3 & T3).
  split; [exact H3|].
  repeat (apply Forall_app; split);
    try (repeat constructor; assumption); assumption.
Qed.

Lemma step_callbacks cb trig fresh r e ev :
  In ev (snd (fst (preload_thread_step cb trig fresh r e))) ->
  exists f inf,
    ev = EvCallback f (url e) inf /\ cb = Some f /\
    (info_status inf = status_code MPV_PRELOAD_STATUS_READY \/
     info_status inf = status_code MPV_PRELOAD_STATUS_CACHED \/
     info_status inf = status_code MPV_PRELOAD_STATUS_ERROR).
Proof.
  intros Hin.
  destruct (step_notification cb trig fresh r e)
    as [Hnil | (f & -> & Htr & Hci & Hst)]; cbn zeta in *.
  - rewrite Hnil in Hin. destruct Hin.
  - rewrite Htr in Hin. destruct Hin as [<- | []].
    eexists _, _. split; [reflexivity|]. split; [reflexivity|].
    rewrite Hci, fill_status.
    destruct Hst as [-> | [-> | ->]]; auto.
Qed.

Lemma thread_run_callbacks fuel cb trig r ev :
  forall fresh e,
    In ev (snd (fst (thread_run fuel cb trig fresh r e))) ->
    exists f inf,
      ev = EvCallback f (url e) inf /\ cb = Some f /\
      (info_status inf = status_code MPV_PRELOAD_STATUS_READY \/
       info_status inf = status_code MPV_PRELOAD_STATUS_CACHED \/
       info_status inf = status_code MPV_PRELOAD_STATUS_ERROR).
Proof.
  induction fuel as [|k IH]; intros fresh e Hin.
  - destruct Hin.
  - rewrite thread_run_S in Hin. cbn zeta in Hin. cbn [fst snd] in Hin.
    apply in_app_iff in Hin as [Hin | Hin].
    + exact (step_callbacks _ _ _ _ _ _ Hin).
    + destruct (IH _ _ Hin) as (f & inf & -> & Hcb & Hst).
      rewrite step_url. eauto 6.
Qed.

(** The callbacks of a joined worker are in order, when its entry is. *)
Lemma thread_run_callback_for w0 fuel cb trig fresh r e :
  cb = g_preload_callback w0 ->
  idle_when_free e ->
  (forall u, url e = Some u ->
     exists k0 e0, entries w0 !! k0 = Some e0 /\ url e0 = Some u) ->
  Forall (callback_for w0) (snd (fst (thread_run fuel cb trig fresh r e))).
Proof.
  intros Hcb Hidle Hurl. apply List.Forall_forall. intros ev Hin.
  destruct (url e) as [u|] eqn:Hu.
  - destruct (thread_run_callbacks _ _ _ _ _ _ _ Hin)
      as (f & inf & -> & Hf & Hst).
    destruct (Hurl u eq_refl) as (k0 & e0 & He0 & Hu0).
    cbn. split; [congruence|]. split; [|exact Hst].
    exists k0, e0, u. rewrite Hu. auto.
  - rewrite (thread_run_idle _ _ _ _ _ _ (Hidle Hu)) in Hin. destruct Hin.
Qed.

Lemma callback_for_trigger w0 c : Forall (callback_for w0) (trigger_events c).
Proof. destruct c; repeat constructor. Qed.

Lemma callback_for_free w0 e : Forall (callback_for w0) (free_events e).
Proof.
  unfold free_events. destruct (demuxer e), (cancel e), (global e);
    repeat constructor.
Qed.

Lemma callback_for_steal w0 e : Forall (callback_for w0) (steal_events e).
Proof.
  unfold steal_events. destruct (demuxer e), (global e), (cancel e);
    repeat constructor.
Qed.

Lemma same_urls_refl w : world_inv w -> same_urls w w.
Proof.
  intros Hinv. split; [reflexivity|]. intros k e He. split.
  - intros Hu.
    pose proof (entry_inv_free e (world_inv_lookup _ _ _ Hinv He) Hu)
      as (_ & _ & _ & _ & _ & Ht). exact Ht.
  - intros u Hu. eauto.
Qed.

(** Replacing the entry of a slot by one with the same url, or by a free
    and idle one, keeps [same_urls]. *)
Lemma same_urls_insert w0 w k e e' nh trig :
  same_urls w0 w ->
  entries w !! k = Some e ->
  idle_when_free e' ->
  (url e' = url e \/ url e' = None) ->
  same_urls w0
    {| entries := <[k := e']> (entries w); initialized := initialized w;
       g_preload_callback := g_preload_callback w;
       triggered := trig; next_handle := nh |}.
Proof.
  intros (Hcb & Hall) He Hidle Hurl. split; [exact Hcb|].
  intros j x Hx. cbn [entries] in Hx.
  destruct (decide (j = k)) as [->|Hne].
  - rewrite list_lookup_insert_eq in Hx by exact (lookup_lt_Some _ _ _ He).
    injection Hx as <-. split; [exact Hidle|].
    intros u Hu. destruct Hurl as [Hsame | Hnone]; [|congruence].
    apply (proj2 (Hall k e He)). congruence.
  - rewrite list_lookup_insert_ne in Hx by congruence. exact (Hall j x Hx).
Qed.

Lemma thread_run_idle_when_free fuel cb trig fresh r e :
  idle_when_free e ->
  idle_when_free (fst (fst (thread_run fuel cb trig fresh r e))).
Proof.
  intros Hidle Hu.
  destruct (thread_run_frame fuel cb trig fresh r e) as (Hu' & _).
  rewrite Hu' in Hu. rewrite (thread_run_idle _ _ _ _ _ _ (Hidle Hu)).
  exact (Hidle Hu).
Qed.

Lemma signal_slot_callbacks w0 k w :
  same_urls w0 w ->
  same_urls w0 (state_of (signal_slot k w)) /\
  Forall (callback_for w0) (trace_of (signal_slot k w)).
Proof.
  intros Hs. destruct (entries w !! k) as [e|] eqn:He.
  - rewrite (signal_slot_eq _ _ _ He), state_of_eq, trace_of_eq.
    destruct (non_null (url e)); [|split; [exact Hs|constructor]].
    split.
    + apply (same_urls_insert w0 w k e); [exact Hs|exact He| |left; reflexivity].
      exact (proj1 (proj2 Hs k e He)).
    + constructor; [exact I|apply callback_for_trigger].
  - rewrite (signal_slot_none _ _ He). split; [exact Hs|constructor].
Qed.

Lemma join_slot_callbacks env w0 k w :
  same_urls w0 w ->
  same_urls w0 (state_of (join_slot env k w)) /\
  Forall (callback_for w0) (trace_of (join_slot env k w)).
Proof.
  intros Hs. destruct (entries w !! k) as [e|] eqn:He.
  - rewrite (join_slot_eq _ _ _ _ He).
    destruct (thread_running e); [|split; [exact Hs|constructor]].
    rewrite state_of_eq, trace_of_eq.
    destruct (proj2 Hs k e He) as (Hidle & Hurl).
    pose proof (thread_run_callback_for w0 join_fuel (g_preload_callback w)
                  (triggered w) (next_handle w) (engine env k) e
                  (proj1 Hs) Hidle Hurl) as Hcb.
    pose proof (thread_run_idle_when_free join_fuel (g_preload_callback w)
                  (triggered w) (next_handle w) (engine env k) e Hidle) as Hi'.
    pose proof (thread_run_frame join_fuel (g_preload_callback w)
                  (triggered w) (next_handle w) (engine env k) e) as Hfr.
    cbn zeta in Hfr. destruct Hfr as (Hu' & _).
    revert Hcb Hi' Hu'.
    generalize (thread_run join_fuel (g_preload_callback w) (triggered w)
                  (next_handle w) (engine env k) e).
    intros [[ej tj] nj]. cbn [fst snd]. intros Hcb Hi' Hu'. split.
    + apply (same_urls_insert w0 w k e); [exact Hs|exact He| |left; exact Hu'].
      exact Hi'.
    + constructor; [exact I|exact Hcb].
  - rewrite (join_slot_none _ _ _ He). split; [exact Hs|constructor].
Qed.

Lemma cleanup_entry_callbacks env w0 k w :
  same_urls w0 w ->
  same_urls w0 (state_of (cleanup_entry env k w)) /\
  Forall (callback_for w0) (trace_of (cleanup_entry env k w)).
Proof.
  intros Hs. destruct (entries w !! k) as [e|] eqn:He.
  2:{ rewrite cleanup_entry_free by (rewrite He; reflexivity).
      split; [exact Hs|constructor]. }
  destruct (url e) eqn:Hu.
  2:{ rewrite cleanup_entry_free by (rewrite He; exact Hu).
      split; [exact Hs|constructor]. }
  rewrite (cleanup_entry_occupied _ _ _ _ He) by congruence.
  rewrite state_of_eq, trace_of_eq.
  destruct (proj2 Hs k e He) as (Hidle & Hurl).
  pose proof (thread_run_callback_for w0 join_fuel (g_preload_callback w)
                (triggered_after (cancel e) (triggered w)) (next_handle w)
                (engine env k) (set_cancel_requested true e)
                (proj1 Hs) Hidle Hurl) as Hcb.
  revert Hcb.
  generalize (thread_run join_fuel (g_preload_callback w)
                (triggered_after (cancel e) (triggered w)) (next_handle w)
                (engine env k) (set_cancel_requested true e)).
  intros [[ej tj] nj] Hcb. cbn [fst snd] in Hcb. split.
  - apply (same_urls_insert w0 w k e); [exact Hs|exact He| |right; reflexivity].
    intros _. left. reflexivity.
  - constructor; [exact I|].
    apply Forall_app. split; [apply callback_for_trigger|].
    apply Forall_app. split.
    + destruct (thread_running e); cbn [fst snd];
        [constructor; [exact I|exact Hcb]|constructor].
    + apply callback_for_free.
Qed.

Lemma same_urls_initialized w0 w :
  same_urls w0 w -> same_urls w0 (initialized_world w).
Proof.
  unfold initialized_world. destruct (initialized w); [tauto|].
  intros (Hcb & Hall). split; [exact Hcb|exact Hall].
Qed.

(** X18. Nobody is called back out of turn. Every invocation of the
    callback, in a worker's step or inside any call of the API while it
    joins a worker, goes to the callback that is registered at that moment,
    carries the url of an entry that is in the table when the action
    begins, and reports READY, CACHED or ERROR: never NONE or LOADING,
    never a [NULL] url, never a url that was cancelled, handed over or
    cleared before. *)
Theorem X18_callbacks_in_order a w :
  reachable w -> Forall (callback_for w) (snd (exec a w)).
Proof.
  intros Hr. pose proof (reachable_inv w Hr) as Hinv.
  pose proof (same_urls_refl w Hinv) as Hs.
  destruct a as [cb|env u opts|env u info|env u|env u|env|i r];
    cbn [exec snd].
  - constructor.
  - destruct u as [u|]; [|constructor].
    destruct (String.eqb u "") eqn:Hne.
    { apply String_eqb_empty in Hne. subst u. constructor. }
    destruct (find_index (has_url u) 0 (entries w)) as [i|] eqn:Hf.
    { rewrite (start_existing env opts w u i Hf Hne), trace_of_eq.
      repeat constructor. }
    destruct (start_new_slot env opts w u Hinv Hne Hf)
      as (i & e & e0 & t & He & Hcase & _ & _ & _ & _ & _ & Htr).
    rewrite Htr.
    assert (Ht : Forall (callback_for w) t).
    { destruct Hcase as [(_ & _ & -> & _) | (_ & _ & _ & _ & ->)];
        [constructor|].
      apply cleanup_entry_callbacks, same_urls_initialized, Hs. }
    constructor; [exact I|]. apply Forall_app. split; [exact Ht|].
    destruct (thread_create_ok env); repeat constructor.
  - destruct (get_info_trace env u info w) as [-> | ->]; repeat constructor.
  - destruct (get_demuxer_cases env u w Hinv)
      as [-> | [-> | (s & i & e & -> & _ & _ & He & Hu & _ & _ & _ & Heq)]];
      try (repeat constructor).
    cbn zeta in Heq. rewrite Heq, trace_of_eq.
    destruct (proj2 Hs i e He) as (Hidle & Hurl).
    pose proof (thread_run_callback_for w join_fuel (g_preload_callback w)
                  (triggered w) (next_handle w) (engine env i)
                  (set_cancel_requested true e) eq_refl Hidle Hurl) as Hcb.
    fold (joined env w i e) in Hcb. revert Hcb.
    generalize (joined env w i e). intros [[ej tj] nj] Hcb.
    cbn [fst snd] in Hcb |- *.
    repeat (apply Forall_app; split); try (repeat constructor);
      try exact Hcb. apply callback_for_steal.
  - destruct (cancel_cases env u w Hinv)
      as [(t & Heq) | (s & i & e & -> & _ & _ & He & Hu & _ & _ & Heq)].
    + destruct u as [s|]; [|constructor].
      destruct (initialized w) eqn:Hi.
      2:{ rewrite (cancel_uninitialized env (Some s) w Hi). constructor. }
      destruct (find_index (has_url s) 0 (entries w)) as [i|] eqn:Hf.
      2:{ rewrite (cancel_absent env s w Hi Hf). repeat constructor. }
      destruct (find_entry_Some _ _ _ Hf) as (e & He & Hu).
      assert (Hue : url e <> None) by congruence.
      destruct (entry_inv_occupied e (world_inv_lookup _ _ _ Hinv He) Hue)
        as (Hrun & _).
      rewrite (cancel_found env s w i e Hi Hf He Hue Hrun) in Heq.
      discriminate Heq.
    + cbn zeta in Heq. rewrite Heq, trace_of_eq.
      destruct (proj2 Hs i e He) as (Hidle & Hurl).
      pose proof (thread_run_callback_for w join_fuel (g_preload_callback w)
                    (triggered_after (cancel e) (triggered w)) (next_handle w)
                    (engine env i) (set_cancel_requested true e)
                    eq_refl Hidle Hurl) as Hcb.
      revert Hcb.
      generalize (thread_run join_fuel (g_preload_callback w)
                    (triggered_after (cancel e) (triggered w)) (next_handle w)
                    (engine env i) (set_cancel_requested true e)).
      intros [[ej tj] nj] Hcb. cbn [fst snd] in Hcb |- *.
      repeat (apply Forall_app; split); try (repeat constructor);
        try exact Hcb;
        try apply callback_for_trigger; try apply callback_for_free;
        match goal with
        | |- Forall _ (match ?x with _ => _ end) =>
            destruct x; repeat constructor
        end.
  - apply (clear_all_inv env (same_urls w) (callback_for w) w);
      try exact I; try exact Hs.
    + intros k w1. apply signal_slot_callbacks.
    + intros k w1. apply join_slot_callbacks.
    + intros k w1. apply cleanup_entry_callbacks.
  - destruct (entries w !! i) as [e|] eqn:He.
    + rewrite (worker_step_eq r i w e He), trace_of_eq.
      destruct (proj2 Hs i e He) as (Hidle & Hurl).
      pose proof (thread_run_callback_for w 1 (g_preload_callback w)
                    (triggered w) (next_handle w) r e eq_refl Hidle Hurl)
        as Hcb.
      rewrite thread_run_S in Hcb. cbn zeta in Hcb. cbn [fst snd] in Hcb.
      apply Forall_app in Hcb. exact (proj1 Hcb).
    + rewrite (worker_step_none r i w He). constructor.
Qed.

Lemma X18_callbacks_in_order_witness :
  Forall (callback_for w_opened)
    (snd (exec (Call_get_demuxer (sample_env 9 true) (Some "a"%string))
            w_opened)).
Proof. exact (X18_callbacks_in_order _ w_opened reachable_opened). Defined.

(** ** References to the engine's objects *)

Lemma step_mentions cb trig fresh r e :
  let s := preload_thread_step cb trig fresh r e in
  (fresh <= snd s)%nat /\
  forall h, mentions h (fst (fst s)) ->
            mentions h e \/ (fresh <= h < snd s)%nat.
Proof.
  unfold mentions.
  thread_cases e r cb; (split; [lia|]); intros h [H | [H | H]];
    try (left; tauto); try discriminate H;
    try (injection H as <-; right; lia).
Qed.

Lemma thread_run_mentions fuel cb trig r :
  forall fresh e,
    let s := thread_run fuel cb trig fresh r e in
    (fresh <= snd s)%nat /\
    forall h, mentions h (fst (fst s)) ->
              mentions h e \/ (fresh <= h < snd s)%nat.
Proof.
  induction fuel as [|k IH]; intros fresh e.
  - unfold thread_run. cbn. split; [lia|]. tauto.
  - rewrite thread_run_S. cbn zeta. cbn [fst snd].
    destruct (step_mentions cb trig fresh r e) as (M1 & S1).
    destruct (IH (snd (preload_thread_step cb trig fresh r e))
                 (fst (fst (preload_thread_step cb trig fresh r e))))
      as (M2 & S2).
    cbn zeta in *. split; [lia|].
    intros h Hm. destruct (S2 h Hm) as [Hm1 | Hb]; [|right; lia].
    destruct (S1 h Hm1) as [Hm0 | Hb]; [left; exact Hm0|right; lia].
Qed.

Lemma touches_callbacks h tr :
  forallb is_callback tr = true -> Forall (fun ev => touches h ev = false) tr.
Proof.
  intros H. apply List.Forall_forall. intros ev Hin.
  pose proof (callbacks_only tr ev H Hin). destruct ev; try discriminate.
  reflexivity.
Qed.

Lemma touches_known_callbacks w0 tr :
  forallb is_callback tr = true -> Forall (touches_known w0) tr.
Proof.
  intros H. apply List.Forall_forall. intros ev Hin h Ht.
  pose proof (callbacks_only tr ev H Hin). destruct ev; discriminate.
Qed.

Lemma touches_trigger h e ev :
  In ev (trigger_events (cancel e)) -> touches h ev = true -> mentions h e.
Proof.
  unfold mentions. destruct (cancel e) as [c|]; cbn; [|tauto].
  intros [<- | []] Ht. cbn in Ht. apply Nat.eqb_eq in Ht. subst. auto.
Qed.

Lemma touches_free h e ev :
  In ev (free_events e) -> touches h ev = true -> mentions h e.
Proof.
  unfold mentions, free_events. rewrite !in_app_iff.
  destruct (demuxer e), (cancel e), (global e); cbn;
    intros Hin Ht;
    repeat match goal with
    | H : _ \/ _ |- _ => destruct H
    | H : False |- _ => destruct H
    end; subst ev; cbn in Ht; apply Nat.eqb_eq in Ht; subst; auto.
Qed.

Lemma touches_steal h e ev :
  In ev (steal_events e) -> touches h ev = true -> mentions h e.
Proof.
  unfold mentions, steal_events.
  destruct (demuxer e) as [d|]; [|intros []].
  rewrite in_app_iff.
  destruct (global e), (cancel e); cbn;
    intros Hin Ht;
    repeat match goal with
    | H : _ \/ _ |- _ => destruct H
    | H : False |- _ => destruct H
    end; subst ev; cbn in Ht; apply orb_true_iff in Ht as [Ht | Ht];
    apply Nat.eqb_eq in Ht; subst; auto.
Qed.

Lemma handles_from_refl w : handles_from w w.
Proof. split; [lia|]. intros k e h He Hm. left. eauto. Qed.

(** Replacing the entry of a slot by one that refers to known objects. *)
Lemma handles_from_insert w0 w k e' ini cb trig nh :
  handles_from w0 w ->
  (next_handle w <= nh)%nat ->
  (forall h, mentions h e' -> known w0 h) ->
  handles_from w0
    {| entries := <[k := e']> (entries w); initialized := ini;
       g_preload_callback := cb; triggered := trig; next_handle := nh |}.
Proof.
  intros (Hm & Hall) Hnh He'. split; [cbn; lia|].
  intros j x h Hx Hmx. cbn [entries] in Hx.
  destruct (decide (j = k)) as [->|Hne].
  - destruct (decide (k < length (entries w))%nat) as [Hlt|Hge].
    + rewrite list_lookup_insert_eq in Hx by exact Hlt.
      injection Hx as <-. exact (He' h Hmx).
    + rewrite list_insert_ge in Hx by lia. exact (Hall k x h Hx Hmx).
  - rewrite list_lookup_insert_ne in Hx by congruence. exact (Hall j x h Hx Hmx).
Qed.

(** The entry of a joined worker refers to known objects. *)
Lemma joined_known w0 w k e fuel cb trig r h :
  handles_from w0 w -> entries w !! k = Some e ->
  mentions h (fst (fst (thread_run fuel cb trig (next_handle w) r e))) ->
  known w0 h.
Proof.
  intros (Hm & Hall) He Hmh.
  destruct (thread_run_mentions fuel cb trig r (next_handle w) e) as (_ & S).
  destruct (S h Hmh) as [H0 | Hb].
  - exact (Hall k e h He H0).
  - right. lia.
Qed.

Lemma signal_slot_handles w0 k w :
  handles_from w0 w ->
  handles_from w0 (state_of (signal_slot k w)) /\
  Forall (touches_known w0) (trace_of (signal_slot k w)).
Proof.
  intros Hs. destruct (entries w !! k) as [e|] eqn:He.
  - rewrite (signal_slot_eq _ _ _ He), state_of_eq, trace_of_eq.
    destruct (non_null (url e)); [|split; [exact Hs|constructor]].
    split.
    + apply handles_from_insert; [exact Hs|lia|].
      intros h Hm. exact (proj2 Hs k e h He Hm).
    + constructor; [intros h Ht; discriminate Ht|].
      apply List.Forall_forall. intros ev Hin h Ht.
      exact (proj2 Hs k e h He (touches_trigger h e ev Hin Ht)).
  - rewrite (signal_slot_none _ _ He). split; [exact Hs|constructor].
Qed.

Lemma join_slot_handles env w0 k w :
  handles_from w0 w ->
  handles_from w0 (state_of (join_slot env k w)) /\
  Forall (touches_known w0) (trace_of (join_slot env k w)).
Proof.
  intros Hs. destruct (entries w !! k) as [e|] eqn:He.
  - rewrite (join_slot_eq _ _ _ _ He).
    destruct (thread_running e); [|split; [exact Hs|constructor]].
    rewrite state_of_eq, trace_of_eq.
    pose proof (fun h => joined_known w0 w k e join_fuel (g_preload_callback w)
                  (triggered w) (engine env k) h Hs He) as Hk.
    pose proof (thread_run_mentions join_fuel (g_preload_callback w)
                  (triggered w) (engine env k) (next_handle w) e) as Hm.
    pose proof (thread_run_events join_fuel (g_preload_callback w)
                  (triggered w) (next_handle w) (engine env k) e) as Hev.
    cbn zeta in Hm. revert Hk Hm Hev.
    generalize (thread_run join_fuel (g_preload_callback w) (triggered w)
                  (next_handle w) (engine env k) e).
    intros [[ej tj] nj]. cbn [fst snd]. intros Hk (Hm & _) Hev. split.
    + apply handles_from_insert; [exact Hs|exact Hm|].
      intros h Hmh. apply Hk. exact Hmh.
    + constructor; [intros h Ht; discriminate Ht|].
      apply touches_known_callbacks, Hev.
  - rewrite (join_slot_none _ _ _ He). split; [exact Hs|constructor].
Qed.

Lemma cleanup_entry_handles env w0 k w :
  handles_from w0 w ->
  handles_from w0 (state_of (cleanup_entry env k w)) /\
  Forall (touches_known w0) (trace_of (cleanup_entry env k w)).
Proof.
  intros Hs. destruct (entries w !! k) as [e|] eqn:He.
  2:{ rewrite cleanup_entry_free by (rewrite He; reflexivity).
      split; [exact Hs|constructor]. }
  destruct (url e) eqn:Hu.
  2:{ rewrite cleanup_entry_free by (rewrite He; exact Hu).
      split; [exact Hs|constructor]. }
  rewrite (cleanup_entry_occupied _ _ _ _ He) by congruence.
  rewrite state_of_eq, trace_of_eq.
  assert (He1 : entries (with_triggered
                  (triggered_after (cancel e) (triggered w)) w) !! k
                = Some e) by exact He.
  pose proof (thread_run_mentions join_fuel (g_preload_callback w)
                (triggered_after (cancel e) (triggered w)) (engine env k)
                (next_handle w) (set_cancel_requested true e)) as Hm.
  pose proof (thread_run_events join_fuel (g_preload_callback w)
                (triggered_after (cancel e) (triggered w)) (next_handle w)
                (engine env k) (set_cancel_requested true e)) as Hev.
  cbn zeta in Hm. revert Hm Hev.
  generalize (thread_run join_fuel (g_preload_callback w)
                (triggered_after (cancel e) (triggered w)) (next_handle w)
                (engine env k) (set_cancel_requested true e)).
  intros [[ej tj] nj]. cbn [fst snd]. intros (Hm & Hment) Hev.
  assert (Hkn : forall h,
    mentions h (fst (fst (if thread_running e then (ej, tj, nj)
                          else (set_cancel_requested true e, [],
                                next_handle w)))) -> known w0 h).
  { intros h Hmh. destruct (thread_running e); cbn [fst snd] in Hmh.
    - destruct (Hment h Hmh) as [H0 | Hb].
      + exact (proj2 Hs k e h He H0).
      + right. destruct Hs as (Hs1 & _). lia.
    - exact (proj2 Hs k e h He Hmh). }
  split.
  - apply handles_from_insert; [exact Hs| |].
    + destruct (thread_running e); cbn [fst snd]; lia.
    + intros h [H | [H | H]]; discriminate H.
  - constructor; [intros h Ht; discriminate Ht|].
    apply Forall_app. split.
    { apply List.Forall_forall. intros ev Hin h Ht.
      exact (proj2 Hs k e h He (touches_trigger h e ev Hin Ht)). }
    apply Forall_app. split.
    + destruct (thread_running e); cbn [fst snd]; [|constructor].
      constructor; [intros h Ht; discriminate Ht|].
      apply touches_known_callbacks, Hev.
    + apply List.Forall_forall. intros ev Hin h Ht.
      apply Hkn. exact (touches_free h _ ev Hin Ht).
Qed.

Lemma mentions_free e h : free_inv e -> ~ mentions h e.
Proof.
  intros (_ & _ & Hd & Hg & Hc & _) [H | [H | H]]; congruence.
Qed.

Lemma initialized_world_next_handle w :
  next_handle (initialized_world w) = next_handle w.
Proof. unfold initialized_world. destruct (initialized w); reflexivity. Qed.

Lemma handles_from_initialized w : handles_from w (initialized_world w).
Proof.
  split; [rewrite initialized_world_next_handle; lia|].
  intros k e h He Hm. rewrite initialized_world_entries in He. left. eauto.
Qed.

Lemma start_next_handle env u opts w :
  world_inv w ->
  (next_handle w
   <= next_handle (state_of (mpv_preload_start env u opts w)))%nat.
Proof.
  intros Hinv. destruct u as [u|]; [|cbn; lia].
  destruct (String.eqb u "") eqn:Hu.
  { apply String_eqb_empty in Hu. subst u.
    rewrite (start_rejected env opts w (Some EmptyString))
      by (right; reflexivity).
    cbn. lia. }
  destruct (find_index (has_url u) 0 (entries w)) as [i|] eqn:Hf.
  { rewrite (start_existing env opts w u i Hf Hu), state_of_eq.
    rewrite initialized_world_next_handle. lia. }
  destruct (find_index (fun e => negb (non_null (url e))) 0 (entries w))
    as [i|] eqn:Hfree.
  - destruct (find_free_Some _ _ Hfree) as (e & He & Hue).
    rewrite (start_new env opts w u i (initialized_world w) [] e Hu Hf).
    + rewrite state_of_eq. cbn. rewrite initialized_world_next_handle. lia.
    + apply find_free_slot_free. rewrite initialized_world_entries.
      exact Hfree.
    + rewrite initialized_world_entries. exact He.
  - destruct (oldest_loop_is_Some w Hinv) as (v & e & Hv & He & _).
    pose proof (find_free_None _ Hfree v e He) as Hue.
    assert (Hc : entries (initialized_world w) !! v = Some e)
      by (rewrite initialized_world_entries; exact He).
    destruct (cleanup_entry_handles env w v (initialized_world w)
                (handles_from_initialized w)) as ((Hm & _) & _).
    rewrite (start_new env opts w u v
               (state_of (cleanup_entry env v (initialized_world w)))
               (trace_of (cleanup_entry env v (initialized_world w)))
               zero_entry Hu Hf).
    + rewrite state_of_eq. cbn. exact Hm.
    + apply find_free_slot_evict; rewrite initialized_world_entries;
        assumption.
    + rewrite (cleanup_entry_occupied _ _ _ _ Hc Hue). rewrite state_of_eq.
      cbn. apply list_lookup_insert_eq. rewrite initialized_world_entries.
      exact (lookup_lt_Some _ _ _ He).
Qed.

Lemma handles_step_same w w' :
  entries w' = entries w -> (next_handle w <= next_handle w')%nat ->
  handles_step w w'.
Proof.
  intros He Hn. split; [exact Hn|]. exists 0%nat. intros k e' h Hk Hm.
  left. exists e'. rewrite <- He. auto.
Qed.

Lemma handles_step_insert w w' i x :
  (next_handle w <= next_handle w')%nat ->
  entries w' = <[i := x]> (entries w) ->
  (forall h, mentions h x ->
     (exists e, entries w !! i = Some e /\ mentions h e) \/
     (next_handle w <= h < next_handle w')%nat) ->
  handles_step w w'.
Proof.
  intros Hn He Hx. split; [exact Hn|]. exists i. intros k e' h Hk Hm.
  rewrite He in Hk. destruct (decide (k = i)) as [->|Hne].
  - destruct (decide (i < length (entries w))%nat) as [Hlt|Hge].
    + rewrite list_lookup_insert_eq in Hk by exact Hlt. injection Hk as <-.
      destruct (Hx h Hm) as [H | H]; [left; exact H|right; split; [reflexivity|exact H]].
    + rewrite list_insert_ge in Hk by lia. left. eauto.
  - rewrite list_lookup_insert_ne in Hk by congruence. left. eauto.
Qed.

(** What one action does to the references of the table. *)
Lemma exec_handles_step a w :
  world_inv w -> handles_step w (fst (exec a w)).
Proof.
  intros Hinv.
  destruct a as [cb|env u opts|env u info|env u|env u|env|i r];
    cbn [exec fst].
  - apply handles_step_same; cbn; [reflexivity|lia].
  - pose proof (start_next_handle env u opts w Hinv) as Hn.
    destruct u as [u|]; [|apply handles_step_same; cbn; [reflexivity|lia]].
    destruct (String.eqb u "") eqn:Hu.
    { apply String_eqb_empty in Hu. subst u.
      rewrite (start_rejected env opts w (Some EmptyString))
        by (right; reflexivity).
      apply handles_step_same; cbn; [reflexivity|lia]. }
    destruct (find_index (has_url u) 0 (entries w)) as [i|] eqn:Hf.
    { apply handles_step_same; [|exact Hn].
      rewrite (start_existing env opts w u i Hf Hu), state_of_eq.
      apply initialized_world_entries. }
    destruct (start_new_slot env opts w u Hinv Hu Hf)
      as (i & e & e0 & t & He & _ & Hfree & _ & Hent & _).
    apply (handles_step_insert _ _ i _ Hn Hent).
    intros h Hm. exfalso. apply (mentions_free e0 h Hfree).
    destruct (thread_create_ok env); exact Hm.
  - rewrite get_info_state. apply handles_step_same; [reflexivity|lia].
  - destruct (get_demuxer_cases env u w Hinv)
      as [-> | [-> | (s & i & e & -> & _ & _ & He & _ & _ & _ & _ & Heq)]];
      try (apply handles_step_same; [reflexivity|cbn; lia]).
    cbn zeta in Heq. rewrite Heq, state_of_eq. unfold joined.
    pose proof (thread_run_mentions join_fuel (g_preload_callback w)
                  (triggered w) (engine env i) (next_handle w)
                  (set_cancel_requested true e)) as Hm.
    cbn zeta in Hm. revert Hm.
    generalize (thread_run join_fuel (g_preload_callback w) (triggered w)
                  (next_handle w) (engine env i)
                  (set_cancel_requested true e)).
    intros [[ej tj] nj]. cbn [fst snd]. intros (Hm & _).
    apply (handles_step_insert _ _ i (claimed ej)); [exact Hm|reflexivity|].
    intros h [H | [H | H]]; discriminate H.
  - destruct (cancel_cases env u w Hinv)
      as [(t & ->) | (s & i & e & -> & _ & _ & He & _ & _ & _ & Heq)];
      [apply handles_step_same; [reflexivity|cbn; lia]|].
    cbn zeta in Heq. rewrite Heq, state_of_eq.
    pose proof (thread_run_mentions join_fuel (g_preload_callback w)
                  (triggered_after (cancel e) (triggered w)) (engine env i)
                  (next_handle w) (set_cancel_requested true e)) as Hm.
    cbn zeta in Hm. revert Hm.
    generalize (thread_run join_fuel (g_preload_callback w)
                  (triggered_after (cancel e) (triggered w)) (next_handle w)
                  (engine env i) (set_cancel_requested true e)).
    intros [[ej tj] nj]. cbn [fst snd]. intros (Hm & _).
    apply (handles_step_insert _ _ i zero_entry); [exact Hm|reflexivity|].
    intros h [H | [H | H]]; discriminate H.
  - destruct (clear_all_inv env (handles_from w) (touches_known w) w)
      as ((Hn & _) & _).
    + intros k w1. apply signal_slot_handles.
    + intros k w1. apply join_slot_handles.
    + intros k w1. apply cleanup_entry_handles.
    + intros h Ht. discriminate Ht.
    + intros h Ht. discriminate Ht.
    + apply handles_from_refl.
    + split; [exact Hn|]. exists 0%nat. intros k e' h Hk Hm. left.
      destruct (initialized w) eqn:Hi.
      * destruct (clear_all_entries env w Hinv Hi) as (Hent & Hlen & _).
        destruct (lookup_lt_is_Some_2 (entries w) k) as (e & He).
        { rewrite <- Hlen. exact (lookup_lt_Some _ _ _ Hk). }
        rewrite (Hent k e He) in Hk. injection Hk as <-.
        exists e. split; [exact He|].
        destruct (non_null (url e)); [|exact Hm].
        destruct Hm as [H | [H | H]]; discriminate H.
      * rewrite (clear_all_uninitialized env w Hi) in Hk. eauto.
  - destruct (entries w !! i) as [e|] eqn:He.
    + rewrite (worker_step_eq r i w e He), state_of_eq.
      destruct (step_mentions (g_preload_callback w) (triggered w)
                  (next_handle w) r e) as (Hn & Hm). cbn zeta in Hn, Hm.
      apply (handles_step_insert _ _ i
               (fst (fst (preload_thread_step (g_preload_callback w)
                            (triggered w) (next_handle w) r e))));
        [exact Hn|reflexivity|].
      intros h Hmh. destruct (Hm h Hmh) as [H | H]; [left; eauto|right; exact H].
    + rewrite (worker_step_none r i w He).
      apply handles_step_same; [reflexivity|cbn; lia].
Qed.

(** Events that act on no object. *)
Ltac plain_events Hplain :=
  repeat (apply List.Forall_cons; [apply Hplain; reflexivity|]);
  try apply List.Forall_nil.

(** The objects that the events of one action act on. *)
Lemma exec_touches a w :
  world_inv w -> Forall (touches_known w) (snd (exec a w)).
Proof.
  intros Hinv.
  assert (Hplain : forall ev,
    (forall h, touches h ev = false) -> touches_known w ev).
  { intros ev H h Ht. rewrite H in Ht. discriminate Ht. }
  destruct a as [cb|env u opts|env u info|env u|env u|env|i r];
    cbn [exec snd].
  - constructor.
  - destruct u as [u|]; [|constructor].
    destruct (String.eqb u "") eqn:Hu.
    { apply String_eqb_empty in Hu. subst u.
      rewrite (start_rejected env opts w (Some EmptyString))
        by (right; reflexivity).
      constructor. }
    destruct (find_index (has_url u) 0 (entries w)) as [i|] eqn:Hf.
    { rewrite (start_existing env opts w u i Hf Hu), trace_of_eq.
      plain_events Hplain. }
    destruct (start_new_slot env opts w u Hinv Hu Hf)
      as (i & e & e0 & t & He & Hcase & _ & _ & _ & _ & _ & Htr).
    rewrite Htr.
    assert (Ht : Forall (touches_known w) t).
    { destruct Hcase as [(_ & _ & -> & _) | (_ & _ & _ & _ & ->)];
        [constructor|].
      apply cleanup_entry_handles, handles_from_initialized. }
    apply List.Forall_cons; [apply Hplain; reflexivity|].
    apply Forall_app. split; [exact Ht|].
    destruct (thread_create_ok env); plain_events Hplain.
  - destruct (get_info_trace env u info w) as [-> | ->];
      plain_events Hplain.
  - destruct (get_demuxer_cases env u w Hinv)
      as [-> | [-> | (s & i & e & -> & _ & _ & He & _ & _ & _ & _ & Heq)]];
      try (plain_events Hplain).
    cbn zeta in Heq. rewrite Heq, trace_of_eq. unfold joined.
    pose proof (thread_run_mentions join_fuel (g_preload_callback w)
                  (triggered w) (engine env i) (next_handle w)
                  (set_cancel_requested true e)) as Hm.
    pose proof (thread_run_events join_fuel (g_preload_callback w)
                  (triggered w) (next_handle w) (engine env i)
                  (set_cancel_requested true e)) as Hev.
    cbn zeta in Hm. revert Hm Hev.
    generalize (thread_run join_fuel (g_preload_callback w) (triggered w)
                  (next_handle w) (engine env i)
                  (set_cancel_requested true e)).
    intros [[ej tj] nj]. cbn [fst snd]. intros (_ & Hm) Hev.
    apply Forall_app. split; [plain_events Hplain|].
    apply Forall_app. split; [apply touches_known_callbacks, Hev|].
    apply Forall_app. split; [plain_events Hplain|].
    apply Forall_app. split; [|plain_events Hplain].
    apply List.Forall_forall. intros ev Hin h Ht.
    destruct (Hm h (touches_steal h ej ev Hin Ht)) as [H | H];
      [left; exists i, e; split; [exact He|exact H]|right; lia].
  - destruct u as [s|]; [|constructor].
    destruct (initialized w) eqn:Hi.
    2:{ rewrite (cancel_uninitialized env (Some s) w Hi). constructor. }
    destruct (find_index (has_url s) 0 (entries w)) as [i|] eqn:Hf.
    2:{ rewrite (cancel_absent env s w Hi Hf).
        plain_events Hplain. }
    destruct (find_entry_Some _ _ _ Hf) as (e & He & Hu).
    assert (Hue : url e <> None) by congruence.
    destruct (entry_inv_occupied e (world_inv_lookup _ _ _ Hinv He) Hue)
      as (Hrun & _).
    rewrite (cancel_found env s w i e Hi Hf He Hue Hrun), trace_of_eq.
    pose proof (thread_run_mentions join_fuel (g_preload_callback w)
                  (triggered_after (cancel e) (triggered w)) (engine env i)
                  (next_handle w) (set_cancel_requested true e)) as Hm.
    pose proof (thread_run_events join_fuel (g_preload_callback w)
                  (triggered_after (cancel e) (triggered w)) (next_handle w)
                  (engine env i) (set_cancel_requested true e)) as Hev.
    cbn zeta in Hm. revert Hm Hev.
    generalize (thread_run join_fuel (g_preload_callback w)
                  (triggered_after (cancel e) (triggered w)) (next_handle w)
                  (engine env i) (set_cancel_requested true e)).
    intros [[ej tj] nj]. cbn [fst snd]. intros (_ & Hm) Hev.
    assert (Hkn : forall h, mentions h ej -> known w h).
    { intros h Hmh. destruct (Hm h Hmh) as [H | H];
        [left; exists i, e; split; [exact He|exact H]|right; lia]. }
    apply Forall_app. split;
      [plain_events Hplain|].
    apply Forall_app. split.
    { apply List.Forall_forall. intros ev Hin h Ht. left. exists i, e.
      split; [exact He|exact (touches_trigger h e ev Hin Ht)]. }
    apply Forall_app. split;
      [plain_events Hplain|].
    apply Forall_app. split; [apply touches_known_callbacks, Hev|].
    apply Forall_app. split;
      [plain_events Hplain|].
    apply Forall_app. split.
    { apply List.Forall_forall. intros ev Hin h Ht.
      exact (Hkn h (touches_trigger h ej ev Hin Ht)). }
    apply Forall_app. split.
    { apply List.Forall_forall. intros ev Hin h Ht.
      exact (Hkn h (touches_free h ej ev Hin Ht)). }
    plain_events Hplain.
  - apply (clear_all_inv env (handles_from w) (touches_known w) w).
    + intros k w1. apply signal_slot_handles.
    + intros k w1. apply join_slot_handles.
    + intros k w1. apply cleanup_entry_handles.
    + apply Hplain. reflexivity.
    + apply Hplain. reflexivity.
    + apply handles_from_refl.
  - destruct (entries w !! i) as [e|] eqn:He.
    + rewrite (worker_step_eq r i w e He), trace_of_eq.
      apply touches_known_callbacks, step_events.
    + rewrite (worker_step_none r i w He). constructor.
Qed.

Lemma handles_inv_step w w' :
  handles_step w w' -> handles_inv w -> handles_inv w'.
Proof.
  intros (Hn & i0 & Hs) (HB & HU). split.
  - intros k e' h Hk Hm.
    destruct (Hs k e' h Hk Hm) as [(e & He & Hme) | (_ & Hb)]; [|lia].
    pose proof (HB k e h He Hme). lia.
  - intros k1 k2 e1 e2 h H1 H2 M1 M2.
    destruct (Hs k1 e1 h H1 M1) as [(x1 & Hx1 & Mx1) | (-> & Hb1)];
      destruct (Hs k2 e2 h H2 M2) as [(x2 & Hx2 & Mx2) | (-> & Hb2)].
    + exact (HU k1 k2 x1 x2 h Hx1 Hx2 Mx1 Mx2).
    + pose proof (HB k1 x1 h Hx1 Mx1). lia.
    + pose proof (HB k2 x2 h Hx2 Mx2). lia.
    + reflexivity.
Qed.

Lemma reachable_handles_inv w : reachable w -> handles_inv w.
Proof.
  induction 1 as [|a w Hr IH].
  - split.
    + intros k e h He Hm. exfalso.
      apply lookup_replicate in He as (-> & _).
      destruct Hm as [H | [H | H]]; discriminate H.
    + intros k1 k2 e1 e2 h H1 _ M1 _. exfalso.
      apply lookup_replicate in H1 as (-> & _).
      destruct M1 as [H | [H | H]]; discriminate H.
  - exact (handles_inv_step _ _ (exec_handles_step a w (reachable_inv w Hr))
             IH).
Qed.

Lemma handed_over_step h w w' :
  handles_step w w' -> handed_over h w -> handed_over h w'.
Proof.
  intros (Hn & i0 & Hs) (Hlt & Hno). split; [lia|].
  intros k e' He' Hm.
  destruct (Hs k e' h He' Hm) as [(e & He & Hme) | (_ & Hb)]; [|lia].
  exact (Hno k e He Hme).
Qed.

Lemma handed_over_untouched h w tr :
  handed_over h w -> Forall (touches_known w) tr ->
  Forall (fun ev => touches h ev = false) tr.
Proof.
  intros (Hlt & Hno) Htr. apply List.Forall_forall. intros ev Hin.
  destruct (touches h ev) eqn:Ht; [|reflexivity]. exfalso.
  rewrite List.Forall_forall in Htr.
  destruct (Htr ev Hin h Ht) as [(k & e & He & Hm) | Hb]; [|lia].
  exact (Hno k e He Hm).
Qed.

(** An object the registry has given away is never acted on again. *)
Lemma run_untouched h l :
  forall w, reachable w -> handed_over h w ->
            Forall (fun ev => touches h ev = false) (snd (run l w)).
Proof.
  induction l as [|a l IH]; intros w Hr Hh; cbn [run snd].
  - constructor.
  - pose proof (reachable_inv w Hr) as Hinv. apply Forall_app. split.
    + exact (handed_over_untouched h w _ Hh (exec_touches a w Hinv)).
    + apply IH; [constructor; exact Hr|].
      exact (handed_over_step h _ _ (exec_handles_step a w Hinv) Hh).
Qed.

(** X19. What [mpv_preload_get_demuxer] hands over is gone from the
    registry for good. After a successful claim no slot refers to the
    demuxer, to its context or to its cancel token, and whatever happens
    next (starts, evictions, cancels, [mpv_preload_clear_all], workers), the
    registry never triggers, releases or re-parents any of the three: the
    caller is their only owner. *)
Theorem X19_handed_over_for_good env u w d :
  reachable w ->
  result (mpv_preload_get_demuxer env u w) = Some d ->
  let w' := state_of (mpv_preload_get_demuxer env u w) in
  exists i e,
    entries w !! i = Some e /\ demuxer e = Some d /\
    forall h,
      mentions h e ->
      (forall k ek, entries w' !! k = Some ek -> ~ mentions h ek) /\
      forall l, Forall (fun ev => touches h ev = false) (snd (run l w')).
Proof.
  intros Hr Hres. cbn zeta. pose proof (reachable_inv w Hr) as Hinv.
  destruct (reachable_handles_inv w Hr) as (HB & HU).
  assert (Hr' : reachable (state_of (mpv_preload_get_demuxer env u w)))
    by exact (reachable_step (Call_get_demuxer env u) w Hr).
  pose proof (exec_handles_step (Call_get_demuxer env u) w Hinv) as Hstep.
  cbn [exec fst] in Hstep.
  destruct (get_demuxer_cases env u w Hinv)
    as [Heq | [Heq | (s & i & e & -> & Hi & Hf & He & Hu & Hnc & Hrun & Ht
                      & Heq)]];
    try (rewrite Heq in Hres; discriminate Hres).
  cbn zeta in Heq.
  assert (Hd : demuxer e <> None).
  { unfold not_claimable in Hnc. destruct (demuxer e); [discriminate|].
    rewrite orb_true_r in Hnc. discriminate Hnc. }
  pose proof (joined_demuxer env w i e Ht Hd) as Jd.
  revert Hr' Hstep Hres. rewrite Heq, result_eq, state_of_eq.
  revert Jd. generalize (joined env w i e). intros [[ej tj] nj].
  cbn [fst snd]. intros Jd Hr' (Hn & _) Hres. cbn [next_handle] in Hn.
  assert (Hde : demuxer e = Some d) by congruence.
  exists i, e. split; [exact He|]. split; [exact Hde|].
  intros h Hm.
  match type of Hr' with reachable ?w1 =>
    assert (Hgone : handed_over h w1)
  end.
  { split; cbn [next_handle entries].
    - pose proof (HB i e h He Hm). lia.
    - intros k ek Hk Hmk.
      destruct (decide (k = i)) as [->|Hne].
      + rewrite list_lookup_insert_eq in Hk
          by exact (lookup_lt_Some _ _ _ He).
        injection Hk as <-. destruct Hmk as [H | [H | H]]; discriminate H.
      + rewrite list_lookup_insert_ne in Hk by congruence.
        apply Hne. exact (HU k i ek e h Hk He Hmk Hm). }
  split; [exact (proj2 Hgone)|].
  intros l. exact (run_untouched h l _ Hr' Hgone).
Qed.

Lemma X19_handed_over_for_good_witness :
  exists i e,
    entries w_ready !! i = Some e /\ demuxer e = Some 2%nat /\
    forall h,
      mentions h e ->
      (forall k ek,
         entries (state_of (mpv_preload_get_demuxer (sample_env 9 true)
                              (Some "a"%string) w_ready)) !! k = Some ek ->
         ~ mentions h ek) /\
      forall l,
        Forall (fun ev => touches h ev = false)
          (snd (run l (state_of (mpv_preload_get_demuxer (sample_env 9 true)
                                   (Some "a"%string) w_ready)))).
Proof.
  assert (H : result (mpv_preload_get_demuxer (sample_env 9 true)
                        (Some "a"%string) w_ready) = Some 2%nat)
    by (vm_compute; reflexivity).
  exact (X19_handed_over_for_good (sample_env 9 true) (Some "a"%string)
           w_ready 2%nat reachable_ready H).
Defined.

(** X20. Nothing is released twice. Whatever [mpv_preload_cancel] has
    released, be it what the entry held or what its worker allocated while
    it was being joined, is referred to by no slot when the call returns
    and is never triggered, released or moved again by anything that
    follows. *)
Theorem X20_cancel_releases_once env u w i e :
  reachable w ->
  entries w !! i = Some e -> url e = Some u ->
  let r := mpv_preload_cancel env (Some u) w in
  forall ev h,
    In ev (trace_of r) -> is_release ev = true -> touches h ev = true ->
    (forall k ek, entries (state_of r) !! k = Some ek -> ~ mentions h ek) /\
    forall l, Forall (fun ev' => touches h ev' = false)
                (snd (run l (state_of r))).
Proof.
  intros Hr He Hu. cbn zeta. pose proof (reachable_inv w Hr) as Hinv.
  destruct (reachable_handles_inv w Hr) as (HB & HU).
  assert (Hr' : reachable (state_of (mpv_preload_cancel env (Some u) w)))
    by exact (reachable_step (Call_cancel env (Some u)) w Hr).
  assert (Hue : url e <> None) by congruence.
  destruct (entry_inv_occupied e (world_inv_lookup _ _ _ Hinv He) Hue)
    as (Hrun & Ht).
  pose proof (reachable_occupied_initialized w i e Hinv He Hue) as Hi.
  pose proof (find_entry_unique u _ i e (inv_unique w Hinv) He Hu) as Hf.
  revert Hr'.
  rewrite (cancel_found env u w i e Hi Hf He Hue Hrun).
  rewrite state_of_eq, trace_of_eq.
  pose proof (thread_run_mentions join_fuel (g_preload_callback w)
                (triggered_after (cancel e) (triggered w)) (engine env i)
                (next_handle w) (set_cancel_requested true e)) as Hm.
  pose proof (thread_run_events join_fuel (g_preload_callback w)
                (triggered_after (cancel e) (triggered w)) (next_handle w)
                (engine env i) (set_cancel_requested true e)) as Hev.
  cbn zeta in Hm. revert Hm Hev.
  generalize (thread_run join_fuel (g_preload_callback w)
                (triggered_after (cancel e) (triggered w)) (next_handle w)
                (engine env i) (set_cancel_requested true e)).
  intros [[ej tj] nj]. cbn [fst snd]. intros (Hn & Hm) Hev Hr' ev h Hin Hrel Hto.
  assert (Hmj : mentions h ej).
  { rewrite !in_app_iff in Hin.
    assert (Htrig : forall c0, In ev (trigger_events c0) -> False).
    { intros [c0|]; cbn; [intros [<-|[]]; discriminate Hrel|tauto]. }
    destruct Hin as [Hin|[Hin|[Hin|[Hin|[Hin|[Hin|[Hin|Hin]]]]]]].
    - cbn in Hin. destruct Hin as [<-|[<-|[]]]; discriminate Hrel.
    - destruct (Htrig _ Hin).
    - cbn in Hin. destruct Hin as [<-|[<-|[]]]; discriminate Hrel.
    - pose proof (callbacks_only tj ev Hev Hin). destruct ev; discriminate.
    - cbn in Hin. destruct Hin as [<-|[<-|[]]]; discriminate Hrel.
    - destruct (Htrig _ Hin).
    - exact (touches_free h ej ev Hin Hto).
    - cbn in Hin. destruct Hin as [<-|[]]; discriminate Hrel. }
  match type of Hr' with reachable ?w1 =>
    assert (Hgone : handed_over h w1)
  end.
  { split; cbn [next_handle entries].
    - destruct (Hm h Hmj) as [H0 | Hb]; [|lia].
      pose proof (HB i e h He H0). lia.
    - intros k ek Hk Hmk.
      destruct (decide (k = i)) as [->|Hne].
      + rewrite list_lookup_insert_eq in Hk
          by exact (lookup_lt_Some _ _ _ He).
        injection Hk as <-. destruct Hmk as [H | [H | H]]; discriminate H.
      + rewrite list_lookup_insert_ne in Hk by congruence.
        destruct (Hm h Hmj) as [H0 | Hb].
        * apply Hne. exact (HU k i ek e h Hk He Hmk H0).
        * pose proof (HB k ek h Hk Hmk). lia. }
  split; [exact (proj2 Hgone)|].
  intros l. exact (run_untouched h l _ Hr' Hgone).
Qed.

Lemma X20_cancel_releases_once_witness :
  Forall (fun ev' => touches 2%nat ev' = false)
    (snd (run [Call_clear_all (sample_env 9 true)]
            (state_of (mpv_preload_cancel (sample_env 9 true)
                         (Some "a"%string) w_ready)))).
Proof.
  assert (He : entries w_ready !! 0%nat
               = Some (default zero_entry (entries w_ready !! 0%nat)))
    by (vm_compute; reflexivity).
  assert (Hu : url (default zero_entry (entries w_ready !! 0%nat))
               = Some "a"%string) by (vm_compute; reflexivity).
  assert (Hin : In (EvFreeDemuxer 2%nat)
                  (trace_of (mpv_preload_cancel (sample_env 9 true)
                               (Some "a"%string) w_ready)))
    by (vm_compute; auto 20).
  pose proof (X20_cancel_releases_once (sample_env 9 true) _ _ _ _
                reachable_ready He Hu) as P.
  cbv zeta in P.
  exact (proj2 (P (EvFreeDemuxer 2%nat) 2%nat Hin eq_refl eq_refl)
           [Call_clear_all (sample_env 9 true)]).
Defined.

(** The releases at the end of [cleanup_entry] cover what the entry
    refers to. *)
Lemma free_events_mentions h e :
  mentions h e ->
  exists ev, In ev (free_events e) /\ is_release ev = true /\
             touches h ev = true.
Proof.
  unfold mentions, free_events. intros [H | [H | H]]; rewrite H.
  - exists (EvFreeDemuxer h). rewrite !in_app_iff. cbn.
    rewrite Nat.eqb_refl. auto.
  - exists (EvFree h). rewrite !in_app_iff. cbn.
    rewrite Nat.eqb_refl. auto 6.
  - exists (EvFree h). rewrite !in_app_iff. cbn.
    rewrite Nat.eqb_refl. auto 6.
Qed.

Lemma in_segment {A : Type} (x y : A) (p t q : list A) :
  In x p -> In y t ->
  exists pre post, p ++ t ++ q = pre ++ y :: post /\ In x pre.
Proof.
  intros Hx Hy. apply in_split in Hy as (a & b & ->).
  exists (p ++ a), (b ++ q). split.
  - rewrite <- !app_assoc. reflexivity.
  - apply in_app_iff. left. exact Hx.
Qed.

(** X21. [mpv_preload_clear_all] leaks nothing either: for every entry of
    the table, each object it refers to (demuxer, context, token) is
    released during the call, and only after the worker of that entry was
    joined. *)
Theorem X21_clear_all_releases env w i e h :
  reachable w ->
  entries w !! i = Some e -> url e <> None -> mentions h e ->
  exists pre ev post,
    trace_of (mpv_preload_clear_all env w) = pre ++ ev :: post /\
    is_release ev = true /\ touches h ev = true /\
    In (EvJoin i) pre.
Proof.
  intros Hr He Hu Hm. pose proof (reachable_inv w Hr) as Hinv.
  pose proof (reachable_occupied_initialized w i e Hinv He Hu) as Hi.
  destruct (entry_inv_occupied e (world_inv_lookup _ _ _ Hinv He) Hu)
    as (Hrun & Ht).
  pose proof (reachable_res_inv w i e Hr He) as Hri.
  rewrite (clear_all_eq env w Hi), trace_of_eq.
  set (n := MPV_PRELOAD_MAX_ENTRIES).
  assert (Hk : (0 <= i < 0 + n)%nat).
  { pose proof (lookup_lt_Some _ _ _ He) as Hlt.
    rewrite (inv_length w Hinv) in Hlt. unfold n. lia. }
  set (w1 := state_of (for_each_slot n 0 signal_slot w)).
  set (w2 := state_of (for_each_slot n 0 (join_slot env) w1)).
  destruct (for_each_slot_spec signal_slot _ signal_slot_local
              signal_slot_spec n 0 w i e Hk He) as (e1 & He1 & R1).
  fold w1 in He1.
  assert (Hnn : non_null (url e) = true)
    by (destruct (url e); [reflexivity|congruence]).
  rewrite Hnn in R1. subst e1.
  destruct (for_each_slot_spec (join_slot env) _ (join_slot_local env)
              (join_slot_spec env) n 0 w1 i _ Hk He1) as (e2 & He2 & R2).
  fold w2 in He2. cbn [thread_running set_cancel_requested] in R2.
  rewrite Hrun in R2. destruct R2 as (cb & trig & nh & r & ->).
  destruct (for_each_slot_trace (join_slot env)
    (fun k e t => thread_running e = true -> exists rest, t = EvJoin k :: rest)
    (join_slot_local env)) with (n := n) (i := 0%nat) (w := w1) (k := i)
    (e := set_cancel_requested true e)
    as (pre2 & t2 & post2 & HT2 & Ht2); try assumption.
  { intros k w0 e0 H0 Hrun0. rewrite (join_slot_eq _ _ _ _ H0), Hrun0.
    rewrite trace_of_eq. eauto. }
  destruct (Ht2 Hrun) as (rest2 & ->).
  pose proof (thread_run_owned join_fuel cb trig r nh
                (set_cancel_requested true e) Ht Hri) as Ho.
  pose proof (thread_run_frame join_fuel cb trig nh r
                (set_cancel_requested true e)) as Hfr.
  cbn zeta in Ho, Hfr. revert He2 Ho Hfr.
  generalize (thread_run join_fuel cb trig nh r (set_cancel_requested true e)).
  intros [[ej tj] nj]. cbn [fst snd demuxer global cancel url
                            set_cancel_requested].
  intros He2 (_ & Od & Og & Oc) (Hue & _).
  destruct (for_each_slot_trace (cleanup_entry env)
    (fun k e t => url e <> None -> thread_running e = false ->
       t = (EvStopFlag k :: trigger_events (cancel e)) ++ free_events e ++ [])
    (cleanup_entry_local env)) with (n := n) (i := 0%nat) (w := w2) (k := i)
    (e := set_thread_running false ej)
    as (pre3 & t3 & post3 & HT3 & Ht3); try assumption.
  { intros k w0 e0 H0 Hu0 Hr0.
    rewrite (cleanup_entry_occupied _ _ _ _ H0 Hu0), trace_of_eq, Hr0.
    cbn [fst snd app]. rewrite app_nil_r. reflexivity. }
  rewrite Ht3 in HT3 by (cbn; congruence).
  assert (Hmj : mentions h (set_thread_running false ej)).
  { destruct Hm as [H | [H | H]]; [left|right; left|right; right];
      cbn [demuxer global cancel set_thread_running].
    - rewrite Od by congruence. exact H.
    - rewrite Og by congruence. exact H.
    - rewrite Oc by congruence. exact H. }
  destruct (free_events_mentions h _ Hmj) as (ev & Hin & Hrel & Hto).
  fold w1. fold w2. rewrite HT2, HT3.
  destruct (in_segment (EvJoin i) ev
              ([EvLock] ++ trace_of (for_each_slot n 0 signal_slot w) ++
               [EvUnlock] ++ (pre2 ++ (EvJoin i :: rest2) ++ post2) ++
               [EvLock] ++ pre3 ++
               EvStopFlag i
               :: trigger_events (cancel (set_thread_running false ej)))
              (free_events (set_thread_running false ej))
              ([] ++ post3 ++ [EvUnlock]))
    as (pre & post & Heq & Hpre); [|exact Hin|].
  { rewrite !in_app_iff. right. right. right. left. right. left. left.
    reflexivity. }
  exists pre, ev, post. split; [|auto].
  rewrite <- Heq. rewrite <- !app_assoc. cbn [app].
  rewrite <- ?app_assoc. reflexivity.
Qed.

Lemma X21_clear_all_releases_witness :
  exists pre ev post,
    trace_of (mpv_preload_clear_all (sample_env 9 true) w_ready)
    = pre ++ ev :: post /\
    is_release ev = true /\ touches 2%nat ev = true /\
    In (EvJoin 0%nat) pre.
Proof.
  assert (He : entries w_ready !! 0%nat
               = Some (default zero_entry (entries w_ready !! 0%nat)))
    by (vm_compute; reflexivity).
  assert (Hu : url (default zero_entry (entries w_ready !! 0%nat)) <> None)
    by (vm_compute; discriminate).
  assert (Hm : mentions 2%nat (default zero_entry (entries w_ready !! 0%nat)))
    by (left; vm_compute; reflexivity).
  exact (X21_clear_all_releases (sample_env 9 true) w_ready 0%nat _ 2%nat
           reachable_ready He Hu Hm).
Defined.

(** ** The snapshot returned by [mpv_preload_get_info] *)

Lemma thread_inv_status e :
  thread_inv e ->
  status e = MPV_PRELOAD_STATUS_LOADING \/
  status e = MPV_PRELOAD_STATUS_READY \/
  status e = MPV_PRELOAD_STATUS_CACHED \/
  status e = MPV_PRELOAD_STATUS_ERROR.
Proof.
  unfold thread_inv.
  destruct (thread e) as [| | | | | [|] | [|] |]; intros H;
    repeat match goal with
    | H : _ /\ _ |- _ => destruct H
    | H : _ \/ _ |- _ => destruct H
    end; try contradiction; auto.
Qed.

(** X22. A successful [mpv_preload_get_info] describes an entry of the
    table: its status is that entry's and is never NONE; without a demuxer
    all progress fields are zero and the file size is unknown; with one,
    the byte counts and the end-of-file flag are the engine's, the file
    size is the stream's size or -1 without a stream, and the buffered
    duration is the engine's unless that is negative or not a number, in
    which case it is 0. *)
Theorem X22_get_info_snapshot env u info w inf :
  reachable w ->
  result (mpv_preload_get_info env (Some u) (Some info) w) = (0, Some inf) ->
  exists i e,
    entries w !! i = Some e /\ url e = Some u /\
    info_status inf = status_code (status e) /\
    1 <= info_status inf <= 4 /\
    PrimFloat.leb 0%float (info_buffered_secs inf) = true /\
    (demuxer e = None ->
     inf = {| info_status := status_code (status e);
              info_fw_bytes := 0; info_total_bytes := 0;
              info_file_size := -1; info_buffered_secs := 0%float;
              info_eof_cached := false |}) /\
    (demuxer e <> None ->
     info_fw_bytes inf = rs_fw_bytes (reader (engine env i)) /\
     info_total_bytes inf = rs_total_bytes (reader (engine env i)) /\
     info_eof_cached inf = rs_eof_cached (reader (engine env i)) /\
     info_file_size inf = default (-1) (stream_size (engine env i)) /\
     (info_buffered_secs inf = rs_duration (reader (engine env i)) \/
      info_buffered_secs inf = 0%float /\
      PrimFloat.leb 0%float (rs_duration (reader (engine env i))) = false)).
Proof.
  intros Hr Hres. pose proof (reachable_inv w Hr) as Hinv.
  destruct (initialized w) eqn:Hi.
  2:{ exfalso. revert Hres. unfold mpv_preload_get_info. op_unfold. cbn.
      rewrite Hi. cbn. discriminate. }
  destruct (find_index (has_url u) 0 (entries w)) as [i|] eqn:Hf.
  2:{ rewrite (get_info_not_found env u info w Hi Hf) in Hres.
      discriminate Hres. }
  destruct (find_entry_Some _ _ _ Hf) as (e & He & Hu).
  rewrite (get_info_found env u info w i e Hi Hf He) in Hres.
  injection Hres as <-.
  assert (Hue : url e <> None) by congruence.
  destruct (entry_inv_occupied e (world_inv_lookup _ _ _ Hinv He) Hue)
    as (_ & Ht).
  exists i, e. split; [exact He|]. split; [exact Hu|].
  split; [apply fill_status|]. split.
  { rewrite fill_status.
    destruct (thread_inv_status e Ht) as [-> | [-> | [-> | ->]]]; cbn; lia. }
  unfold fill_preload_info.
  destruct (demuxer e) as [d|]; cbn.
  - split.
    + destruct (PrimFloat.leb 0 (rs_duration (reader (engine env i))))
        eqn:Hd; [exact Hd|reflexivity].
    + split; [discriminate|]. intros _.
      repeat (split; [reflexivity|]).
      destruct (PrimFloat.leb 0 (rs_duration (reader (engine env i))));
        [left; reflexivity|right; split; reflexivity].
  - split; [reflexivity|]. split; [reflexivity|]. congruence.
Qed.

Lemma X22_get_info_snapshot_witness :
  exists i e,
    entries w_ready !! i = Some e /\ url e = Some "a"%string /\
    info_status (fill_preload_info (sample_reply 0)
                   (default zero_entry (entries w_ready !! 0%nat)))
    = status_code (status e).
Proof.
  assert (H : result (mpv_preload_get_info (sample_env 9 true)
                        (Some "a"%string) (Some zero_info) w_ready)
              = (0, Some (fill_preload_info (sample_reply 0)
                            (default zero_entry (entries w_ready !! 0%nat)))))
    by (vm_compute; reflexivity).
  destruct (X22_get_info_snapshot (sample_env 9 true) "a"%string zero_info
              w_ready _ reachable_ready H) as (i & e & He & Hu & Hs & _).
  exists i, e. auto.
Defined.

(** ** What an eviction releases *)

(** X23. The eviction leaks nothing: when [mpv_preload_start] has to
    evict, each object the victim refers to is released during the call,
    after the victim's worker was joined. *)
Theorem X23_eviction_releases env u opts w v e h :
  reachable w ->
  u <> EmptyString ->
  find_index (has_url u) 0 (entries w) = None ->
  find_index (fun e => negb (non_null (url e))) 0 (entries w) = None ->
  oldest_loop 0 (entries w) None 0 = Some v ->
  entries w !! v = Some e -> mentions h e ->
  exists pre ev post,
    trace_of (mpv_preload_start env (Some u) opts w) = pre ++ ev :: post /\
    is_release ev = true /\ touches h ev = true /\
    In (EvJoin v) pre.
Proof.
  intros Hr Hne Hf Hfree Hold He Hm. pose proof (reachable_inv w Hr) as Hinv.
  pose proof (find_free_None _ Hfree v e He) as Hue.
  destruct (entry_inv_occupied e (world_inv_lookup _ _ _ Hinv He) Hue)
    as (Hrun & Ht).
  pose proof (reachable_res_inv w v e Hr He) as Hri.
  destruct (start_new_slot env opts w u Hinv (String_eqb_nonempty u Hne) Hf)
    as (i & e' & e0 & t & He' & Hcase & _ & _ & _ & _ & _ & Htr).
  destruct Hcase as [(Hc & _) | (_ & Ho & _ & _ & ->)]; [congruence|].
  assert (i = v) as -> by congruence.
  cbn zeta in Htr. rewrite Htr.
  assert (Hc : entries (initialized_world w) !! v = Some e)
    by (rewrite initialized_world_entries; exact He).
  rewrite (cleanup_entry_occupied _ _ _ _ Hc Hue), trace_of_eq, Hrun.
  pose proof (thread_run_owned join_fuel
                (g_preload_callback (initialized_world w))
                (triggered_after (cancel e) (triggered (initialized_world w)))
                (engine env v) (next_handle (initialized_world w))
                (set_cancel_requested true e) Ht Hri) as Ho'.
  cbn zeta in Ho'. revert Ho'.
  generalize (thread_run join_fuel (g_preload_callback (initialized_world w))
                (triggered_after (cancel e) (triggered (initialized_world w)))
                (next_handle (initialized_world w)) (engine env v)
                (set_cancel_requested true e)).
  intros [[ej tj] nj]. cbn [fst snd demuxer global cancel
                            set_cancel_requested].
  intros (_ & Od & Og & Oc).
  assert (Hmj : mentions h ej).
  { destruct Hm as [H | [H | H]]; [left|right; left|right; right].
    - rewrite Od by congruence. exact H.
    - rewrite Og by congruence. exact H.
    - rewrite Oc by congruence. exact H. }
  destruct (free_events_mentions h _ Hmj) as (ev & Hin & Hrel & Hto).
  destruct (in_segment (EvJoin v) ev
              (EvLock :: EvStopFlag v :: trigger_events (cancel e) ++
               EvJoin v :: tj)
              (free_events ej)
              ((if thread_create_ok env then [EvSpawn v] else []) ++
               [EvUnlock]))
    as (pre & post & Heq & Hpre); [|exact Hin|].
  { cbn. right. right. rewrite in_app_iff. right. left. reflexivity. }
  exists pre, ev, post. split; [|auto].
  rewrite <- Heq. cbn [app]. rewrite <- ?app_assoc. cbn [app].
  rewrite <- ?app_assoc. reflexivity.
Qed.

Lemma reachable_full_working : reachable w_full_working.
Proof. apply reachable_run. Qed.

Lemma X23_eviction_releases_witness :
  exists pre ev post,
    trace_of (mpv_preload_start (sample_env 5 true) (Some "e"%string) None
                w_full_working)
    = pre ++ ev :: post /\
    is_release ev = true /\ touches 0%nat ev = true /\
    In (EvJoin 0%nat) pre.
Proof.
  assert (Hne : "e"%string <> EmptyString) by discriminate.
  assert (Hf : find_index (has_url "e"%string) 0 (entries w_full_working)
               = None) by (vm_compute; reflexivity).
  assert (Hfree : find_index (fun e => negb (non_null (url e))) 0
                    (entries w_full_working) = None)
    by (vm_compute; reflexivity).
  assert (Hold : oldest_loop 0 (entries w_full_working) None 0 = Some 0%nat)
    by (vm_compute; reflexivity).
  assert (He : entries w_full_working !! 0%nat
               = Some (default zero_entry (entries w_full_working !! 0%nat)))
    by (vm_compute; reflexivity).
  assert (Hm : mentions 0%nat
                 (default zero_entry (entries w_full_working !! 0%nat)))
    by (right; left; vm_compute; reflexivity).
  exact (X23_eviction_releases (sample_env 5 true) "e"%string None _ 0%nat
           _ 0%nat reachable_full_working Hne Hf Hfree Hold He Hm).
Defined.

(** ** No use after release *)

Lemma safe_app t1 t2 :
  safe t1 -> safe t2 ->
  (forall ev h, In ev t1 -> is_release ev = true -> touches h ev = true ->
                Forall (fun ev' => touches h ev' = false) t2) ->
  safe (t1 ++ t2).
Proof.
  induction t1 as [|ev t1 IH]; intros H1 H2 H12; cbn [app safe].
  - exact H2.
  - destruct H1 as (Hev & H1). split.
    + intros h Hr Ht. apply Forall_app. split; [exact (Hev h Hr Ht)|].
      apply (H12 ev h); [left; reflexivity|exact Hr|exact Ht].
    + apply IH; [exact H1|exact H2|].
      intros ev' h Hin. apply H12. right. exact Hin.
Qed.

Lemma safe_no_release tr :
  Forall (fun ev => is_release ev = false) tr -> safe tr.
Proof.
  induction 1 as [|ev tr Hev _ IH]; cbn [safe]; [exact I|].
  split; [|exact IH]. intros h Hr. rewrite Hev in Hr. discriminate Hr.
Qed.

(** What [safe] says of the events of a trace, read from left to right. *)
Lemma safe_split tr pre ev post h :
  safe tr -> tr = pre ++ ev :: post ->
  is_release ev = true -> touches h ev = true ->
  Forall (fun ev' => touches h ev' = false) post.
Proof.
  revert tr. induction pre as [|x pre IH]; intros tr Hs -> Hr Ht.
  - cbn in Hs. exact (proj1 Hs h Hr Ht).
  - cbn in Hs. exact (IH _ (proj2 Hs) eq_refl Hr Ht).
Qed.

Lemma safe_free_events e : distinct_fields e -> safe (free_events e).
Proof.
  intros Hd.
  assert (Hdc : forall d c, demuxer e = Some d -> cancel e = Some c -> d <> c).
  { intros d c E1 E2 ->. destruct (Hd c) as (H1 & _).
    destruct (H1 E1). congruence. }
  assert (Hdg : forall d g, demuxer e = Some d -> global e = Some g -> d <> g).
  { intros d g E1 E2 ->. destruct (Hd g) as (H1 & _).
    destruct (H1 E1). congruence. }
  assert (Hcg : forall c g, cancel e = Some c -> global e = Some g -> c <> g).
  { intros c g E1 E2 ->. destruct (Hd g) as (_ & H2).
    specialize (H2 E2). congruence. }
  unfold free_events.
  destruct (demuxer e) as [d|] eqn:Ed, (cancel e) as [c|] eqn:Ec,
    (global e) as [g|] eqn:Eg; cbn [app safe]; repeat split;
    try exact I; intros h _ Ht; cbn in Ht; apply Nat.eqb_eq in Ht; subst h;
    repeat (apply List.Forall_cons); try apply List.Forall_nil;
    cbn [touches]; apply Nat.eqb_neq; eauto.
Qed.

Lemma step_distinct cb trig fresh r e :
  distinct_fields e ->
  (forall h, mentions h e -> (h < fresh)%nat) ->
  distinct_fields (fst (fst (preload_thread_step cb trig fresh r e))).
Proof.
  unfold distinct_fields, mentions. intros Hd Hb.
  thread_cases e r cb; try exact Hd; intros h;
    specialize (Hd h); destruct Hd as (H1 & H2);
    (split; [intros E1; split; intros E2|intros E1 E2]);
    try discriminate;
    try (injection E1 as <-); try (injection E2 as <-);
    try (destruct (H1 E1) as (Ha & Hb'); congruence);
    try (specialize (H2 E1); congruence);
    try (match goal with
         | E : _ e = Some ?x |- _ =>
             assert ((x < x)%nat) by (apply Hb; auto); lia
         end).
Qed.

Lemma thread_run_distinct fuel cb trig r :
  forall fresh e,
    distinct_fields e ->
    (forall h, mentions h e -> (h < fresh)%nat) ->
    distinct_fields (fst (fst (thread_run fuel cb trig fresh r e))).
Proof.
  induction fuel as [|k IH]; intros fresh e Hd Hb.
  - exact Hd.
  - rewrite thread_run_S. cbn zeta. cbn [fst snd].
    destruct (step_mentions cb trig fresh r e) as (Hn & Hm). cbn zeta in *.
    apply IH.
    + apply step_distinct; assumption.
    + intros h Hmh. destruct (Hm h Hmh) as [H0 | H1]; [|lia].
      pose proof (Hb h H0). lia.
Qed.

Lemma distinct_fields_none e :
  demuxer e = None -> global e = None -> cancel e = None ->
  distinct_fields e.
Proof. intros Hd Hg Hc h. rewrite Hd, Hg. split; discriminate. Qed.

Lemma disciplined_intro w tr w' :
  handles_step w w' ->
  Forall (touches_known w) tr ->
  (good w -> forall k e, entries w' !! k = Some e -> distinct_fields e) ->
  (good w ->
   safe tr /\
   forall ev h, In ev tr -> is_release ev = true -> touches h ev = true ->
                handed_over h w') ->
  disciplined w tr w'.
Proof.
  intros Hs Ht Hd Hr. split; [exact (proj1 Hs)|]. split; [|split].
  - intros Hg. split; [|exact (Hd Hg)].
    exact (handles_inv_step w w' Hs (proj1 Hg)).
  - intros h Hh. split; [exact (handed_over_step h w w' Hs Hh)|].
    exact (handed_over_untouched h w tr Hh Ht).
  - exact Hr.
Qed.

Lemma disciplined_app w t1 w1 t2 w2 :
  disciplined w t1 w1 -> disciplined w1 t2 w2 ->
  disciplined w (t1 ++ t2) w2.
Proof.
  intros (N1 & G1 & H1 & R1) (N2 & G2 & H2 & R2).
  split; [lia|]. split; [auto|]. split.
  - intros h Hh. destruct (H1 h Hh) as (Hh1 & U1).
    destruct (H2 h Hh1) as (Hh2 & U2). split; [exact Hh2|].
    apply Forall_app. split; assumption.
  - intros Hg. destruct (R1 Hg) as (S1 & L1).
    destruct (R2 (G1 Hg)) as (S2 & L2). split.
    + apply safe_app; [exact S1|exact S2|].
      intros ev h Hin Hr Ht. exact (proj2 (H2 h (L1 ev h Hin Hr Ht))).
    + intros ev h Hin Hr Ht. apply in_app_iff in Hin as [Hin | Hin].
      * exact (proj1 (H2 h (L1 ev h Hin Hr Ht))).
      * exact (L2 ev h Hin Hr Ht).
Qed.

(** A piece that keeps the table, or rewrites entries without changing
    what they refer to, and whose events act on no object. *)
Lemma disciplined_plain w tr w' :
  (next_handle w <= next_handle w')%nat ->
  (forall k e', entries w' !! k = Some e' ->
     exists e, entries w !! k = Some e /\
               (forall h, mentions h e' -> mentions h e) /\
               (distinct_fields e -> distinct_fields e')) ->
  Forall (fun ev => forall h, touches h ev = false) tr ->
  disciplined w tr w'.
Proof.
  intros Hn He Htr. apply disciplined_intro.
  - split; [exact Hn|]. exists 0%nat. intros k e' h Hk Hm.
    destruct (He k e' Hk) as (e & Hke & Hme & _). left. eauto.
  - apply List.Forall_forall. intros ev Hin h Ht.
    rewrite List.Forall_forall in Htr. rewrite (Htr ev Hin h) in Ht.
    discriminate Ht.
  - intros (_ & Hd) k e' Hk. destruct (He k e' Hk) as (e & Hke & _ & Hde).
    exact (Hde (Hd k e Hke)).
  - intros _. split.
    + apply safe_no_release. apply List.Forall_forall. intros ev Hin.
      rewrite List.Forall_forall in Htr. specialize (Htr ev Hin).
      destruct ev as [| |s|s|s|c|f u i|d|x|p c]; try reflexivity;
        [specialize (Htr d)|specialize (Htr x)]; cbn in Htr;
        rewrite Nat.eqb_refl in Htr; discriminate Htr.
    + intros ev h Hin _ Ht. rewrite List.Forall_forall in Htr.
      rewrite (Htr ev Hin h) in Ht. discriminate Ht.
Qed.

Lemma disciplined_same w tr w' :
  entries w' = entries w -> (next_handle w <= next_handle w')%nat ->
  Forall (fun ev => forall h, touches h ev = false) tr ->
  disciplined w tr w'.
Proof.
  intros He Hn Htr. apply disciplined_plain; [exact Hn| |exact Htr].
  intros k e' Hk. rewrite He in Hk. exists e'. auto.
Qed.

Lemma for_each_slot_disciplined body :
  (forall k w, disciplined w (trace_of (body k w)) (state_of (body k w))) ->
  forall n i w,
    disciplined w (trace_of (for_each_slot n i body w))
      (state_of (for_each_slot n i body w)).
Proof.
  intros Hb. induction n as [|n IH]; intros i w.
  - change (for_each_slot 0 i body w) with (tt, w, @nil event).
    apply disciplined_same; [reflexivity|cbn; lia|constructor].
  - rewrite for_each_slot_S, state_of_eq, trace_of_eq.
    exact (disciplined_app _ _ _ _ _ (Hb i w) (IH (S i) _)).
Qed.

Lemma safe_after_quiet t1 t2 :
  Forall (fun ev => is_release ev = false) t1 -> safe t2 -> safe (t1 ++ t2).
Proof.
  intros H1 H2. apply safe_app; [apply safe_no_release, H1|exact H2|].
  intros ev h Hin Hr. rewrite List.Forall_forall in H1.
  rewrite (H1 ev Hin) in Hr. discriminate Hr.
Qed.

Lemma safe_before_plain t1 t2 :
  safe t1 -> Forall (fun ev => forall h, touches h ev = false) t2 ->
  safe (t1 ++ t2).
Proof.
  intros H1 H2. apply safe_app; [exact H1| |].
  - apply safe_no_release. apply List.Forall_forall. intros ev Hin.
    rewrite List.Forall_forall in H2. specialize (H2 ev Hin).
    destruct ev as [| |s|s|s|c|f u i|d|x|p c]; try reflexivity;
      [specialize (H2 d)|specialize (H2 x)]; cbn in H2;
      rewrite Nat.eqb_refl in H2; discriminate H2.
  - intros ev h _ _ _. apply List.Forall_forall. intros ev' Hin.
    rewrite List.Forall_forall in H2. exact (H2 ev' Hin h).
Qed.

Lemma quiet_trigger c :
  Forall (fun ev => is_release ev = false) (trigger_events c).
Proof. destruct c; repeat constructor. Qed.

Lemma quiet_callbacks tr :
  forallb is_callback tr = true ->
  Forall (fun ev => is_release ev = false) tr.
Proof.
  intros H. apply List.Forall_forall. intros ev Hin.
  pose proof (callbacks_only tr ev H Hin). destruct ev; try discriminate.
  reflexivity.
Qed.

Lemma quiet_steal e :
  Forall (fun ev => is_release ev = false) (steal_events e).
Proof.
  unfold steal_events. destruct (demuxer e), (global e), (cancel e);
    repeat constructor.
Qed.

(** A piece that rewrites one slot. The new entry refers to what the old
    one did or to objects allocated by the piece, and what the piece
    releases is the old entry's, or was allocated by the piece, and is not
    referred to by the new entry. *)
Lemma disciplined_insert w tr w' k e x :
  entries w' = <[k := x]> (entries w) ->
  (next_handle w <= next_handle w')%nat ->
  entries w !! k = Some e ->
  (forall h, mentions h x ->
     mentions h e \/ (next_handle w <= h < next_handle w')%nat) ->
  (good w -> distinct_fields x) ->
  Forall (touches_known w) tr ->
  (good w ->
   safe tr /\
   forall ev h, In ev tr -> is_release ev = true -> touches h ev = true ->
     ~ mentions h x /\
     (mentions h e \/ (next_handle w <= h < next_handle w')%nat)) ->
  disciplined w tr w'.
Proof.
  intros Hent Hn He Hx Hdx Htr Hrel.
  pose proof (lookup_lt_Some _ _ _ He) as Hlt.
  apply disciplined_intro.
  - apply (handles_step_insert w w' k x Hn Hent).
    intros h Hm. destruct (Hx h Hm) as [H | H]; [left; eauto|right; exact H].
  - exact Htr.
  - intros Hg j y Hy. rewrite Hent in Hy.
    destruct (decide (j = k)) as [->|Hne].
    + rewrite list_lookup_insert_eq in Hy by exact Hlt. injection Hy as <-.
      exact (Hdx Hg).
    + rewrite list_lookup_insert_ne in Hy by congruence.
      exact (proj2 Hg j y Hy).
  - intros Hg. destruct (Hrel Hg) as (Hs & Hr). split; [exact Hs|].
    destruct Hg as ((HB & HU) & _).
    intros ev h Hin Hre Hto. destruct (Hr ev h Hin Hre Hto) as (Hnx & Hor).
    split.
    + destruct Hor as [H0 | Hb]; [|lia]. pose proof (HB k e h He H0). lia.
    + intros j y Hy Hmy. rewrite Hent in Hy.
      destruct (decide (j = k)) as [->|Hne].
      * rewrite list_lookup_insert_eq in Hy by exact Hlt.
        injection Hy as <-. exact (Hnx Hmy).
      * rewrite list_lookup_insert_ne in Hy by congruence.
        destruct Hor as [H0 | Hb].
        -- apply Hne. exact (HU j k y e h Hy He Hmy H0).
        -- pose proof (HB j y h Hy Hmy). lia.
Qed.

Lemma disciplined_insert_quiet w tr w' k e x :
  entries w' = <[k := x]> (entries w) ->
  (next_handle w <= next_handle w')%nat ->
  entries w !! k = Some e ->
  (forall h, mentions h x ->
     mentions h e \/ (next_handle w <= h < next_handle w')%nat) ->
  (good w -> distinct_fields x) ->
  Forall (touches_known w) tr ->
  Forall (fun ev => is_release ev = false) tr ->
  disciplined w tr w'.
Proof.
  intros Hent Hn He Hx Hdx Htr Hq.
  apply (disciplined_insert w tr w' k e x); try assumption.
  intros _. split; [apply safe_no_release, Hq|].
  intros ev h Hin Hr. rewrite List.Forall_forall in Hq.
  rewrite (Hq ev Hin) in Hr. discriminate Hr.
Qed.

Lemma signal_slot_disciplined k w :
  disciplined w (trace_of (signal_slot k w)) (state_of (signal_slot k w)).
Proof.
  destruct (signal_slot_handles w k w (handles_from_refl w)) as (_ & Htr).
  revert Htr. destruct (entries w !! k) as [e|] eqn:He.
  - rewrite (signal_slot_eq _ _ _ He), state_of_eq, trace_of_eq.
    destruct (non_null (url e)).
    + intros Htr.
      apply (disciplined_insert_quiet _ _ _ k e (set_cancel_requested true e));
        [reflexivity|cbn; lia|exact He| | |exact Htr|].
      * intros h Hm. left. exact Hm.
      * intros Hg. exact (proj2 Hg k e He).
      * constructor; [reflexivity|apply quiet_trigger].
    + intros _. apply disciplined_same; [reflexivity|lia|constructor].
  - rewrite (signal_slot_none _ _ He). intros _.
    apply disciplined_same; [reflexivity|cbn; lia|constructor].
Qed.

Lemma join_slot_disciplined env k w :
  disciplined w (trace_of (join_slot env k w))
    (state_of (join_slot env k w)).
Proof.
  destruct (join_slot_handles env w k w (handles_from_refl w)) as (_ & Htr).
  revert Htr. destruct (entries w !! k) as [e|] eqn:He.
  - rewrite (join_slot_eq _ _ _ _ He).
    destruct (thread_running e).
    + rewrite state_of_eq, trace_of_eq.
      pose proof (thread_run_mentions join_fuel (g_preload_callback w)
                    (triggered w) (engine env k) (next_handle w) e) as Hm.
      pose proof (thread_run_events join_fuel (g_preload_callback w)
                    (triggered w) (next_handle w) (engine env k) e) as Hev.
      pose proof (thread_run_distinct join_fuel (g_preload_callback w)
                    (triggered w) (engine env k) (next_handle w) e) as Hd.
      cbn zeta in Hm. revert Hm Hev Hd.
      generalize (thread_run join_fuel (g_preload_callback w) (triggered w)
                    (next_handle w) (engine env k) e).
      intros [[ej tj] nj]. cbn [fst snd]. intros (Hn & Hm) Hev Hd Htr.
      apply (disciplined_insert_quiet _ _ _ k e (set_thread_running false ej));
        [reflexivity|exact Hn|exact He| | |exact Htr|].
      * intros h Hmh. exact (Hm h Hmh).
      * intros ((HB & _) & Hdist).
        apply (Hd (Hdist k e He)). intros h Hmh. exact (HB k e h He Hmh).
      * constructor; [reflexivity|apply quiet_callbacks, Hev].
    + intros _. apply disciplined_same; [reflexivity|cbn; lia|constructor].
  - rewrite (join_slot_none _ _ _ He). intros _.
    apply disciplined_same; [reflexivity|cbn; lia|constructor].
Qed.

Lemma cleanup_entry_disciplined env k w :
  disciplined w (trace_of (cleanup_entry env k w))
    (state_of (cleanup_entry env k w)).
Proof.
  destruct (cleanup_entry_handles env w k w (handles_from_refl w))
    as (_ & Htr).
  revert Htr. destruct (entries w !! k) as [e|] eqn:He.
  2:{ rewrite cleanup_entry_free by (rewrite He; reflexivity). intros _.
      apply disciplined_same; [reflexivity|cbn; lia|constructor]. }
  destruct (url e) eqn:Hu.
  2:{ rewrite cleanup_entry_free by (rewrite He; exact Hu). intros _.
      apply disciplined_same; [reflexivity|cbn; lia|constructor]. }
  rewrite (cleanup_entry_occupied _ _ _ _ He) by congruence.
  rewrite state_of_eq, trace_of_eq.
  pose proof (thread_run_mentions join_fuel (g_preload_callback w)
                (triggered_after (cancel e) (triggered w)) (engine env k)
                (next_handle w) (set_cancel_requested true e)) as Hm.
  pose proof (thread_run_events join_fuel (g_preload_callback w)
                (triggered_after (cancel e) (triggered w)) (next_handle w)
                (engine env k) (set_cancel_requested true e)) as Hev.
  pose proof (thread_run_distinct join_fuel (g_preload_callback w)
                (triggered_after (cancel e) (triggered w)) (engine env k)
                (next_handle w) (set_cancel_requested true e)) as Hd.
  cbn zeta in Hm. revert Hm Hev Hd.
  generalize (thread_run join_fuel (g_preload_callback w)
                (triggered_after (cancel e) (triggered w)) (next_handle w)
                (engine env k) (set_cancel_requested true e)).
  intros [[ej tj] nj]. cbn [fst snd]. intros (Hn & Hm) Hev Hd.
  set (sj := if thread_running e then (ej, tj, nj)
            else (set_cancel_requested true e, [], next_handle w)).
  assert (Hsn : (next_handle w <= snd sj)%nat)
    by (unfold sj; destruct (thread_running e); cbn; lia).
  assert (Hsm : forall h, mentions h (fst (fst sj)) ->
            mentions h e \/ (next_handle w <= h < snd sj)%nat).
  { unfold sj. destruct (thread_running e); cbn [fst snd]; intros h Hmh.
    - exact (Hm h Hmh).
    - left. exact Hmh. }
  assert (Hsd : good w -> distinct_fields (fst (fst sj))).
  { intros ((HB & _) & Hdist). unfold sj.
    destruct (thread_running e); cbn [fst snd].
    - apply (Hd (Hdist k e He)). intros h Hmh. exact (HB k e h He Hmh).
    - exact (Hdist k e He). }
  intros Htr.
  apply (disciplined_insert _ _ _ k e zero_entry);
    [reflexivity|exact Hsn|exact He| | |exact Htr|].
  - intros h [H | [H | H]]; discriminate H.
  - intros _. apply distinct_fields_none; reflexivity.
  - intros Hg. split.
    + change (EvStopFlag k :: trigger_events (cancel e) ++
              (if thread_running e then EvJoin k :: snd (fst sj) else []) ++
              free_events (fst (fst sj)))
        with ((EvStopFlag k :: trigger_events (cancel e)) ++
              (if thread_running e then EvJoin k :: snd (fst sj) else []) ++
              free_events (fst (fst sj))).
      apply safe_after_quiet;
        [constructor; [reflexivity|apply quiet_trigger]|].
      apply safe_after_quiet; [|apply safe_free_events, Hsd, Hg].
      unfold sj. destruct (thread_running e); cbn [fst snd];
        [constructor; [reflexivity|apply quiet_callbacks, Hev]|constructor].
    + intros ev h Hin Hre Hto. split.
      { intros [H | [H | H]]; discriminate H. }
      apply Hsm. destruct Hin as [<- | Hin]; [discriminate Hre|].
      rewrite !in_app_iff in Hin. destruct Hin as [Hin | [Hin | Hin]].
      * pose proof (quiet_trigger (cancel e)) as Hq.
        rewrite List.Forall_forall in Hq. rewrite (Hq ev Hin) in Hre.
        discriminate Hre.
      * exfalso. unfold sj in Hin.
        destruct (thread_running e); cbn [fst snd] in Hin; [|destruct Hin].
        destruct Hin as [<- | Hin]; [discriminate Hre|].
        pose proof (quiet_callbacks tj Hev) as Hq.
        rewrite List.Forall_forall in Hq. rewrite (Hq ev Hin) in Hre.
        discriminate Hre.
      * exact (touches_free h _ ev Hin Hto).
Qed.

(** [mpv_preload_clear_all] as a whole. *)
Lemma clear_all_disciplined env w :
  disciplined w (trace_of (mpv_preload_clear_all env w))
    (state_of (mpv_preload_clear_all env w)).
Proof.
  assert (Hlock : forall w0 ev,
    (forall h, touches h ev = false) -> disciplined w0 [ev] w0).
  { intros w0 ev H. apply disciplined_same; [reflexivity|lia|].
    constructor; [exact H|constructor]. }
  destruct (initialized w) eqn:Hi.
  2:{ rewrite (clear_all_uninitialized env w Hi).
      apply disciplined_same; [reflexivity|cbn; lia|constructor]. }
  rewrite (clear_all_eq env w Hi), state_of_eq, trace_of_eq.
  apply (disciplined_app _ _ w); [apply Hlock; reflexivity|].
  eapply disciplined_app;
    [apply (for_each_slot_disciplined signal_slot signal_slot_disciplined)|].
  eapply disciplined_app; [apply Hlock; reflexivity|].
  eapply disciplined_app;
    [apply (for_each_slot_disciplined (join_slot env)
              (join_slot_disciplined env))|].
  eapply disciplined_app; [apply Hlock; reflexivity|].
  rewrite <- (app_nil_r [EvUnlock]) at 1.
  eapply disciplined_app;
    [apply (for_each_slot_disciplined (cleanup_entry env)
              (cleanup_entry_disciplined env))|].
  rewrite app_nil_r. apply Hlock. reflexivity.
Qed.

Lemma disciplined_lock w0 ev :
  (forall h, touches h ev = false) -> disciplined w0 [ev] w0.
Proof.
  intros H. apply disciplined_same; [reflexivity|lia|].
  constructor; [exact H|constructor].
Qed.

(** [mpv_preload_start] of a new url: the lock, the slot found by
    [find_free_slot_locked], and the new entry. *)
Lemma start_disciplined env u opts w :
  world_inv w ->
  disciplined w (trace_of (mpv_preload_start env u opts w))
    (state_of (mpv_preload_start env u opts w)).
Proof.
  intros Hinv.
  destruct u as [u|];
    [|apply disciplined_same; [reflexivity|cbn; lia|constructor]].
  destruct (String.eqb u "") eqn:Hu.
  { apply String_eqb_empty in Hu. subst u.
    rewrite (start_rejected env opts w (Some EmptyString))
      by (right; reflexivity).
    apply disciplined_same; [reflexivity|cbn; lia|constructor]. }
  destruct (find_index (has_url u) 0 (entries w)) as [i|] eqn:Hf.
  { rewrite (start_existing env opts w u i Hf Hu), state_of_eq, trace_of_eq.
    apply disciplined_same;
      [apply initialized_world_entries
      |rewrite initialized_world_next_handle; lia
      |repeat constructor]. }
  assert (Hslot : exists i w2 t e0,
    find_free_slot_locked env (initialized_world w) = (Some i, w2, t) /\
    entries w2 !! i = Some e0 /\
    disciplined (initialized_world w) t w2).
  { destruct (find_index (fun e => negb (non_null (url e))) 0 (entries w))
      as [i|] eqn:Hfree.
    - destruct (find_free_Some _ _ Hfree) as (e & He & Hue).
      exists i, (initialized_world w), [], e. split; [|split].
      + apply find_free_slot_free. rewrite initialized_world_entries.
        exact Hfree.
      + rewrite initialized_world_entries. exact He.
      + apply disciplined_same; [reflexivity|lia|constructor].
    - destruct (oldest_loop_is_Some w Hinv) as (v & e & Hv & He & _).
      pose proof (find_free_None _ Hfree v e He) as Hue.
      assert (Hc : entries (initialized_world w) !! v = Some e)
        by (rewrite initialized_world_entries; exact He).
      exists v, (state_of (cleanup_entry env v (initialized_world w))),
        (trace_of (cleanup_entry env v (initialized_world w))), zero_entry.
      split; [|split].
      + apply find_free_slot_evict; rewrite initialized_world_entries;
          assumption.
      + rewrite (cleanup_entry_occupied _ _ _ _ Hc Hue), state_of_eq.
        cbn. apply list_lookup_insert_eq.
        rewrite initialized_world_entries. exact (lookup_lt_Some _ _ _ He).
      + apply cleanup_entry_disciplined. }
  destruct Hslot as (i & w2 & t & e0 & Hs & He0 & Hd).
  rewrite (start_new env opts w u i w2 t e0 Hu Hf Hs He0).
  rewrite state_of_eq, trace_of_eq.
  change (EvLock :: t ++
          (if thread_create_ok env then [EvSpawn i] else []) ++ [EvUnlock])
    with ([EvLock] ++ t ++
          (if thread_create_ok env then [EvSpawn i] else []) ++ [EvUnlock]).
  apply (disciplined_app _ _ (initialized_world w)).
  { apply disciplined_same;
      [apply initialized_world_entries
      |rewrite initialized_world_next_handle; lia
      |repeat constructor]. }
  apply (disciplined_app _ _ w2); [exact Hd|].
  apply disciplined_plain.
  - cbn. lia.
  - intros k e' Hk. cbn [entries with_entries] in Hk.
    destruct (decide (k = i)) as [->|Hne].
    + rewrite list_lookup_insert_eq in Hk by exact (lookup_lt_Some _ _ _ He0).
      injection Hk as <-. exists e0. split; [exact He0|].
      destruct (thread_create_ok env); split; intros; assumption.
    + rewrite list_lookup_insert_ne in Hk by congruence. exists e'. auto.
  - destruct (thread_create_ok env); repeat constructor.
Qed.

(** Every action keeps the references in order. *)
Lemma exec_disciplined a w :
  world_inv w -> disciplined w (snd (exec a w)) (fst (exec a w)).
Proof.
  intros Hinv. pose proof (exec_touches a w Hinv) as Htr.
  destruct a as [cb|env u opts|env u info|env u|env u|env|i r];
    cbn [exec fst snd] in Htr |- *.
  - apply disciplined_same; [reflexivity|cbn; lia|constructor].
  - apply start_disciplined, Hinv.
  - rewrite get_info_state.
    destruct (get_info_trace env u info w) as [-> | ->];
      (apply disciplined_same; [reflexivity|lia|repeat constructor]).
  - revert Htr.
    destruct (get_demuxer_cases env u w Hinv)
      as [-> | [-> | (s & i & e & -> & _ & _ & He & _ & _ & _ & _ & Heq)]];
      try (intros _; apply disciplined_same;
           [reflexivity|cbn; lia|repeat constructor]).
    cbn zeta in Heq. rewrite Heq, state_of_eq, trace_of_eq. unfold joined.
    pose proof (thread_run_mentions join_fuel (g_preload_callback w)
                  (triggered w) (engine env i) (next_handle w)
                  (set_cancel_requested true e)) as Hm.
    pose proof (thread_run_events join_fuel (g_preload_callback w)
                  (triggered w) (next_handle w) (engine env i)
                  (set_cancel_requested true e)) as Hev.
    cbn zeta in Hm. revert Hm Hev.
    generalize (thread_run join_fuel (g_preload_callback w) (triggered w)
                  (next_handle w) (engine env i)
                  (set_cancel_requested true e)).
    intros [[ej tj] nj]. cbn [fst snd]. intros (Hn & _) Hev Htr.
    apply (disciplined_insert_quiet _ _ _ i e (claimed ej));
      [reflexivity|exact Hn|exact He| | |exact Htr|].
    + intros h [H | [H | H]]; discriminate H.
    + intros _. apply distinct_fields_none; reflexivity.
    + repeat (apply Forall_app; split); try (repeat constructor).
      * apply quiet_callbacks, Hev.
      * apply quiet_steal.
  - revert Htr.
    destruct u as [s|];
      [|intros _; apply disciplined_same;
        [reflexivity|cbn; lia|constructor]].
    destruct (initialized w) eqn:Hi.
    2:{ rewrite (cancel_uninitialized env (Some s) w Hi). intros _.
        apply disciplined_same; [reflexivity|cbn; lia|constructor]. }
    destruct (find_index (has_url s) 0 (entries w)) as [i|] eqn:Hf.
    2:{ rewrite (cancel_absent env s w Hi Hf). intros _.
        apply disciplined_same; [reflexivity|cbn; lia|repeat constructor]. }
    destruct (find_entry_Some _ _ _ Hf) as (e & He & Hu).
    assert (Hue : url e <> None) by congruence.
    destruct (entry_inv_occupied e (world_inv_lookup _ _ _ Hinv He) Hue)
      as (Hrun & _).
    rewrite (cancel_found env s w i e Hi Hf He Hue Hrun).
    rewrite state_of_eq, trace_of_eq.
    pose proof (thread_run_mentions join_fuel (g_preload_callback w)
                  (triggered_after (cancel e) (triggered w)) (engine env i)
                  (next_handle w) (set_cancel_requested true e)) as Hm.
    pose proof (thread_run_events join_fuel (g_preload_callback w)
                  (triggered_after (cancel e) (triggered w)) (next_handle w)
                  (engine env i) (set_cancel_requested true e)) as Hev.
    pose proof (thread_run_distinct join_fuel (g_preload_callback w)
                  (triggered_after (cancel e) (triggered w)) (engine env i)
                  (next_handle w) (set_cancel_requested true e)) as Hd.
    cbn zeta in Hm. revert Hm Hev Hd.
    generalize (thread_run join_fuel (g_preload_callback w)
                  (triggered_after (cancel e) (triggered w)) (next_handle w)
                  (engine env i) (set_cancel_requested true e)).
    intros [[ej tj] nj]. cbn [fst snd]. intros (Hn & Hm) Hev Hd Htr.
    apply (disciplined_insert _ _ _ i e zero_entry);
      [reflexivity|exact Hn|exact He| | |exact Htr|].
    + intros h [H | [H | H]]; discriminate H.
    + intros _. apply distinct_fields_none; reflexivity.
    + intros ((HB & HU) & Hdist).
      assert (Hdj : distinct_fields ej).
      { apply (Hd (Hdist i e He)). intros h Hmh. exact (HB i e h He Hmh). }
      split.
      * apply safe_after_quiet; [repeat constructor|].
        apply safe_after_quiet; [apply quiet_trigger|].
        apply safe_after_quiet; [repeat constructor|].
        apply safe_after_quiet; [apply quiet_callbacks, Hev|].
        apply safe_after_quiet; [repeat constructor|].
        apply safe_after_quiet; [apply quiet_trigger|].
        apply safe_before_plain; [apply safe_free_events, Hdj|].
        repeat constructor.
      * intros ev h Hin Hre Hto. split.
        { intros [H | [H | H]]; discriminate H. }
        apply Hm. rewrite !in_app_iff in Hin.
        assert (Htrig : forall c0, In ev (trigger_events c0) -> False).
        { intros [c0|]; cbn; [intros [<-|[]]; discriminate Hre|tauto]. }
        destruct Hin as [Hin|[Hin|[Hin|[Hin|[Hin|[Hin|[Hin|Hin]]]]]]].
        -- cbn in Hin. destruct Hin as [<-|[<-|[]]]; discriminate Hre.
        -- destruct (Htrig _ Hin).
        -- cbn in Hin. destruct Hin as [<-|[<-|[]]]; discriminate Hre.
        -- pose proof (callbacks_only tj ev Hev Hin).
           destruct ev; discriminate.
        -- cbn in Hin. destruct Hin as [<-|[<-|[]]]; discriminate Hre.
        -- destruct (Htrig _ Hin).
        -- exact (touches_free h ej ev Hin Hto).
        -- cbn in Hin. destruct Hin as [<-|[]]; discriminate Hre.
  - apply clear_all_disciplined.
  - revert Htr. destruct (entries w !! i) as [e|] eqn:He.
    + rewrite (worker_step_eq r i w e He), state_of_eq, trace_of_eq.
      intros Htr.
      destruct (step_mentions (g_preload_callback w) (triggered w)
                  (next_handle w) r e) as (Hn & Hm). cbn zeta in Hn, Hm.
      apply (disciplined_insert_quiet _ _ _ i e
               (fst (fst (preload_thread_step (g_preload_callback w)
                            (triggered w) (next_handle w) r e))));
        [reflexivity|exact Hn|exact He|exact Hm| |exact Htr|].
      * intros ((HB & _) & Hdist). apply step_distinct.
        -- exact (Hdist i e He).
        -- intros h Hmh. exact (HB i e h He Hmh).
      * apply quiet_callbacks, step_events.
    + rewrite (worker_step_none r i w He). intros _.
      apply disciplined_same; [reflexivity|cbn; lia|constructor].
Qed.

Lemma run_disciplined l :
  forall w, reachable w -> disciplined w (snd (run l w)) (fst (run l w)).
Proof.
  induction l as [|a l IH]; intros w Hr; cbn [run fst snd].
  - apply disciplined_same; [reflexivity|lia|constructor].
  - apply (disciplined_app _ _ (fst (exec a w))).
    + apply exec_disciplined, reachable_inv, Hr.
    + apply IH. constructor. exact Hr.
Qed.

Lemma good_init : good init_world.
Proof.
  split; [exact (reachable_handles_inv _ reachable_init)|].
  intros k e He. apply lookup_replicate in He as (-> & _).
  apply distinct_fields_none; reflexivity.
Qed.

Lemma reachable_good w : reachable w -> good w.
Proof.
  induction 1 as [|a w Hr IH]; [exact good_init|].
  destruct (exec_disciplined a w (reachable_inv w Hr)) as (_ & Hg & _).
  exact (Hg IH).
Qed.

(** X24. No use after release, in any execution. Whatever the client calls
    and however the workers are scheduled, once the registry has released
    an object (a demuxer, a context or a cancel token) nothing that follows
    acts on that object again: it is not released a second time, not
    triggered, and nothing is moved onto it. *)
Theorem X24_no_use_after_release w l :
  reachable w ->
  safe (snd (run l w)) /\
  forall pre ev post h,
    snd (run l w) = pre ++ ev :: post ->
    is_release ev = true -> touches h ev = true ->
    Forall (fun ev' => touches h ev' = false) post.
Proof.
  intros Hr.
  destruct (run_disciplined l w Hr) as (_ & _ & _ & Hs).
  destruct (Hs (reachable_good w Hr)) as (Hsafe & _).
  split; [exact Hsafe|].
  intros pre ev post h Heq. exact (safe_split _ pre ev post h Hsafe Heq).
Qed.

Lemma X24_no_use_after_release_witness :
  safe (snd (run [Call_cancel (sample_env 9 true) (Some "a"%string);
                  Call_clear_all (sample_env 9 true)] w_ready)).
Proof.
  exact (proj1 (X24_no_use_after_release w_ready
                  [Call_cancel (sample_env 9 true) (Some "a"%string);
                   Call_clear_all (sample_env 9 true)] reachable_ready)).
Defined.

(** ** No object is lost *)

Lemma accounted_app_l h t1 t2 : accounted h t1 -> accounted h (t1 ++ t2).
Proof.
  intros (ev & Hin & Hk & Ht). exists ev. rewrite in_app_iff. auto.
Qed.

Lemma accounted_app_r h t1 t2 : accounted h t2 -> accounted h (t1 ++ t2).
Proof.
  intros (ev & Hin & Hk & Ht). exists ev. rewrite in_app_iff. auto.
Qed.

Lemma accounting_app w t1 w1 t2 w2 :
  accounting w t1 w1 -> accounting w1 t2 w2 -> accounting w (t1 ++ t2) w2.
Proof.
  intros (N1 & A1) (N2 & A2). split; [lia|]. intros Ht.
  destruct (A1 Ht) as (T1 & K1). destruct (A2 T1) as (T2 & K2).
  split; [exact T2|]. intros h Hh.
  assert (H1 : held w1 h \/ accounted h t1 \/
               (next_handle w1 <= h < next_handle w2)%nat).
  { destruct Hh as [Hh | Hb].
    - destruct (K1 h (or_introl Hh)); auto.
    - destruct (decide (h < next_handle w1)%nat) as [Hlt|Hge].
      + destruct (K1 h (or_intror (conj (proj1 Hb) Hlt))); auto.
      + right. right. lia. }
  destruct H1 as [H1 | [H1 | H1]].
  - destruct (K2 h (or_introl H1)) as [H2 | H2];
      [left; exact H2|right; apply accounted_app_r, H2].
  - right. apply accounted_app_l, H1.
  - destruct (K2 h (or_intror H1)) as [H2 | H2];
      [left; exact H2|right; apply accounted_app_r, H2].
Qed.

Lemma accounting_same w tr w' :
  entries w' = entries w -> (next_handle w' = next_handle w) ->
  accounting w tr w'.
Proof.
  intros He Hn. split; [lia|]. intros Ht. split.
  - intros k e Hk. rewrite He in Hk. exact (Ht k e Hk).
  - intros h [(k & e & Hk & Hm) | Hb]; [|lia].
    left. exists k, e. rewrite He. auto.
Qed.

(** A piece that rewrites one slot. *)
Lemma accounting_insert w tr w' k e x :
  entries w' = <[k := x]> (entries w) ->
  (next_handle w <= next_handle w')%nat ->
  entries w !! k = Some e ->
  (tidy_entry e -> tidy_entry x) ->
  (tidy_entry e ->
   forall h, mentions h e \/ (next_handle w <= h < next_handle w')%nat ->
             mentions h x \/ accounted h tr) ->
  accounting w tr w'.
Proof.
  intros Hent Hn He Hx Hacc.
  pose proof (lookup_lt_Some _ _ _ He) as Hlt.
  split; [exact Hn|]. intros Ht. split.
  - intros j y Hy. rewrite Hent in Hy.
    destruct (decide (j = k)) as [->|Hne].
    + rewrite list_lookup_insert_eq in Hy by exact Hlt. injection Hy as <-.
      exact (Hx (Ht k e He)).
    + rewrite list_lookup_insert_ne in Hy by congruence. exact (Ht j y Hy).
  - assert (Hk : forall h,
      mentions h e \/ (next_handle w <= h < next_handle w')%nat ->
      held w' h \/ accounted h tr).
    { intros h Hh. destruct (Hacc (Ht k e He) h Hh) as [Hm | Ha];
        [left|right; exact Ha].
      exists k, x. rewrite Hent. split; [|exact Hm].
      apply list_lookup_insert_eq, Hlt. }
    intros h [(j & y & Hy & Hm) | Hb]; [|exact (Hk h (or_intror Hb))].
    destruct (decide (j = k)) as [->|Hne].
    + assert (y = e) as -> by congruence. exact (Hk h (or_introl Hm)).
    + left. exists j, y. rewrite Hent. split; [|exact Hm].
      rewrite list_lookup_insert_ne by congruence. exact Hy.
Qed.

Lemma for_each_slot_accounting body :
  (forall k w, accounting w (trace_of (body k w)) (state_of (body k w))) ->
  forall n i w,
    accounting w (trace_of (for_each_slot n i body w))
      (state_of (for_each_slot n i body w)).
Proof.
  intros Hb. induction n as [|n IH]; intros i w.
  - change (for_each_slot 0 i body w) with (tt, w, @nil event).
    apply accounting_same; reflexivity.
  - rewrite for_each_slot_S, state_of_eq, trace_of_eq.
    exact (accounting_app _ _ _ _ _ (Hb i w) (IH (S i) _)).
Qed.

(** What the worker allocates it stores in its entry. *)
Lemma step_allocated cb trig fresh r e :
  let s := preload_thread_step cb trig fresh r e in
  forall h, (fresh <= h < snd s)%nat -> mentions h (fst (fst s)).
Proof.
  unfold mentions.
  thread_cases e r cb; intros h Hh; try lia;
    assert (h = fresh) as -> by lia; auto.
Qed.

Lemma mentions_kept e e' h :
  (demuxer e <> None -> demuxer e' = demuxer e) ->
  (global e <> None -> global e' = global e) ->
  (cancel e <> None -> cancel e' = cancel e) ->
  mentions h e -> mentions h e'.
Proof.
  intros Kd Kg Kc [H | [H | H]]; [left|right; left|right; right].
  - rewrite Kd by congruence. exact H.
  - rewrite Kg by congruence. exact H.
  - rewrite Kc by congruence. exact H.
Qed.

(** A worker loses nothing: its entry keeps what it referred to and
    refers to everything the worker allocated. *)
Lemma thread_run_accounting fuel cb trig r :
  forall fresh e,
    thread_inv e -> res_inv e ->
    let s := thread_run fuel cb trig fresh r e in
    thread_inv (fst (fst s)) /\ res_inv (fst (fst s)) /\
    forall h, mentions h e \/ (fresh <= h < snd s)%nat ->
              mentions h (fst (fst s)).
Proof.
  induction fuel as [|k IH]; intros fresh e Ht Hri.
  - unfold thread_run. cbn. split; [exact Ht|]. split; [exact Hri|].
    intros h [H | H]; [exact H|lia].
  - rewrite thread_run_S. cbn zeta. cbn [fst snd].
    pose proof (step_thread_inv cb trig fresh r e Ht) as Ht1.
    pose proof (step_res_inv cb trig fresh r e Ht Hri) as Hri1.
    destruct (step_owned_keep cb trig fresh r e Ht Hri) as (Kd & Kg & Kc).
    pose proof (step_allocated cb trig fresh r e) as Hal.
    destruct (step_mentions cb trig fresh r e) as (Hn1 & _).
    destruct (IH (snd (preload_thread_step cb trig fresh r e))
                 (fst (fst (preload_thread_step cb trig fresh r e)))
                 Ht1 Hri1) as (Ht2 & Hri2 & Hk2).
    cbn zeta in *. split; [exact Ht2|]. split; [exact Hri2|].
    intros h [Hm | Hb].
    + apply Hk2. left. exact (mentions_kept _ _ h Kd Kg Kc Hm).
    + destruct (decide
        (h < snd (preload_thread_step cb trig fresh r e))%nat) as [Hlt|Hge].
      * apply Hk2. left. apply Hal. lia.
      * apply Hk2. right. lia.
Qed.

Lemma tidy_entry_free e : url e = None -> free_inv e -> tidy_entry e.
Proof. unfold tidy_entry. intros ->. tauto. Qed.

Lemma tidy_entry_zero : tidy_entry zero_entry.
Proof. apply tidy_entry_free; [reflexivity|exact free_inv_zero]. Qed.

Lemma tidy_entry_occupied e :
  tidy_entry e -> url e <> None -> thread_inv e /\ res_inv e.
Proof. unfold tidy_entry. destruct (url e); [tauto|congruence]. Qed.

Lemma tidy_entry_unoccupied e :
  tidy_entry e -> url e = None -> free_inv e.
Proof. unfold tidy_entry. intros H Hu. rewrite Hu in H. exact H. Qed.

Lemma free_events_accounted h e :
  mentions h e -> accounted h (free_events e).
Proof.
  intros Hm. destruct (free_events_mentions h e Hm) as (ev & Hin & Hr & Ht).
  exists ev. auto.
Qed.

Lemma signal_slot_accounting k w :
  accounting w (trace_of (signal_slot k w)) (state_of (signal_slot k w)).
Proof.
  destruct (entries w !! k) as [e|] eqn:He.
  - rewrite (signal_slot_eq _ _ _ He), state_of_eq, trace_of_eq.
    destruct (non_null (url e)); [|apply accounting_same; reflexivity].
    apply (accounting_insert _ _ _ k e (set_cancel_requested true e));
      [reflexivity|cbn; lia|exact He| |].
    + intros H. exact H.
    + intros _ h [H | H]; [left; exact H|cbn in H; lia].
  - rewrite (signal_slot_none _ _ He). apply accounting_same; reflexivity.
Qed.

Lemma join_slot_accounting env k w :
  accounting w (trace_of (join_slot env k w)) (state_of (join_slot env k w)).
Proof.
  destruct (entries w !! k) as [e|] eqn:He.
  - rewrite (join_slot_eq _ _ _ _ He).
    destruct (thread_running e) eqn:Hrun;
      [|apply accounting_same; reflexivity].
    rewrite state_of_eq, trace_of_eq.
    pose proof (thread_run_accounting join_fuel (g_preload_callback w)
                  (triggered w) (engine env k) (next_handle w) e) as Ha.
    pose proof (thread_run_mentions join_fuel (g_preload_callback w)
                  (triggered w) (engine env k) (next_handle w) e) as Hm.
    pose proof (thread_run_frame join_fuel (g_preload_callback w)
                  (triggered w) (next_handle w) (engine env k) e) as Hfr.
    cbn zeta in Ha, Hm, Hfr. revert Ha Hm Hfr.
    generalize (thread_run join_fuel (g_preload_callback w) (triggered w)
                  (next_handle w) (engine env k) e).
    intros [[ej tj] nj]. cbn [fst snd]. intros Ha (Hn & _) (Hu & _).
    assert (Hocc : tidy_entry e -> url e <> None).
    { intros Ht Hnone.
      destruct (tidy_entry_unoccupied e Ht Hnone) as (_ & Hr & _).
      congruence. }
    apply (accounting_insert _ _ _ k e (set_thread_running false ej));
      [reflexivity|exact Hn|exact He| |].
    + intros Ht.
      destruct (tidy_entry_occupied e Ht (Hocc Ht)) as (Hti & Hri).
      destruct (Ha Hti Hri) as (Htj & Hrj & _).
      unfold tidy_entry. cbn [url set_thread_running]. rewrite Hu.
      destruct (url e); [|destruct (Hocc Ht eq_refl)].
      split; [exact Htj|exact Hrj].
    + intros Ht h Hh.
      destruct (tidy_entry_occupied e Ht (Hocc Ht)) as (Hti & Hri).
      destruct (Ha Hti Hri) as (_ & _ & Hk). left. exact (Hk h Hh).
  - rewrite (join_slot_none _ _ _ He). apply accounting_same; reflexivity.
Qed.

Lemma cleanup_entry_accounting env k w :
  accounting w (trace_of (cleanup_entry env k w))
    (state_of (cleanup_entry env k w)).
Proof.
  destruct (entries w !! k) as [e|] eqn:He.
  2:{ rewrite cleanup_entry_free by (rewrite He; reflexivity).
      apply accounting_same; reflexivity. }
  destruct (url e) eqn:Hu.
  2:{ rewrite cleanup_entry_free by (rewrite He; exact Hu).
      apply accounting_same; reflexivity. }
  assert (Hue : url e <> None) by congruence.
  rewrite (cleanup_entry_occupied _ _ _ _ He Hue).
  rewrite state_of_eq, trace_of_eq.
  pose proof (thread_run_accounting join_fuel (g_preload_callback w)
                (triggered_after (cancel e) (triggered w)) (engine env k)
                (next_handle w) (set_cancel_requested true e)) as Ha.
  pose proof (thread_run_mentions join_fuel (g_preload_callback w)
                (triggered_after (cancel e) (triggered w)) (engine env k)
                (next_handle w) (set_cancel_requested true e)) as Hm.
  cbn zeta in Ha, Hm. revert Ha Hm.
  generalize (thread_run join_fuel (g_preload_callback w)
                (triggered_after (cancel e) (triggered w)) (next_handle w)
                (engine env k) (set_cancel_requested true e)).
  intros [[ej tj] nj]. cbn [fst snd]. intros Ha (Hn & _).
  set (sj := if thread_running e then (ej, tj, nj)
             else (set_cancel_requested true e, [], next_handle w)).
  assert (Hsn : (next_handle w <= snd sj)%nat)
    by (unfold sj; destruct (thread_running e); cbn; lia).
  apply (accounting_insert _ _ _ k e zero_entry);
    [reflexivity|exact Hsn|exact He| |].
  - intros _. exact tidy_entry_zero.
  - intros Ht h Hh. right.
    destruct (tidy_entry_occupied e Ht Hue) as (Hti & Hri).
    destruct (Ha Hti Hri) as (_ & _ & Hk).
    assert (Hmj : mentions h (fst (fst sj))).
    { unfold sj in Hh |- *.
      destruct (thread_running e); cbn [fst snd next_handle] in *.
      - exact (Hk h Hh).
      - destruct Hh as [H | H]; [exact H|lia]. }
    change (EvStopFlag k :: trigger_events (cancel e) ++
            (if thread_running e then EvJoin k :: snd (fst sj) else []) ++
            free_events (fst (fst sj)))
      with ((EvStopFlag k :: trigger_events (cancel e)) ++
            (if thread_running e then EvJoin k :: snd (fst sj) else []) ++
            free_events (fst (fst sj))).
    apply accounted_app_r, accounted_app_r, free_events_accounted, Hmj.
Qed.

Lemma clear_all_accounting env w :
  accounting w (trace_of (mpv_preload_clear_all env w))
    (state_of (mpv_preload_clear_all env w)).
Proof.
  destruct (initialized w) eqn:Hi.
  2:{ rewrite (clear_all_uninitialized env w Hi).
      apply accounting_same; reflexivity. }
  rewrite (clear_all_eq env w Hi), state_of_eq, trace_of_eq.
  apply (accounting_app _ _ w); [apply accounting_same; reflexivity|].
  eapply accounting_app;
    [apply (for_each_slot_accounting signal_slot signal_slot_accounting)|].
  eapply accounting_app; [apply accounting_same; reflexivity|].
  eapply accounting_app;
    [apply (for_each_slot_accounting (join_slot env)
              (join_slot_accounting env))|].
  eapply accounting_app; [apply accounting_same; reflexivity|].
  rewrite <- (app_nil_r [EvUnlock]) at 1.
  eapply accounting_app;
    [apply (for_each_slot_accounting (cleanup_entry env)
              (cleanup_entry_accounting env))|].
  rewrite app_nil_r. apply accounting_same; reflexivity.
Qed.

Lemma steal_events_accounted h e :
  demuxer e <> None -> global e <> None -> cancel e <> None ->
  mentions h e -> accounted h (steal_events e).
Proof.
  unfold steal_events, mentions, accounted. intros Hd Hg Hc Hm.
  destruct (demuxer e) as [d|]; [|congruence].
  destruct (global e) as [g|]; [|congruence].
  destruct (cancel e) as [c|]; [|congruence].
  destruct Hm as [H | [H | H]]; injection H as <-.
  - exists (EvSteal d g). cbn. rewrite Nat.eqb_refl. auto.
  - exists (EvSteal d g). cbn. rewrite Nat.eqb_refl, orb_true_r. auto.
  - exists (EvSteal d c). cbn. rewrite Nat.eqb_refl, orb_true_r. auto.
Qed.

Lemma tidy_entry_started env u opts e :
  free_inv e -> tidy_entry (started env u opts e).
Proof.
  intros Hf. unfold tidy_entry. cbn [url started init_entry
    set_thread_running set_thread set_readahead_secs set_max_bytes
    set_cancel_requested set_create_time set_status set_url].
  destruct (entry_inv_occupied _ (entry_inv_started env u opts e Hf))
    as (_ & Ht); [discriminate|].
  split; [exact Ht|].
  destruct Hf as (_ & _ & _ & Hg & Hc & _). unfold res_inv. cbn.
  split; assumption.
Qed.

Lemma tidy_entry_rolled_back env u opts e :
  free_inv e -> tidy_entry (rolled_back env u opts e).
Proof.
  intros Hf. apply tidy_entry_free; [reflexivity|].
  exact (entry_inv_free _ (entry_inv_rolled_back env u opts e Hf) eq_refl).
Qed.

Lemma start_accounting env u opts w :
  world_inv w ->
  accounting w (trace_of (mpv_preload_start env u opts w))
    (state_of (mpv_preload_start env u opts w)).
Proof.
  intros Hinv.
  destruct u as [u|]; [|apply accounting_same; reflexivity].
  destruct (String.eqb u "") eqn:Hu.
  { apply String_eqb_empty in Hu. subst u.
    rewrite (start_rejected env opts w (Some EmptyString))
      by (right; reflexivity).
    apply accounting_same; reflexivity. }
  destruct (find_index (has_url u) 0 (entries w)) as [i|] eqn:Hf.
  { rewrite (start_existing env opts w u i Hf Hu), state_of_eq, trace_of_eq.
    apply accounting_same;
      [apply initialized_world_entries|apply initialized_world_next_handle]. }
  assert (Hslot : exists i w2 t e0,
    find_free_slot_locked env (initialized_world w) = (Some i, w2, t) /\
    entries w2 !! i = Some e0 /\ url e0 = None /\
    accounting (initialized_world w) t w2).
  { destruct (find_index (fun e => negb (non_null (url e))) 0 (entries w))
      as [i|] eqn:Hfree.
    - destruct (find_free_Some _ _ Hfree) as (e & He & Hue).
      exists i, (initialized_world w), [], e. split; [|split; [|split]].
      + apply find_free_slot_free. rewrite initialized_world_entries.
        exact Hfree.
      + rewrite initialized_world_entries. exact He.
      + exact Hue.
      + apply accounting_same; reflexivity.
    - destruct (oldest_loop_is_Some w Hinv) as (v & e & Hv & He & _).
      pose proof (find_free_None _ Hfree v e He) as Hue.
      assert (Hc : entries (initialized_world w) !! v = Some e)
        by (rewrite initialized_world_entries; exact He).
      exists v, (state_of (cleanup_entry env v (initialized_world w))),
        (trace_of (cleanup_entry env v (initialized_world w))), zero_entry.
      split; [|split; [|split]].
      + apply find_free_slot_evict; rewrite initialized_world_entries;
          assumption.
      + rewrite (cleanup_entry_occupied _ _ _ _ Hc Hue), state_of_eq.
        cbn. apply list_lookup_insert_eq.
        rewrite initialized_world_entries. exact (lookup_lt_Some _ _ _ He).
      + reflexivity.
      + apply cleanup_entry_accounting. }
  destruct Hslot as (i & w2 & t & e0 & Hs & He0 & Hu0 & Ha).
  rewrite (start_new env opts w u i w2 t e0 Hu Hf Hs He0).
  rewrite state_of_eq, trace_of_eq.
  change (EvLock :: t ++
          (if thread_create_ok env then [EvSpawn i] else []) ++ [EvUnlock])
    with ([EvLock] ++ t ++
          (if thread_create_ok env then [EvSpawn i] else []) ++ [EvUnlock]).
  apply (accounting_app _ _ (initialized_world w)).
  { apply accounting_same;
      [apply initialized_world_entries|apply initialized_world_next_handle]. }
  apply (accounting_app _ _ w2); [exact Ha|].
  apply (accounting_insert _ _ _ i e0
           (if thread_create_ok env then started env u opts e0
            else rolled_back env u opts e0));
    [reflexivity|cbn; lia|exact He0| |].
  - intros Ht. pose proof (tidy_entry_unoccupied e0 Ht Hu0) as Hfr.
    destruct (thread_create_ok env);
      [apply tidy_entry_started|apply tidy_entry_rolled_back]; exact Hfr.
  - intros _ h [Hm | Hb]; [|cbn in Hb; lia].
    left. destruct (thread_create_ok env); exact Hm.
Qed.

(** No action loses an object. *)
Lemma exec_accounting a w :
  world_inv w -> accounting w (snd (exec a w)) (fst (exec a w)).
Proof.
  intros Hinv.
  destruct a as [cb|env u opts|env u info|env u|env u|env|i r];
    cbn [exec fst snd].
  - apply accounting_same; reflexivity.
  - apply start_accounting, Hinv.
  - rewrite get_info_state. apply accounting_same; reflexivity.
  - destruct (get_demuxer_cases env u w Hinv)
      as [-> | [-> | (s & i & e & -> & _ & _ & He & Hu & Hnc & _ & _ & Heq)]];
      try (apply accounting_same; reflexivity).
    cbn zeta in Heq. rewrite Heq, state_of_eq, trace_of_eq. unfold joined.
    assert (Hd : demuxer e <> None).
    { unfold not_claimable in Hnc. destruct (demuxer e); [discriminate|].
      rewrite orb_true_r in Hnc. discriminate Hnc. }
    pose proof (thread_run_accounting join_fuel (g_preload_callback w)
                  (triggered w) (engine env i) (next_handle w)
                  (set_cancel_requested true e)) as Ha.
    pose proof (thread_run_mentions join_fuel (g_preload_callback w)
                  (triggered w) (engine env i) (next_handle w)
                  (set_cancel_requested true e)) as Hm.
    pose proof (thread_run_demuxer_keep join_fuel (g_preload_callback w)
                  (triggered w) (next_handle w) (engine env i)
                  (set_cancel_requested true e)) as Hk.
    pose proof (join_exits (g_preload_callback w) (triggered w)
                  (next_handle w) (engine env i)
                  (set_cancel_requested true e) eq_refl) as Hex.
    cbn zeta in Ha, Hm. revert Ha Hm Hk Hex.
    generalize (thread_run join_fuel (g_preload_callback w) (triggered w)
                  (next_handle w) (engine env i)
                  (set_cancel_requested true e)).
    intros [[ej tj] nj]. cbn [fst snd]. intros Ha (Hn & _) Hk Hex.
    apply (accounting_insert _ _ _ i e (claimed ej));
      [reflexivity|exact Hn|exact He| |].
    + intros Ht.
      destruct (tidy_entry_occupied e Ht) as (Hti & _); [congruence|].
      apply tidy_entry_free; [reflexivity|].
      apply (entry_inv_free (claimed ej)); [|reflexivity].
      apply entry_inv_claimed, Hex.
      exact (thread_inv_not_none e Hti).
    + intros Ht h Hh. right.
      destruct (tidy_entry_occupied e Ht) as (Hti & Hri); [congruence|].
      destruct (Ha Hti Hri) as (Htj & Hrj & Hmj).
      assert (Hdj : demuxer ej <> None).
      { rewrite (Hk Hti Hd). exact Hd. }
      destruct (res_inv_demuxer ej Htj Hrj Hdj) as (Hgj & Hcj).
      apply accounted_app_r, accounted_app_r, accounted_app_r,
        accounted_app_l.
      exact (steal_events_accounted h ej Hdj Hgj Hcj (Hmj h Hh)).
  - destruct u as [s|]; [|apply accounting_same; reflexivity].
    destruct (initialized w) eqn:Hi.
    2:{ rewrite (cancel_uninitialized env (Some s) w Hi).
        apply accounting_same; reflexivity. }
    destruct (find_index (has_url s) 0 (entries w)) as [i|] eqn:Hf.
    2:{ rewrite (cancel_absent env s w Hi Hf).
        apply accounting_same; reflexivity. }
    destruct (find_entry_Some _ _ _ Hf) as (e & He & Hu).
    assert (Hue : url e <> None) by congruence.
    destruct (entry_inv_occupied e (world_inv_lookup _ _ _ Hinv He) Hue)
      as (Hrun & _).
    rewrite (cancel_found env s w i e Hi Hf He Hue Hrun).
    rewrite state_of_eq, trace_of_eq.
    pose proof (thread_run_accounting join_fuel (g_preload_callback w)
                  (triggered_after (cancel e) (triggered w)) (engine env i)
                  (next_handle w) (set_cancel_requested true e)) as Ha.
    pose proof (thread_run_mentions join_fuel (g_preload_callback w)
                  (triggered_after (cancel e) (triggered w)) (engine env i)
                  (next_handle w) (set_cancel_requested true e)) as Hm.
    cbn zeta in Ha, Hm. revert Ha Hm.
    generalize (thread_run join_fuel (g_preload_callback w)
                  (triggered_after (cancel e) (triggered w)) (next_handle w)
                  (engine env i) (set_cancel_requested true e)).
    intros [[ej tj] nj]. cbn [fst snd]. intros Ha (Hn & _).
    apply (accounting_insert _ _ _ i e zero_entry);
      [reflexivity|exact Hn|exact He| |].
    + intros _. exact tidy_entry_zero.
    + intros Ht h Hh. right.
      destruct (tidy_entry_occupied e Ht Hue) as (Hti & Hri).
      destruct (Ha Hti Hri) as (_ & _ & Hmj).
      do 6 apply accounted_app_r. apply accounted_app_l.
      exact (free_events_accounted h ej (Hmj h Hh)).
  - apply clear_all_accounting.
  - destruct (entries w !! i) as [e|] eqn:He.
    + rewrite (worker_step_eq r i w e He), state_of_eq, trace_of_eq.
      destruct (step_mentions (g_preload_callback w) (triggered w)
                  (next_handle w) r e) as (Hn & _). cbn zeta in Hn.
      apply (accounting_insert _ _ _ i e
               (fst (fst (preload_thread_step (g_preload_callback w)
                            (triggered w) (next_handle w) r e))));
        [reflexivity|exact Hn|exact He| |].
      * intros Ht. destruct (url e) eqn:Hu.
        -- destruct (tidy_entry_occupied e Ht) as (Hti & Hri); [congruence|].
           unfold tidy_entry. rewrite step_url, Hu. split.
           ++ apply step_thread_inv, Hti.
           ++ apply step_res_inv; assumption.
        -- pose proof (tidy_entry_unoccupied e Ht Hu)
             as (_ & _ & _ & _ & _ & Hidle).
           rewrite (step_idle _ _ _ _ _ Hidle). exact Ht.
      * intros Ht h Hh. left. destruct (url e) eqn:Hu.
        -- destruct (tidy_entry_occupied e Ht) as (Hti & Hri); [congruence|].
           destruct (step_owned_keep (g_preload_callback w) (triggered w)
                       (next_handle w) r e Hti Hri) as (Kd & Kg & Kc).
           destruct Hh as [Hm | Hb].
           ++ exact (mentions_kept _ _ h Kd Kg Kc Hm).
           ++ apply step_allocated. exact Hb.
        -- pose proof (tidy_entry_unoccupied e Ht Hu)
             as (_ & _ & _ & _ & _ & Hidle).
           revert Hh. rewrite (step_idle _ _ _ _ _ Hidle).
           cbn [fst snd next_handle].
           intros [Hm | Hb]; [exact Hm|lia].
    + rewrite (worker_step_none r i w He). apply accounting_same; reflexivity.
Qed.

Lemma run_accounting l :
  forall w, reachable w -> accounting w (snd (run l w)) (fst (run l w)).
Proof.
  induction l as [|a l IH]; intros w Hr; cbn [run fst snd].
  - apply accounting_same; reflexivity.
  - apply (accounting_app _ _ (fst (exec a w))).
    + apply exec_accounting, reachable_inv, Hr.
    + apply IH. constructor. exact Hr.
Qed.

Lemma tidy_init : tidy init_world.
Proof.
  intros k e He. apply lookup_replicate in He as (-> & _).
  exact tidy_entry_zero.
Qed.

(** X25. No object is lost, in any execution. At every moment, each object
    the engine has allocated for the registry (a context, a cancel token
    or a demuxer) is referred to by a slot of the table, or was released,
    or was handed over with a claimed demuxer. In particular, after
    [mpv_preload_clear_all] every one of them was released or handed
    over. *)
Theorem X25_no_object_lost l env h :
  let w := fst (run l init_world) in
  let tr := snd (run l init_world) in
  ((h < next_handle w)%nat -> held w h \/ accounted h tr) /\
  ((h < next_handle (fst (exec (Call_clear_all env) w)))%nat ->
   accounted h (tr ++ snd (exec (Call_clear_all env) w))).
Proof.
  cbn zeta.
  assert (Hgen : forall l0,
    (h < next_handle (fst (run l0 init_world)))%nat ->
    held (fst (run l0 init_world)) h \/ accounted h (snd (run l0 init_world))).
  { intros l0 Hlt.
    destruct (run_accounting l0 init_world reachable_init) as (_ & Ha).
    destruct (Ha tidy_init) as (_ & Hk). apply Hk. right.
    cbn [next_handle init_world]. lia. }
  split; [apply Hgen|].
  intros Hlt.
  pose proof (reachable_run l) as Hr.
  pose proof (reachable_inv _ Hr) as Hinv.
  destruct (run_accounting l init_world reachable_init) as (N1 & A1).
  destruct (A1 tidy_init) as (T1 & K1).
  destruct (exec_accounting (Call_clear_all env) _ Hinv) as (N2 & A2).
  destruct (A2 T1) as (_ & K2).
  assert (Hnone : ~ held (fst (exec (Call_clear_all env)
                                 (fst (run l init_world)))) h).
  { intros (k & e & He & Hm).
    pose proof (world_inv_exec (Call_clear_all env) _ Hinv) as Hinv'.
    cbn [exec fst] in He, Hinv'.
    assert (Hu : url e = None).
    { destruct (initialized (fst (run l init_world))) eqn:Hi.
      - destruct (clear_all_entries env _ Hinv Hi) as (Hent & Hlen & _).
        destruct (lookup_lt_is_Some_2 (entries (fst (run l init_world))) k)
          as (e0 & He0).
        { rewrite <- Hlen. exact (lookup_lt_Some _ _ _ He). }
        rewrite (Hent k e0 He0) in He. injection He as <-.
        destruct (url e0) eqn:Hu0; cbn; [reflexivity|exact Hu0].
      - rewrite (clear_all_uninitialized env _ Hi) in He.
        exact (Forall_lookup_1 _ _ _ _ (inv_init _ Hinv Hi) He). }
    exact (mentions_free e h
             (entry_inv_free e (world_inv_lookup _ _ _ Hinv' He) Hu) Hm). }
  destruct (decide (h < next_handle (fst (run l init_world)))%nat)
    as [Hold | Hnew].
  - destruct (K1 h) as [Hh | Hacc].
    { right. cbn [next_handle init_world]. lia. }
    + destruct (K2 h (or_introl Hh)) as [Hh' | Hacc'];
        [destruct (Hnone Hh')|apply accounted_app_r, Hacc'].
    + apply accounted_app_l, Hacc.
  - destruct (K2 h) as [Hh' | Hacc'].
    { right. lia. }
    + destruct (Hnone Hh').
    + apply accounted_app_r, Hacc'.
Qed.

Lemma X25_no_object_lost_witness :
  accounted 2%nat
    (snd (run sample_ready init_world) ++
     snd (exec (Call_clear_all (sample_env 9 true))
            (fst (run sample_ready init_world)))).
Proof.
  assert (Hlt : (2 < next_handle
                       (fst (exec (Call_clear_all (sample_env 9 true))
                               (fst (run sample_ready init_world)))))%nat)
    by (vm_compute; lia).
  exact (proj2 (X25_no_object_lost sample_ready (sample_env 9 true) 2%nat)
           Hlt).
Defined.

(** ** From the start to READY *)

Lemma reachable_run_from l : forall w, reachable w -> reachable (fst (run l w)).
Proof.
  induction l as [|a l IH]; intros w Hw; cbn [run fst]; [exact Hw|].
  apply IH. constructor. exact Hw.
Qed.

(** Steps of the worker of one slot, with nothing in between. *)
Lemma run_workers i rs :
  forall w e,
    entries w !! i = Some e ->
    let s := thread_steps rs (g_preload_callback w) (triggered w)
               (next_handle w) e in
    run (map (fun r => Worker i r) rs) w =
    ({| entries := <[i := fst (fst s)]> (entries w);
        initialized := initialized w;
        g_preload_callback := g_preload_callback w;
        triggered := triggered w; next_handle := snd s |},
     snd (fst s)).
Proof.
  induction rs as [|r rs IH]; intros w e He; cbn zeta.
  - cbn [map run thread_steps fst snd].
    rewrite (list_insert_id _ _ _ He). destruct w; reflexivity.
  - cbn [map run thread_steps]. cbn [exec].
    rewrite (worker_step_eq r i w e He), state_of_eq, trace_of_eq.
    cbn [fst snd].
    set (s1 := preload_thread_step (g_preload_callback w) (triggered w)
                 (next_handle w) r e).
    match goal with
    | |- context [run _ ?w1] =>
        assert (He1 : entries w1 !! i = Some (fst (fst s1)))
          by (cbn [entries]; apply list_lookup_insert_eq;
              exact (lookup_lt_Some _ _ _ He));
        rewrite (IH w1 (fst (fst s1)) He1)
    end.
    cbn [entries initialized g_preload_callback triggered next_handle
         fst snd].
    rewrite list_insert_insert_eq. reflexivity.
Qed.

Lemma claim_ready env u w i e :
  reachable w ->
  entries w !! i = Some e -> url e = Some u ->
  status e = MPV_PRELOAD_STATUS_READY \/ status e = MPV_PRELOAD_STATUS_CACHED ->
  result (mpv_preload_get_demuxer env (Some u) w) = demuxer e.
Proof.
  intros Hr He Hu Hs. pose proof (reachable_inv w Hr) as Hinv.
  assert (Hue : url e <> None) by congruence.
  destruct (entry_inv_occupied e (world_inv_lookup _ _ _ Hinv He) Hue)
    as (Hrun & Ht).
  pose proof (reachable_occupied_initialized w i e Hinv He Hue) as Hi.
  pose proof (find_entry_unique u _ i e (inv_unique w Hinv) He Hu) as Hf.
  pose proof (thread_inv_ready e Ht Hs) as Hd.
  assert (Hnc : not_claimable e = false).
  { unfold not_claimable. destruct (demuxer e); [|congruence].
    destruct Hs as [-> | ->]; reflexivity. }
  rewrite (get_demuxer_taken env u w i e Hi Hf He Hnc Hrun).
  rewrite result_eq. exact (joined_demuxer env w i e Ht Hd).
Qed.

Lemma thread_steps_cons r rs cb trig fresh e :
  thread_steps (r :: rs) cb trig fresh e =
  (let s := preload_thread_step cb trig fresh r e in
   let s' := thread_steps rs cb trig (snd s) (fst (fst s)) in
   (fst (fst s'), snd (fst s) ++ snd (fst s'), snd s')).
Proof. reflexivity. Qed.

(** The first step always gets a context: [create_minimal_global] does
    not fail. *)
Lemma step_start_ok cb trig fresh r e :
  thread e = T_start ->
  preload_thread_step cb trig fresh r e =
  (set_thread T_global (set_global (Some fresh) e), [], S fresh).
Proof. intros Ht. unfold preload_thread_step. rewrite Ht. reflexivity. Qed.

Lemma step_global cb trig fresh r e :
  thread e = T_global ->
  preload_thread_step cb trig fresh r e =
  (set_thread T_open (set_cancel (Some fresh) e), [], S fresh).
Proof. intros Ht. unfold preload_thread_step. rewrite Ht. reflexivity. Qed.

Lemma step_open_ok cb trig fresh r e :
  thread e = T_open -> open_ok r = true ->
  preload_thread_step cb trig fresh r e =
  (set_thread T_opened (set_demuxer (Some fresh) e), [], S fresh).
Proof.
  intros Ht Ho. unfold preload_thread_step. rewrite Ht, Ho. reflexivity.
Qed.

Lemma step_open_fail cb trig fresh r e :
  thread e = T_open -> open_ok r = false ->
  let r1 := invoke_callback cb r
              (set_status MPV_PRELOAD_STATUS_ERROR (set_demuxer None e)) in
  preload_thread_step cb trig fresh r e =
  (set_thread T_exited (fst r1), snd r1, fresh).
Proof.
  intros Ht Ho. unfold preload_thread_step. rewrite Ht, Ho. reflexivity.
Qed.

Lemma step_opened cb trig fresh r e :
  thread e = T_opened ->
  let r1 := invoke_callback cb r (set_status MPV_PRELOAD_STATUS_READY e) in
  preload_thread_step cb trig fresh r e =
  (set_thread (T_loop false) (fst r1), snd r1, fresh).
Proof. intros Ht. unfold preload_thread_step. rewrite Ht. reflexivity. Qed.

(** [invoke_callback] changes [callback_info] only, and tells the status
    of the entry. *)
Lemma invoke_callback_frame cb r e :
  let r1 := invoke_callback cb r e in
  url (fst r1) = url e /\ status (fst r1) = status e /\
  demuxer (fst r1) = demuxer e /\
  notified (snd r1) =
    match cb with Some _ => [status_code (status e)] | None => [] end.
Proof.
  unfold invoke_callback. destruct cb; cbn; [|tauto].
  rewrite fill_status. tauto.
Qed.

(** The worker's way from its start to READY, and its way to ERROR. *)
Lemma thread_steps_ready cb trig fresh r1 r2 r3 r4 e :
  thread e = T_start -> open_ok r3 = true ->
  let e3 := set_thread T_opened (set_demuxer (Some (S (S fresh)))
              (set_thread T_open (set_cancel (Some (S fresh))
                 (set_thread T_global (set_global (Some fresh) e))))) in
  let r := invoke_callback cb r4 (set_status MPV_PRELOAD_STATUS_READY e3) in
  thread_steps [r1; r2; r3; r4] cb trig fresh e =
  (set_thread (T_loop false) (fst r), snd r, S (S (S fresh))).
Proof.
  intros Ht Ho. cbn zeta.
  rewrite thread_steps_cons, (step_start_ok _ _ _ _ _ Ht).
  cbn zeta. cbn [fst snd].
  rewrite thread_steps_cons, step_global by reflexivity.
  cbn zeta. cbn [fst snd].
  rewrite thread_steps_cons, (step_open_ok _ _ _ r3) by first [reflexivity | exact Ho].
  cbn zeta. cbn [fst snd].
  rewrite thread_steps_cons, step_opened by reflexivity.
  cbn zeta. cbn [fst snd thread_steps app]. rewrite app_nil_r. reflexivity.
Qed.

Lemma thread_steps_open_fails cb trig fresh r1 r2 r3 e :
  thread e = T_start -> open_ok r3 = false ->
  let e2 := set_thread T_open (set_cancel (Some (S fresh))
              (set_thread T_global (set_global (Some fresh) e))) in
  let r := invoke_callback cb r3
             (set_status MPV_PRELOAD_STATUS_ERROR (set_demuxer None e2)) in
  thread_steps [r1; r2; r3] cb trig fresh e =
  (set_thread T_exited (fst r), snd r, S (S fresh)).
Proof.
  intros Ht Ho. cbn zeta.
  rewrite thread_steps_cons, (step_start_ok _ _ _ _ _ Ht).
  cbn zeta. cbn [fst snd].
  rewrite thread_steps_cons, step_global by reflexivity.
  cbn zeta. cbn [fst snd].
  rewrite thread_steps_cons, (step_open_fail _ _ _ r3)
    by first [reflexivity | exact Ho].
  cbn zeta. cbn [fst snd thread_steps app]. rewrite app_nil_r. reflexivity.
Qed.

(** X26. A preload that is started gets READY when the engine opens the
    url: four steps of its worker (context, token, open, ready) after
    [mpv_preload_start] leave the entry READY with a demuxer that
    [mpv_preload_get_demuxer] returns, and the callback, if one is
    registered, has been called once, with READY. If the open fails, the
    entry is in ERROR after three steps, without a demuxer, and the callback
    has been called once, with ERROR. There is no other way to ERROR: the
    first step always creates the context. *)
Theorem X26_start_to_ready env u opts w r1 r2 r3 r4 :
  reachable w ->
  u <> EmptyString ->
  find_index (has_url u) 0 (entries w) = None ->
  thread_create_ok env = true ->
  let w1 := state_of (mpv_preload_start env (Some u) opts w) in
  let told (s : mpv_preload_status) :=
    match g_preload_callback w with
    | Some _ => [status_code s]
    | None => []
    end in
  exists i,
    (let s := run [Worker i r1] w1 in
     snd s = [] /\
     exists e,
       entries (fst s) !! i = Some e /\ url e = Some u /\
       status e = MPV_PRELOAD_STATUS_LOADING /\
       global e = Some (next_handle w1) /\ thread e = T_global) /\
    (open_ok r3 = true ->
     let s := run [Worker i r1; Worker i r2; Worker i r3; Worker i r4] w1 in
     notified (snd s) = told MPV_PRELOAD_STATUS_READY /\
     exists e d,
       entries (fst s) !! i = Some e /\ url e = Some u /\
       status e = MPV_PRELOAD_STATUS_READY /\ demuxer e = Some d /\
       forall env',
         result (mpv_preload_get_demuxer env' (Some u) (fst s)) = Some d) /\
    (open_ok r3 = false ->
     let s := run [Worker i r1; Worker i r2; Worker i r3] w1 in
     notified (snd s) = told MPV_PRELOAD_STATUS_ERROR /\
     exists e,
       entries (fst s) !! i = Some e /\ url e = Some u /\
       status e = MPV_PRELOAD_STATUS_ERROR /\ demuxer e = None).
Proof.
  intros Hr Hne Hf Hok. cbn zeta.
  pose proof (reachable_inv w Hr) as Hinv.
  assert (Hr1 : reachable (state_of (mpv_preload_start env (Some u) opts w)))
    by exact (reachable_step (Call_start env (Some u) opts) w Hr).
  destruct (start_new_slot env opts w u Hinv (String_eqb_nonempty u Hne) Hf)
    as (i & e & e0 & t & He & _ & Hfree & _ & Hent & _ & Hcb & _).
  rewrite Hok in Hent.
  set (w1 := state_of (mpv_preload_start env (Some u) opts w)) in *.
  assert (He1 : entries w1 !! i = Some (started env u opts e0)).
  { rewrite Hent. apply list_lookup_insert_eq, (lookup_lt_Some _ _ _ He). }
  pose proof (lookup_lt_Some _ _ _ He1) as Hlt.
  destruct Hfree as (_ & _ & Hd0 & _).
  exists i. split; [|split].
  - change [Worker i r1] with (map (fun r => Worker i r) [r1]).
    rewrite (run_workers i [r1] w1 _ He1). cbn zeta.
    rewrite thread_steps_cons.
    rewrite (step_start_ok (g_preload_callback w1) (triggered w1)
               (next_handle w1) r1 (started env u opts e0) eq_refl).
    cbn zeta. cbn [fst snd thread_steps app]. split; [reflexivity|].
    eexists. split; [apply list_lookup_insert_eq, Hlt|].
    repeat split.
  - intros Ho.
    change [Worker i r1; Worker i r2; Worker i r3; Worker i r4]
      with (map (fun r => Worker i r) [r1; r2; r3; r4]).
    pose proof (reachable_run_from
                  (map (fun r => Worker i r) [r1; r2; r3; r4]) w1 Hr1) as Hr5.
    revert Hr5. rewrite (run_workers i [r1; r2; r3; r4] w1 _ He1).
    cbn zeta.
    rewrite (thread_steps_ready (g_preload_callback w1) (triggered w1)
               (next_handle w1) r1 r2 r3 r4 (started env u opts e0)
               eq_refl Ho).
    cbn zeta. cbn [fst snd]. rewrite Hcb.
    match goal with
    | |- context [invoke_callback ?cb ?r ?x] =>
        destruct (invoke_callback_frame cb r x) as (Fu & Fs & Fd & Fn);
        cbn zeta in Fu, Fs, Fd, Fn;
        generalize dependent (invoke_callback cb r x)
    end.
    intros [ec tc]. cbn [fst snd]. intros Fu Fs Fd Fn Hr5.
    split; [exact Fn|].
    exists (set_thread (T_loop false) ec), (S (S (next_handle w1))).
    split; [apply list_lookup_insert_eq, Hlt|].
    split; [exact Fu|]. split; [exact Fs|]. split; [exact Fd|].
    intros env'.
    rewrite (claim_ready env' u _ i _ Hr5
               (list_lookup_insert_eq _ _ _ Hlt) Fu (or_introl Fs)).
    exact Fd.
  - intros Ho.
    change [Worker i r1; Worker i r2; Worker i r3]
      with (map (fun r => Worker i r) [r1; r2; r3]).
    rewrite (run_workers i [r1; r2; r3] w1 _ He1). cbn zeta.
    rewrite (thread_steps_open_fails (g_preload_callback w1) (triggered w1)
               (next_handle w1) r1 r2 r3 (started env u opts e0)
               eq_refl Ho).
    cbn zeta. cbn [fst snd]. rewrite Hcb.
    match goal with
    | |- context [invoke_callback ?cb ?r ?x] =>
        destruct (invoke_callback_frame cb r x) as (Fu & Fs & Fd & Fn);
        cbn zeta in Fu, Fs, Fd, Fn;
        generalize dependent (invoke_callback cb r x)
    end.
    intros [ec tc]. cbn [fst snd]. intros Fu Fs Fd Fn.
    split; [exact Fn|].
    exists (set_thread T_exited ec).
    split; [apply list_lookup_insert_eq, Hlt|].
    split; [exact Fu|]. split; [exact Fs|]. exact Fd.
Qed.

Lemma X26_start_to_ready_witness :
  exists i e d,
    entries
      (fst (run [Worker i (sample_reply 0); Worker i (sample_reply 0);
                 Worker i (sample_reply 0); Worker i (sample_reply 0)]
              (state_of (mpv_preload_start (sample_env 1 true)
                           (Some "a"%string) None init_world)))) !! i
    = Some e /\
    status e = MPV_PRELOAD_STATUS_READY /\ demuxer e = Some d.
Proof.
  assert (Hne : "a"%string <> EmptyString) by discriminate.
  assert (Hf : find_index (has_url "a"%string) 0 (entries init_world) = None)
    by (vm_compute; reflexivity).
  assert (Hok : thread_create_ok (sample_env 1 true) = true) by reflexivity.
  pose proof (X26_start_to_ready (sample_env 1 true) "a"%string None
                init_world (sample_reply 0) (sample_reply 0) (sample_reply 0)
                (sample_reply 0) reachable_init Hne Hf Hok) as P.
  cbv zeta in P. destruct P as (i & _ & Hready & _).
  destruct (Hready eq_refl) as (_ & e & d & He & _ & Hs & Hd & _).
  exists i, e, d. auto.
Defined.

(** ** Nobody is stopped by accident *)

Lemma cancel_test_fresh trig c :
  (forall x, In x trig -> (x < c)%nat) -> mp_cancel_test trig (Some c) = false.
Proof.
  intros H. cbn. apply not_true_is_false. intros Hex.
  apply existsb_exists in Hex as (x & Hin & Heq).
  apply Nat.eqb_eq in Heq. subst x. pose proof (H c Hin). lia.
Qed.

Lemma cancel_test_after o trig c :
  o <> Some c -> mp_cancel_test trig (Some c) = false ->
  mp_cancel_test (triggered_after o trig) (Some c) = false.
Proof.
  intros Hne Ht. destruct o as [x|]; cbn in *; [|exact Ht].
  rewrite Ht, orb_false_r. apply Nat.eqb_neq. congruence.
Qed.

Lemma triggered_after_bound o trig n :
  (forall c, o = Some c -> (c < n)%nat) ->
  (forall c, In c trig -> (c < n)%nat) ->
  forall c, In c (triggered_after o trig) -> (c < n)%nat.
Proof.
  intros Ho Ht c. destruct o as [x|]; cbn; [|apply Ht].
  intros [<- | Hin]; [apply Ho; reflexivity|apply Ht, Hin].
Qed.

(** One step of a worker that nobody has stopped. *)
Lemma step_unstopped cb trig fresh r e :
  thread_inv e -> res_inv e ->
  (forall c, In c trig -> (c < fresh)%nat) ->
  unstopped trig e ->
  unstopped trig (fst (fst (preload_thread_step cb trig fresh r e))).
Proof.
  unfold unstopped, thread_inv, res_inv. intros Ht Hri Hb (Hc & Htok & Hex).
  pose proof (cancel_test_fresh trig fresh Hb) as Hfresh.
  revert Ht Hri Hex.
  unfold preload_thread_step, invoke_callback, create_minimal_global.
  cbn [fst snd non_null].
  destruct (thread e) as [| | | | | [|] | [|] |] eqn:Hthread;
    rewrite ?Hc, ?Htok; cbn [negb andb];
    destruct (open_ok r), cb;
    repeat match goal with
    | |- context [if ?c then _ else _] => destruct c eqn:?
    end; cbn; rewrite ?Hthread; intros Ht Hri Hex;
    repeat split; try assumption; try reflexivity; try discriminate;
    try (intros; discriminate); try tauto.
Qed.

(** The state in the course of [mpv_preload_clear_all]. *)
Lemma signal_slot_bound k w :
  good w /\ triggered_bound w ->
  good (state_of (signal_slot k w)) /\
  triggered_bound (state_of (signal_slot k w)).
Proof.
  intros (Hg & Hb).
  destruct (signal_slot_disciplined k w) as (_ & Hg' & _).
  split; [exact (Hg' Hg)|].
  destruct (entries w !! k) as [e|] eqn:He.
  - rewrite (signal_slot_eq _ _ _ He), state_of_eq.
    destruct (non_null (url e)); [|exact Hb].
    unfold triggered_bound. cbn [triggered next_handle].
    apply triggered_after_bound; [|exact Hb].
    intros c Hc. apply (proj1 (proj1 Hg) k e c He). right. right. exact Hc.
  - rewrite (signal_slot_none _ _ He). exact Hb.
Qed.

Lemma join_slot_bound env k w :
  good w /\ triggered_bound w ->
  good (state_of (join_slot env k w)) /\
  triggered_bound (state_of (join_slot env k w)).
Proof.
  intros (Hg & Hb).
  destruct (join_slot_disciplined env k w) as (Hn & Hg' & _).
  split; [exact (Hg' Hg)|].
  intros c Hin. revert Hn Hin.
  destruct (entries w !! k) as [e|] eqn:He.
  - rewrite (join_slot_eq _ _ _ _ He).
    destruct (thread_running e); rewrite state_of_eq;
      cbn [triggered next_handle]; intros Hn Hin;
      pose proof (Hb c Hin); lia.
  - rewrite (join_slot_none _ _ _ He), state_of_eq. intros _ Hin.
    exact (Hb c Hin).
Qed.

Lemma cleanup_entry_bound env k w :
  good w /\ triggered_bound w ->
  good (state_of (cleanup_entry env k w)) /\
  triggered_bound (state_of (cleanup_entry env k w)).
Proof.
  intros (Hg & Hb).
  destruct (cleanup_entry_disciplined env k w) as (Hn & Hg' & _).
  split; [exact (Hg' Hg)|].
  revert Hn. destruct (entries w !! k) as [e|] eqn:He.
  2:{ rewrite cleanup_entry_free by (rewrite He; reflexivity).
      intros _. exact Hb. }
  destruct (url e) eqn:Hu.
  2:{ rewrite cleanup_entry_free by (rewrite He; exact Hu).
      intros _. exact Hb. }
  rewrite (cleanup_entry_occupied _ _ _ _ He) by congruence.
  rewrite state_of_eq. cbn [next_handle]. intros Hn.
  unfold triggered_bound. cbn [triggered next_handle].
  apply triggered_after_bound.
  - intros c Hc.
    pose proof (proj1 (proj1 Hg) k e c He (or_intror (or_intror Hc))). lia.
  - intros c Hin. pose proof (Hb c Hin). lia.
Qed.

Lemma clear_all_bound env w :
  good w -> triggered_bound w ->
  triggered_bound (state_of (mpv_preload_clear_all env w)).
Proof.
  intros Hg Hb.
  destruct (clear_all_inv env (fun w0 => good w0 /\ triggered_bound w0)
              (fun _ => True) w) as ((_ & H) & _); try exact I.
  - intros k w0 H0. split; [apply signal_slot_bound, H0|].
    apply List.Forall_forall. intros; exact I.
  - intros k w0 H0. split; [apply join_slot_bound, H0|].
    apply List.Forall_forall. intros; exact I.
  - intros k w0 H0. split; [apply cleanup_entry_bound, H0|].
    apply List.Forall_forall. intros; exact I.
  - split; assumption.
  - exact H.
Qed.

Lemma cancel_test_In trig c :
  mp_cancel_test trig (Some c) = false <-> ~ In c trig.
Proof.
  cbn. split.
  - intros H Hin. assert (existsb (Nat.eqb c) trig = true); [|congruence].
    apply existsb_exists. exists c. split; [exact Hin|apply Nat.eqb_refl].
  - intros H. apply not_true_is_false. intros Hex.
    apply existsb_exists in Hex as (x & Hin & Heq).
    apply Nat.eqb_eq in Heq. subst x. exact (H Hin).
Qed.

Lemma live_same w w' :
  entries w' = entries w -> triggered w' = triggered w ->
  (next_handle w <= next_handle w')%nat ->
  live w -> live w'.
Proof.
  intros He Ht Hn (Hl & Hb). split.
  - intros k e Hk Hu. rewrite He in Hk. rewrite Ht. exact (Hl k e Hk Hu).
  - intros c Hin. rewrite Ht in Hin. pose proof (Hb c Hin). lia.
Qed.

(** Rewriting one slot, and triggering tokens of its old entry or tokens
    allocated meanwhile, stops nobody else. *)
Lemma live_insert w w' i e x :
  handles_inv w -> live w ->
  entries w !! i = Some e ->
  entries w' = <[i := x]> (entries w) ->
  (next_handle w <= next_handle w')%nat ->
  (forall c, In c (triggered w') ->
     In c (triggered w) \/ mentions c e \/
     (next_handle w <= c < next_handle w')%nat) ->
  (url x <> None -> unstopped (triggered w') x) ->
  live w'.
Proof.
  intros (HB & HU) (Hl & Hb) He Hent Hn Htrig Hx.
  pose proof (lookup_lt_Some _ _ _ He) as Hlt. split.
  - intros k y Hy Hu. rewrite Hent in Hy.
    destruct (decide (k = i)) as [->|Hne].
    + rewrite list_lookup_insert_eq in Hy by exact Hlt. injection Hy as <-.
      exact (Hx Hu).
    + rewrite list_lookup_insert_ne in Hy by congruence.
      destruct (Hl k y Hy Hu) as (Hc & Htok & Hex).
      split; [exact Hc|]. split; [|exact Hex].
      destruct (cancel y) as [c|] eqn:Ec; [|reflexivity].
      apply cancel_test_In. intros Hin.
      destruct (Htrig c Hin) as [H0 | [H1 | H2]].
      * apply cancel_test_In in Htok. exact (Htok H0).
      * apply Hne.
        exact (HU k i y e c Hy He (or_intror (or_intror Ec)) H1).
      * pose proof (HB k y c Hy (or_intror (or_intror Ec))). lia.
  - intros c Hin. destruct (Htrig c Hin) as [H0 | [H1 | H2]].
    + pose proof (Hb c H0). lia.
    + pose proof (HB i e c He H1). lia.
    + lia.
Qed.

Lemma unstopped_started trig env u opts e :
  free_inv e -> unstopped trig (started env u opts e).
Proof.
  intros (_ & _ & _ & _ & Hc & _). unfold unstopped. cbn.
  rewrite Hc. repeat split. discriminate.
Qed.

Lemma start_live env u opts w :
  reachable w -> live w ->
  live (state_of (mpv_preload_start env u opts w)).
Proof.
  intros Hr Hl. pose proof (reachable_inv w Hr) as Hinv.
  pose proof (reachable_good w Hr) as Hg.
  destruct u as [u|]; [|exact Hl].
  destruct (String.eqb u "") eqn:Hu.
  { apply String_eqb_empty in Hu. subst u.
    rewrite (start_rejected env opts w (Some EmptyString))
      by (right; reflexivity).
    exact Hl. }
  assert (Hli : live (initialized_world w)).
  { apply (live_same w); [apply initialized_world_entries| |
      rewrite initialized_world_next_handle; lia|exact Hl].
    unfold initialized_world. destruct (initialized w); reflexivity. }
  assert (Hgi : good (initialized_world w)).
  { destruct (disciplined_same w [] (initialized_world w)) as (_ & G & _);
      [apply initialized_world_entries
      |rewrite initialized_world_next_handle; lia|constructor|].
    exact (G Hg). }
  destruct (find_index (has_url u) 0 (entries w)) as [i|] eqn:Hf.
  { rewrite (start_existing env opts w u i Hf Hu), state_of_eq. exact Hli. }
  assert (Hslot : exists i w2 t e0,
    find_free_slot_locked env (initialized_world w) = (Some i, w2, t) /\
    entries w2 !! i = Some e0 /\ free_inv e0 /\ good w2 /\ live w2).
  { destruct (find_index (fun e => negb (non_null (url e))) 0 (entries w))
      as [i|] eqn:Hfree.
    - destruct (find_free_Some _ _ Hfree) as (e & He & Hue).
      exists i, (initialized_world w), [], e.
      split; [|split; [|split; [|split]]]; try assumption.
      + apply find_free_slot_free. rewrite initialized_world_entries.
        exact Hfree.
      + rewrite initialized_world_entries. exact He.
      + exact (entry_inv_free e (world_inv_lookup _ _ _ Hinv He) Hue).
    - destruct (oldest_loop_is_Some w Hinv) as (v & e & Hv & He & _).
      pose proof (find_free_None _ Hfree v e He) as Hue.
      assert (Hc : entries (initialized_world w) !! v = Some e)
        by (rewrite initialized_world_entries; exact He).
      exists v, (state_of (cleanup_entry env v (initialized_world w))),
        (trace_of (cleanup_entry env v (initialized_world w))), zero_entry.
      destruct (cleanup_entry_disciplined env v (initialized_world w))
        as (Hn & G & _).
      split; [|split; [|split; [|split]]].
      + apply find_free_slot_evict; rewrite initialized_world_entries;
          assumption.
      + rewrite (cleanup_entry_occupied _ _ _ _ Hc Hue), state_of_eq.
        cbn. apply list_lookup_insert_eq.
        rewrite initialized_world_entries. exact (lookup_lt_Some _ _ _ He).
      + exact free_inv_zero.
      + exact (G Hgi).
      + revert Hn. rewrite (cleanup_entry_occupied _ _ _ _ Hc Hue).
        rewrite state_of_eq. cbn [next_handle]. intros Hn.
        apply (live_insert (initialized_world w) _ v e zero_entry);
          [exact (proj1 Hgi)|exact Hli|exact Hc|reflexivity|exact Hn| |].
        * cbn [triggered next_handle]. intros c Hin.
          destruct (cancel e) as [x|] eqn:Ec; cbn in Hin; [|left; exact Hin].
          destruct Hin as [<- | Hin]; [|left; exact Hin].
          right. left. right. right. exact Ec.
        * intros Hz. exfalso. apply Hz. reflexivity. }
  destruct Hslot as (i & w2 & t & e0 & Hs & He0 & Hfr & Hg2 & Hl2).
  rewrite (start_new env opts w u i w2 t e0 Hu Hf Hs He0), state_of_eq.
  apply (live_insert w2 _ i e0
           (if thread_create_ok env then started env u opts e0
            else rolled_back env u opts e0));
    [exact (proj1 Hg2)|exact Hl2|exact He0|reflexivity|cbn; lia| |].
  - cbn [triggered with_entries]. intros c Hin. left. exact Hin.
  - destruct (thread_create_ok env).
    + intros _. apply unstopped_started, Hfr.
    + intros Hz. exfalso. apply Hz. reflexivity.
Qed.

Lemma exec_live a w : reachable w -> live w -> live (fst (exec a w)).
Proof.
  intros Hr Hl. pose proof (reachable_inv w Hr) as Hinv.
  pose proof (reachable_good w Hr) as Hg.
  destruct a as [cb|env u opts|env u info|env u|env u|env|i r];
    cbn [exec fst].
  - apply (live_same w); [reflexivity|reflexivity|cbn; lia|exact Hl].
  - apply start_live; assumption.
  - rewrite get_info_state. exact Hl.
  - destruct (get_demuxer_cases env u w Hinv)
      as [-> | [-> | (s & i & e & -> & _ & _ & He & _ & _ & _ & _ & Heq)]];
      try exact Hl.
    cbn zeta in Heq. rewrite Heq, state_of_eq. unfold joined.
    pose proof (thread_run_mentions join_fuel (g_preload_callback w)
                  (triggered w) (engine env i) (next_handle w)
                  (set_cancel_requested true e)) as Hm.
    cbn zeta in Hm. revert Hm.
    generalize (thread_run join_fuel (g_preload_callback w) (triggered w)
                  (next_handle w) (engine env i)
                  (set_cancel_requested true e)).
    intros [[ej tj] nj]. cbn [fst snd]. intros (Hn & _).
    apply (live_insert w _ i e (claimed ej));
      [exact (proj1 Hg)|exact Hl|exact He|reflexivity|exact Hn| |].
    + cbn [triggered]. intros c Hin. left. exact Hin.
    + intros Hz. exfalso. apply Hz. reflexivity.
  - destruct u as [s|]; [|exact Hl].
    destruct (initialized w) eqn:Hi.
    2:{ rewrite (cancel_uninitialized env (Some s) w Hi). exact Hl. }
    destruct (find_index (has_url s) 0 (entries w)) as [i|] eqn:Hf.
    2:{ rewrite (cancel_absent env s w Hi Hf). exact Hl. }
    destruct (find_entry_Some _ _ _ Hf) as (e & He & Hu).
    assert (Hue : url e <> None) by congruence.
    destruct (entry_inv_occupied e (world_inv_lookup _ _ _ Hinv He) Hue)
      as (Hrun & _).
    rewrite (cancel_found env s w i e Hi Hf He Hue Hrun), state_of_eq.
    pose proof (thread_run_mentions join_fuel (g_preload_callback w)
                  (triggered_after (cancel e) (triggered w)) (engine env i)
                  (next_handle w) (set_cancel_requested true e)) as Hm.
    cbn zeta in Hm. revert Hm.
    generalize (thread_run join_fuel (g_preload_callback w)
                  (triggered_after (cancel e) (triggered w)) (next_handle w)
                  (engine env i) (set_cancel_requested true e)).
    intros [[ej tj] nj]. cbn [fst snd]. intros (Hn & Hm).
    apply (live_insert w _ i e zero_entry);
      [exact (proj1 Hg)|exact Hl|exact He|reflexivity|exact Hn| |].
    + cbn [triggered next_handle]. intros c Hin.
      assert (Hstep : forall o trig0,
        In c (triggered_after o trig0) -> o = Some c \/ In c trig0).
      { intros [x|] trig0; cbn; [|auto]. intros [<- | H]; auto. }
      destruct (Hstep _ _ Hin) as [Hj | Hin1].
      * destruct (Hm c (or_intror (or_intror Hj))) as [H0 | H1];
          [right; left; exact H0|right; right; exact H1].
      * destruct (Hstep _ _ Hin1) as [He0 | Hin0];
          [right; left; right; right; exact He0|left; exact Hin0].
    + intros Hz. exfalso. apply Hz. reflexivity.
  - split.
    + intros k e He Hu. exfalso. apply Hu.
      destruct (initialized w) eqn:Hi.
      * destruct (clear_all_entries env w Hinv Hi) as (Hent & Hlen & _).
        destruct (lookup_lt_is_Some_2 (entries w) k) as (e0 & He0).
        { rewrite <- Hlen. exact (lookup_lt_Some _ _ _ He). }
        rewrite (Hent k e0 He0) in He. injection He as <-.
        destruct (url e0) eqn:Hu0; cbn; [reflexivity|exact Hu0].
      * rewrite (clear_all_uninitialized env w Hi) in He.
        exact (Forall_lookup_1 _ _ _ _ (inv_init _ Hinv Hi) He).
    + apply clear_all_bound; [exact Hg|exact (proj2 Hl)].
  - destruct (entries w !! i) as [e|] eqn:He.
    + rewrite (worker_step_eq r i w e He), state_of_eq.
      destruct (step_mentions (g_preload_callback w) (triggered w)
                  (next_handle w) r e) as (Hn & _). cbn zeta in Hn.
      apply (live_insert w _ i e
               (fst (fst (preload_thread_step (g_preload_callback w)
                            (triggered w) (next_handle w) r e))));
        [exact (proj1 Hg)|exact Hl|exact He|reflexivity|exact Hn| |].
      * cbn [triggered]. intros c Hin. left. exact Hin.
      * rewrite step_url. intros Hu. cbn [triggered].
        destruct (entry_inv_occupied e (world_inv_lookup _ _ _ Hinv He) Hu)
          as (_ & Ht).
        apply step_unstopped;
          [exact Ht|exact (reachable_res_inv w i e Hr He)
          |exact (proj2 Hl)|exact (proj1 Hl i e He Hu)].
    + rewrite (worker_step_none r i w He). exact Hl.
Qed.

Lemma reachable_live w : reachable w -> live w.
Proof.
  induction 1 as [|a w Hr IH].
  - split.
    + intros k e He Hu. exfalso. apply Hu.
      apply lookup_replicate in He as (-> & _). reflexivity.
    + intros c [].
  - exact (exec_live a w Hr IH).
Qed.

Lemma thread_inv_polling e :
  thread_inv e ->
  (thread e = T_exited -> status e = MPV_PRELOAD_STATUS_ERROR) ->
  (status e = MPV_PRELOAD_STATUS_READY ->
   thread e = T_loop false \/ thread e = T_body false) /\
  (status e = MPV_PRELOAD_STATUS_CACHED ->
   thread e = T_loop true \/ thread e = T_body true).
Proof.
  unfold thread_inv.
  destruct (thread e) as [| | | | | [|] | [|] |]; intros H Hex;
    try specialize (Hex eq_refl);
    repeat match goal with
    | H : _ /\ _ |- _ => destruct H
    end; split; intros Hs; auto; try congruence; try tauto.
Qed.

(** X27. Nobody is stopped by accident. Between two calls, every preload
    in the table is running undisturbed: its stop flag is clear (also in a
    slot reused after a claim, which leaves the flag set), its token is
    not triggered, and its worker has returned only if the entry is in
    ERROR. So a READY entry's worker is in its loop before the target
    notification and a CACHED entry's after it; at the head of the loop it
    finds the condition true and enters the body; from the body it goes
    back to the head, and the body in which the engine reports the target
    reached or the end of the file makes a READY entry CACHED and
    notifies. *)
Theorem X27_nobody_stopped w k e :
  reachable w ->
  entries w !! k = Some e -> url e <> None ->
  unstopped (triggered w) e /\
  (status e = MPV_PRELOAD_STATUS_READY ->
   thread e = T_loop false \/ thread e = T_body false) /\
  (status e = MPV_PRELOAD_STATUS_CACHED ->
   thread e = T_loop true \/ thread e = T_body true) /\
  (forall r b,
     thread e = T_loop b ->
     preload_thread_step (g_preload_callback w) (triggered w)
       (next_handle w) r e
     = (set_thread (T_body b) e, [], next_handle w)) /\
  (forall r b,
     thread e = T_body b ->
     let s := preload_thread_step (g_preload_callback w) (triggered w)
                (next_handle w) r e in
     (exists b', thread (fst (fst s)) = T_loop b') /\
     (status e = MPV_PRELOAD_STATUS_READY ->
      (max_bytes e <=? rs_fw_bytes (reader r)) || rs_eof_cached (reader r)
      = true ->
      status (fst (fst s)) = MPV_PRELOAD_STATUS_CACHED /\
      notified (snd (exec (Worker k r) w)) =
        match g_preload_callback w with
        | Some _ => [status_code MPV_PRELOAD_STATUS_CACHED]
        | None => []
        end)).
Proof.
  intros Hr He Hu. pose proof (reachable_inv w Hr) as Hinv.
  destruct (entry_inv_occupied e (world_inv_lookup _ _ _ Hinv He) Hu)
    as (_ & Ht).
  destruct (reachable_live w Hr) as (Hl & Hb).
  pose proof (Hl k e He Hu) as Hun.
  destruct (thread_inv_polling e Ht (proj2 (proj2 Hun))) as (Hready & Hcached).
  split; [exact Hun|]. split; [exact Hready|]. split; [exact Hcached|].
  destruct Hun as (Hc & Htok & Hex).
  split.
  - intros r b Hloop.
    destruct (step_loop (g_preload_callback w) (triggered w) (next_handle w)
                r e b Hloop) as (_ & S2).
    cbn zeta in S2. apply S2. rewrite Hc, Htok. reflexivity.
  - intros r b Hbody. cbn zeta.
    destruct (step_body (g_preload_callback w) (triggered w) (next_handle w)
                r e b Hbody) as (S2 & S3 & S4).
    cbn zeta in S2, S3, S4.
    assert (Hd : demuxer e <> None).
    { unfold thread_inv in Ht. rewrite Hbody in Ht. tauto. }
    split.
    + destruct b.
      * rewrite (S2 eq_refl). cbn. eauto.
      * destruct ((max_bytes e <=? rs_fw_bytes (reader r))
                  || rs_eof_cached (reader r)) eqn:Hreach.
        -- destruct (S4 eq_refl Hd eq_refl) as (_ & Hth & _). eauto.
        -- rewrite (S3 eq_refl Hd eq_refl). cbn. eauto.
    + intros Hs Hreach.
      assert (b = false) as ->.
      { destruct (Hready Hs) as [H0 | H0]; congruence. }
      destruct (S4 eq_refl Hd Hreach) as (Hst & _ & Hnot).
      split; [exact Hst|].
      cbn [exec snd]. rewrite (worker_step_eq r k w e He), trace_of_eq.
      exact Hnot.
Qed.

Lemma X27_nobody_stopped_witness :
  unstopped (triggered w_ready)
    (default zero_entry (entries w_ready !! 0%nat)).
Proof.
  assert (He : entries w_ready !! 0%nat
               = Some (default zero_entry (entries w_ready !! 0%nat)))
    by (vm_compute; reflexivity).
  assert (Hu : url (default zero_entry (entries w_ready !! 0%nat)) <> None)
    by (vm_compute; discriminate).
  exact (proj1 (X27_nobody_stopped w_ready 0%nat _ reachable_ready He Hu)).
Defined.

(** * One worker per url *)

Lemma callbacks_no_spawn tr :
  forallb is_callback tr = true -> List.filter is_spawn tr = [].
Proof.
  induction tr as [|ev tr IH]; [reflexivity|]. cbn.
  destruct ev; cbn; try discriminate. exact IH.
Qed.

Lemma free_events_no_spawn e : List.filter is_spawn (free_events e) = [].
Proof.
  unfold free_events. destruct (demuxer e), (cancel e), (global e);
    reflexivity.
Qed.

(** [cleanup_entry] creates no thread. *)
Lemma cleanup_entry_no_spawn env i w :
  List.filter is_spawn (trace_of (cleanup_entry env i w)) = [].
Proof.
  destruct (entries w !! i) as [e|] eqn:He.
  - destruct (url e) as [u|] eqn:Hu.
    + rewrite (cleanup_entry_occupied env i w e He) by congruence.
      rewrite trace_of_eq.
      pose proof (thread_run_events join_fuel (g_preload_callback w)
                    (triggered_after (cancel e) (triggered w))
                    (next_handle w) (engine env i)
                    (set_cancel_requested true e)) as Hcb.
      revert Hcb.
      generalize (thread_run join_fuel (g_preload_callback w)
                    (triggered_after (cancel e) (triggered w))
                    (next_handle w) (engine env i)
                    (set_cancel_requested true e)).
      intros [[ej tj] nj]. cbn [fst snd]. intros Hcb.
      cbn [List.filter is_spawn]. rewrite !List.filter_app.
      assert (Ht : List.filter is_spawn (trigger_events (cancel e)) = [])
        by (destruct (cancel e); reflexivity).
      rewrite Ht. destruct (thread_running e); cbn [fst snd].
      * cbn [List.filter is_spawn].
        rewrite (callbacks_no_spawn _ Hcb), free_events_no_spawn.
        reflexivity.
      * rewrite free_events_no_spawn. reflexivity.
    + rewrite cleanup_entry_free by (rewrite He; exact Hu). reflexivity.
  - rewrite cleanup_entry_free by (rewrite He; reflexivity). reflexivity.
Qed.

(** C7. In every reachable state at most one slot has a given url. A
    start for a url that already has a slot returns 0 and changes nothing
    (no thread is created, the entry keeps its parameters). A successful
    start of a new url puts the url into exactly one slot, as a LOADING
    entry with a running worker at its start, and creates exactly one
    thread, the worker of that slot; a second start right after it is the
    no-op above, so one worker exists for the url. *)
Theorem C7_unique_and_idempotent_start w :
  reachable w ->
  unique_urls (entries w) /\
  (forall env u opts i e,
     u <> EmptyString ->
     entries w !! i = Some e -> url e = Some u ->
     mpv_preload_start env (Some u) opts w = (0, w, [EvLock; EvUnlock])) /\
  (forall env1 env2 u opts1 opts2,
     u <> EmptyString ->
     find_index (has_url u) 0 (entries w) = None ->
     thread_create_ok env1 = true ->
     let r1 := mpv_preload_start env1 (Some u) opts1 w in
     result r1 = 0 /\
     (exists i e1,
        entries (state_of r1) !! i = Some e1 /\
        url e1 = Some u /\
        status e1 = MPV_PRELOAD_STATUS_LOADING /\
        thread e1 = T_start /\ thread_running e1 = true /\
        cancel_requested e1 = false /\
        List.filter is_spawn (trace_of r1) = [EvSpawn i] /\
        (forall j ej, entries (state_of r1) !! j = Some ej ->
                      url ej = Some u -> j = i) /\
        (forall j ej, j <> i -> entries (state_of r1) !! j = Some ej ->
                      entries w !! j = Some ej)) /\
     mpv_preload_start env2 (Some u) opts2 (state_of r1) =
     (0, state_of r1, [EvLock; EvUnlock])).
Proof.
  intros Hr. pose proof (reachable_inv w Hr) as Hinv.
  assert (Hidem : forall w, world_inv w -> forall env u opts i e,
     u <> EmptyString ->
     entries w !! i = Some e -> url e = Some u ->
     mpv_preload_start env (Some u) opts w = (0, w, [EvLock; EvUnlock])).
  { clear. intros w Hinv env u opts i e Hne He Hu.
    rewrite (start_existing env opts w u i).
    - rewrite initialized_world_id; [reflexivity|].
      apply (reachable_occupied_initialized w i e Hinv He). congruence.
    - apply find_entry_unique with e; [apply Hinv|exact He|exact Hu].
    - apply String_eqb_nonempty, Hne. }
  split; [apply Hinv|]. split; [apply Hidem, Hinv|].
  intros env1 env2 u opts1 opts2 Hne Hf Hok. cbn zeta.
  pose proof (world_inv_start env1 (Some u) opts1 w Hinv) as Hinv1.
  destruct (start_new_slot env1 opts1 w u Hinv (String_eqb_nonempty u Hne) Hf)
    as (i & e & e0 & t & He & Hcase & _ & Hres & Hent & _ & _ & Htr).
  rewrite Hok in Hres, Hent, Htr.
  pose proof (lookup_lt_Some _ _ _ He) as Hlt.
  assert (He1 : entries (state_of (mpv_preload_start env1 (Some u) opts1 w))
                  !! i = Some (started env1 u opts1 e0)).
  { rewrite Hent. apply list_lookup_insert_eq, Hlt. }
  split; [exact Hres|]. split.
  - exists i, (started env1 u opts1 e0).
    split; [exact He1|]. do 5 (split; [reflexivity|]).
    split; [|split].
    + rewrite Htr. cbn [List.filter is_spawn]. rewrite !List.filter_app.
      assert (Ht : List.filter is_spawn t = []).
      { destruct Hcase as [(_ & _ & -> & _) | (_ & _ & _ & _ & ->)];
          [reflexivity|apply cleanup_entry_no_spawn]. }
      rewrite Ht. reflexivity.
    + intros j ej Hj Hu.
      exact (inv_unique _ Hinv1 j i ej _ u Hj He1 Hu eq_refl).
    + intros j ej Hji Hj. rewrite Hent in Hj.
      rewrite list_lookup_insert_ne in Hj by congruence. exact Hj.
  - exact (Hidem _ Hinv1 env2 u opts2 i (started env1 u opts1 e0) Hne He1
             eq_refl).
Qed.

Lemma C7_unique_and_idempotent_start_witness :
  (exists i e1,
     entries (state_of (mpv_preload_start (sample_env 1 true)
                          (Some "a"%string) None init_world)) !! i = Some e1 /\
     url e1 = Some "a"%string /\ thread_running e1 = true /\
     List.filter is_spawn
       (trace_of (mpv_preload_start (sample_env 1 true) (Some "a"%string)
                    None init_world)) = [EvSpawn i]) /\
  mpv_preload_start (sample_env 9 true) (Some "a"%string) None w_ready
  = (0, w_ready, [EvLock; EvUnlock]).
Proof.
  destruct (C7_unique_and_idempotent_start w_ready reachable_ready)
    as (_ & P & _).
  destruct (C7_unique_and_idempotent_start init_world reachable_init)
    as (_ & _ & Q).
  assert (He : entries w_ready !! 0%nat
               = Some (default zero_entry (entries w_ready !! 0%nat)))
    by (vm_compute; reflexivity).
  assert (Hu : url (default zero_entry (entries w_ready !! 0%nat))
               = Some "a"%string) by (vm_compute; reflexivity).
  assert (Hne : "a"%string <> EmptyString) by discriminate.
  assert (Hf : find_index (has_url "a"%string) 0 (entries init_world) = None)
    by (vm_compute; reflexivity).
  split.
  - destruct (Q (sample_env 1 true) (sample_env 1 true) "a"%string None None
                Hne Hf eq_refl)
      as (_ & (i & e1 & H1 & H2 & _ & _ & H5 & _ & H7 & _) & _).
    exists i, e1. auto.
  - exact (P (sample_env 9 true) "a"%string None 0%nat _ Hne He Hu).
Defined.

(** * Capacity and eviction *)



(** * Soft stop and hard cancel *)

Lemma triggered_after_keeps o trig c :
  In c trig -> In c (triggered_after o trig).
Proof. destruct o; cbn; auto. Qed.

Lemma triggered_after_adds c trig : In c (triggered_after (Some c) trig).
Proof. left. reflexivity. Qed.

(** A triggered token stays triggered through the loops of
    [mpv_preload_clear_all]. *)
Lemma signal_slot_triggered k w c :
  In c (triggered w) -> In c (triggered (state_of (signal_slot k w))).
Proof.
  intros Hin. destruct (entries w !! k) as [e|] eqn:He.
  - rewrite (signal_slot_eq _ _ _ He), state_of_eq.
    destruct (non_null (url e)); [|exact Hin].
    cbn [triggered]. apply triggered_after_keeps, Hin.
  - rewrite (signal_slot_none _ _ He). exact Hin.
Qed.

Lemma join_slot_triggered env k w :
  triggered (state_of (join_slot env k w)) = triggered w.
Proof.
  destruct (entries w !! k) as [e|] eqn:He.
  - rewrite (join_slot_eq _ _ _ _ He).
    destruct (thread_running e); reflexivity.
  - rewrite (join_slot_none _ _ _ He). reflexivity.
Qed.

Lemma cleanup_entry_triggered env k w c :
  In c (triggered w) -> In c (triggered (state_of (cleanup_entry env k w))).
Proof.
  intros Hin. destruct (entries w !! k) as [e|] eqn:He.
  - destruct (url e) as [u|] eqn:Hu.
    + rewrite (cleanup_entry_occupied env k w e He) by congruence.
      rewrite state_of_eq. cbn [triggered].
      apply triggered_after_keeps, Hin.
    + rewrite cleanup_entry_free by (rewrite He; exact Hu). exact Hin.
  - rewrite cleanup_entry_free by (rewrite He; reflexivity). exact Hin.
Qed.

Lemma for_each_slot_triggered body c :
  (forall k w, In c (triggered w) -> In c (triggered (state_of (body k w)))) ->
  forall n i w,
    In c (triggered w) ->
    In c (triggered (state_of (for_each_slot n i body w))).
Proof.
  intros Hb n i w Hin.
  destruct (for_each_slot_inv body (fun w => In c (triggered w))
              (fun _ => True)) with (n := n) (i := i) (w := w) as (H & _);
    [|exact Hin|exact H].
  intros k w0 H0. split; [apply Hb, H0|].
  apply List.Forall_forall. intros; exact I.
Qed.

(** The first loop of [mpv_preload_clear_all] triggers the token of every
    occupied entry that has one. *)
Lemma signal_loop_triggers c :
  forall n i w k e,
    (i <= k < i + n)%nat ->
    entries w !! k = Some e -> url e <> None -> cancel e = Some c ->
    In c (triggered (state_of (for_each_slot n i signal_slot w))).
Proof.
  induction n as [|n IH]; intros i w k e Hk He Hu Hc; [lia|].
  rewrite for_each_slot_S, state_of_eq.
  destruct (decide (k = i)) as [->|Hne].
  - apply for_each_slot_triggered;
      [intros ? ?; apply signal_slot_triggered|].
    rewrite (signal_slot_eq _ _ _ He), state_of_eq.
    destruct (url e); [|congruence]. cbn [non_null triggered].
    rewrite Hc. apply triggered_after_adds.
  - apply (IH (S i) _ k e); [lia| |exact Hu|exact Hc].
    destruct (signal_slot_local i w) as (Hother & _).
    rewrite Hother by congruence. exact He.
Qed.

Lemma clear_all_triggers env w i e c :
  world_inv w ->
  entries w !! i = Some e -> url e <> None -> cancel e = Some c ->
  In c (triggered (state_of (mpv_preload_clear_all env w))).
Proof.
  intros Hinv He Hu Hc.
  pose proof (reachable_occupied_initialized w i e Hinv He Hu) as Hi.
  rewrite (clear_all_eq env w Hi), state_of_eq.
  apply for_each_slot_triggered;
    [intros ? ?; apply cleanup_entry_triggered|].
  apply for_each_slot_triggered.
  { intros k w0 H0. rewrite join_slot_triggered. exact H0. }
  apply (signal_loop_triggers c _ _ w i e); try assumption.
  pose proof (lookup_lt_Some _ _ _ He) as Hlt.
  rewrite (inv_length w Hinv) in Hlt. lia.
Qed.

(** In [mpv_preload_clear_all] the flag of an occupied entry is set, and
    its token (if it has one) triggered, before its worker is joined. *)
Lemma clear_all_hard_cancel env w i e :
  world_inv w ->
  entries w !! i = Some e -> url e <> None ->
  before_join (EvStopFlag i :: trigger_events (cancel e)) i
    (trace_of (mpv_preload_clear_all env w)).
Proof.
  intros Hinv He Hu.
  pose proof (reachable_occupied_initialized w i e Hinv He Hu) as Hi.
  rewrite (clear_all_eq env w Hi), trace_of_eq.
  set (n := MPV_PRELOAD_MAX_ENTRIES).
  assert (Hk : (0 <= i < 0 + n)%nat).
  { pose proof (lookup_lt_Some _ _ _ He) as Hlt.
    rewrite (inv_length w Hinv) in Hlt. unfold n. lia. }
  destruct (for_each_slot_trace signal_slot
    (fun k e t => t = if non_null (url e)
                      then EvStopFlag k :: trigger_events (cancel e) else [])
    signal_slot_local) with (n := n) (i := 0%nat) (w := w) (k := i) (e := e)
    as (pre1 & t1 & post1 & HT1 & Ht1); try assumption.
  { intros k w0 e0 H0. rewrite (signal_slot_eq _ _ _ H0). reflexivity. }
  destruct (for_each_slot_spec signal_slot _ signal_slot_local
              signal_slot_spec n 0 w i e Hk He) as (e1 & He1 & R1).
  destruct (for_each_slot_trace (join_slot env)
    (fun k e t => thread_running e = true -> exists rest, t = EvJoin k :: rest)
    (join_slot_local env)) with (n := n) (i := 0%nat)
    (w := state_of (for_each_slot n 0 signal_slot w)) (k := i) (e := e1)
    as (pre2 & t2 & post2 & HT2 & Ht2); try assumption.
  { intros k w0 e0 H0 Hrun. rewrite (join_slot_eq _ _ _ _ H0), Hrun.
    rewrite trace_of_eq. eauto. }
  destruct (entry_inv_occupied e (world_inv_lookup _ _ _ Hinv He) Hu)
    as (Hrun & _).
  destruct (url e) eqn:Hue; [|congruence]. cbn in R1, Ht1. subst e1 t1.
  destruct (Ht2 Hrun) as (rest & ->).
  rewrite HT1, HT2.
  exists ([EvLock] ++ (pre1 ++ (EvStopFlag i :: trigger_events (cancel e))
                         ++ post1) ++ [EvUnlock] ++ pre2).
  eexists. split.
  - rewrite <- !app_assoc. cbn [app]. rewrite <- ?app_assoc. reflexivity.
  - intros ev Hev. rewrite !in_app_iff. right. left. right. left. exact Hev.
Qed.

(** C2. [mpv_preload_get_demuxer] stops the worker by the flag alone: it
    triggers no cancel token and leaves the tokens' state unchanged; when
    the entry can be claimed, it sets [cancel_requested], joins the worker,
    which runs to its end with the tokens as they were, and hands the
    demuxer over together with the entry's context and its token, which is
    still untriggered. [mpv_preload_cancel], [mpv_preload_clear_all] and
    the eviction in [mpv_preload_start] set the flag and, guarded by
    [if (entry->cancel)], trigger the entry's token before joining: the
    token is triggered when the worker has already created it, so that the
    joined worker runs with its token triggered, and nothing is triggered
    before the join when it has not. *)
Theorem C2_soft_stop_vs_hard_cancel env w u i e :
  reachable w ->
  entries w !! i = Some e -> url e = Some u ->
  let claim := mpv_preload_get_demuxer env (Some u) w in
  let stop := mpv_preload_cancel env (Some u) w in
  let clear := mpv_preload_clear_all env w in
  let soft := joined env w i e in
  let hard := thread_run join_fuel (g_preload_callback w)
                (triggered_after (cancel e) (triggered w)) (next_handle w)
                (engine env i) (set_cancel_requested true e) in
  (existsb is_trigger (trace_of claim) = false /\
   triggered (state_of claim) = triggered w /\
   (not_claimable e = false ->
    exists d g c,
      demuxer e = Some d /\ global e = Some g /\ cancel e = Some c /\
      result claim = Some d /\
      trace_of claim =
        [EvLock; EvStopFlag i; EvUnlock; EvJoin i] ++ snd (fst soft) ++
        [EvLock; EvSteal d g; EvSteal d c; EvUnlock] /\
      forallb is_callback (snd (fst soft)) = true /\
      thread (fst (fst soft)) = T_exited /\
      mp_cancel_test (triggered (state_of claim)) (Some c) = false)) /\
  (result stop = 0 /\
   trace_of stop =
     [EvLock; EvStopFlag i] ++ trigger_events (cancel e) ++
     [EvUnlock; EvJoin i] ++ snd (fst hard) ++
     [EvLock; EvStopFlag i] ++ trigger_events (cancel (fst (fst hard))) ++
     free_events (fst (fst hard)) ++ [EvUnlock] /\
   forallb is_callback (snd (fst hard)) = true /\
   thread (fst (fst hard)) = T_exited /\
   triggered (state_of stop) =
     triggered_after (cancel (fst (fst hard)))
       (triggered_after (cancel e) (triggered w)) /\
   (forall c, cancel e = Some c -> In c (triggered (state_of stop)))) /\
  (before_join (EvStopFlag i :: trigger_events (cancel e)) i
     (trace_of clear) /\
   (forall c, cancel e = Some c -> In c (triggered (state_of clear)))) /\
  (forall u' opts,
     u' <> EmptyString ->
     find_index (has_url u') 0 (entries w) = None ->
     find_index (fun e => negb (non_null (url e))) 0 (entries w) = None ->
     oldest_loop 0 (entries w) None 0 = Some i ->
     let evict := mpv_preload_start env (Some u') opts w in
     trace_of evict =
       [EvLock; EvStopFlag i] ++ trigger_events (cancel e) ++
       [EvJoin i] ++ snd (fst hard) ++ free_events (fst (fst hard)) ++
       (if thread_create_ok env then [EvSpawn i] else []) ++ [EvUnlock] /\
     triggered (state_of evict) = triggered_after (cancel e) (triggered w)).
Proof.
  intros Hr He Hu. pose proof (reachable_inv w Hr) as Hinv. cbn zeta.
  assert (Hue : url e <> None) by congruence.
  pose proof (reachable_occupied_initialized w i e Hinv He Hue) as Hi.
  pose proof (find_entry_unique u _ i e (inv_unique w Hinv) He Hu) as Hf.
  destruct (entry_inv_occupied e (world_inv_lookup _ _ _ Hinv He) Hue)
    as (Hrun & Ht).
  pose proof (reachable_res_inv w i e Hr He) as Hri.
  assert (Hstarted : thread (set_cancel_requested true e) <> T_none).
  { unfold thread_inv in Ht. cbn [thread set_cancel_requested].
    destruct (thread e); [contradiction|discriminate..]. }
  pose proof (thread_run_events join_fuel (g_preload_callback w)
                (triggered_after (cancel e) (triggered w)) (next_handle w)
                (engine env i) (set_cancel_requested true e)) as Hcb.
  pose proof (join_exits (g_preload_callback w)
                (triggered_after (cancel e) (triggered w)) (next_handle w)
                (engine env i) (set_cancel_requested true e) eq_refl Hstarted)
    as Hex.
  split; [|split; [|split]].
  - destruct (get_demuxer_no_trigger env (Some u) w Hinv) as (H1 & H2).
    split; [exact H1|]. split; [exact H2|].
    intros Hn. rewrite H2.
    assert (Hd : demuxer e <> None).
    { unfold not_claimable in Hn. destruct (demuxer e); [discriminate|].
      rewrite orb_true_r in Hn. discriminate Hn. }
    destruct (res_inv_demuxer e Ht Hri Hd) as (Hg & Hc).
    pose proof (joined_demuxer env w i e Ht Hd) as Jd.
    destruct (joined_owned env w i e Ht Hri) as (_ & _ & Jg & Jc).
    cbn zeta in Jg, Jc. specialize (Jg Hg). specialize (Jc Hc).
    pose proof (joined_events env w i e) as Jev.
    pose proof (joined_exits env w i e Ht) as Jex.
    destruct (reachable_live w Hr) as (Hl & _).
    destruct (Hl i e He Hue) as (_ & Htok & _).
    rewrite (get_demuxer_taken env u w i e Hi Hf He Hn Hrun).
    rewrite result_eq, trace_of_eq. revert Jd Jg Jc Jev Jex.
    generalize (joined env w i e). intros [[ej tj] nj]. cbn [fst snd].
    intros Jd Jg Jc Jev Jex.
    destruct (demuxer e) as [d|] eqn:Ed; [|congruence].
    destruct (global e) as [g|] eqn:Eg; [|congruence].
    destruct (cancel e) as [c|] eqn:Ec; [|congruence].
    exists d, g, c.
    assert (Hst : steal_events ej = [EvSteal d g; EvSteal d c]).
    { unfold steal_events. rewrite Jd, Jg, Jc. reflexivity. }
    rewrite Hst. repeat split; try assumption.
  - rewrite (cancel_found env u w i e Hi Hf He Hue Hrun).
    rewrite result_eq, trace_of_eq, state_of_eq. cbn [triggered].
    revert Hcb Hex.
    generalize (thread_run join_fuel (g_preload_callback w)
                  (triggered_after (cancel e) (triggered w)) (next_handle w)
                  (engine env i) (set_cancel_requested true e)).
    intros [[ej tj] nj]. cbn [fst snd]. intros Hcb Hex.
    split; [reflexivity|]. split.
    { rewrite <- ?app_assoc. reflexivity. }
    split; [exact Hcb|]. split; [exact Hex|]. split; [reflexivity|].
    intros c Hc. rewrite Hc. apply triggered_after_keeps.
    apply triggered_after_adds.
  - split.
    + exact (clear_all_hard_cancel env w i e Hinv He Hue).
    + intros c Hc. exact (clear_all_triggers env w i e c Hinv He Hue Hc).
  - intros u' opts Hne Hf' Hfull Hold.
    pose proof (lookup_lt_Some _ _ _ He) as Hlt.
    pose proof (find_free_slot_evict env (initialized_world w) i) as Hev.
    rewrite (initialized_world_id w Hi) in Hev.
    specialize (Hev Hfull Hold).
    rewrite (cleanup_entry_occupied env i w e He Hue) in Hev.
    rewrite state_of_eq, trace_of_eq, Hrun in Hev.
    clear Hcb Hex. revert Hev.
    generalize (thread_run join_fuel (g_preload_callback w)
                  (triggered_after (cancel e) (triggered w)) (next_handle w)
                  (engine env i) (set_cancel_requested true e)).
    intros [[ej tj] nj]. cbn [fst snd]. intros Hev.
    assert (Hz : entries
                   {| entries := <[i := zero_entry]> (entries w);
                      initialized := initialized w;
                      g_preload_callback := g_preload_callback w;
                      triggered := triggered_after (cancel e) (triggered w);
                      next_handle := nj |} !! i = Some zero_entry).
    { cbn [entries]. apply list_lookup_insert_eq, Hlt. }
    match type of Hev with
    | _ = (_, ?w2, ?t) =>
        pose proof (start_new env opts w u' i w2 t zero_entry
                      (String_eqb_nonempty u' Hne) Hf') as Hst
    end.
    rewrite (initialized_world_id w Hi) in Hst.
    specialize (Hst Hev Hz). rewrite Hst.
    rewrite trace_of_eq, state_of_eq. split; [|reflexivity].
    cbn [app]. rewrite <- !app_assoc. cbn [app]. rewrite <- !app_assoc.
    reflexivity.
Qed.

Lemma C2_soft_stop_vs_hard_cancel_witness :
  existsb is_trigger
    (trace_of (mpv_preload_get_demuxer (sample_env 9 true)
                 (Some "a"%string) w_ready)) = false /\
  (exists d, result (mpv_preload_get_demuxer (sample_env 9 true)
                       (Some "a"%string) w_ready) = Some d) /\
  result (mpv_preload_cancel (sample_env 9 true) (Some "a"%string) w_ready)
  = 0 /\
  In 1%nat
    (triggered (state_of (mpv_preload_cancel (sample_env 9 true)
                            (Some "a"%string) w_ready))).
Proof.
  assert (He : entries w_ready !! 0%nat
               = Some (default zero_entry (entries w_ready !! 0%nat)))
    by (vm_compute; reflexivity).
  assert (Hu : url (default zero_entry (entries w_ready !! 0%nat))
               = Some "a"%string) by (vm_compute; reflexivity).
  assert (Hn : not_claimable (default zero_entry (entries w_ready !! 0%nat))
               = false) by (vm_compute; reflexivity).
  assert (Hc : cancel (default zero_entry (entries w_ready !! 0%nat))
               = Some 1%nat) by (vm_compute; reflexivity).
  pose proof (C2_soft_stop_vs_hard_cancel (sample_env 9 true) _ _ _ _
                reachable_ready He Hu) as P.
  cbv zeta in P.
  destruct P as ((P1 & _ & P3) & (P4 & _ & _ & _ & _ & P9) & _).
  split; [exact P1|]. split.
  - destruct (P3 Hn) as (d & g & c & _ & _ & _ & Hres & _).
    exists d. exact Hres.
  - split; [exact P4|exact (P9 1%nat Hc)].
Defined.

(** An eviction that triggers nothing: the table is full of preloads that
    were just started, so the victim has no token yet. Its worker creates
    the context, the token and the demuxer while it is being joined; they
    are released without the token ever being triggered. *)
Lemma C2_eviction_without_trigger :
  find_index (fun e => negb (non_null (url e))) 0 (entries w_full) = None /\
  oldest_loop 0 (entries w_full) None 0 = Some 0%nat /\
  trace_of (mpv_preload_start (sample_env 5 true) (Some "e"%string) None
              w_full)
  = [EvLock; EvStopFlag 0; EvJoin 0; EvFreeDemuxer 2%nat; EvFree 1%nat;
     EvFree 0%nat; EvSpawn 0; EvUnlock] /\
  existsb is_trigger
    (trace_of (mpv_preload_start (sample_env 5 true) (Some "e"%string) None
                 w_full)) = false /\
  triggered (state_of (mpv_preload_start (sample_env 5 true)
                         (Some "e"%string) None w_full)) = [].
Proof. vm_compute. repeat split. Qed.
